(* ===== verification/_CoqProject ===== *)
-Q . S2P
Prelude.v
Binary64.v
Rounding.v
Pointer.v
Palette.v
Picker.v
Matcher.v
Ranker.v
Sorting.v
Generation.v
Html.v
Editor.v
Loader.v
Session.v
Browser.v
