(* ===== verification/Prelude.v ===== *)
(** * Recopix: a verification development for src/script.js

    ** The program

    Recopix turns the 48 x 48 picture on an editor canvas into a mosaic of
    coloured pieces taken from a finite inventory.  All of it is one script,
    src/script.js, whose parts are:

    - the configuration: [TARGET_SIZE], the inventory [COLOURS_DATA] (15 named
      colours, each with an RGB value and a count) and the tables
      [ORIGINAL_COUNTS] and [RGB_VALUES] derived from it;
    - the start of the script: the look-up of the elements of the page, the
      sizes of the two canvases, the three variables [currentEditorColor],
      [isDrawing] and [finalColorNameMap], the placeholder drawn on the editor
      canvas;
    - [hexToRgb]: the text of the colour picker as three numbers;
    - [loadImage] and [drawPixel]: what puts a picture on the editor canvas;
      [loadImage] is asynchronous: the read of the file and the decoding of
      the picture end later, each with a handler of its own;
    - [getPixelData]: reads the RGBA bytes of the editor canvas, scores every
      pixel with [0.299 r + 0.587 g + 0.114 b] and sorts the pixel indices by
      descending score;
    - [rgbDistance] and [mapToColours]: visits the pixels in that order and
      gives each the nearest colour that is still in stock, taking one piece;
      a pixel visited after the stock ran out stays black and is named
      "Out of Stock";
    - [runGeneration] and [generateSummary]: expand the result into the RGBA
      buffer of the mosaic canvas, keep the name map for the hover handler,
      compute the usage summary and render it as HTML;
    - the listeners: file input, colour picker, the four mouse events of the
      editor canvas, the generate button, and the hover lookup on the mosaic
      canvas.

    ** The files

    - [Prelude] (this file): the [outcome] of a call (a value or a thrown
      [TypeError]) with its monad instances, [number] (an integer or [NaN])
      with the range test [inside] of the pointer handlers, the tactic
      [by_compute], sums and counting lemmas on arrays, lemmas on sorted lists.
    - [Binary64]: JavaScript numbers.  The operations the program applies to
      numbers ([+], [-], [*], [/] for the decimal literals and for the scale
      of the pointer, [Math.pow(x, 2)],
      [Math.sqrt], [<], [Infinity]) are those of Stdlib's [SpecFloat] at
      precision 53 and maximal exponent 1024, computed on integers without
      axioms.  Its lemmas show that sums, differences and squares of integers
      below 2^53 are exact, that the rounded square root is strictly monotone
      on integers below 2^48, and that the sign of a rounded difference of
      two non-negative doubles is the sign of the exact difference
      ([b64_sub_sign], with the order [below] on [nonneg] doubles); its
      theorems, that [Math.sqrt] is correctly rounded and what the three
      literals of the score denote.
    - [Rounding]: the error of one rounding.  The result of rounding a
      positive number is one of the two doubles around it, so it is [near]
      the exact value: off by at most one part in 2^52.  Sums of non-negative
      doubles and products by integers are near the exact sums and products,
      and the quotient of two integers below 2^53, multiplied by the divisor,
      is within one part in 2^51 of the dividend.
    - [Pointer]: from a mouse event to a cell.  [mouseEvent] is what the two
      pointer listeners read ([e.clientX], [e.clientY] and the rectangle of
      [getBoundingClientRect]); [cell] is the pair [(x, y)] they compute with
      a division, a subtraction, a multiplication and [Math.floor]
      ([Math_floor]), all on doubles.
    - [Palette]: [COLOURS_DATA] as the list of its entries in declaration order
      (the order in which [Object.entries] and [for ... in] enumerate them),
      the derived tables as functions of the palette, property reads
      ([table_get]), and [palette_ok], the well-formedness of an inventory.
      [palette_object] says when a list of entries is what an object literal
      denotes, entry by entry: names that are not integer-like
      ([integerKey]) and counts below 2^53.  The file also holds the data of
      the worked example of the specification.
    - [Picker]: [hexToRgb], with [parseInt] (leading white space, sign, the
      prefix [0x], the longest prefix of digits, [NaN] when there is none) and
      string indexing ([charAt]); [hexOfRgb] is the text [#rrggbb] that a
      colour input reports.
    - [Matcher]: [rgbDistance] and [mapToColours].  The three mutable locals of
      [mapToColours] are the record [matchState]; [findClosest] is the inner
      loop, [assignPixel] one iteration of the outer loop, [assignAll] the outer
      loop, [mosaic_of] the flattening and reshaping at the end.  The functions
      return an [outcome], because reading [pixels[idx]] outside the array
      makes [rgbDistance] throw.  The file then gives the reference scan on
      exact integers ([nearest], [first_nearest]), the outer loop as a step
      relation ([step], [run]) with its invariants, and the contract
      [mosaic_spec] that the callers of [mapToColours] rely on.
    - [Ranker]: [getPixelData].  [readPixels] is the pixel loop, [importance]
      the score in double precision, [compareFn] the comparator and [sortWith]
      the sort: [Array.prototype.sort] is stable and, for a consistent
      comparator, its result is determined, so it is modelled by a stable
      insertion sort that is shown to be the only stable sorted arrangement.
      [order_spec] is the contract of the ranker.
    - [Sorting]: the contract of [Array.prototype.sort] as the class
      [ArraySort], with two instances, the insertion sort [sortWith] and a
      merge sort [mergeSort], and [getPixelDataWith], which is [getPixelData]
      on an engine whose sort is a parameter.  The two sorts are not code of
      the script: they stand for what an engine may run.
    - [Generation]: [runGeneration], the accumulators of [generateSummary]
      ([summary]) and the hover lookup ([hover]); [generation] is what a
      generation leaves behind.  Its theorems are proved from the contracts
      [order_spec] and [mosaic_spec].
    - [Html]: the string that [generateSummary] assigns to the summary
      element ([summaryHtml]): the two template literals, character by
      character ([headerHtml], [itemHtml]), with numbers in decimal
      ([numberText]).
    - [Editor]: the state of the page as the record [page] (the three
      variables, the bytes and the fill style of the editor canvas, and for
      each element what the script reads or writes of it), the assignments to
      it, [drawPixel] with [fillRect] on the bytes ([fillPixel]), and the
      text and style classes of the file name display ([label], [showFile],
      [showNoFile]).  The page also keeps the loads under way ([pending]): a
      [FileReader] that is reading a file, or an [Image] that is decoding
      what was read.
    - [Loader]: [loadImage] and the two handlers it installs.  [loadImage]
      disables the button and adds a load; [readerLoaded] is [reader.onload],
      which turns the read into a decoding; [imageLoaded] is [img.onload],
      which ends the load, draws the resampled [picture] over the editor
      canvas ([drawImage]) and enables the button; [loadFailed] is a load that
      fails, for which the script has no handler.  The handlers name their
      load by its position in [pending], so loads can overlap and end in any
      order.
    - [Session]: [setup] (the script up to the registration of the listeners,
      on a [document] that says which elements exist: a sequence of
      statements, three of which throw when their element is missing), one
      function per
      listener ([fileChanged], [colourInput], [generateClicked],
      [mosaicMouseMove]; the mouse listeners of the editor call [drawPixel]),
      [handle], which dispatches an [event] to its listener or to the handler
      of a load, and [handleAll], a session.  A listener returns the page it
      leaves and the exception it threw, if any.
    - [Browser]: the pages that a session can reach, as the inductive set
      [reachable] (the page after [setup], and the page a listener leaves on
      a reachable page), with [steady], what all of them have, and
      [missing], the condition under which a listener throws.

    ** What the theorems show

    - Matcher: the inner loop returns the first nearest in-stock colour, and
      rounding does not change any comparison of distances
      ([findClosest_correct], [rgbDistance_lt]); the loop and the step relation
      define the same function ([assignAll_complete] with [assignAll_run]);
      pieces are conserved, in total and per colour, stocks stay between zero
      and the original, the first [total_stock] pixels of the order are served
      and the others are not, and the image holds the colours of the names
      ([mapToColours_conservation], [mapToColours_usage], [mapToColours_stock],
      [mapToColours_exhaustion], [mapToColours_sufficient],
      [mapToColours_image]); an index outside the image throws while stock
      remains ([mapToColours_throws]); the loop that cuts the name map into
      rows ends after one iteration per row ([chunks_terminates]).
    - Ranker: the processing order is a permutation of the pixel indices for
      every input ([getPixelData_indices]); for 8-bit bytes it is descending
      in score with ties in index order, and it is the only such arrangement
      ([getPixelData_descending], [getPixelData_unique]), so every sort that
      meets the contract [ArraySort] gives the same processing order, the
      merge sort among them ([getPixelData_engine], [mergeSort_sortWith],
      in [Sorting]); the scores differ
      from the exact luma by less than half a thousandth, so the order is
      descending in exact luma as well ([getPixelData_by_luma]), and only
      pixels of equal exact luma can be ordered by rounding, which does
      happen ([luma_tie_broken_by_rounding]).
    - Generation: [runGeneration] returns what a run of the step relation
      along a descending order of exact luma ends in
      ([runGeneration_refines]); the summary counts the coloured cells;
      every used colour has a row, the rows are in palette order and show
      the cell counts, and the total is the sum of the used column
      ([runGeneration_rows_used]; that the rows are exactly the used colours,
      which the comment above the test does not say, is
      [runGeneration_rows]); the cells left "Out of Stock" are as
      many as the inventory is short and never have a higher luma than a
      served cell, the RGBA buffer and the hover text agree with the name map,
      and with the shipped palette every one of the 2304 cells gets a colour
      ([runGeneration_conservation],
      [runGeneration_exhaustion], [runGeneration_image],
      [runGeneration_hover], [runGeneration_shipped]); the worked example of
      the specification evaluates to the expected result
      ([scenario_two_by_two]).
    - Picker: [hexToRgb] reads back the text of a colour
      ([hexToRgb_roundtrip], [hexToRgb_short]); its components are [NaN] or
      within [0, 255] ([hexToRgb_channels], [hexToRgb_invalid]).
    - Pointer: on a canvas shown at a power-of-two zoom, with the pointer and
      the canvas at integer positions, no operation rounds: the cell is the
      exact quotient, and it is a cell of the grid exactly when the pointer
      is inside the canvas ([cell_zoom]); at any other integer size the
      scale and the product are rounded, and for a pointer at an integer
      position inside the canvas the result is a cell of the grid, the exact
      one or the one before it ([cell_integer]): the first pixel of a cell
      can go to its neighbour ([cell_boundary_rounds_down]); at a position
      that is not an integer a pointer left of the right edge can be scaled
      to the column after the last ([cell_edge_rounds_up]), which the range
      test of the listeners rejects.
    - Html: the string shown determines the total and the rows, for names
      without [<] ([summaryHtml_inj]).
    - Editor: a stroke inside the canvas changes exactly one pixel
      ([drawPixel_paints]).
    - Loader: [img.onload] replaces the pixels of the canvas where the
      picture is opaque, keeps them where it is transparent, and enables the
      button ([imageLoaded_draws]).
    - Session: the script starts exactly when the two canvases and the
      resolution display exist ([setup_throws]); on a page that also has the
      button and the summary no listener ever throws and the page stays well
      formed, whatever the palette is ([session_safe]; [runGeneration]
      returns on every palette, [runGeneration_returns]), while without them a click or a chosen file
      throws ([generate_without_summary], [load_without_button]); the colour
      picked is the colour painted ([pick_and_draw]); pointer moves without a
      press draw nothing ([pointer_idle]); the name map changes only by a
      generation and the hover line shows it ([edits_keep_names],
      [generate_then_hover]); after a file was chosen nothing is generated
      until its picture has loaded ([generate_waits_for_image]); the file
      name display shows the chosen file, and after any session what the last
      choice gives it, up to the order of its style classes
      ([file_name_shown], [file_name_last], with the equivalence [same_label]
      and its [Proper] instances in [Editor]); an invalid
      colour text paints with the previous style
      ([invalid_colour_keeps_style]); on a canvas that is shown with no width
      or height the pointer draws nothing and the hover line is cleared
      ([pointer_on_hidden_canvas]).
    - Browser: by induction on [reachable], every page of every session, on
      any document and with any palette, has a well-formed opaque canvas and a button where a load
      is under way, so the handlers of a load never throw
      ([reachable_steady]); a listener throws exactly when the element it
      uses without a test is [missing], and then changes nothing
      ([listener_throws]); the loads under way can always be brought to their
      end, which enables the button ([loads_finish]); a press inside a canvas
      shown at any integer size paints one pixel, the exact one or its
      neighbour ([stroke_paints]); a second click on the button gives the
      page of the first ([generate_twice]); on a complete page, unless a
      load fails, the button is disabled only while a load is under way
      ([button_follows_loads]); a stroke made while an opaque picture loads
      is lost ([strokes_lost_on_load]).  Loads are not serialised: the first
      picture to arrive enables the button while a later choice is still
      loading ([generate_before_last_load]), a picture that is decoded late
      is drawn over the picture of a later choice ([load_race]), and a
      transparent picture leaves the canvas as it was
      ([transparent_picture_keeps_canvas]).

    Each theorem with hypotheses is applied to concrete data in a lemma named
    after it ([..._witness]): the worked example (a 2 x 2 image, one red and one
    blue piece), a blank 48 x 48 canvas, and the page of a document that has
    every element.

    ** Bounds, fuel and assumptions

    - Channels are integers in [0, 255] ([is_u8]); the canvas delivers such
      bytes.  Squared distances are then at most 3 * 255^2 = 195075, far below
      the bounds 2^48 and 2^53 of the exactness lemmas of [Binary64]; scores
      are non-negative doubles below 256, on which the comparator is
      consistent and each rounding moves a value by less than 2^-44.
    - Counts are integers, kept in [Z]; they stay between zero and the
      original counts.  The arithmetic of the program on them is exact when
      the original counts are below 2^53, which [palette_object] says and
      which holds for the shipped palette, whose largest count is 698
      ([COLOURS_DATA_object]); the theorems on stocks read a larger count as
      the integer it is written as.
    - A palette is the list of the entries in the order the program
      enumerates them.  For names that are not integer-like this is the order
      of the object literal; an integer-like name would be enumerated first,
      and the list that stands for such a literal has it first.
    - [Math.pow(x, 2)] is taken to return the correctly rounded square.
    - [chunks] takes as fuel the length of the array it cuts: one row is
      produced per iteration and every row holds at least one element, so any
      fuel of at least the number of rows gives the same result
      ([chunks_terminates]).
    - Text is ASCII; [parseInt] skips the ASCII white space only.
    - [cell_zoom] asks for positions below 2^52 in magnitude and a zoom of at
      most 2^40, which keeps every intermediate value an integer multiple of
      a power of two with a 53-bit significand; screens are far smaller.
      [cell_integer] asks for a shown size below 2^20 pixels and a grid of
      fewer than 2^12 cells: the two roundings then move the quotient by less
      than 2^-18, and the distance of a quotient [a * d / w] to the next
      integer is at least [1 / w].
    - The numbers shown in the summary are integers or [NaN]; they are
      written in decimal (stdpp's [pretty]), as template literals write
      integers below 10^21.
    - A canvas that exists has a 2D context; the editor canvas has no
      transform, and fills are opaque, so [fillRect(x, y, 1, 1)] sets the four
      bytes of one pixel.  A fill style that is not a colour is ignored.
    - A disabled button receives no click; a listener runs to its end before
      the next event.
    - [mergeSortFuel] takes as fuel the length of the array: each call
      halves the array, so a fuel of one less than the length is enough
      ([mergeSortFuel_sorted]).
    - A picture on the temporary canvas has [TARGET_SIZE] x [TARGET_SIZE]
      pixels, each opaque or transparent; [drawImage] composes it over the
      canvas with the default operation (source-over).  The events of a load
      that is not under way do not occur: their handlers change nothing.

    ** Not modelled

    What the browser does: reading and decoding the file and resampling the
    picture on the temporary canvas in [loadImage] (the resampled picture
    arrives with the event [ImageLoaded]; the blending of partly transparent
    pixels, whose rounding the canvas leaves to the browser, is left out),
    the layout that gives a canvas its rectangle (the rectangle arrives with
    the mouse event), and the parsing of the HTML that is assigned to the
    summary element (the element holds the string).  The specification names
    a validation of the palette and of the size of the input; the script has
    none, and the conditions are hypotheses of the theorems. *)

From Stdlib Require Import ZArith Lia List.
From stdpp Require Import base tactics option list sorting.

(** ** Notations and automation

    The operators of JavaScript numbers are written in the scope
    [b64_scope]; [Binary64] gives them their meaning.  The database
    [recopix] collects the rewriting rules for the lengths of arrays and the
    lemmas that keep the invariants of the components; each file adds its
    own. *)
Declare Scope b64_scope.
Delimit Scope b64_scope with b64.

Create HintDb recopix discriminated.
#[export] Hint Rewrite @length_insert @length_fmap @length_replicate @length_seq
  @length_app : recopix.

(** Normalises the lengths of arrays and leaves the arithmetic to [lia]. *)
Ltac lengths := autorewrite with recopix; try lia.

(** ** Outcomes of JavaScript calls

    A call either returns a value or throws.  The only exception the modelled
    code can raise is the [TypeError] of indexing [undefined]. *)

Inductive jsError : Set := TypeError.

Inductive outcome (A : Type) : Type :=
| Returns (a : A)
| Throws (e : jsError).
Arguments Returns {A} a.
Arguments Throws {A} e.

#[export] Instance outcome_ret : MRet outcome := fun A a => Returns a.
#[export] Instance outcome_bind : MBind outcome := fun A B f c =>
  match c with
  | Returns a => f a
  | Throws e => Throws e
  end.

(** ** Numbers

    A number that the program reads from the page: an integer, or [None] for
    a value that is not a finite number ([NaN], an infinity). *)
Definition number : Type := option Z.

(** [v >= 0 && v < size]: false for a number that is not finite. *)
Definition inside (v : number) (size : nat) : bool :=
  match v with
  | Some z => (0 <=? z)%Z && (z <? Z.of_nat size)%Z
  | None => false
  end.

(** Closed decidable facts are settled by evaluation. *)
Ltac by_compute := apply (bool_decide_unpack _); by vm_compute.

(** The sum of a list of integers. *)
Definition Zsum (l : list Z) : Z := foldr Z.add 0%Z l.

Definition returned {A} (c : outcome A) : Prop :=
  match c with Returns _ => True | Throws _ => False end.

Lemma outcome_bind_returns {A B} (f : A -> outcome B) (c : outcome A) (b : B) :
  c ≫= f = Returns b <-> exists a, c = Returns a /\ f a = Returns b.
Proof.
  destruct c as [a|e]; simpl; split.
  - intros H. exists a. auto.
  - intros (a' & Ha & Hf). congruence.
  - discriminate.
  - intros (a' & Ha & _). discriminate.
Qed.

Lemma inside_Some (z : Z) (size : nat) :
  (0 <= z < Z.of_nat size)%Z -> inside (Some z) size = true.
Proof. intros Hz. unfold inside. apply andb_true_intro. split; [apply Z.leb_le|apply Z.ltb_lt]; lia. Qed.

Lemma inside_true (v : number) (size : nat) :
  inside v size = true -> exists z, v = Some z /\ (0 <= z < Z.of_nat size)%Z.
Proof.
  destruct v as [z|]; [|discriminate]. intros [H1%Z.leb_le H2%Z.ltb_lt]%andb_prop. eauto.
Qed.

(** ** Sums *)

Lemma Zsum_app (l1 l2 : list Z) : Zsum (l1 ++ l2) = (Zsum l1 + Zsum l2)%Z.
Proof. unfold Zsum. induction l1 as [|x l1 IH]; simpl; lia. Qed.

Lemma Zsum_nonneg (l : list Z) : Forall (fun x => 0 <= x)%Z l -> (0 <= Zsum l)%Z.
Proof. unfold Zsum. induction 1; simpl; lia. Qed.

Lemma Zsum_zero (l : list Z) :
  Forall (fun x => 0 <= x)%Z l -> Zsum l = 0%Z <-> Forall (fun x => x = 0%Z) l.
Proof.
  intros Hl. induction Hl as [|x l Hx Hl IH]; [by split|].
  pose proof (Zsum_nonneg l Hl). rewrite Forall_cons, <- IH. unfold Zsum in *. simpl. lia.
Qed.

(** ** Counting the elements of an array that satisfy a test *)

Lemma filter_insert_length {A} (P : A -> Prop) `{!forall x, Decision (P x)}
    (l : list A) (i : nat) (x y : A) :
  l !! i = Some y -> ~ P y -> P x ->
  length (filter P (<[i := x]> l)) = S (length (filter P l)).
Proof.
  revert i. induction l as [|z l IH]; intros [|i] Hy HPy HPx; simplify_eq/=.
  - rewrite filter_cons_True, filter_cons_False by done. done.
  - rewrite !filter_cons. destruct (decide (P z)); simpl; rewrite (IH i); auto.
Qed.

Lemma filter_insert_length_same {A} (P : A -> Prop) `{!forall x, Decision (P x)}
    (l : list A) (i : nat) (x y : A) :
  l !! i = Some y -> ~ P y -> ~ P x -> length (filter P (<[i:=x]> l)) = length (filter P l).
Proof.
  revert i. induction l as [|z l IH]; intros [|i] Hi Hy Hx; simplify_eq/=.
  - by rewrite !filter_cons_False.
  - rewrite !filter_cons. case_decide; simpl; rewrite (IH i); auto.
Qed.

(** A rearrangement of [0 .. n-1] names every index below [n] exactly once. *)
Lemma Permutation_seq_wf (l : list nat) (n : nat) :
  l ≡ₚ seq 0 n -> NoDup l /\ Forall (fun i => i < n) l /\ length l = n.
Proof.
  intros Hperm. rewrite Hperm, length_seq. split_and!; [apply NoDup_seq | | done].
  apply Forall_forall. intros i Hi%elem_of_seq. lia.
Qed.

(** A sorted list stays sorted for a relation that is weaker on its
    elements. *)
Lemma StronglySorted_impl_elem {A} (R1 R2 : relation A) (l : list A) :
  (forall x y, x ∈ l -> y ∈ l -> R1 x y -> R2 x y) ->
  StronglySorted R1 l -> StronglySorted R2 l.
Proof.
  intros Himpl Hsorted. induction Hsorted as [|x l Hsorted IH Hx]; constructor.
  - apply IH. intros y z Hy Hz. apply Himpl; by right.
  - rewrite Forall_forall in Hx |- *. intros y Hy. apply Himpl; [left | by right | by apply Hx].
Qed.

(** In a sorted list an element is related to every later one. *)
Lemma StronglySorted_lookup {A} (R : relation A) (l : list A) (i j : nat) (x y : A) :
  StronglySorted R l -> l !! i = Some x -> l !! j = Some y -> i < j -> R x y.
Proof.
  intros Hsorted. revert i j. induction Hsorted as [|z l Hsorted IH Hz]; intros i j Hi Hj Hlt.
  - by rewrite lookup_nil in Hi.
  - destruct j as [|j]; [lia|]. destruct i as [|i]; simplify_eq/=.
    + rewrite Forall_forall in Hz. by eapply Hz, list_elem_of_lookup_2.
    + apply (IH i j); [done..|lia].
Qed.
