(* ===== verification/Binary64.v ===== *)
(** * Binary64: the IEEE 754 double-precision numbers of JavaScript

    Every JavaScript number is a binary64 value.  The program computes with
    them at three places: the importance score [0.299*r + 0.587*g + 0.114*b]
    (getPixelData), the comparator [importanceScores[b] - importanceScores[a]]
    of the sort, and the Euclidean distance
    [Math.sqrt(Math.pow(..,2) + Math.pow(..,2) + Math.pow(..,2))]
    (rgbDistance) that is compared with [<] against [Infinity].

    The model is the Standard Library's executable specification of IEEE
    arithmetic ([SpecFloat], precision 53, maximal exponent 1024, round to
    nearest even), which computes inside the kernel on [Z] and [positive].

    This file defines the operations the program uses, and proves that
    they are exact on integers below [2^53]: sums, differences and products
    of integer-valued doubles are the doubles of the integer results.  For
    the scores, which are not integers, it gives the order [below] of the
    non-negative doubles ([nonneg]) and proves that sums and products of
    such doubles are non-negative and that a difference is positive exactly
    when its first operand is the larger one. *)

From Stdlib Require Import ZArith Lia SpecFloat.
From S2P Require Import Prelude.

#[local] Open Scope Z_scope.

(** ** Operations *)

Definition prec : Z := 53.
Definition emax : Z := 1024.

(** The double nearest to an integer: the value of an integer literal and
    of an element read from a [Uint8ClampedArray]. *)
Definition b64_of_Z (z : Z) : spec_float := binary_normalize prec emax z 0 false.

Definition b64_add : spec_float -> spec_float -> spec_float := SFadd prec emax.
Definition b64_sub : spec_float -> spec_float -> spec_float := SFsub prec emax.
Definition b64_mul : spec_float -> spec_float -> spec_float := SFmul prec emax.
Definition b64_div : spec_float -> spec_float -> spec_float := SFdiv prec emax.
Definition b64_sqrt : spec_float -> spec_float := SFsqrt prec emax.

(** [x < y] of JavaScript: false as soon as one side is NaN. *)
Definition b64_lt : spec_float -> spec_float -> bool := SFltb.

(** [Infinity]. *)
Definition b64_infinity : spec_float := S754_infinity false.

Infix "+" := b64_add : b64_scope.
Infix "-" := b64_sub : b64_scope.
Infix "*" := b64_mul : b64_scope.
Infix "/" := b64_div : b64_scope.
Infix "<" := b64_lt : b64_scope.

(** The value of a decimal literal [n/10^k] written with at most 15
    significant digits: numerator and denominator are exact doubles, and
    IEEE division rounds their exact quotient to the nearest double, which is
    how the literal is read. *)
Definition b64_of_decimal (num den : Z) : spec_float :=
  (b64_of_Z num / b64_of_Z den)%b64.

(** [Math.pow(x, 2)], computed as the correctly rounded square. *)
Definition b64_pow2 (x : spec_float) : spec_float := (x * x)%b64.

(** A finite double with a 53-bit significand. *)
Definition normal53 (m : positive) (e : Z) : Prop :=
  2 ^ 52 <= Z.pos m < 2 ^ 53 /\ -1074 <= e <= 971.

(** The normal double whose value is the positive integer [z < 2^53]. *)
Definition mant_of (z : Z) : positive := Z.to_pos (z * 2 ^ (52 - Z.log2 z)).
Definition exp_of (z : Z) : Z := Z.log2 z - 52.

(** The value of a finite double at the scale [2^c]: an integer as soon as
    [- c] is at most its exponent. *)
Definition scaled (c : Z) (f : spec_float) : Z :=
  match f with
  | S754_finite s m e => cond_Zopp s (Z.pos m) * 2 ^ (e + c)
  | _ => 0
  end.

(** The square root of the positive integer [n < 2^48] as a double: its
    exponent, the integer whose integer square root yields the 53 bits of the
    significand, and the significand after rounding to nearest. *)
Definition sqrt_exp (n : Z) : Z := Z.log2 n / 2 - 52.
Definition sqrt_arg (n : Z) : Z := n * 4 ^ (- sqrt_exp n).
Definition sqrt_mant (n : Z) : Z :=
  let (q, r) := Z.sqrtrem (sqrt_arg n) in if r <=? q then q else q + 1.

(** ** The order of non-negative doubles *)

(** Doubles that arithmetic on non-negative numbers produces: [+0], a
    positive finite double or [+Infinity]. *)
Inductive nonneg : spec_float -> Prop :=
| nonneg_zero : nonneg (S754_zero false)
| nonneg_finite m e : -1074 <= e -> nonneg (S754_finite false m e)
| nonneg_infinity : nonneg (S754_infinity false).

(** The value of a non-negative finite double, in units of [2^-1074]. *)
Definition b64_units (x : spec_float) : Z :=
  match x with
  | S754_finite false m e => Z.pos m * 2 ^ (e + 1074)
  | _ => 0
  end.

(** The order of non-negative doubles. *)
Definition below (x y : spec_float) : bool :=
  match x, y with
  | S754_infinity _, _ => false
  | _, S754_infinity _ => true
  | _, _ => b64_units x <? b64_units y
  end.

(** The result of rounding a non-zero number of sign [s]. *)
Inductive signed (s : bool) : spec_float -> Prop :=
| signed_finite m e : -1074 <= e -> signed s (S754_finite s m e)
| signed_infinity : signed s (S754_infinity s).

(** ** Digits, shifts and iteration *)

Lemma digits2_pos_size (p : positive) : digits2_pos p = Pos.size p.
Proof. induction p; simpl; congruence. Qed.

Lemma digits2_log2 (p : positive) : Z.pos (digits2_pos p) = Z.log2 (Z.pos p) + 1.
Proof.
  rewrite digits2_pos_size.
  destruct p as [p|p|]; simpl; try reflexivity; rewrite Pos2Z.inj_succ; lia.
Qed.

Lemma digits2_normal (m : positive) :
  2 ^ 52 <= Z.pos m < 2 ^ 53 -> Z.pos (digits2_pos m) = 53.
Proof.
  intros H. rewrite digits2_log2.
  rewrite (Z.log2_unique (Z.pos m) 52); [reflexivity | lia | exact H].
Qed.

Lemma iter_pos_nat {A} (f : A -> A) (p : positive) (x : A) :
  iter_pos f p x = Nat.iter (Pos.to_nat p) f x.
Proof.
  revert x. induction p as [p IH|p IH|]; intros x; cbn [iter_pos].
  - rewrite !IH, <- Nat.iter_succ_r, <- Nat.iter_add. f_equal; lia.
  - rewrite !IH, <- Nat.iter_add. f_equal; lia.
  - reflexivity.
Qed.

Lemma pos_iter_nat {A} (f : A -> A) (p : positive) (x : A) :
  Pos.iter f x p = Nat.iter (Pos.to_nat p) f x.
Proof.
  rewrite Pos2Nat.inj_iter. reflexivity.
Qed.

Lemma iter_xO_pow2 (n : nat) (p : positive) :
  Z.pos (Nat.iter n xO p) = Z.pos p * 2 ^ Z.of_nat n.
Proof.
  induction n as [|n IH].
  - simpl. lia.
  - rewrite Nat.iter_succ, Pos2Z.inj_xO, IH, Nat2Z.inj_succ, Z.pow_succ_r; lia.
Qed.

Lemma shr_1_iter_exact (n : nat) (p : positive) :
  Nat.iter n shr_1 (Build_shr_record (Z.pos (Nat.iter n xO p)) false false)
  = Build_shr_record (Z.pos p) false false.
Proof.
  induction n as [|n IH]; [reflexivity|].
  rewrite Nat.iter_succ_r. rewrite Nat.iter_succ. simpl. exact IH.
Qed.

(** ** Rounding a value that is exactly representable *)

Lemma shr_exact (m M : positive) (e E : Z) :
  e <= E -> Z.pos m = Z.pos M * 2 ^ (E - e) ->
  shr (Build_shr_record (Z.pos m) false false) e (E - e)
  = (Build_shr_record (Z.pos M) false false, E).
Proof.
  intros He Hm. unfold shr.
  destruct (E - e) as [|n|n] eqn:Hn; try lia.
  - f_equal; [|lia]. f_equal. rewrite Z.pow_0_r in Hm. lia.
  - rewrite iter_pos_nat. f_equal; [|lia].
    assert (m = Nat.iter (Pos.to_nat n) xO M) as ->.
    { apply Pos2Z.inj. rewrite iter_xO_pow2, positive_nat_Z. exact Hm. }
    apply shr_1_iter_exact.
Qed.

Lemma fexp_normal (m : positive) (e : Z) :
  normal53 m e -> fexp prec emax (Z.pos (digits2_pos m) + e) = e.
Proof.
  intros [Hm He]. rewrite (digits2_normal m Hm).
  unfold fexp, emin, prec, emax. lia.
Qed.

Lemma shr_fexp_normal (M : positive) (E : Z) :
  normal53 M E ->
  shr_fexp prec emax (Z.pos M) E loc_Exact = (Build_shr_record (Z.pos M) false false, E).
Proof.
  intros HN. unfold shr_fexp. cbn [Zdigits2 shr_record_of_loc].
  rewrite (fexp_normal M E HN), Z.sub_diag. reflexivity.
Qed.

Lemma binary_round_aux_exact (s : bool) (m M : positive) (e E : Z) :
  normal53 M E -> e <= E -> Z.pos m = Z.pos M * 2 ^ (E - e) ->
  binary_round_aux prec emax s (Z.pos m) e loc_Exact = S754_finite s M E.
Proof.
  intros HN He Hm.
  assert (Hd : fexp prec emax (Zdigits2 (Z.pos m) + e) = E).
  { etransitivity; [|apply (fexp_normal M E HN)]. f_equal. cbn [Zdigits2].
    rewrite !digits2_log2, Hm, Z.log2_mul_pow2 by lia. lia. }
  unfold binary_round_aux, shr_fexp at 1.
  rewrite Hd. cbn [shr_record_of_loc]. rewrite (shr_exact m M e E He Hm).
  cbn [shr_m loc_of_shr_record round_nearest_even].
  rewrite (shr_fexp_normal M E HN). cbn [shr_m].
  destruct HN as [_ HE]. unfold emax, prec.
  destruct (Z.leb_spec E (1024 - 53)); [reflexivity | lia].
Qed.

Lemma shl_align_le (m : positive) (e e' : Z) :
  e <= e' -> shl_align m e e' = (m, e).
Proof. intros H. unfold shl_align. destruct (e' - e) eqn:Hd; try reflexivity; lia. Qed.

Lemma shl_align_gt (m : positive) (e e' : Z) :
  e' < e -> exists m', shl_align m e e' = (m', e') /\ Z.pos m' = Z.pos m * 2 ^ (e - e').
Proof.
  intros H. unfold shl_align. destruct (e' - e) as [|n|n] eqn:Hd; try lia.
  eexists; split; [reflexivity|].
  rewrite pos_iter_nat, iter_xO_pow2, positive_nat_Z. f_equal. f_equal. lia.
Qed.

Lemma binary_round_exact (s : bool) (m M : positive) (e E : Z) :
  normal53 M E ->
  (e <= E -> Z.pos m = Z.pos M * 2 ^ (E - e)) ->
  (E <= e -> Z.pos M = Z.pos m * 2 ^ (e - E)) ->
  binary_round prec emax s m e = S754_finite s M E.
Proof.
  intros HN Hle Hge. unfold binary_round.
  assert (Hd : fexp prec emax (Z.pos (digits2_pos m) + e) = E).
  { etransitivity; [|apply (fexp_normal M E HN)]. f_equal. rewrite !digits2_log2.
    destruct (Z.le_ge_cases e E) as [H|H].
    - rewrite (Hle H), Z.log2_mul_pow2 by lia. lia.
    - rewrite (Hge H), Z.log2_mul_pow2 by lia. lia. }
  rewrite Hd. destruct (Z.le_gt_cases e E) as [H|H].
  - rewrite (shl_align_le m e E H). apply binary_round_aux_exact; auto.
  - destruct (shl_align_gt m e E H) as (m' & -> & Hm').
    apply binary_round_aux_exact; [exact HN | lia |].
    rewrite Z.sub_diag, Hm', Hge by lia. lia.
Qed.

Lemma pow2_cancel (a b k : Z) : 0 <= k -> a * 2 ^ k = b * 2 ^ k -> a = b.
Proof. intros Hk H. apply Z.mul_cancel_r in H; [exact H|]. apply Z.pow_nonzero; lia. Qed.

Lemma mant_of_value (z : Z) :
  0 < z < 2 ^ 53 -> Z.pos (mant_of z) = z * 2 ^ (52 - Z.log2 z).
Proof.
  intros Hz. unfold mant_of. rewrite Z2Pos.id; [reflexivity|].
  apply Z.mul_pos_pos; [lia|]. apply Z.pow_pos_nonneg; [lia|].
  assert (Z.log2 z < 53) by (apply Z.log2_lt_pow2; lia). lia.
Qed.

Lemma exp_of_range (z : Z) : 0 < z < 2 ^ 53 -> -52 <= exp_of z <= 0.
Proof.
  intros Hz. unfold exp_of.
  assert (Z.log2 z < 53) by (apply Z.log2_lt_pow2; lia).
  pose proof (Z.log2_nonneg z). lia.
Qed.

Lemma normal53_of (z : Z) : 0 < z < 2 ^ 53 -> normal53 (mant_of z) (exp_of z).
Proof.
  intros Hz. pose proof (exp_of_range z Hz) as He. split; [|lia].
  rewrite (mant_of_value z Hz). unfold exp_of in He.
  pose proof (Z.log2_spec z ltac:(lia)) as [Hlo Hhi].
  replace (2 ^ 52) with (2 ^ Z.log2 z * 2 ^ (52 - Z.log2 z))
    by (rewrite <- Z.pow_add_r by lia; f_equal; lia).
  replace (2 ^ 53) with (2 ^ Z.succ (Z.log2 z) * 2 ^ (52 - Z.log2 z))
    by (rewrite <- Z.pow_add_r by lia; f_equal; lia).
  assert (0 < 2 ^ (52 - Z.log2 z)) by (apply Z.pow_pos_nonneg; lia).
  split; [apply Z.mul_le_mono_nonneg_r | apply Z.mul_lt_mono_pos_r]; lia.
Qed.

(** A positive mantissa and an exponent whose value is the integer [z]:
    [m * 2^e = z], stated at the scale [2^c] so that every power is an
    integer. *)
Lemma binary_round_int (s : bool) (m : positive) (e z c : Z) :
  0 < z < 2 ^ 53 -> 0 <= c -> - c <= e ->
  Z.pos m * 2 ^ (e + c) = z * 2 ^ c ->
  binary_round prec emax s m e = S754_finite s (mant_of z) (exp_of z).
Proof.
  intros Hz Hc He Hm. pose proof (exp_of_range z Hz) as HE.
  pose proof (mant_of_value z Hz) as HM. fold (exp_of z) in HE.
  replace (52 - Z.log2 z) with (- exp_of z) in HM by (unfold exp_of; lia).
  apply binary_round_exact; [apply normal53_of, Hz | intros H | intros H].
  - apply (pow2_cancel _ _ (e + c)); [lia|]. rewrite Hm, HM.
    rewrite <- !Z.mul_assoc. rewrite <- Z.pow_add_r by lia. rewrite <- Z.pow_add_r by lia. do 2 f_equal. lia.
  - apply (pow2_cancel _ _ c); [lia|]. rewrite HM.
    rewrite <- Z.mul_assoc, (Z.mul_comm (2 ^ _) (2 ^ c)), Z.mul_assoc, <- Hm.
    rewrite <- !Z.mul_assoc, <- !Z.pow_add_r by lia. do 2 f_equal. lia.
Qed.

Lemma binary_round_aux_int (s : bool) (m : positive) (e z c : Z) :
  0 < z < 2 ^ 53 -> 0 <= c -> - c <= e -> e <= exp_of z ->
  Z.pos m * 2 ^ (e + c) = z * 2 ^ c ->
  binary_round_aux prec emax s (Z.pos m) e loc_Exact = S754_finite s (mant_of z) (exp_of z).
Proof.
  intros Hz Hc He HeE Hm. pose proof (exp_of_range z Hz) as HE.
  pose proof (mant_of_value z Hz) as HM.
  replace (52 - Z.log2 z) with (- exp_of z) in HM by (unfold exp_of; lia).
  apply binary_round_aux_exact; [apply normal53_of, Hz | exact HeE |].
  apply (pow2_cancel _ _ (e + c)); [lia|]. rewrite Hm, HM.
  rewrite <- !Z.mul_assoc, <- !Z.pow_add_r by lia. do 2 f_equal. lia.
Qed.

Lemma b64_of_Z_pos (z : Z) :
  0 < z < 2 ^ 53 -> b64_of_Z z = S754_finite false (mant_of z) (exp_of z).
Proof.
  intros Hz. unfold b64_of_Z, binary_normalize. destruct z as [|p|p]; try lia.
  apply (binary_round_int false p 0 (Z.pos p) 0); lia.
Qed.

Lemma b64_of_Z_neg (z : Z) :
  0 < z < 2 ^ 53 -> b64_of_Z (- z) = S754_finite true (mant_of z) (exp_of z).
Proof.
  intros Hz. unfold b64_of_Z, binary_normalize. destruct z as [|p|p]; try lia.
  apply (binary_round_int true p 0 (Z.pos p) 0); lia.
Qed.

(** [binary_normalize] depends on the value [zm * 2^e] only: when that value
    is an integer [z] below [2^53] in magnitude, the result is the double of [z]. *)
Lemma binary_normalize_int (zm e z c : Z) :
  - 2 ^ 53 < z < 2 ^ 53 -> 0 <= c -> - c <= e ->
  zm * 2 ^ (e + c) = z * 2 ^ c ->
  binary_normalize prec emax zm e false = b64_of_Z z.
Proof.
  intros Hz Hc He Hm.
  assert (H2c : 0 < 2 ^ c) by (apply Z.pow_pos_nonneg; lia).
  assert (H2e : 0 < 2 ^ (e + c)) by (apply Z.pow_pos_nonneg; lia).
  destruct zm as [|m|m]; cbn [binary_normalize].
  - assert (z = 0) as -> by nia. reflexivity.
  - assert (0 < z) by nia. rewrite (b64_of_Z_pos z) by lia.
    apply (binary_round_int false m e z c); auto; lia.
  - assert (z < 0) by nia. replace z with (- - z) by lia.
    rewrite (b64_of_Z_neg (- z)) by lia.
    apply (binary_round_int true m e (- z) c); lia.
Qed.

Lemma shl_align_fst (m : positive) (e e' : Z) :
  e' <= e -> Z.pos (fst (shl_align m e e')) = Z.pos m * 2 ^ (e - e').
Proof.
  intros H. destruct (Z.eq_dec e e') as [->|Hne].
  - rewrite shl_align_le, Z.sub_diag by lia. simpl. lia.
  - destruct (shl_align_gt m e e') as (m' & -> & Hm'); [lia | exact Hm'].
Qed.

Lemma scaled_normal_of (s : bool) (z c : Z) :
  0 < z < 2 ^ 53 -> 52 <= c ->
  scaled c (S754_finite s (mant_of z) (exp_of z)) = cond_Zopp s z * 2 ^ c.
Proof.
  intros Hz Hc. pose proof (exp_of_range z Hz) as HE.
  unfold scaled. rewrite (mant_of_value z Hz).
  replace (52 - Z.log2 z) with (- exp_of z) by (unfold exp_of; lia).
  replace (2 ^ c) with (2 ^ (- exp_of z) * 2 ^ (exp_of z + c))
    by (rewrite <- Z.pow_add_r by lia; f_equal; lia).
  destruct s; cbn [cond_Zopp]; ring.
Qed.

Lemma b64_of_Z_cases (z : Z) :
  - 2 ^ 53 < z < 2 ^ 53 ->
  (z = 0 /\ b64_of_Z z = S754_zero false) \/
  (exists s a, 0 < a < 2 ^ 53 /\ z = cond_Zopp s a /\
               b64_of_Z z = S754_finite s (mant_of a) (exp_of a)).
Proof.
  intros Hz. destruct (Z.lt_trichotomy z 0) as [H|[->|H]].
  - right. exists true, (- z). cbn [cond_Zopp]. rewrite <- b64_of_Z_neg by lia.
    rewrite Z.opp_involutive. repeat split; lia.
  - left. split; reflexivity.
  - right. exists false, z. cbn [cond_Zopp]. rewrite <- b64_of_Z_pos by lia.
    repeat split; lia.
Qed.

Lemma SFadd_finite (sx sy : bool) (mx my : positive) (ex ey : Z) :
  SFadd prec emax (S754_finite sx mx ex) (S754_finite sy my ey)
  = binary_normalize prec emax
      (cond_Zopp sx (Z.pos mx * 2 ^ (ex - Z.min ex ey)) +
       cond_Zopp sy (Z.pos my * 2 ^ (ey - Z.min ex ey))) (Z.min ex ey) false.
Proof.
  cbn [SFadd]. rewrite !shl_align_fst by lia. reflexivity.
Qed.

Lemma SFsub_finite (sx sy : bool) (mx my : positive) (ex ey : Z) :
  SFsub prec emax (S754_finite sx mx ex) (S754_finite sy my ey)
  = binary_normalize prec emax
      (cond_Zopp sx (Z.pos mx * 2 ^ (ex - Z.min ex ey)) -
       cond_Zopp sy (Z.pos my * 2 ^ (ey - Z.min ex ey))) (Z.min ex ey) false.
Proof.
  cbn [SFsub]. rewrite !shl_align_fst by lia. reflexivity.
Qed.

Lemma cond_Zopp_mul (s : bool) (a b : Z) : cond_Zopp s a * b = cond_Zopp s (a * b).
Proof. destruct s; cbn [cond_Zopp]; ring. Qed.

Lemma aligned_scaled (s : bool) (m : positive) (e e' c : Z) :
  e' <= e -> 0 <= e' + c ->
  cond_Zopp s (Z.pos m * 2 ^ (e - e')) * 2 ^ (e' + c) = scaled c (S754_finite s m e).
Proof.
  intros H1 H2. unfold scaled. rewrite <- !cond_Zopp_mul, <- Z.mul_assoc.
  rewrite <- Z.pow_add_r by lia. do 2 f_equal. lia.
Qed.


Lemma binary_normalize_aligned (op : Z -> Z -> Z) (sx sy : bool) (a b : Z) :
  (forall u v w, op u v * w = op (u * w) (v * w)) ->
  0 < a < 2 ^ 53 -> 0 < b < 2 ^ 53 ->
  - 2 ^ 53 < op (cond_Zopp sx a) (cond_Zopp sy b) < 2 ^ 53 ->
  let ez := Z.min (exp_of a) (exp_of b) in
  binary_normalize prec emax
    (op (cond_Zopp sx (Z.pos (mant_of a) * 2 ^ (exp_of a - ez)))
        (cond_Zopp sy (Z.pos (mant_of b) * 2 ^ (exp_of b - ez)))) ez false
  = b64_of_Z (op (cond_Zopp sx a) (cond_Zopp sy b)).
Proof.
  intros Hop Ha Hb Hab ez.
  pose proof (exp_of_range a Ha). pose proof (exp_of_range b Hb).
  apply (binary_normalize_int _ ez _ 52); [exact Hab | lia | lia |].
  rewrite !Hop, !aligned_scaled, !scaled_normal_of by lia. reflexivity.
Qed.

Lemma b64_add_int (x y : Z) :
  - 2 ^ 53 < x < 2 ^ 53 -> - 2 ^ 53 < y < 2 ^ 53 -> - 2 ^ 53 < x + y < 2 ^ 53 ->
  b64_add (b64_of_Z x) (b64_of_Z y) = b64_of_Z (x + y).
Proof.
  intros Hx Hy Hxy. unfold b64_add.
  destruct (b64_of_Z_cases x Hx) as [[-> Fx]|(sx & a & Ha & -> & Fx)];
  destruct (b64_of_Z_cases y Hy) as [[-> Fy]|(sy & b & Hb & -> & Fy)];
  rewrite ?Fx, ?Fy.
  - reflexivity.
  - rewrite Z.add_0_l, Fy. reflexivity.
  - rewrite Z.add_0_r, Fx. reflexivity.
  - rewrite SFadd_finite. apply (binary_normalize_aligned Z.add); auto. intros; ring.
Qed.

Lemma b64_sub_int (x y : Z) :
  - 2 ^ 53 < x < 2 ^ 53 -> - 2 ^ 53 < y < 2 ^ 53 -> - 2 ^ 53 < x - y < 2 ^ 53 ->
  b64_sub (b64_of_Z x) (b64_of_Z y) = b64_of_Z (x - y).
Proof.
  intros Hx Hy Hxy. unfold b64_sub.
  destruct (b64_of_Z_cases x Hx) as [[-> Fx]|(sx & a & Ha & -> & Fx)];
  destruct (b64_of_Z_cases y Hy) as [[-> Fy]|(sy & b & Hb & -> & Fy)];
  rewrite ?Fx, ?Fy.
  - reflexivity.
  - cbn [SFsub]. rewrite Z.sub_0_l. destruct sy; cbn [negb cond_Zopp].
    + rewrite Z.opp_involutive. symmetry. apply b64_of_Z_pos, Hb.
    + symmetry. apply b64_of_Z_neg, Hb.
  - rewrite Z.sub_0_r, Fx. reflexivity.
  - rewrite SFsub_finite. apply (binary_normalize_aligned Z.sub); auto. intros; ring.
Qed.

(** [Math.pow(x, 2)] of an integer-valued double. *)
Lemma b64_pow2_int (x : Z) :
  x * x < 2 ^ 53 -> b64_pow2 (b64_of_Z x) = b64_of_Z (x * x).
Proof.
  intros Hxx. assert (Hx : - 2 ^ 53 < x < 2 ^ 53) by nia.
  unfold b64_pow2, b64_mul.
  destruct (b64_of_Z_cases x Hx) as [[-> Fx]|(s & a & Ha & -> & Fx)]; rewrite Fx.
  - reflexivity.
  - assert (Haa : 0 < a * a < 2 ^ 53) by (destruct s; cbn [cond_Zopp] in Hxx; nia).
    replace (cond_Zopp s a * cond_Zopp s a) with (a * a) by (destruct s; cbn [cond_Zopp]; ring).
    rewrite (b64_of_Z_pos (a * a) Haa). cbn [SFmul]. rewrite Bool.xorb_nilpotent.
    pose proof (exp_of_range a Ha) as HE.
    pose proof (scaled_normal_of false a 52 Ha ltac:(lia)) as HS.
    cbn [scaled cond_Zopp] in HS.
    apply (binary_round_aux_int false _ _ (a * a) 104); try lia.
    + unfold exp_of. pose proof (Z.log2_mul_below a a). lia.
    + rewrite Pos2Z.inj_mul.
      replace (exp_of a + exp_of a + 104) with ((exp_of a + 52) + (exp_of a + 52)) by lia.
      rewrite Z.pow_add_r by lia. change 104 with (52 + 52).
      rewrite (Z.pow_add_r 2 52 52) by lia.
      transitivity ((Z.pos (mant_of a) * 2 ^ (exp_of a + 52)) * (Z.pos (mant_of a) * 2 ^ (exp_of a + 52))); [ring|].
      rewrite HS. ring.
Qed.

(** ** Square roots of integers *)

Lemma fexp_unfold (x : Z) : fexp prec emax x = Z.max (x - 53) (-1074).
Proof. reflexivity. Qed.


Lemma binary_round_aux_inexact (s : bool) (q : positive) (e : Z) (l : location) :
  normal53 q e -> l <> loc_Inexact Eq ->
  Z.pos q + 1 < 2 ^ 53 ->
  exists q', binary_round_aux prec emax s (Z.pos q) e l = S754_finite s q' e /\
             Z.pos q' = round_nearest_even (Z.pos q) l /\ normal53 q' e.
Proof.
  intros HN Hl Hq.
  assert (Hr : exists q', Z.pos q' = round_nearest_even (Z.pos q) l /\ normal53 q' e).
  { destruct HN as [Hm He].
    destruct l as [|[]]; try congruence; cbn [round_nearest_even].
    - exists q. repeat split; lia.
    - exists q. repeat split; lia.
    - exists (q + 1)%positive. rewrite Pos2Z.inj_add. repeat split; lia. }
  destruct Hr as (q' & Hq' & HN'). exists q'. split; [|split; assumption].
  unfold binary_round_aux, shr_fexp at 1. cbn [Zdigits2].
  rewrite (fexp_normal q e HN), Z.sub_diag. cbn [shr].
  replace (loc_of_shr_record (shr_record_of_loc (Z.pos q) l)) with l
    by (destruct l as [|[]]; reflexivity).
  replace (shr_m (shr_record_of_loc (Z.pos q) l)) with (Z.pos q)
    by (destruct l as [|[]]; reflexivity).
  rewrite <- Hq', (shr_fexp_normal q' e HN'). cbn [shr_m].
  destruct HN' as [_ HE]. unfold emax, prec.
  destruct (Z.leb_spec e (1024 - 53)); [reflexivity | lia].
Qed.


Lemma SFsqrt_core_int (n : Z) :
  0 < n < 2 ^ 53 ->
  SFsqrt_core_binary prec emax (Z.pos (mant_of n)) (exp_of n)
  = (let (q, r) := Z.sqrtrem (sqrt_arg n) in
     (q, sqrt_exp n, if r =? 0 then loc_Exact else loc_Inexact (if r <=? q then Lt else Gt))).
Proof.
  intros Hn. pose proof (normal53_of n Hn) as [HM HE].
  pose proof (exp_of_range n Hn) as HE'.
  unfold SFsqrt_core_binary. cbn [Zdigits2]. rewrite (digits2_normal _ HM).
  rewrite !Z.div2_div.
  assert (He' : Z.min (fexp prec emax ((53 + exp_of n + 1) / 2)) (exp_of n / 2) = sqrt_exp n).
  { rewrite fexp_unfold. unfold sqrt_exp, exp_of in *. clear HM Hn. Z.div_mod_to_equations. lia. }
  rewrite He'.
  assert (Hs : exp_of n - 2 * sqrt_exp n = 52 \/ exp_of n - 2 * sqrt_exp n = 53).
  { unfold sqrt_exp, exp_of in *. clear HM Hn. Z.div_mod_to_equations. lia. }
  assert (Hm : Z.pos (mant_of n) * 2 ^ (exp_of n - 2 * sqrt_exp n) = sqrt_arg n).
  { unfold sqrt_arg. rewrite mant_of_value by exact Hn.
    assert (0 <= - sqrt_exp n) by lia.
    replace 4 with (2 ^ 2) by reflexivity. rewrite <- Z.pow_mul_r by lia.
    rewrite <- Z.mul_assoc, <- Z.pow_add_r by (unfold exp_of in *; lia).
    do 2 f_equal. unfold exp_of in *. lia. }
  destruct Hs as [Hs|Hs]; rewrite Hs in *; cbv beta iota; rewrite Z.shiftl_mul_pow2, Hm by lia; reflexivity.
Qed.


Lemma sqrt_exp_range (n : Z) : 0 < n < 2 ^ 48 -> -52 <= sqrt_exp n <= -29.
Proof.
  intros Hn. unfold sqrt_exp.
  assert (Z.log2 n < 48) by (apply Z.log2_lt_pow2; lia).
  pose proof (Z.log2_nonneg n). Z.div_mod_to_equations. lia.
Qed.

Lemma pow4_pow2 (k : Z) : 0 <= k -> 4 ^ k = 2 ^ (2 * k).
Proof. intros Hk. rewrite Z.pow_mul_r by lia. reflexivity. Qed.

Lemma sqrt_arg_bounds (n : Z) :
  0 < n < 2 ^ 48 ->
  2 ^ 104 <= sqrt_arg n /\ sqrt_arg n + 4 ^ (- sqrt_exp n) <= 2 ^ 106.
Proof.
  intros Hn. pose proof (sqrt_exp_range n Hn) as Ht.
  pose proof (Z.log2_spec n ltac:(lia)) as [Hlo Hhi].
  pose proof (Z.log2_nonneg n) as HL.
  unfold sqrt_arg. set (t := - sqrt_exp n) in *.
  assert (Hh : 0 <= 52 - t /\ 2 * (52 - t) <= Z.log2 n < 2 * (52 - t) + 2).
  { unfold t, sqrt_exp. Z.div_mod_to_equations. lia. }
  assert (H4t : 0 < 4 ^ t) by (apply Z.pow_pos_nonneg; lia).
  assert (Hl : 4 ^ (52 - t) <= n).
  { rewrite pow4_pow2 by lia. etransitivity; [|exact Hlo]. apply Z.pow_le_mono_r; lia. }
  assert (Hu : n + 1 <= 4 ^ (53 - t)).
  { rewrite pow4_pow2 by lia.
    assert (2 ^ Z.succ (Z.log2 n) <= 2 ^ (2 * (53 - t))) by (apply Z.pow_le_mono_r; lia).
    lia. }
  split.
  - replace (2 ^ 104) with (4 ^ (52 - t) * 4 ^ t)
      by (rewrite <- Z.pow_add_r by lia; replace (52 - t + t) with 52 by lia; reflexivity).
    apply Z.mul_le_mono_nonneg_r; lia.
  - replace (2 ^ 106) with (4 ^ (53 - t) * 4 ^ t)
      by (rewrite <- Z.pow_add_r by lia; replace (53 - t + t) with 53 by lia; reflexivity).
    replace (n * 4 ^ t + 4 ^ t) with ((n + 1) * 4 ^ t) by ring.
    apply Z.mul_le_mono_nonneg_r; lia.
Qed.

Lemma pow4_ge (t : Z) : 29 <= t -> 2 ^ 58 <= 4 ^ t.
Proof.
  intros Ht. change (2 ^ 58) with (4 ^ 29). apply Z.pow_le_mono_r; lia.
Qed.

(** The integer square root of the scaled argument has 53 bits, with room
    for the rounding increment. *)
Lemma sqrt_arg_sqrt (n : Z) :
  0 < n < 2 ^ 48 ->
  2 ^ 52 <= Z.sqrt (sqrt_arg n) /\ Z.sqrt (sqrt_arg n) + 1 < 2 ^ 53.
Proof.
  intros Hn. destruct (sqrt_arg_bounds n Hn) as [Hlo Hhi].
  pose proof (pow4_ge (- sqrt_exp n)) as H4. pose proof (sqrt_exp_range n Hn).
  split.
  - apply Z.sqrt_le_square; lia.
  - apply Z.lt_add_lt_sub_r. apply Z.sqrt_lt_square; lia.
Qed.

Lemma b64_sqrt_int (n : Z) :
  0 < n < 2 ^ 48 ->
  exists q, b64_sqrt (b64_of_Z n) = S754_finite false q (sqrt_exp n) /\
            Z.pos q = sqrt_mant n /\ normal53 q (sqrt_exp n).
Proof.
  intros Hn. rewrite b64_of_Z_pos by lia. unfold b64_sqrt. cbn [SFsqrt].
  rewrite SFsqrt_core_int by lia. unfold sqrt_mant.
  pose proof (sqrt_arg_sqrt n Hn) as [Hq1 Hq2].
  pose proof (sqrt_exp_range n Hn) as He.
  rewrite <- Z.sqrtrem_sqrt in Hq1, Hq2.
  pose proof (Z.sqrtrem_spec (sqrt_arg n)) as Hspec.
  destruct (Z.sqrtrem (sqrt_arg n)) as [q r]. cbn [fst] in Hq1, Hq2.
  destruct q as [|q|q]; try lia.
  destruct (binary_round_aux_inexact false q (sqrt_exp n)
              (if r =? 0 then loc_Exact else loc_Inexact (if r <=? Z.pos q then Lt else Gt)))
    as (q' & Hr & Hq' & HN'); [split; lia | | lia |].
  - destruct (r =? 0); [discriminate|]. destruct (r <=? Z.pos q); discriminate.
  - exists q'. split; [exact Hr|]. split; [|exact HN'].
    rewrite Hq'. destruct (Z.eqb_spec r 0) as [->|Hr0]; cbn [round_nearest_even].
    + reflexivity.
    + destruct (r <=? Z.pos q); reflexivity.
Qed.

Lemma SFltb_finite_pos (m1 m2 : positive) (e1 e2 : Z) :
  SFltb (S754_finite false m1 e1) (S754_finite false m2 e2)
  = ((e1 <? e2) || ((e1 =? e2) && (Z.pos m1 <? Z.pos m2)))%bool.
Proof.
  unfold SFltb, SFcompare. rewrite Z.ltb_compare, Z.eqb_compare.
  destruct (e1 ?= e2); reflexivity.
Qed.

(** Distinct integers below [2^48] have distinct, equally ordered square
    roots after rounding: same exponent bucket and a mantissa gap of two, or
    a smaller exponent. *)
Lemma sqrt_mant_lt (a b : Z) :
  0 < a -> a < b < 2 ^ 48 ->
  sqrt_exp a < sqrt_exp b \/ (sqrt_exp a = sqrt_exp b /\ sqrt_mant a < sqrt_mant b).
Proof.
  intros Ha Hb.
  assert (Hle : sqrt_exp a <= sqrt_exp b).
  { unfold sqrt_exp. pose proof (Z.log2_le_mono a b ltac:(lia)).
    Z.div_mod_to_equations. lia. }
  destruct (Z.eq_dec (sqrt_exp a) (sqrt_exp b)) as [He|He]; [right | left; lia].
  split; [exact He|].
  pose proof (sqrt_exp_range a ltac:(lia)) as Ht.
  pose proof (pow4_ge (- sqrt_exp a) ltac:(lia)) as H4.
  pose proof (sqrt_arg_sqrt a ltac:(lia)) as [_ Hqa].
  assert (Hab : sqrt_arg a + 4 ^ (- sqrt_exp a) <= sqrt_arg b).
  { unfold sqrt_arg. rewrite <- He. nia. }
  assert (Hqb : Z.sqrt (sqrt_arg a) + 2 <= Z.sqrt (sqrt_arg b)).
  { pose proof (Z.sqrt_spec (sqrt_arg a)) as Hs.
    pose proof (sqrt_arg_bounds a ltac:(lia)) as [Hlo _].
    apply Z.sqrt_le_square; [lia | pose proof (Z.sqrt_nonneg (sqrt_arg a)); lia |].
    destruct (Hs ltac:(lia)) as [Hs1 _].
    replace ((Z.sqrt (sqrt_arg a) + 2) * (Z.sqrt (sqrt_arg a) + 2))
      with (Z.sqrt (sqrt_arg a) * Z.sqrt (sqrt_arg a) + 4 * Z.sqrt (sqrt_arg a) + 4) by ring.
    lia. }
  unfold sqrt_mant. rewrite <- !Z.sqrtrem_sqrt in Hqb.
  destruct (Z.sqrtrem (sqrt_arg a)) as [qa ra], (Z.sqrtrem (sqrt_arg b)) as [qb rb].
  cbn [fst] in Hqb. cbv beta iota. destruct (ra <=? qa), (rb <=? qb); lia.
Qed.

(** On integers in [0, 2^48) the comparison [<] of the rounded square roots
    is the comparison of the integers: rounding to binary64 neither merges
    nor reorders them. *)
Lemma b64_sqrt_lt_int (a b : Z) :
  0 <= a < 2 ^ 48 -> 0 <= b < 2 ^ 48 ->
  b64_lt (b64_sqrt (b64_of_Z a)) (b64_sqrt (b64_of_Z b)) = (a <? b).
Proof.
  intros Ha Hb. unfold b64_lt.
  destruct (Z.eq_dec a 0) as [->|Ha0]; destruct (Z.eq_dec b 0) as [->|Hb0].
  - reflexivity.
  - destruct (b64_sqrt_int b ltac:(lia)) as (qb & -> & _).
    cbn. symmetry. apply Z.ltb_lt. lia.
  - destruct (b64_sqrt_int a ltac:(lia)) as (qa & -> & _).
    cbn. symmetry. apply Z.ltb_ge. lia.
  - destruct (b64_sqrt_int a ltac:(lia)) as (qa & -> & Hqa & _).
    destruct (b64_sqrt_int b ltac:(lia)) as (qb & -> & Hqb & _).
    rewrite SFltb_finite_pos, Hqa, Hqb.
    destruct (Z.lt_trichotomy a b) as [H|[->|H]].
    + destruct (sqrt_mant_lt a b) as [He|[He Hm]]; lia.
    + lia.
    + destruct (sqrt_mant_lt b a) as [He|[He Hm]]; lia.
Qed.

Lemma b64_sqrt_lt_infinity (a : Z) :
  0 <= a < 2 ^ 48 -> b64_lt (b64_sqrt (b64_of_Z a)) b64_infinity = true.
Proof.
  intros Ha. destruct (Z.eq_dec a 0) as [->|Ha0]; [reflexivity|].
  destruct (b64_sqrt_int a ltac:(lia)) as (qa & -> & _). reflexivity.
Qed.

(** [Math.sqrt] on an integer is correctly rounded.  For [0 < n < 2^48] the
    result is a positive finite double [q * 2^e] with [e < 0] whose distance
    to the exact square root is at most half a unit in the last place: [(2q -
    1)^2 <= 4 * n * 4^(-e) <= (2q + 1)^2]. *)
Theorem b64_sqrt_nearest (n : Z) :
  0 < n < 2 ^ 48 ->
  exists q e, b64_sqrt (b64_of_Z n) = S754_finite false q e /\ e < 0 /\
    (2 * Z.pos q - 1) ^ 2 <= 4 * (n * 4 ^ (- e)) <= (2 * Z.pos q + 1) ^ 2.
Proof.
  intros Hn. destruct (b64_sqrt_int n Hn) as (q & Heq & Hq & _).
  pose proof (sqrt_exp_range n Hn) as He.
  exists q, (sqrt_exp n). split; [exact Heq|]. split; [lia|].
  fold (sqrt_arg n). rewrite Hq. unfold sqrt_mant.
  pose proof (Z.sqrtrem_spec (sqrt_arg n)) as Hspec.
  pose proof (sqrt_arg_bounds n Hn) as [Hlo _].
  destruct (Z.sqrtrem (sqrt_arg n)) as [s r]. destruct (Hspec ltac:(lia)) as [-> Hr].
  assert (0 < s) by (destruct (Z.eq_dec s 0) as [->|]; lia).
  rewrite !Z.pow_2_r. destruct (Z.leb_spec r s).
  - replace ((2 * s - 1) * (2 * s - 1)) with (4 * (s * s) - 4 * s + 1) by ring.
    replace ((2 * s + 1) * (2 * s + 1)) with (4 * (s * s) + 4 * s + 1) by ring. lia.
  - replace ((2 * (s + 1) - 1) * (2 * (s + 1) - 1)) with (4 * (s * s) + 4 * s + 1) by ring.
    replace ((2 * (s + 1) + 1) * (2 * (s + 1) + 1)) with (4 * (s * s) + 12 * s + 9) by ring.
    lia.
Qed.

Lemma b64_sqrt_nearest_witness :
  exists q e, b64_sqrt (b64_of_Z 50) = S754_finite false q e /\ e < 0 /\
    (2 * Z.pos q - 1) ^ 2 <= 4 * (50 * 4 ^ (- e)) <= (2 * Z.pos q + 1) ^ 2.
Proof. apply (b64_sqrt_nearest 50). lia. Defined.

(** ** Signs of rounded results

    Rounding a non-zero number whose exponent is at least the smallest one
    never gives zero or NaN: the result keeps the sign.  Hence the sign of a
    difference of non-negative doubles is the sign of the difference of their
    values, and sums and products of non-negative doubles are non-negative. *)

Lemma shr_1_m (mrs : shr_record) : 0 <= shr_m mrs -> shr_m (shr_1 mrs) = shr_m mrs / 2.
Proof.
  destruct mrs as [m r s]. cbn [shr_m]. intros Hm.
  destruct m as [|[p|p|]|p]; cbn [shr_1 shr_m].
  - reflexivity.
  - rewrite Pos2Z.inj_xI. apply Z.div_unique with (r := 1); lia.
  - rewrite Pos2Z.inj_xO. apply Z.div_unique with (r := 0); lia.
  - reflexivity.
  - lia.
Qed.

Lemma shr_1_iter_m (n : nat) (mrs : shr_record) :
  0 <= shr_m mrs -> shr_m (Nat.iter n shr_1 mrs) = shr_m mrs / 2 ^ Z.of_nat n.
Proof.
  intros Hm. induction n as [|n IH]; [symmetry; apply Z.div_1_r|].
  assert (0 <= shr_m (Nat.iter n shr_1 mrs)) by (rewrite IH; apply Z.div_pos; lia).
  rewrite Nat.iter_succ, shr_1_m, IH, Nat2Z.inj_succ, Z.pow_succ_r by lia.
  rewrite Z.div_div by lia. f_equal. lia.
Qed.

Lemma shr_record_of_loc_m (m : Z) (l : location) : shr_m (shr_record_of_loc m l) = m.
Proof. destruct l as [|[]]; reflexivity. Qed.

(** Shifting a positive mantissa to its format exponent leaves it positive
    when the exponent is not below the smallest one. *)
Lemma shr_fexp_pos (m : positive) (e : Z) (l : location) :
  -1074 <= e ->
  0 < shr_m (fst (shr_fexp prec emax (Z.pos m) e l)) /\
  e <= snd (shr_fexp prec emax (Z.pos m) e l).
Proof.
  intros He. unfold shr_fexp, shr. cbn [Zdigits2]. rewrite fexp_unfold, digits2_log2.
  pose proof (Z.log2_nonneg (Z.pos m)) as Hlog.
  destruct (Z.max (Z.log2 (Z.pos m) + 1 + e - 53) (-1074) - e) as [|n|n] eqn:Hn;
    cbn [fst snd]; rewrite ?shr_record_of_loc_m; try (split; lia).
  split; [|lia].
  rewrite iter_pos_nat, shr_1_iter_m, shr_record_of_loc_m, positive_nat_Z
    by (rewrite shr_record_of_loc_m; lia).
  apply Z.div_str_pos. split; [apply Z.pow_pos_nonneg; lia|].
  etransitivity; [|apply (proj1 (Z.log2_spec (Z.pos m) ltac:(lia)))].
  apply Z.pow_le_mono_r; lia.
Qed.

Lemma round_nearest_even_pos (m : Z) (l : location) : 0 < m -> 0 < round_nearest_even m l.
Proof. intros Hm. destruct l as [|[]]; cbn [round_nearest_even]; try destruct (Z.even m); lia. Qed.

Lemma binary_round_aux_signed (s : bool) (m : positive) (e : Z) (l : location) :
  -1074 <= e -> signed s (binary_round_aux prec emax s (Z.pos m) e l).
Proof.
  intros He. unfold binary_round_aux.
  destruct (shr_fexp_pos m e l He) as [Hm1 He1].
  destruct (shr_fexp prec emax (Z.pos m) e l) as [mrs1 e1]. cbn [fst snd] in Hm1, He1.
  pose proof (round_nearest_even_pos _ (loc_of_shr_record mrs1) Hm1) as Hr.
  destruct (round_nearest_even (shr_m mrs1) (loc_of_shr_record mrs1)) as [|m1|m1]; try lia.
  destruct (shr_fexp_pos m1 e1 loc_Exact ltac:(lia)) as [Hm2 He2].
  destruct (shr_fexp prec emax (Z.pos m1) e1 loc_Exact) as [mrs2 e2]. cbn [fst snd] in Hm2, He2.
  destruct (shr_m mrs2) as [|m2|m2]; try lia.
  destruct (e2 <=? emax - prec); constructor. lia.
Qed.

Lemma binary_round_signed (s : bool) (m : positive) (e : Z) :
  -1074 <= e -> signed s (binary_round prec emax s m e).
Proof.
  intros He. unfold binary_round.
  destruct (Z.le_gt_cases e (fexp prec emax (Z.pos (digits2_pos m) + e))) as [Hle|Hgt].
  - rewrite shl_align_le by exact Hle. apply binary_round_aux_signed, He.
  - destruct (shl_align_gt m e _ Hgt) as (m' & -> & _).
    apply binary_round_aux_signed. rewrite fexp_unfold. lia.
Qed.

Lemma signed_false_nonneg x : signed false x -> nonneg x.
Proof. intros [m e He|]; constructor. exact He. Qed.

Lemma SFltb_zero_signed (s : bool) x :
  signed s x -> SFltb (S754_zero false) x = negb s.
Proof. intros [m e He|]; destruct s; reflexivity. Qed.

(** The units of a finite double and its mantissa aligned to a smaller
    exponent. *)
Lemma units_aligned (m : positive) (e ez : Z) :
  -1074 <= ez <= e ->
  b64_units (S754_finite false m e) = Z.pos (fst (shl_align m e ez)) * 2 ^ (ez + 1074).
Proof.
  intros He. cbn [b64_units]. rewrite shl_align_fst by lia.
  rewrite <- Z.mul_assoc, <- Z.pow_add_r by lia. do 2 f_equal. lia.
Qed.

Lemma b64_units_pos (m : positive) (e : Z) :
  -1074 <= e -> 0 < b64_units (S754_finite false m e).
Proof. intros He. cbn [b64_units]. apply Z.mul_pos_pos; [|apply Z.pow_pos_nonneg]; lia. Qed.

Lemma b64_sub_sign_finite (mx my : positive) (ex ey : Z) :
  -1074 <= ex -> -1074 <= ey ->
  b64_lt (S754_zero false) (b64_sub (S754_finite false my ey) (S754_finite false mx ex))
  = below (S754_finite false mx ex) (S754_finite false my ey).
Proof.
  intros Hx Hy. unfold b64_lt, b64_sub. cbn [SFsub cond_Zopp below].
  set (ez := Z.min ey ex).
  rewrite (units_aligned mx ex ez), (units_aligned my ey ez) by lia.
  assert (0 < 2 ^ (ez + 1074)) as Hpow by (apply Z.pow_pos_nonneg; lia).
  set (X := Z.pos (fst (shl_align mx ex ez))). set (Y := Z.pos (fst (shl_align my ey ez))).
  destruct (Y - X) as [|d|d] eqn:Hd; cbn [binary_normalize].
  - replace Y with X by lia. symmetry. apply Z.ltb_irrefl.
  - rewrite (SFltb_zero_signed false) by (apply binary_round_signed; lia).
    symmetry. apply Z.ltb_lt, Z.mul_lt_mono_pos_r; lia.
  - rewrite (SFltb_zero_signed true) by (apply binary_round_signed; lia).
    symmetry. apply Z.ltb_ge, Z.mul_le_mono_nonneg_r; lia.
Qed.

(** The sign of a difference of non-negative doubles is the sign of the
    difference of their values: no difference of distinct doubles rounds to
    zero. *)
Lemma b64_sub_sign x y :
  nonneg x -> nonneg y -> b64_lt (S754_zero false) (b64_sub y x) = below x y.
Proof.
  intros [|mx ex Hx|] [|my ey Hy|]; try reflexivity.
  - pose proof (b64_units_pos my ey Hy). symmetry. apply Z.ltb_lt. assumption.
  - pose proof (b64_units_pos mx ex Hx). symmetry. apply Z.ltb_ge. cbn [b64_units] in *. lia.
  - apply b64_sub_sign_finite; assumption.
Qed.

Lemma below_asym x y : below x y = true -> below y x = false.
Proof.
  destruct x as [| | |[] mx ex], y as [| | |[] my ey]; cbn [below]; try discriminate;
    try reflexivity; rewrite ?Z.ltb_lt, ?Z.ltb_ge; lia.
Qed.

Lemma below_negtrans x y z : below x y = false -> below y z = false -> below x z = false.
Proof.
  destruct x as [| | |[] mx ex], y as [| | |[] my ey], z as [| | |[] mz ez]; cbn [below];
    try discriminate; try reflexivity; rewrite ?Z.ltb_lt, ?Z.ltb_ge; lia.
Qed.

(** ** Non-negative results *)

Lemma b64_of_Z_nonneg (z : Z) : 0 <= z -> nonneg (b64_of_Z z).
Proof.
  intros Hz. unfold b64_of_Z. destruct z as [|p|p]; cbn [binary_normalize]; [constructor| |lia].
  apply signed_false_nonneg, binary_round_signed. lia.
Qed.

Lemma b64_add_nonneg x y : nonneg x -> nonneg y -> nonneg (b64_add x y).
Proof.
  intros [|mx ex Hx|] [|my ey Hy|]; try (constructor; assumption).
  unfold b64_add. cbn [SFadd cond_Zopp].
  destruct (Z.pos (fst (shl_align mx ex (Z.min ex ey))) + Z.pos (fst (shl_align my ey (Z.min ex ey))))
    as [|p|p] eqn:Hp; try lia.
  cbn [binary_normalize]. apply signed_false_nonneg, binary_round_signed. lia.
Qed.

(** The product of a positive finite double by a non-negative integer. *)
Lemma b64_mul_nonneg (m : positive) (e z : Z) :
  -1022 <= e -> 0 <= z < 2 ^ 53 -> nonneg (b64_mul (S754_finite false m e) (b64_of_Z z)).
Proof.
  intros He Hz. destruct (Z.eq_dec z 0) as [->|Hne]; [constructor|].
  rewrite b64_of_Z_pos by lia. pose proof (exp_of_range z ltac:(lia)).
  unfold b64_mul. cbn [SFmul xorb].
  apply signed_false_nonneg, binary_round_aux_signed. lia.
Qed.

(** ** The literals of the importance formula *)

(** The three decimal literals of the importance formula, 0.299, 0.587 and
    0.114, denote the doubles 5386305154335113 * 2^-54, 5287225962532962 *
    2^-53 and 8214565720323785 * 2^-56: the correctly rounded quotients of
    their numerators by 1000. *)
Example b64_literals :
  b64_of_decimal 299 1000 = S754_finite false 5386305154335113 (-54) /\
  b64_of_decimal 587 1000 = S754_finite false 5287225962532962 (-53) /\
  b64_of_decimal 114 1000 = S754_finite false 8214565720323785 (-56).
Proof. repeat split; vm_compute; reflexivity. Qed.
