(* ===== verification/Rounding.v ===== *)
(** * Rounding: how far a rounded result is from the exact one

    The scores of the ranker are sums of products that are rounded five
    times.  This file bounds the error of one rounding of a positive number:
    the result of [binary_round] and [binary_round_aux] is one of the two
    doubles around the exact value, so it differs from it by at most one part
    in [2^52].  Values are measured in units of [2^-1074], the smallest
    positive double, in which every non-negative double is an integer
    ([Binary64.b64_units]).  The last part does the same for the quotient of
    two integers, which is how the pointer listeners compute their scale. *)

From Stdlib Require Import ZArith Lia SpecFloat.
From S2P Require Import Prelude Binary64.

#[local] Open Scope Z_scope.

(** A bound in units below which no rounding overflows: the units of
    [2^1000]. *)
Definition b64_top : Z := 2 ^ 2074.

(** The units of [2^-56], of which the literals of the score formula are
    multiples. *)
Definition unit56 : Z := 2 ^ 1018.

(** The units of 1. *)
Definition b64_one : Z := 2 ^ 1074.

(** [+0] or a positive finite double. *)
Definition finite_nonneg (x : spec_float) : Prop :=
  x = S754_zero false \/ exists m e, x = S754_finite false m e /\ -1074 <= e <= 971.

(** [x] is a finite non-negative double whose value is within one part in
    [2^52] of [M] units. *)
Definition near (x : spec_float) (M : Z) : Prop :=
  finite_nonneg x /\
  (b64_units x - M) * 2 ^ 52 <= M /\ (M - b64_units x) * 2 ^ 52 <= M.

(** [x] is a positive finite double with an exponent of at least [e], within
    one part in [2^52] of [M] units. *)
Definition rounded (x : spec_float) (M e : Z) : Prop :=
  exists m2 e2, x = S754_finite false m2 e2 /\ e <= e2 <= 971 /\
    (b64_units x - M) * 2 ^ 52 <= M /\ (M - b64_units x) * 2 ^ 52 <= M.

(** ** One rounding *)

Lemma round_nearest_even_cases (q : Z) (l : location) :
  round_nearest_even q l = q \/ round_nearest_even q l = q + 1.
Proof. destruct l as [|[]]; cbn [round_nearest_even]; try destruct (Z.even q); auto. Qed.

Lemma Zdigits2_log2 (m : positive) : Zdigits2 (Z.pos m) = Z.log2 (Z.pos m) + 1.
Proof. cbn [Zdigits2]. apply digits2_log2. Qed.

Lemma log2_bounds (m : positive) :
  2 ^ Z.log2 (Z.pos m) <= Z.pos m < 2 ^ (Z.log2 (Z.pos m) + 1).
Proof. pose proof (Z.log2_spec (Z.pos m) ltac:(lia)) as H. rewrite <- Z.add_1_r in H. exact H. Qed.

(** The first shift of [binary_round_aux]: the mantissa is cut to 53 bits. *)
Lemma shr_fexp_cut (m : positive) (e : Z) (l : location) :
  -1074 <= e -> e <= fexp prec emax (Zdigits2 (Z.pos m) + e) ->
  let n := fexp prec emax (Zdigits2 (Z.pos m) + e) - e in
  let r := shr_fexp prec emax (Z.pos m) e l in
  snd r = e + n /\ shr_m (fst r) = Z.pos m / 2 ^ n /\
  0 < Z.pos m / 2 ^ n < 2 ^ 53 /\ (0 < n -> 2 ^ (n + 52) <= Z.pos m) /\
  (n = 0 -> loc_of_shr_record (fst r) = l).
Proof.
  intros He Hfexp n r. subst r. unfold shr_fexp, shr. fold n.
  pose proof (log2_bounds m) as [Hlo Hhi]. pose proof (Z.log2_nonneg (Z.pos m)) as Hlog.
  assert (0 <= n) as Hn by (unfold n; lia).
  assert (n = 0 \/ n = Z.log2 (Z.pos m) - 52) as Hcase.
  { unfold n in *. rewrite fexp_unfold, Zdigits2_log2 in *. lia. }
  assert (Z.log2 (Z.pos m) - 52 <= n) as Hge.
  { unfold n. rewrite fexp_unfold, Zdigits2_log2. lia. }
  assert (Z.pos m < 2 ^ (n + 53)) as Hm.
  { eapply Z.lt_le_trans; [exact Hhi|]. apply Z.pow_le_mono_r; lia. }
  assert (0 < 2 ^ n) as Hpow by (apply Z.pow_pos_nonneg; lia).
  assert (0 < n -> 2 ^ (n + 52) <= Z.pos m) as Hbig.
  { intros Hpos. destruct Hcase as [->| ->]; [lia|].
    replace (Z.log2 (Z.pos m) - 52 + 52) with (Z.log2 (Z.pos m)) by lia. exact Hlo. }
  assert (0 < Z.pos m / 2 ^ n < 2 ^ 53) as Hq.
  { split.
    - apply Z.div_str_pos. split; [exact Hpow|]. destruct (Z.eq_dec n 0) as [->|]; [simpl; lia|].
      etransitivity; [|apply Hbig; lia]. apply Z.pow_le_mono_r; lia.
    - apply Z.div_lt_upper_bound; [exact Hpow|]. rewrite <- Z.pow_add_r by lia. exact Hm. }
  destruct n as [|p|p] eqn:Hp; cbn [fst snd]; [| |lia].
  - change (2 ^ 0) with 1 in *. rewrite Z.div_1_r, shr_record_of_loc_m in *.
    repeat split; try lia. destruct l as [|[]]; reflexivity.
  - rewrite iter_pos_nat, shr_1_iter_m, positive_nat_Z by (rewrite shr_record_of_loc_m; lia).
    rewrite shr_record_of_loc_m. repeat split; try lia; apply Hq.
Qed.

(** The second shift of [binary_round_aux]: a mantissa that rounding has
    carried to [2^53] is renormalised, any smaller one is kept. *)
Lemma shr_fexp_carry (m1 : positive) (e1 : Z) :
  -1074 <= e1 -> Z.pos m1 <= 2 ^ 53 ->
  let r := shr_fexp prec emax (Z.pos m1) e1 loc_Exact in
  0 < shr_m (fst r) /\ e1 <= snd r <= e1 + 1 /\
  shr_m (fst r) * 2 ^ (snd r - e1) = Z.pos m1.
Proof.
  intros He Hm r. subst r.
  destruct (Z.eq_dec (Z.pos m1) (2 ^ 53)) as [Heq|Hne].
  - assert (m1 = 9007199254740992%positive) as -> by lia.
    unfold shr_fexp, shr. rewrite fexp_unfold.
    change (Zdigits2 (Z.pos 9007199254740992)) with 54.
    replace (Z.max (54 + e1 - 53) (-1074) - e1) with 1 by lia.
    cbn [fst snd shr_record_of_loc]. replace (e1 + 1 - e1) with 1 by lia.
    split; [reflexivity|]. split; [lia | reflexivity].
  - pose proof (log2_bounds m1) as [Hlo Hhi]. pose proof (Z.log2_nonneg (Z.pos m1)) as Hlog.
    assert (Z.log2 (Z.pos m1) < 53) as Hlt.
    { apply Z.log2_lt_pow2; lia. }
    unfold shr_fexp, shr. rewrite fexp_unfold, Zdigits2_log2.
    destruct (Z.max (Z.log2 (Z.pos m1) + 1 + e1 - 53) (-1074) - e1) as [|p|p] eqn:Hp; try lia;
      cbn [fst snd shr_record_of_loc shr_m]; rewrite Z.sub_diag; lia.
Qed.

(** A value below [b64_top] has its leading bit below [2^1000]. *)
Lemma top_log2 (m : positive) (e : Z) :
  -1074 <= e -> Z.pos m * 2 ^ (e + 1074) < b64_top -> Z.log2 (Z.pos m) + e < 1000.
Proof.
  intros He Hval. pose proof (log2_bounds m) as [Hlo _].
  pose proof (Z.log2_nonneg (Z.pos m)) as Hlog.
  assert (2 ^ (Z.log2 (Z.pos m) + (e + 1074)) < 2 ^ 2074) as Hlt.
  { rewrite Z.pow_add_r by lia. eapply Z.le_lt_trans; [|exact Hval].
    apply Z.mul_le_mono_nonneg_r; [apply Z.pow_nonneg; lia | exact Hlo]. }
  clear Hval Hlo. apply Z.pow_lt_mono_r_iff in Hlt; lia.
Qed.

Lemma unit56_pos : 0 < unit56.
Proof. apply Z.pow_pos_nonneg; lia. Qed.

Lemma unit56_top : 2 ^ 70 * unit56 < b64_top.
Proof. unfold unit56, b64_top. rewrite <- Z.pow_add_r by lia. apply Z.pow_lt_mono_r; lia. Qed.

(** The mantissa after the first shift and the rounding: it stands for the
    number at the exponent [e + n] with an error of at most one part in
    [2^52], and it has at most 54 bits. *)
Lemma round_cut (m : positive) (e : Z) (l : location) :
  -1074 <= e -> e <= fexp prec emax (Zdigits2 (Z.pos m) + e) ->
  l = loc_Exact \/ 2 ^ 52 <= Z.pos m ->
  let n := fexp prec emax (Zdigits2 (Z.pos m) + e) - e in
  let r := shr_fexp prec emax (Z.pos m) e l in
  let r1 := round_nearest_even (shr_m (fst r)) (loc_of_shr_record (fst r)) in
  snd r = e + n /\ 0 < r1 <= 2 ^ 53 /\
  (r1 * 2 ^ n - Z.pos m) * 2 ^ 52 <= Z.pos m /\ (Z.pos m - r1 * 2 ^ n) * 2 ^ 52 <= Z.pos m.
Proof.
  intros He Hfexp Hl n r r1. subst r r1.
  destruct (shr_fexp_cut m e l He Hfexp) as (He1 & Hq & Hqr & Hbig & Hexact).
  fold n in He1, Hq, Hqr, Hbig, Hexact.
  assert (0 <= n) as Hn by (unfold n; lia).
  assert (0 < 2 ^ n) as Hpow by (apply Z.pow_pos_nonneg; lia).
  pose proof (Z.mul_div_le (Z.pos m) (2 ^ n) Hpow) as Hlo.
  pose proof (Z.mul_succ_div_gt (Z.pos m) (2 ^ n) Hpow) as Hhi.
  rewrite Hq. set (q := Z.pos m / 2 ^ n) in *. set (W := 2 ^ n) in *.
  split; [exact He1|]. destruct (Z.eq_dec n 0) as [Hn0|Hn0].
  - rewrite (Hexact Hn0).
    assert (W = 1) as HW by (unfold W; rewrite Hn0; reflexivity).
    assert (q = Z.pos m) as Hqm by (unfold q; fold W; rewrite HW; apply Z.div_1_r).
    rewrite HW. destruct Hl as [->|Hm52]; [cbn [round_nearest_even]; lia|].
    destruct (round_nearest_even_cases q l) as [-> | ->]; lia.
  - assert (W * 2 ^ 52 <= Z.pos m) as HW.
    { unfold W. rewrite <- Z.pow_add_r by lia. apply Hbig. lia. }
    destruct (round_nearest_even_cases q
                (loc_of_shr_record (fst (shr_fexp prec emax (Z.pos m) e l))))
      as [-> | ->]; lia.
Qed.

(** The result of [binary_round_aux] on a positive number with an exponent
    that is not above the format's: finite, with an exponent that is not
    smaller, and within one part in [2^52] of the number its mantissa and
    exponent stand for.  When the location is not exact the mantissa is the
    integer part of a quotient and has at least 53 bits. *)
Lemma binary_round_aux_rounded (m : positive) (e : Z) (l : location) :
  -1074 <= e -> e <= fexp prec emax (Zdigits2 (Z.pos m) + e) ->
  l = loc_Exact \/ 2 ^ 52 <= Z.pos m ->
  Z.pos m * 2 ^ (e + 1074) < b64_top ->
  rounded (binary_round_aux prec emax false (Z.pos m) e l) (Z.pos m * 2 ^ (e + 1074)) e.
Proof.
  intros He Hfexp Hl Hval. unfold binary_round_aux.
  destruct (round_cut m e l He Hfexp Hl) as (He1 & Hr1 & Hup & Hdown).
  pose proof (top_log2 m e He Hval) as Hlog. pose proof (Z.log2_nonneg (Z.pos m)). clear Hval.
  set (n := fexp prec emax (Zdigits2 (Z.pos m) + e) - e) in *.
  assert (0 <= n <= 970 - e) as Hn by (unfold n; rewrite fexp_unfold, Zdigits2_log2 in *; lia).
  destruct (shr_fexp prec emax (Z.pos m) e l) as [mrs1 e1]. cbn [fst snd] in *.
  destruct (round_nearest_even (shr_m mrs1) (loc_of_shr_record mrs1)) as [|m1|m1]; try lia.
  destruct (shr_fexp_carry m1 e1 ltac:(lia) ltac:(lia)) as (Hpos2 & He2 & Hval2).
  destruct (shr_fexp prec emax (Z.pos m1) e1 loc_Exact) as [mrs2 e2]. cbn [fst snd] in *.
  destruct (shr_m mrs2) as [|m2|m2]; try lia.
  unfold emax, prec. destruct (Z.leb_spec e2 (1024 - 53)) as [_|Hgt]; [|lia].
  exists m2, e2. split; [reflexivity|]. split; [lia|].
  assert (b64_units (S754_finite false m2 e2) = Z.pos m1 * 2 ^ n * 2 ^ (e + 1074)) as ->.
  { cbn [b64_units]. rewrite <- Hval2, <- !Z.mul_assoc, <- !Z.pow_add_r by lia.
    do 2 f_equal. lia. }
  assert (0 < 2 ^ (e + 1074)) as HT by (apply Z.pow_pos_nonneg; lia).
  rewrite <- !Z.mul_sub_distr_r, !(Z.mul_shuffle0 _ (2 ^ (e + 1074))).
  split; apply Z.mul_le_mono_nonneg_r; lia.
Qed.

Lemma rounded_near (x : spec_float) (M e : Z) : -1074 <= e -> rounded x M e -> near x M.
Proof.
  intros He (m2 & e2 & -> & He2 & Hup & Hdown). split; [|split; assumption].
  right. exists m2, e2. split; [reflexivity | lia].
Qed.

Lemma binary_round_aux_near (m : positive) (e : Z) :
  -1074 <= e -> e <= fexp prec emax (Zdigits2 (Z.pos m) + e) ->
  Z.pos m * 2 ^ (e + 1074) < b64_top ->
  near (binary_round_aux prec emax false (Z.pos m) e loc_Exact) (Z.pos m * 2 ^ (e + 1074)).
Proof.
  intros He Hfexp Hval. apply (rounded_near _ _ e He).
  apply binary_round_aux_rounded; auto.
Qed.

Lemma binary_round_near (m : positive) (e : Z) :
  -1074 <= e -> Z.pos m * 2 ^ (e + 1074) < b64_top ->
  near (binary_round prec emax false m e) (Z.pos m * 2 ^ (e + 1074)).
Proof.
  intros He Hval. unfold binary_round.
  set (E := fexp prec emax (Z.pos (digits2_pos m) + e)).
  destruct (Z.le_gt_cases e E) as [Hle|Hgt].
  - rewrite shl_align_le by exact Hle. apply binary_round_aux_near; assumption.
  - destruct (shl_align_gt m e E Hgt) as (m' & -> & Hm').
    assert (-1074 <= E) as HE by (unfold E; rewrite fexp_unfold; lia).
    replace (Z.pos m * 2 ^ (e + 1074)) with (Z.pos m' * 2 ^ (E + 1074)).
    + apply binary_round_aux_near; [exact HE | |].
      * cbn [Zdigits2]. rewrite digits2_log2, Hm', Z.log2_mul_pow2 by lia.
        unfold E. rewrite digits2_log2, !fexp_unfold. lia.
      * rewrite Hm', <- Z.mul_assoc, <- Z.pow_add_r by lia.
        replace (e - E + (E + 1074)) with (e + 1074) by lia. exact Hval.
    + rewrite Hm', <- Z.mul_assoc, <- Z.pow_add_r by lia. do 2 f_equal. lia.
Qed.

(** ** Sums and products *)

Lemma near_exact (x : spec_float) : finite_nonneg x -> near x (b64_units x).
Proof.
  intros Hx. split; [exact Hx|].
  assert (0 <= b64_units x).
  { destruct Hx as [->|(m & e & -> & He)]; [simpl; lia|].
    apply Z.lt_le_incl, b64_units_pos. lia. }
  lia.
Qed.

Lemma b64_add_near (x y : spec_float) :
  finite_nonneg x -> finite_nonneg y -> b64_units x + b64_units y < b64_top ->
  near (b64_add x y) (b64_units x + b64_units y).
Proof.
  intros [->|(mx & ex & -> & Hex)] [->|(my & ey & -> & Hey)] Hval.
  - apply (near_exact (S754_zero false)). left. reflexivity.
  - apply (near_exact (S754_finite false my ey)). right. eauto.
  - replace (b64_units (S754_finite false mx ex) + b64_units (S754_zero false))
      with (b64_units (S754_finite false mx ex)) by (simpl; lia).
    apply (near_exact (S754_finite false mx ex)). right. eauto.
  - set (ez := Z.min ex ey).
    rewrite (units_aligned mx ex ez), (units_aligned my ey ez) in * by (unfold ez; lia).
    unfold b64_add. cbn [SFadd cond_Zopp]. fold ez.
    set (X := Z.pos (fst (shl_align mx ex ez))) in *.
    set (Y := Z.pos (fst (shl_align my ey ez))) in *.
    destruct (X + Y) as [|p|p] eqn:Hp; try (unfold X, Y in Hp; lia).
    cbn [binary_normalize]. rewrite <- Z.mul_add_distr_r in *. rewrite Hp in *.
    apply binary_round_near; [unfold ez; lia | exact Hval].
Qed.

(** The product of a positive double by an integer. *)
Lemma b64_mul_near (m : positive) (e z : Z) :
  -1022 <= e <= 971 -> 0 <= z < 2 ^ 53 ->
  b64_units (S754_finite false m e) * z < b64_top ->
  near (b64_mul (S754_finite false m e) (b64_of_Z z)) (b64_units (S754_finite false m e) * z).
Proof.
  intros He Hz Hval. destruct (Z.eq_dec z 0) as [->|Hne].
  { rewrite Z.mul_0_r. apply (near_exact (S754_zero false)). left. reflexivity. }
  rewrite b64_of_Z_pos by lia. pose proof (exp_of_range z ltac:(lia)) as Hexp.
  pose proof (mant_of_value z ltac:(lia)) as Hmant.
  assert (Z.log2 z < 53) as Hlog by (apply Z.log2_lt_pow2; lia).
  pose proof (Z.log2_nonneg z) as Hlog0.
  unfold b64_mul. cbn [SFmul xorb].
  assert (b64_units (S754_finite false m e) * z
          = Z.pos (m * mant_of z) * 2 ^ (e + exp_of z + 1074)) as HM.
  { cbn [b64_units]. rewrite Pos2Z.inj_mul, Hmant. unfold exp_of.
    replace (e + 1074) with ((52 - Z.log2 z) + (e + (Z.log2 z - 52) + 1074)) by lia.
    rewrite (Z.pow_add_r 2 (52 - Z.log2 z)) by lia. ring. }
  rewrite HM in *. apply binary_round_aux_near; [lia | | exact Hval].
  rewrite fexp_unfold, Zdigits2_log2, Pos2Z.inj_mul.
  assert (52 <= Z.log2 (Z.pos m * Z.pos (mant_of z))); [|lia].
  apply Z.log2_le_pow2; [lia|].
  destruct (normal53_of z ltac:(lia)) as [[Hlo _] _]. nia.
Qed.

(** ** Bounds from nearness *)

Lemma b64_units_nonneg (x : spec_float) : 0 <= b64_units x.
Proof. destruct x as [| | |[] m e]; cbn [b64_units]; lia. Qed.

#[export] Hint Resolve b64_units_nonneg unit56_pos unit56_top : recopix.

(** The absolute error of a value that is at most [B]. *)
Lemma near_bounds (x : spec_float) (M B : Z) :
  near x M -> 0 <= M <= B ->
  finite_nonneg x /\ (b64_units x - M) * 2 ^ 52 <= B /\ (M - b64_units x) * 2 ^ 52 <= B.
Proof. intros (Hf & Hup & Hdown) HM. split; [exact Hf|]. lia. Qed.

(** On finite non-negative doubles [below] compares the units. *)
Lemma below_units (x y : spec_float) :
  finite_nonneg x -> finite_nonneg y -> below x y = (b64_units x <? b64_units y).
Proof. intros [->|(mx & ex & -> & _)] [->|(my & ey & -> & _)]; reflexivity. Qed.

Lemma finite_nonneg_nonneg (x : spec_float) : finite_nonneg x -> nonneg x.
Proof. intros [->|(m & e & -> & He)]; constructor. lia. Qed.

(** ** Values below 256

    In units of [2^-56] ([unit56]) the numbers below 256 are below [2^64],
    and one rounding moves them by at most [2^12] units. *)

(** A literal times a channel. *)
Lemma b64_mul_channel (m : positive) (e c z : Z) :
  -1022 <= e <= 971 -> b64_units (S754_finite false m e) = c * unit56 ->
  0 <= c <= 2 ^ 56 -> 0 <= z <= 255 ->
  let P := b64_mul (S754_finite false m e) (b64_of_Z z) in
  finite_nonneg P /\
  (b64_units P - c * z * unit56) * 2 ^ 52 <= 2 ^ 64 * unit56 /\
  (c * z * unit56 - b64_units P) * 2 ^ 52 <= 2 ^ 64 * unit56.
Proof.
  intros He Hunits Hc Hz P. pose proof unit56_pos as HK. pose proof unit56_top as Htop.
  assert (0 <= c * z * unit56 <= 2 ^ 64 * unit56) as Hbound.
  { split; [apply Z.mul_nonneg_nonneg; nia|]. apply Z.mul_le_mono_nonneg_r; nia. }
  apply near_bounds; [|exact Hbound].
  replace (c * z * unit56) with (b64_units (S754_finite false m e) * z)
    by (rewrite Hunits; ring).
  apply b64_mul_near; [lia | lia |]. rewrite Hunits.
  replace (c * unit56 * z) with (c * z * unit56) by ring. lia.
Qed.

(** A sum of two such values. *)
Lemma b64_add_small (x y : spec_float) :
  finite_nonneg x -> finite_nonneg y -> b64_units x + b64_units y <= 2 ^ 64 * unit56 ->
  finite_nonneg (b64_add x y) /\
  (b64_units (b64_add x y) - (b64_units x + b64_units y)) * 2 ^ 52 <= 2 ^ 64 * unit56 /\
  (b64_units x + b64_units y - b64_units (b64_add x y)) * 2 ^ 52 <= 2 ^ 64 * unit56.
Proof.
  intros Hx Hy Hsum. pose proof unit56_pos. pose proof unit56_top.
  pose proof (b64_units_nonneg x). pose proof (b64_units_nonneg y).
  apply near_bounds; [apply b64_add_near; [assumption..|lia] | lia].
Qed.

(** ** Quotients of integers *)

Lemma div_eucl_spec (a b : Z) :
  0 < b -> let (q, r) := Z.div_eucl a b in a = b * q + r /\ 0 <= r < b.
Proof.
  intros Hb. pose proof (Z.div_eucl_eq a b ltac:(lia)) as Heq.
  pose proof (Z.mod_pos_bound a b Hb) as Hr. unfold Z.modulo in Hr.
  destruct (Z.div_eucl a b) as [q r]. split; assumption.
Qed.

(** The division of two doubles with 53-bit significands: the integer part
    [q] of the quotient of the significands has at least 53 bits, and the
    result is [q] at the exponent of the quotient, rounded. *)
Lemma b64_div_core (ma mb : positive) (ea eb : Z) :
  2 ^ 52 <= Z.pos ma < 2 ^ 53 -> 2 ^ 52 <= Z.pos mb < 2 ^ 53 ->
  -52 <= ea <= 0 -> -52 <= eb <= 0 ->
  exists q : positive,
    Z.pos mb * Z.pos q <= Z.pos ma * 2 ^ 53 < Z.pos mb * (Z.pos q + 1) /\
    2 ^ 52 <= Z.pos q /\
    rounded (b64_div (S754_finite false ma ea) (S754_finite false mb eb))
            (Z.pos q * 2 ^ (ea - eb - 53 + 1074)) (ea - eb - 53).
Proof.
  intros Hma Hmb Hea Heb. unfold b64_div, SFdiv, SFdiv_core_binary. cbn [Zdigits2 xorb].
  rewrite !digits2_normal, fexp_unfold by assumption.
  replace (Z.min (Z.max (53 + ea - (53 + eb) - 53) (-1074)) (ea - eb)) with (ea - eb - 53)
    by lia.
  replace (ea - eb - (ea - eb - 53)) with 53 by lia.
  change (IntDef.Z.div_eucl (IntDef.Z.shiftl (Z.pos ma) 53) (Z.pos mb))
    with (Z.div_eucl (Z.shiftl (Z.pos ma) 53) (Z.pos mb)).
  rewrite Z.shiftl_mul_pow2 by lia.
  pose proof (div_eucl_spec (Z.pos ma * 2 ^ 53) (Z.pos mb) ltac:(lia)) as Hdiv.
  destruct (Z.div_eucl (Z.pos ma * 2 ^ 53) (Z.pos mb)) as [q r]. destruct Hdiv as [Hq Hr].
  assert (2 ^ 52 <= q < 2 ^ 54) as Hq52 by nia.
  destruct q as [|q|q]; try lia. exists q. split; [lia|]. split; [lia|].
  pose proof (Z.log2_le_mono _ _ (proj1 Hq52)) as Hlog. change (Z.log2 (2 ^ 52)) with 52 in Hlog.
  apply binary_round_aux_rounded; [lia | | right; lia |].
  - rewrite fexp_unfold, Zdigits2_log2. lia.
  - apply Z.lt_le_trans with (2 ^ 54 * 2 ^ (ea - eb - 53 + 1074)).
    + apply Z.mul_lt_mono_pos_r; [apply Z.pow_pos_nonneg|]; lia.
    + unfold b64_top. rewrite <- Z.pow_add_r by lia. apply Z.pow_le_mono_r; lia.
Qed.

Lemma b64_one_pos : 0 < b64_one.
Proof. apply Z.pow_pos_nonneg; lia. Qed.

Lemma b64_one_top : 2 ^ 100 * b64_one < b64_top.
Proof. unfold b64_one, b64_top. rewrite <- Z.pow_add_r by lia. apply Z.pow_lt_mono_r; lia. Qed.

(** The quotient of two positive integers below [2^53]: a finite double
    that, multiplied by the divisor, is within one part in [2^51] of the
    dividend. *)
Lemma b64_div_int_near (a b : Z) :
  0 < a < 2 ^ 53 -> 0 < b < 2 ^ 53 ->
  exists m e, (b64_of_Z a / b64_of_Z b)%b64 = S754_finite false m e /\ -105 <= e <= 971 /\
    (Z.pos m * 2 ^ (e + 1074) * b - a * b64_one) * 2 ^ 52 <= a * b64_one /\
    (a * b64_one - Z.pos m * 2 ^ (e + 1074) * b) * 2 ^ 51 <= a * b64_one.
Proof.
  intros Ha Hb. rewrite !b64_of_Z_pos by assumption.
  pose proof (exp_of_range a Ha) as Hea. pose proof (exp_of_range b Hb) as Heb.
  destruct (normal53_of a Ha) as [Hma _]. destruct (normal53_of b Hb) as [Hmb _].
  destruct (b64_div_core (mant_of a) (mant_of b) (exp_of a) (exp_of b) Hma Hmb Hea Heb)
    as (q & Hq & Hq52 & m & e & Heq & He & Hup & Hdown).
  rewrite Heq in *. cbn [b64_units] in Hup, Hdown. exists m, e.
  split; [reflexivity|]. split; [lia|].
  pose proof (mant_of_value a Ha) as HA. pose proof (mant_of_value b Hb) as HB.
  replace (52 - Z.log2 a) with (- exp_of a) in HA by (unfold exp_of; lia).
  replace (52 - Z.log2 b) with (- exp_of b) in HB by (unfold exp_of; lia).
  set (S := Z.pos m * 2 ^ (e + 1074)) in *.
  set (u := 2 ^ (exp_of a - exp_of b - 53 + 1074)) in *.
  set (K := 2 ^ (- exp_of b)) in *.
  assert (0 < u) as Hu by (apply Z.pow_pos_nonneg; lia).
  assert (0 < K) as HK by (apply Z.pow_pos_nonneg; lia).
  assert (Z.pos (mant_of a) * 2 ^ 53 * u = a * b64_one * K) as Hid.
  { rewrite HA. unfold u, K, b64_one. rewrite <- !Z.mul_assoc, <- !Z.pow_add_r by lia.
    do 2 f_equal. lia. }
  set (A := a * b64_one) in *. set (Q := Z.pos q * u) in *.
  assert (b * Q <= A < b * Q + b * u) as [HQ1 HQ2].
  { rewrite HB in Hq. destruct Hq as [Hq1 Hq2].
    apply (Z.mul_le_mono_nonneg_r _ _ u) in Hq1; [|lia].
    apply (Z.mul_lt_mono_pos_r u) in Hq2; [|lia].
    rewrite Hid in Hq1, Hq2. unfold Q. nia. }
  assert (u * 2 ^ 52 <= Q) as HuQ by (unfold Q; nia).
  clearbody S u K A Q. nia.
Qed.
