(* ===== verification/Pointer.v ===== *)
(** * Pointer: from a mouse event to a cell (script.js, the first lines of
      function drawPixel and of the mousemove listener of the mosaic canvas)

    Both listeners scale the position of the pointer to the grid of the
    canvas: they divide the size of the grid by the size at which the browser
    shows the canvas, multiply the offset of the pointer by that scale and
    take [Math.floor].  Every step is a rounded operation on doubles.

    [mouseEvent] carries what the listener reads: the client coordinates of
    the event and the rectangle that [getBoundingClientRect] returns when the
    listener runs.  [cell] is the pair [(x, y)] the listener computes.

    The theorems: on a canvas shown at a power-of-two zoom, at integer
    positions, no step rounds and [cell] is the exact quotient
    ([cell_zoom]); at any integer size the two roundings move the quotient
    by less than one, so a pointer inside the canvas is over a cell of the
    grid, the exact one or the one before it ([cell_integer]); on a canvas
    shown with no width the scale is infinite and the coordinate is not a
    finite number ([cell_hidden]). *)

From Stdlib Require Import ZArith Lia SpecFloat.
From stdpp Require Import base tactics.
From S2P Require Import Prelude Binary64 Rounding.

#[local] Open Scope Z_scope.

(** The rectangle of [getBoundingClientRect()]. *)
Record DOMRect : Type := Rect {
  left : spec_float;
  top : spec_float;
  width : spec_float;
  height : spec_float
}.

(** A mouse event on a canvas: [e.clientX], [e.clientY], and the rectangle
    of the canvas when the listener runs. *)
Record mouseEvent : Type := Mouse {
  clientX : spec_float;
  clientY : spec_float;
  boundingClientRect : DOMRect
}.

(** [Math.floor(x)].  The result is a double that is an integer, an infinity
    or [NaN]; it is kept as the integer, and as [None] when it is not
    finite. *)
Definition Math_floor (x : spec_float) : number :=
  match x with
  | S754_zero _ => Some 0
  | S754_finite s m e =>
      Some (if 0 <=? e then cond_Zopp s (Z.pos m) * 2 ^ e
            else cond_Zopp s (Z.pos m) / 2 ^ (- e))
  | S754_infinity _ | S754_nan => None
  end.

(** The cell under the pointer on a grid of [size] by [size] cells:
    [scaleX], [scaleY], [x] and [y] of the two listeners. *)
Definition cell (size : nat) (e : mouseEvent) : number * number :=
  let rect := boundingClientRect e in
  let scaleX := (b64_of_Z (Z.of_nat size) / width rect)%b64 in
  let scaleY := (b64_of_Z (Z.of_nat size) / height rect)%b64 in
  let x := Math_floor ((clientX e - left rect) * scaleX)%b64 in
  let y := Math_floor ((clientY e - top rect) * scaleY)%b64 in
  (x, y).

(** ** Events at integer positions *)

(** A rectangle with integer position and size. *)
Definition rectAt (l t w h : Z) : DOMRect :=
  {| left := b64_of_Z l; top := b64_of_Z t; width := b64_of_Z w; height := b64_of_Z h |}.

(** An event at integer client coordinates. *)
Definition mouseAt (cx cy : Z) (rect : DOMRect) : mouseEvent :=
  {| clientX := b64_of_Z cx; clientY := b64_of_Z cy; boundingClientRect := rect |}.

(** The power of two [2^(-k)] as a double. *)
Definition b64_pow2_neg (k : Z) : spec_float := S754_finite false (2 ^ 52) (- 52 - k).

(** ** Exact steps *)

Lemma div_eucl_exact (a b : Z) : 0 < b -> Z.div_eucl (b * a) b = (a, 0).
Proof.
  intros Hb. transitivity ((b * a) / b, (b * a) mod b).
  - unfold Z.div, Z.modulo. by destruct (Z.div_eucl (b * a) b).
  - by rewrite Z.mul_comm, Z.div_mul, Z.mod_mul by lia.
Qed.

(** An integer multiplied by a power of two has the same significand. *)
Lemma mant_exp_shift (z k : Z) :
  0 < z -> 0 <= k -> z * 2 ^ k < 2 ^ 53 ->
  mant_of (z * 2 ^ k) = mant_of z /\ exp_of (z * 2 ^ k) = exp_of z + k.
Proof.
  intros Hz Hk Hlt. unfold mant_of, exp_of. rewrite Z.log2_mul_pow2 by lia.
  assert (Z.log2 (z * 2 ^ k) < 53) as Hlog by (apply Z.log2_lt_pow2; lia).
  rewrite Z.log2_mul_pow2 in Hlog by lia.
  pose proof (Z.log2_nonneg z). split; [|lia]. f_equal.
  replace (52 - Z.log2 z) with (k + (52 - (k + Z.log2 z))) by lia.
  rewrite Z.pow_add_r by lia. ring.
Qed.

(** The quotient of two doubles with the same significand is a power of
    two. *)
Lemma b64_div_same (m : positive) (e1 e2 : Z) :
  2 ^ 52 <= Z.pos m < 2 ^ 53 -> 0 <= e2 - e1 <= 1000 ->
  (S754_finite false m e1 / S754_finite false m e2)%b64 = b64_pow2_neg (e2 - e1).
Proof.
  intros Hm He. unfold b64_div, SFdiv, SFdiv_core_binary. cbn [Zdigits2 xorb].
  rewrite (digits2_normal m Hm), fexp_unfold.
  replace (Z.min (Z.max (53 + e1 - (53 + e2) - 53) (-1074)) (e1 - e2)) with (e1 - e2 - 53) by lia.
  replace (e1 - e2 - (e1 - e2 - 53)) with 53 by lia.
  change (IntDef.Z.div_eucl (IntDef.Z.shiftl (Z.pos m) 53) (Z.pos m))
    with (Z.div_eucl (Z.shiftl (Z.pos m) 53) (Z.pos m)).
  rewrite Z.shiftl_mul_pow2, div_eucl_exact by lia.
  replace (new_location (Z.pos m) 0) with loc_Exact
    by (unfold new_location; by destruct (Z.even (Z.pos m))).
  unfold b64_pow2_neg. change (2 ^ 53) with (Z.pos (2 ^ 53)).
  apply (binary_round_aux_exact false (2 ^ 53) (2 ^ 52)); [split; lia | lia |].
  replace (- 52 - (e2 - e1) - (e1 - e2 - 53)) with 1 by lia. reflexivity.
Qed.

(** The scale of a grid of [size] cells shown at [size * 2^k] pixels. *)
Lemma scale_zoom (size k : Z) :
  0 < size < 2 ^ 12 -> 0 <= k <= 40 ->
  (b64_of_Z size / b64_of_Z (size * 2 ^ k))%b64 = b64_pow2_neg k.
Proof.
  intros Hsize Hk.
  assert (size * 2 ^ k < 2 ^ 53) as Hlt.
  { apply Z.lt_le_trans with (2 ^ 12 * 2 ^ k); [apply Z.mul_lt_mono_pos_r; lia|].
    rewrite <- Z.pow_add_r by lia. apply Z.pow_le_mono_r; lia. }
  destruct (mant_exp_shift size k) as [Hmant Hexp]; [lia..|].
  rewrite !b64_of_Z_pos, Hmant, Hexp by nia.
  rewrite b64_div_same; [f_equal; lia | apply normal53_of; lia | lia].
Qed.

(** An integer times [2^(-k)]: the double with the same significand. *)
Lemma b64_mul_pow2_neg (s : bool) (a k : Z) :
  0 < a < 2 ^ 53 -> 0 <= k <= 40 ->
  (S754_finite s (mant_of a) (exp_of a) * b64_pow2_neg k)%b64
  = S754_finite s (mant_of a) (exp_of a - k).
Proof.
  intros Ha Hk. unfold b64_mul, b64_pow2_neg. cbn [SFmul]. rewrite Bool.xorb_false_r.
  destruct (normal53_of a Ha) as [Hm _]. pose proof (exp_of_range a Ha) as He.
  apply binary_round_aux_exact; [split; lia | lia |].
  replace (exp_of a - k - (exp_of a + (- 52 - k))) with 52 by lia.
  rewrite Pos2Z.inj_mul. reflexivity.
Qed.

(** [Math.floor] of an integer divided by a power of two. *)
Lemma Math_floor_shifted (s : bool) (a k : Z) :
  0 < a < 2 ^ 53 -> 0 <= k ->
  Math_floor (S754_finite s (mant_of a) (exp_of a - k)) = Some (cond_Zopp s a / 2 ^ k).
Proof.
  intros Ha Hk. pose proof (exp_of_range a Ha) as He. cbn [Math_floor]. f_equal.
  rewrite (mant_of_value a Ha). replace (52 - Z.log2 a) with (- exp_of a) by (unfold exp_of; lia).
  replace (cond_Zopp s (a * 2 ^ (- exp_of a))) with (cond_Zopp s a * 2 ^ (- exp_of a))
    by (destruct s; cbn [cond_Zopp]; ring).
  destruct (Z.leb_spec 0 (exp_of a - k)).
  - assert (exp_of a = 0) as -> by lia. assert (k = 0) as -> by lia.
    change (2 ^ (- 0)) with 1. change (2 ^ (0 - 0)) with 1. change (2 ^ 0) with 1.
    rewrite Z.div_1_r. ring.
  - replace (- (exp_of a - k)) with (k + - exp_of a) by lia.
    rewrite Z.pow_add_r, Z.div_mul_cancel_r by lia. reflexivity.
Qed.

(** One coordinate: the offset of the pointer, scaled by [2^(-k)] and
    floored. *)
Lemma coordinate_zoom (c o k : Z) :
  - 2 ^ 53 < c < 2 ^ 53 -> - 2 ^ 53 < o < 2 ^ 53 -> - 2 ^ 53 < c - o < 2 ^ 53 ->
  0 <= k <= 40 ->
  Math_floor ((b64_of_Z c - b64_of_Z o) * b64_pow2_neg k)%b64 = Some ((c - o) / 2 ^ k).
Proof.
  intros Hc Ho Hco Hk. rewrite b64_sub_int by lia.
  destruct (b64_of_Z_cases (c - o)) as [[-> ->]|(s & a & Ha & -> & ->)]; [lia | |].
  - cbn. by rewrite Z.div_0_l by lia.
  - by rewrite b64_mul_pow2_neg, Math_floor_shifted by lia.
Qed.

(** A factor that is infinite makes the product infinite or [NaN]. *)
Lemma Math_floor_infinite (x : spec_float) (s : bool) :
  Math_floor (x * S754_infinity s)%b64 = None.
Proof. by destruct x. Qed.

Lemma scale_hidden (size : Z) (s : bool) :
  0 < size < 2 ^ 53 -> (b64_of_Z size / S754_zero s)%b64 = S754_infinity s.
Proof. intros Hsize. by rewrite b64_of_Z_pos. Qed.

(** ** The cell *)

(** On a canvas shown at the zoom [2^k], at integer positions, the cell is
    the exact quotient. *)
Lemma cell_at_zoom (size : nat) (cx cy l t k : Z) :
  0 < Z.of_nat size < 2 ^ 12 -> 0 <= k <= 40 ->
  - 2 ^ 52 < cx < 2 ^ 52 -> - 2 ^ 52 < cy < 2 ^ 52 ->
  - 2 ^ 52 < l < 2 ^ 52 -> - 2 ^ 52 < t < 2 ^ 52 ->
  cell size (mouseAt cx cy (rectAt l t (Z.of_nat size * 2 ^ k) (Z.of_nat size * 2 ^ k)))
  = (Some ((cx - l) / 2 ^ k), Some ((cy - t) / 2 ^ k)).
Proof.
  intros Hsize Hk Hcx Hcy Hl Ht. unfold cell, mouseAt, rectAt.
  cbn [boundingClientRect clientX clientY left top width height].
  by rewrite scale_zoom, !coordinate_zoom by lia.
Qed.

(** The quotient is a cell of the grid exactly when the pointer is inside
    the shown canvas. *)
Lemma inside_zoom (size : nat) (c o k : Z) :
  0 <= k ->
  inside (Some ((c - o) / 2 ^ k)) size = true <-> o <= c < o + Z.of_nat size * 2 ^ k.
Proof.
  intros Hk. assert (0 < 2 ^ k) by (apply Z.pow_pos_nonneg; lia).
  unfold inside. rewrite andb_true_iff, Z.leb_le, Z.ltb_lt.
  Z.div_mod_to_equations. nia.
Qed.

(** C24: the cell under the pointer, where nothing rounds.  On a grid of
    [size] cells shown at the zoom [2^k] ([size * 2^k] pixels wide and high),
    with the pointer and the corner of the canvas at integer positions, the
    pair that the listeners compute with a division, a subtraction, a
    multiplication and [Math.floor] on doubles is the exact quotient [((cx -
    l) / 2^k, (cy - t) / 2^k)], rounded down also left of and above the
    canvas; each coordinate passes the range test of the listeners exactly
    when the pointer is inside the canvas in that direction. *)
Theorem cell_zoom (size : nat) (cx cy l t k : Z) :
  0 < Z.of_nat size < 2 ^ 12 -> 0 <= k <= 40 ->
  - 2 ^ 52 < cx < 2 ^ 52 -> - 2 ^ 52 < cy < 2 ^ 52 ->
  - 2 ^ 52 < l < 2 ^ 52 -> - 2 ^ 52 < t < 2 ^ 52 ->
  let shown := Z.of_nat size * 2 ^ k in
  let e := mouseAt cx cy (rectAt l t shown shown) in
  cell size e = (Some ((cx - l) / 2 ^ k), Some ((cy - t) / 2 ^ k)) /\
  (inside (cell size e).1 size = true <-> l <= cx < l + shown) /\
  (inside (cell size e).2 size = true <-> t <= cy < t + shown).
Proof.
  intros Hsize Hk Hcx Hcy Hl Ht shown e. unfold e, shown.
  rewrite cell_at_zoom by done. cbn [fst snd].
  split_and!; [done | apply inside_zoom; lia..].
Qed.

(** On a canvas shown with no width the scale is infinite, and the
    coordinate is an infinity or [NaN]; likewise for the height. *)
Lemma cell_hidden (size : nat) (e : mouseEvent) (s : bool) :
  0 < Z.of_nat size < 2 ^ 53 ->
  (width (boundingClientRect e) = S754_zero s -> (cell size e).1 = None) /\
  (height (boundingClientRect e) = S754_zero s -> (cell size e).2 = None).
Proof.
  intros Hsize. unfold cell. cbn [fst snd].
  split; intros ->; by rewrite scale_hidden, Math_floor_infinite.
Qed.

(** Such a pointer is over no cell. *)
Lemma cell_hidden_outside (size : nat) (e : mouseEvent) (s : bool) :
  0 < Z.of_nat size < 2 ^ 53 ->
  width (boundingClientRect e) = S754_zero s \/ height (boundingClientRect e) = S754_zero s ->
  inside (cell size e).1 size && inside (cell size e).2 size = false.
Proof.
  intros Hsize [Hw|Hh].
  - by rewrite (proj1 (cell_hidden size e s Hsize) Hw).
  - rewrite (proj2 (cell_hidden size e s Hsize) Hh). apply andb_false_r.
Qed.

(** ** Any integer size *)

Lemma b64_mul_comm (x y : spec_float) : (x * y)%b64 = (y * x)%b64.
Proof.
  unfold b64_mul.
  destruct x as [[]|[]| |[] mx ex], y as [[]|[]| |[] my ey]; cbn [SFmul xorb]; try reflexivity;
    by rewrite Pos.mul_comm, Z.add_comm.
Qed.

(** [Math.floor] of a non-negative double, from its units. *)
Lemma Math_floor_units (x : spec_float) :
  finite_nonneg x -> Math_floor x = Some (b64_units x / b64_one).
Proof.
  intros [->|(m & e & -> & He)]; [done|]. cbn [Math_floor b64_units cond_Zopp]. f_equal.
  unfold b64_one. destruct (Z.leb_spec 0 e).
  - by rewrite Z.pow_add_r, Z.mul_assoc, Z.div_mul by lia.
  - replace (2 ^ 1074) with (2 ^ (- e) * 2 ^ (e + 1074))
      by (rewrite <- Z.pow_add_r by lia; f_equal; lia).
    by rewrite Z.div_mul_cancel_r by lia.
Qed.

(** The arithmetic of the two roundings: a product [U] within one part in
    [2^52] of [S * d], for a scale [S] within one part in [2^51] of
    [a / w], is less than one above [a * d / w] and less than one below the
    integer part of it. *)
Lemma floor_scaled (U S T a d w : Z) :
  0 < T -> 0 < a < 2 ^ 12 -> 0 <= d < w -> w < 2 ^ 20 -> 0 <= U ->
  (U - S * d) * 2 ^ 52 <= S * d -> (S * d - U) * 2 ^ 52 <= S * d ->
  (S * w - a * T) * 2 ^ 52 <= a * T -> (a * T - S * w) * 2 ^ 51 <= a * T ->
  a * d / w - 1 <= U / T <= a * d / w.
Proof.
  intros HT Ha Hd Hw HU Hup Hdown Hsup Hsdown.
  pose proof (Z.div_mod (a * d) w ltac:(lia)) as Hq.
  pose proof (Z.mod_pos_bound (a * d) w ltac:(lia)) as Hr.
  set (q := a * d / w) in *. set (r := (a * d) mod w) in *.
  assert (0 <= a * d < 2 ^ 32) as Had by nia.
  assert (S * d * w = S * w * d) as HSdw by ring.
  set (Sd := S * d) in *. set (Sw := S * w) in *. set (aT := a * T) in *.
  assert (0 <= aT) as HaT by (unfold aT; nia).
  assert (0 <= Sw) as HSw by lia. assert (0 <= Sd) as HSd by lia.
  split.
  - apply Z.div_le_lower_bound; [exact HT|].
    destruct (Z.eq_dec q 0) as [->|Hq0]; [lia|]. assert (0 < q) by (unfold q in *; nia).
    assert (aT * d * (2 ^ 52 - 1) * (2 ^ 51 - 1) <= U * w * 2 ^ 103) as Hchain.
    { transitivity (Sw * d * (2 ^ 52 - 1) * 2 ^ 51); [nia|]. rewrite <- HSdw. nia. }
    assert (T * (q - 1) * w * 2 ^ 103 <= aT * d * (2 ^ 52 - 1) * (2 ^ 51 - 1)) as Hlow.
    { unfold aT. nia. }
    nia.
  - apply Z.lt_succ_r, Z.div_lt_upper_bound; [exact HT|].
    assert (U * w * 2 ^ 104 <= aT * d * (2 ^ 52 + 1) * (2 ^ 52 + 1)) as Hchain.
    { transitivity (Sw * d * (2 ^ 52 + 1) * 2 ^ 52); [rewrite <- HSdw; nia | nia]. }
    assert (aT * d * (2 ^ 52 + 1) * (2 ^ 52 + 1) < T * Z.succ q * w * 2 ^ 104) as Hhigh.
    { unfold aT. nia. }
    nia.
Qed.

(** One coordinate on a canvas shown [w] pixels wide, for a pointer at an
    integer offset inside it. *)
Lemma coordinate_integer (size c o w : Z) :
  0 < size < 2 ^ 12 -> 0 < w < 2 ^ 20 -> - 2 ^ 52 < o < 2 ^ 52 -> o <= c < o + w ->
  exists x,
    Math_floor ((b64_of_Z c - b64_of_Z o) * (b64_of_Z size / b64_of_Z w))%b64 = Some x /\
    size * (c - o) / w - 1 <= x <= size * (c - o) / w /\ 0 <= x < size.
Proof.
  intros Hsize Hw Ho Hc. rewrite b64_sub_int by lia. set (d := c - o) in *.
  destruct (b64_div_int_near size w) as (m & e & -> & He & Hsup & Hsdown); [lia..|].
  pose proof b64_one_pos as HT. set (S := Z.pos m * 2 ^ (e + 1074)) in *.
  assert (S * d < b64_top) as Htop.
  { apply Z.le_lt_trans with (S * w); [apply Z.mul_le_mono_nonneg_l; unfold S; lia|].
    pose proof b64_one_top. nia. }
  rewrite b64_mul_comm.
  destruct (b64_mul_near m e d) as (Hfin & Hup & Hdown); [lia | lia | exact Htop |].
  fold S in Hup, Hdown. rewrite (Math_floor_units _ Hfin). eexists. split; [reflexivity|].
  pose proof (b64_units_nonneg (S754_finite false m e * b64_of_Z d)%b64) as HU.
  destruct (floor_scaled _ S b64_one size d w HT Hsize ltac:(lia) ltac:(lia) HU Hup Hdown
              Hsup Hsdown) as [Hlo Hhi].
  split; [done|]. split; [by apply Z.div_pos|].
  eapply Z.le_lt_trans; [exact Hhi|]. apply Z.div_lt_upper_bound; nia.
Qed.

(** C25: the cell under the pointer, at any integer size.  On a grid of [size]
    cells shown [w] pixels wide and [h] pixels high (below 2^20), with the
    canvas and the pointer at integer positions and the pointer inside the
    canvas, the pair that the listeners compute is a pair of integers that
    pass the range test: each coordinate is the integer part of the exact
    quotient [size * offset / shown size], or one less.  The rounding of the
    scale and of the product never moves the pointer out of the grid, and
    never by more than one cell. *)
Theorem cell_integer (size : nat) (cx cy l t w h : Z) :
  0 < Z.of_nat size < 2 ^ 12 -> 0 < w < 2 ^ 20 -> 0 < h < 2 ^ 20 ->
  - 2 ^ 52 < l < 2 ^ 52 -> - 2 ^ 52 < t < 2 ^ 52 ->
  l <= cx < l + w -> t <= cy < t + h ->
  exists x y, cell size (mouseAt cx cy (rectAt l t w h)) = (Some x, Some y) /\
    Z.of_nat size * (cx - l) / w - 1 <= x <= Z.of_nat size * (cx - l) / w /\
    Z.of_nat size * (cy - t) / h - 1 <= y <= Z.of_nat size * (cy - t) / h /\
    inside (Some x) size = true /\ inside (Some y) size = true.
Proof.
  intros Hsize Hw Hh Hl Ht Hcx Hcy. unfold cell, mouseAt, rectAt.
  cbn [boundingClientRect clientX clientY left top width height].
  destruct (coordinate_integer (Z.of_nat size) cx l w) as (x & -> & Hx & Hx'); [done..|].
  destruct (coordinate_integer (Z.of_nat size) cy t h) as (y & -> & Hy & Hy'); [done..|].
  exists x, y. repeat split; try apply inside_Some; lia.
Qed.

(** ** The theorems at concrete inputs *)

Lemma cell_zoom_witness :
  let e := mouseAt 137 565 (rectAt 100 20 384 384) in
  cell 48 e = (Some 4, Some 68) /\
  (inside (cell 48 e).1 48 = true <-> 100 <= 137 < 100 + 384) /\
  (inside (cell 48 e).2 48 = true <-> 20 <= 565 < 20 + 384).
Proof. apply (cell_zoom 48 137 565 100 20 3); by_compute. Defined.

Lemma cell_integer_witness :
  exists x y, cell 48 (mouseAt 147 30 (rectAt 100 20 94 300)) = (Some x, Some y) /\
    Z.of_nat 48 * (147 - 100) / 94 - 1 <= x <= Z.of_nat 48 * (147 - 100) / 94 /\
    Z.of_nat 48 * (30 - 20) / 300 - 1 <= y <= Z.of_nat 48 * (30 - 20) / 300 /\
    inside (Some x) 48 = true /\ inside (Some y) 48 = true.
Proof. apply (cell_integer 48 147 30 100 20 94 300); by_compute. Defined.

(** The first pixel of a cell can belong to the cell before it: on a canvas
    of 48 cells shown 94 pixels wide, the offset 47 is where cell 24 starts,
    but the rounded scale puts it in cell 23. *)
Example cell_boundary_rounds_down :
  cell 48 (mouseAt 147 20 (rectAt 100 20 94 94)) = (Some 23, Some 0) /\
  48 * (147 - 100) / 94 = 24.
Proof. by vm_compute. Qed.

(** Rounding at the edge: on a canvas of 48 cells shown 240 pixels wide, the
    scale [48 / 240] is rounded up, and the last double before the right edge
    scales to 48, which is outside the grid. *)
Example cell_edge_rounds_up :
  let e := {| clientX := S754_finite false 8444249301319679 (-45); clientY := b64_of_Z 0;
              boundingClientRect := rectAt 0 0 240 240 |} in
  (clientX e < width (boundingClientRect e))%b64 = true /\ cell 48 e = (Some 48, Some 0).
Proof. vm_compute. by split. Qed.
