(* ===== verification/Palette.v ===== *)
(** * Palette: the colour inventory (script.js, Configuration)

    [COLOURS_DATA] is the object literal of the source, kept as the list of
    its entries in declaration order: none of its keys is an array index, so
    [Object.entries] and [for ... in] enumerate them in insertion order, and
    that order decides ties between equidistant colours.  [ORIGINAL_COUNTS]
    and [RGB_VALUES] are the two tables derived from it with
    [Object.fromEntries(Object.entries(..).map(..))].

    The tables are functions of the palette data, so that the matcher's
    theorems hold for every palette; [COLOURS_DATA] is the instance the
    program ships.  [palette_ok] is what being a well-formed inventory means:
    distinct non-empty names, channels in [0, 255], stock counts not negative.

    A palette is the sequence of the entries in the order in which the
    program enumerates them, with counts that are integers.  It is what an
    object literal with the same entries denotes when [palette_object]
    holds: no name is integer-like ([integerKey]: such keys are enumerated
    first, in numeric order, wherever they are declared), no name is
    declared twice, and the counts are below 2^53, where a count and the
    count less one are numbers of the program.  The shipped palette is such
    an object ([COLOURS_DATA_object]). *)

From Stdlib Require Import ZArith Lia Ascii String.
From stdpp Require Import base tactics option list strings gmap.
From S2P Require Import Prelude.

#[local] Open Scope Z_scope.

(** An [[r, g, b]] array. *)
Definition rgb : Type := Z * Z * Z.

(** One value of the [COLOURS_DATA] object: [{"rgb": [..], "count": n}]. *)
Record colour : Type := Colour { colour_rgb : rgb; colour_count : Z }.

Definition palette : Type := list (string * colour).

(** const TARGET_SIZE = 48 *)
Definition TARGET_SIZE : nat := 48.

(** const BORDER_THICKNESS = 0 *)
Definition BORDER_THICKNESS : nat := 0.

Definition COLOURS_DATA : palette :=
  [ ("Black", Colour (27, 42, 52) 698);
    ("Bright Light Blue", Colour (175, 221, 255) 57);
    ("Bright Light Orange", Colour (255, 176, 100) 65);
    ("Dark Blue", Colour (0, 16, 176) 121);
    ("Dark Bluish Gray", Colour (99, 95, 98) 141);
    ("Dark Brown", Colour (53, 33, 0) 554);
    ("Dark Orange", Colour (176, 96, 16) 85);
    ("Dark Tan", Colour (149, 138, 115) 137);
    ("Light Bluish Gray", Colour (183, 195, 205) 51);
    ("Medium Nougat", Colour (170, 125, 85) 29);
    ("Orange", Colour (255, 88, 0) 74);
    ("Reddish Brown", Colour (105, 64, 40) 250);
    ("Sand Blue", Colour (116, 134, 157) 52);
    ("Tan", Colour (222, 198, 156) 283);
    ("White", Colour (244, 244, 244) 149) ].

(** The palette, the pixels and the processing order of the worked example
    of the specification (a 2 x 2 image and one piece of each of two
    colours); the theorems of the development are applied to them. *)
Definition scenario_palette : palette :=
  [ ("Red", Colour (255, 0, 0) 1); ("Blue", Colour (0, 0, 255) 1) ].

Definition scenario_pixels : list rgb := [(255, 0, 0); (0, 0, 255); (250, 5, 5); (0, 0, 0)].

Definition scenario_canvas : list Z :=
  [255; 0; 0; 255;  0; 0; 255; 255;  250; 5; 5; 255;  0; 0; 0; 255].

Definition scenario_order : list nat := [2; 0; 1; 3]%nat.

(** Object.fromEntries(Object.entries(COLOURS_DATA).map(([name, data]) => [name, data.count])) *)
Definition ORIGINAL_COUNTS (data : palette) : list (string * Z) :=
  (fun '(name, d) => (name, colour_count d)) <$> data.

(** Object.fromEntries(Object.entries(COLOURS_DATA).map(([name, data]) => [name, data.rgb])) *)
Definition RGB_VALUES (data : palette) : list (string * rgb) :=
  (fun '(name, d) => (name, colour_rgb d)) <$> data.

(** [obj[name]] on a table kept as its entries: the value of the key, or
    nothing ([undefined]) when the object has no such key. *)
Fixpoint table_get {A} (tbl : list (string * A)) (name : string) : option A :=
  match tbl with
  | [] => None
  | (k, v) :: rest => if decide (k = name) then Some v else table_get rest name
  end.

Definition is_u8 (z : Z) : Prop := 0 <= z <= 255.

Definition rgb_ok (c : rgb) : Prop :=
  let '(r, g, b) := c in is_u8 r /\ is_u8 g /\ is_u8 b.

Definition palette_names (data : palette) : list string := fst <$> data.

Definition total_stock (data : palette) : Z :=
  foldr Z.add 0 (colour_count ∘ snd <$> data).

Definition palette_ok (data : palette) : Prop :=
  NoDup (palette_names data) /\
  Forall (fun e => fst e <> "" /\ rgb_ok (colour_rgb (snd e)) /\ 0 <= colour_count (snd e)) data.

(** A character from [0] to [9]. *)
Definition isDigit (c : ascii) : bool :=
  ((48 <=? nat_of_ascii c) && (nat_of_ascii c <=? 57))%nat.

(** A property name that is enumerated before the names that are not: the
    decimal numeral of an integer, without sign and without a leading zero.
    (The language also asks for an integer below 2^32 - 1; here longer
    numerals count as integer-like too.) *)
Definition integerKey (name : string) : bool :=
  match name with
  | EmptyString => false
  | String c rest =>
      forallb isDigit (c :: list_ascii_of_string rest) &&
      (negb (Ascii.eqb c "0") || String.eqb rest EmptyString)
  end.

(** The palettes that an object literal denotes entry by entry, with counts
    on which the arithmetic of the program is exact. *)
Definition palette_object (data : palette) : Prop :=
  NoDup (palette_names data) /\
  Forall (fun e => integerKey (fst e) = false /\ 0 <= colour_count (snd e) < 2 ^ 53) data.

#[export] Instance is_u8_dec z : Decision (is_u8 z).
Proof. unfold is_u8. apply _. Defined.

#[export] Instance rgb_ok_dec c : Decision (rgb_ok c).
Proof. destruct c as [[r g] b]. unfold rgb_ok. apply _. Defined.

#[export] Instance palette_ok_dec data : Decision (palette_ok data).
Proof. unfold palette_ok. apply _. Defined.

#[export] Instance palette_object_dec data : Decision (palette_object data).
Proof. unfold palette_object. apply _. Defined.

(** ** The derived tables *)

Lemma ORIGINAL_COUNTS_names data : fst <$> ORIGINAL_COUNTS data = palette_names data.
Proof.
  unfold ORIGINAL_COUNTS, palette_names. rewrite <- list_fmap_compose.
  apply list_fmap_ext. intros _ [name d] _. reflexivity.
Qed.

Lemma RGB_VALUES_names data : fst <$> RGB_VALUES data = palette_names data.
Proof.
  unfold RGB_VALUES, palette_names. rewrite <- list_fmap_compose.
  apply list_fmap_ext. intros _ [name d] _. reflexivity.
Qed.

Lemma table_get_Some {A} (tbl : list (string * A)) name v :
  table_get tbl name = Some v -> (name, v) ∈ tbl.
Proof.
  induction tbl as [|[k w] tbl IH]; simpl; [discriminate|].
  destruct (decide (k = name)); intros ?; simplify_eq; [left | right; auto].
Qed.

Lemma table_get_None {A} (tbl : list (string * A)) name :
  table_get tbl name = None <-> name ∉ (fst <$> tbl).
Proof.
  induction tbl as [|[k w] tbl IH]; simpl.
  - split; [intros _; apply not_elem_of_nil | reflexivity].
  - rewrite not_elem_of_cons, <- IH. destruct (decide (k = name)) as [Heq|Hne].
    + split; [discriminate | intros [Hne _]; by destruct Hne].
    + split; [by intros ->; split; [congruence|] | by intros [_ ->]].
Qed.

Lemma table_get_NoDup {A} (tbl : list (string * A)) name v :
  NoDup (fst <$> tbl) -> (name, v) ∈ tbl -> table_get tbl name = Some v.
Proof.
  induction tbl as [|[k w] tbl IH]; simpl; intros Hnd Hin.
  - by apply elem_of_nil in Hin.
  - apply NoDup_cons in Hnd as [Hk Hnd]. apply elem_of_cons in Hin as [Heq|Hin].
    + simplify_eq. by rewrite decide_True.
    + rewrite decide_False; [auto|]. intros ->. apply Hk.
      apply list_elem_of_fmap. by exists (name, v).
Qed.

Lemma table_get_fmap {A B} (f : A -> B) (tbl : list (string * A)) name :
  table_get ((fun '(k, v) => (k, f v)) <$> tbl) name = f <$> table_get tbl name.
Proof.
  induction tbl as [|[k w] tbl IH]; simpl; [reflexivity|].
  case_decide; [reflexivity | exact IH].
Qed.

(** The shipped palette is a well-formed inventory of 15 colours and 2746
    pieces: more than the 2304 cells of a 48 x 48 mosaic. *)
Lemma COLOURS_DATA_ok : palette_ok COLOURS_DATA.
Proof. by_compute. Qed.

Lemma scenario_palette_ok : palette_ok scenario_palette.
Proof. by_compute. Qed.

(** The list [COLOURS_DATA] is the object literal of the source: its names
    are enumerated as they are declared, and its counts are exact. *)
Lemma COLOURS_DATA_object : palette_object COLOURS_DATA.
Proof. by_compute. Qed.

(** A numeral is enumerated first, wherever it stands in the literal. *)
Lemma integerKey_numeral :
  integerKey "7" = true /\ integerKey "48" = true /\ integerKey "0" = true /\
  integerKey "07" = false /\ integerKey "Tan" = false /\ integerKey "4 8" = false.
Proof. by vm_compute. Qed.

(** The shipped palette is a well-formed inventory: 15 colours with distinct
    non-empty names, channels in [0, 255] and non-negative counts, 2746 pieces
    in total, which is at least the 2304 cells of the mosaic. *)
Theorem COLOURS_DATA_inventory :
  palette_ok COLOURS_DATA /\ length COLOURS_DATA = 15%nat /\
  total_stock COLOURS_DATA = 2746 /\
  Z.of_nat (TARGET_SIZE * TARGET_SIZE) <= total_stock COLOURS_DATA.
Proof. split; [by_compute|]. split_and!; by vm_compute. Qed.
