(* ===== verification/Picker.v ===== *)
(** * Picker: the colour picker (script.js, hexToRgb and the builtin parseInt)

    The handler of the colour input stores [hexToRgb(e.target.value)] in
    [currentEditorColor].  [hexToRgb] builds the strings ["0x" + hex[i] +
    hex[j]] and hands them to [parseInt], which is modelled here after the
    language definition for strings of ASCII characters: leading white space
    is skipped, a sign is read, the prefix [0x] selects radix 16, and the
    longest prefix of digits is converted; without a digit the result is
    [NaN], which is [None] here.  Results are kept in [Z]; they are exact for
    the values below [2^53] that the program reads. *)

From Stdlib Require Import ZArith Lia Ascii String.
From stdpp Require Import base tactics option list strings.
From S2P Require Import Prelude Palette.

#[local] Open Scope Z_scope.

(** An array of three numbers, as [hexToRgb] returns it. *)
Definition colourNumbers : Type := number * number * number.

(** The value of a character as a digit, in any radix up to 36. *)
Definition digitValue (c : ascii) : option Z :=
  let n := Z.of_N (N_of_ascii c) in
  if (48 <=? n) && (n <=? 57) then Some (n - 48)
  else if (97 <=? n) && (n <=? 122) then Some (n - 87)
  else if (65 <=? n) && (n <=? 90) then Some (n - 55)
  else None.

(** The digits of radix [radix]. *)
Definition radixDigit (radix : Z) (c : ascii) : option Z :=
  d ← digitValue c; if d <? radix then Some d else None.

(** The white space that [parseInt] skips (tab, line feed, vertical tab,
    form feed, carriage return, space). *)
Definition isWhiteSpace (c : ascii) : bool :=
  let n := Z.of_N (N_of_ascii c) in ((9 <=? n) && (n <=? 13)) || (n =? 32).

Fixpoint trimStart (s : string) : string :=
  match s with
  | String c rest => if isWhiteSpace c then trimStart rest else s
  | EmptyString => s
  end.

(** The value of the longest prefix of [s] made of digits of the radix,
    continuing the value [acc] of the [seen] digits before it. *)
Fixpoint digitsValue (radix : Z) (s : string) (acc : Z) (seen : bool) : number :=
  match s with
  | String c rest =>
      match radixDigit radix c with
      | Some d => digitsValue radix rest (acc * radix + d) true
      | None => if seen then Some acc else None
      end
  | EmptyString => if seen then Some acc else None
  end.

(** parseInt(string), without a radix argument *)
Definition parseInt (s : string) : number :=
  let s := trimStart s in
  let '(sign, s) :=
    match s with
    | String "-" rest => (-1, rest)
    | String "+" rest => (1, rest)
    | _ => (1, s)
    end in
  let '(radix, s) :=
    match s with
    | String "0" (String "x" rest) => (16, rest)
    | String "0" (String "X" rest) => (16, rest)
    | _ => (10, s)
    end in
  Z.mul sign <$> digitsValue radix s 0 false.

(** [s[i]] in a string concatenation: the character as a string, or the
    text of [undefined] outside the string. *)
Definition charAt (s : string) (i : nat) : string :=
  match String.get i s with
  | Some c => String c EmptyString
  | None => "undefined"
  end.

(** function hexToRgb(hex); the initial values [0] of [r], [g] and [b] are
    numbers, which [parseInt] reads as the string ["0"]. *)
Definition hexToRgb (hex : string) : colourNumbers :=
  let '(r, g, b) :=
    if decide (String.length hex = 4%nat) then
      ("0x" +:+ charAt hex 1 +:+ charAt hex 1,
       "0x" +:+ charAt hex 2 +:+ charAt hex 2,
       "0x" +:+ charAt hex 3 +:+ charAt hex 3)
    else if decide (String.length hex = 7%nat) then
      ("0x" +:+ charAt hex 1 +:+ charAt hex 2,
       "0x" +:+ charAt hex 3 +:+ charAt hex 4,
       "0x" +:+ charAt hex 5 +:+ charAt hex 6)
    else ("0", "0", "0") in
  (parseInt r, parseInt g, parseInt b).

(** ** The text of a colour

    The value of a colour input is [#rrggbb] with lower-case digits. *)

(** The digit of a value below 16. *)
Definition hexDigit (d : Z) : ascii :=
  ascii_of_N (Z.to_N (if d <? 10 then 48 + d else 87 + d)).

(** Two hexadecimal digits for a channel. *)
Definition hex2 (z : Z) : string :=
  String (hexDigit (z / 16)) (String (hexDigit (z mod 16)) EmptyString).

Definition hexOfRgb (c : rgb) : string :=
  let '(r, g, b) := c in "#" +:+ hex2 r +:+ hex2 g +:+ hex2 b.

(** A number is a channel value. *)
Definition channel_ok (n : number) : Prop :=
  match n with Some z => is_u8 z | None => True end.

(** ** Digits *)

Lemma digitValue_range (c : ascii) (d : Z) : digitValue c = Some d -> 0 <= d < 36.
Proof.
  unfold digitValue. set (n := Z.of_N (N_of_ascii c)). cbv zeta.
  destruct ((48 <=? n) && (n <=? 57)) eqn:H1;
    [|destruct ((97 <=? n) && (n <=? 122)) eqn:H2;
       [|destruct ((65 <=? n) && (n <=? 90)) eqn:H3; [|discriminate]]];
    intros [= <-];
    match goal with H : _ && _ = true |- _ =>
      apply andb_prop in H as [?%Z.leb_le ?%Z.leb_le] end; lia.
Qed.

Lemma radixDigit_range (radix : Z) (c : ascii) (d : Z) :
  radixDigit radix c = Some d -> 0 <= d < radix.
Proof.
  unfold radixDigit. destruct (digitValue c) as [d'|] eqn:Hd; [|discriminate]. simpl.
  destruct (Z.ltb_spec d' radix); intros; simplify_eq.
  pose proof (digitValue_range c d Hd). lia.
Qed.

(** Every value below 16 is read back from its digit, and every channel
    from its two digits. *)
Lemma radixDigit_hexDigit (d : Z) : 0 <= d < 16 -> radixDigit 16 (hexDigit d) = Some d.
Proof.
  intros Hd.
  assert (Forall (fun d => radixDigit 16 (hexDigit d) = Some d) (seqZ 0 16)) as Hall by by_compute.
  rewrite Forall_forall in Hall. apply Hall, elem_of_seqZ. lia.
Qed.

Lemma parseInt_hex2 (z : Z) :
  is_u8 z ->
  parseInt (String "0" (String "x" (String (hexDigit (z / 16))
              (String (hexDigit (z mod 16)) EmptyString)))) = Some z.
Proof.
  intros Hz.
  assert (Forall (fun z => parseInt ("0x" +:+ hex2 z) = Some z) (seqZ 0 256)) as Hall by by_compute.
  rewrite Forall_forall in Hall. apply (Hall z), elem_of_seqZ. unfold is_u8 in Hz. lia.
Qed.

(** [parseInt] on a string that starts with ["0x"]. *)
Lemma parseInt_0x_rest (rest : string) :
  parseInt (String "0" (String "x" rest)) = digitsValue 16 rest 0 false.
Proof.
  change (parseInt (String "0" (String "x" rest))) with (Z.mul 1 <$> digitsValue 16 rest 0 false).
  destruct (digitsValue 16 rest 0 false) as [z|]; [|reflexivity].
  cbn [fmap option_fmap option_map]. f_equal. lia.
Qed.

Lemma parseInt_0x (c1 c2 : ascii) :
  parseInt (String "0" (String "x" (String c1 (String c2 EmptyString)))) =
  match radixDigit 16 c1, radixDigit 16 c2 with
  | Some d1, Some d2 => Some (16 * d1 + d2)
  | Some d1, None => Some d1
  | None, _ => None
  end.
Proof.
  rewrite parseInt_0x_rest. cbn [digitsValue].
  destruct (radixDigit 16 c1) as [d1|]; [|reflexivity].
  destruct (radixDigit 16 c2) as [d2|]; f_equal; lia.
Qed.

Lemma parseInt_0x_channel (c1 c2 : ascii) :
  channel_ok (parseInt (String "0" (String "x" (String c1 (String c2 EmptyString))))).
Proof.
  rewrite parseInt_0x.
  destruct (radixDigit 16 c1) as [d1|] eqn:H1; [|done].
  apply radixDigit_range in H1.
  destruct (radixDigit 16 c2) as [d2|] eqn:H2; [apply radixDigit_range in H2|];
    unfold channel_ok, is_u8; lia.
Qed.

(** ** hexToRgb *)

Lemma hexToRgb_7 (c0 c1 c2 c3 c4 c5 c6 : ascii) :
  hexToRgb (String c0 (String c1 (String c2 (String c3 (String c4 (String c5 (String c6
             EmptyString))))))) =
  (parseInt (String "0" (String "x" (String c1 (String c2 EmptyString)))),
   parseInt (String "0" (String "x" (String c3 (String c4 EmptyString)))),
   parseInt (String "0" (String "x" (String c5 (String c6 EmptyString))))).
Proof. reflexivity. Qed.

Lemma hexToRgb_4 (c0 c1 c2 c3 : ascii) :
  hexToRgb (String c0 (String c1 (String c2 (String c3 EmptyString)))) =
  (parseInt (String "0" (String "x" (String c1 (String c1 EmptyString)))),
   parseInt (String "0" (String "x" (String c2 (String c2 EmptyString)))),
   parseInt (String "0" (String "x" (String c3 (String c3 EmptyString))))).
Proof. reflexivity. Qed.

Lemma hexToRgb_other (hex : string) :
  String.length hex <> 4%nat -> String.length hex <> 7%nat ->
  hexToRgb hex = (Some 0, Some 0, Some 0).
Proof. intros H4 H7. unfold hexToRgb. by rewrite !decide_False by done. Qed.

(** A string of the given length, character by character. *)
Lemma string_length_4 (s : string) :
  String.length s = 4%nat ->
  exists c0 c1 c2 c3, s = String c0 (String c1 (String c2 (String c3 EmptyString))).
Proof. destruct s as [|c0 [|c1 [|c2 [|c3 [|c4 s]]]]]; intros; simplify_eq/=. eauto. Qed.

Lemma string_length_7 (s : string) :
  String.length s = 7%nat ->
  exists c0 c1 c2 c3 c4 c5 c6,
    s = String c0 (String c1 (String c2 (String c3 (String c4 (String c5 (String c6
          EmptyString)))))).
Proof.
  destruct s as [|c0 [|c1 [|c2 [|c3 [|c4 [|c5 [|c6 [|c7 s]]]]]]]]; intros; simplify_eq/=.
  eauto 10.
Qed.

Lemma hexOfRgb_chars (r g b : Z) :
  hexOfRgb (r, g, b) =
  String "#" (String (hexDigit (r / 16)) (String (hexDigit (r mod 16))
    (String (hexDigit (g / 16)) (String (hexDigit (g mod 16))
      (String (hexDigit (b / 16)) (String (hexDigit (b mod 16)) EmptyString)))))).
Proof. reflexivity. Qed.

(** C18: [hexToRgb] reads back what a colour input writes.  For channels in
    [0, 255], the text [#rrggbb] with two lower-case hexadecimal digits per
    channel is read as exactly these three numbers. *)
Theorem hexToRgb_roundtrip (r g b : Z) :
  rgb_ok (r, g, b) -> hexToRgb (hexOfRgb (r, g, b)) = (Some r, Some g, Some b).
Proof.
  intros (Hr & Hg & Hb). rewrite hexOfRgb_chars, hexToRgb_7.
  by rewrite (parseInt_hex2 r Hr), (parseInt_hex2 g Hg), (parseInt_hex2 b Hb).
Qed.

Lemma hexToRgb_roundtrip_witness :
  hexToRgb (hexOfRgb (243, 244, 246)) = (Some 243, Some 244, Some 246).
Proof. apply hexToRgb_roundtrip. by_compute. Defined.

(** The components that [hexToRgb] returns.  For every text, each of the three
    components is either [NaN] or an integer from 0 to 255; a text whose
    length is neither 4 nor 7 gives [0, 0, 0]. *)
Theorem hexToRgb_channels (hex : string) :
  channel_ok (fst (fst (hexToRgb hex))) /\ channel_ok (snd (fst (hexToRgb hex))) /\
  channel_ok (snd (hexToRgb hex)).
Proof.
  destruct (decide (String.length hex = 4%nat)) as [H4|H4].
  { destruct (string_length_4 hex H4) as (c0 & c1 & c2 & c3 & ->).
    rewrite hexToRgb_4. split_and!; apply parseInt_0x_channel. }
  destruct (decide (String.length hex = 7%nat)) as [H7|H7].
  { destruct (string_length_7 hex H7) as (c0 & c1 & c2 & c3 & c4 & c5 & c6 & ->).
    rewrite hexToRgb_7. split_and!; apply parseInt_0x_channel. }
  rewrite hexToRgb_other by done. unfold channel_ok, is_u8. simpl. lia.
Qed.

(** The short form.  For three hexadecimal digits, the text [#rgb] is read
    with each digit doubled: the components are 17 times the digits. *)
Theorem hexToRgb_short (d1 d2 d3 : Z) :
  0 <= d1 < 16 -> 0 <= d2 < 16 -> 0 <= d3 < 16 ->
  hexToRgb (String "#" (String (hexDigit d1) (String (hexDigit d2) (String (hexDigit d3)
              EmptyString)))) = (Some (17 * d1), Some (17 * d2), Some (17 * d3)).
Proof.
  intros H1 H2 H3. rewrite hexToRgb_4, !parseInt_0x, !radixDigit_hexDigit by done.
  repeat f_equal; lia.
Qed.

Lemma hexToRgb_short_witness :
  hexToRgb (String "#" (String (hexDigit 10) (String (hexDigit 11) (String (hexDigit 12)
              EmptyString)))) = (Some (17 * 10), Some (17 * 11), Some (17 * 12)).
Proof. apply hexToRgb_short; lia. Defined.

(** A text that is not hexadecimal gives [NaN].  For a text of seven
    characters whose second character is not a hexadecimal digit, the red
    component that [hexToRgb] returns is [NaN]: [parseInt] finds no digit
    after the prefix [0x]. *)
Theorem hexToRgb_invalid (c0 c1 c2 c3 c4 c5 c6 : ascii) :
  radixDigit 16 c1 = None ->
  fst (fst (hexToRgb (String c0 (String c1 (String c2 (String c3 (String c4 (String c5
                        (String c6 EmptyString)))))))))
  = None.
Proof. intros Hc. rewrite hexToRgb_7, parseInt_0x, Hc. reflexivity. Qed.

Lemma hexToRgb_invalid_witness : fst (fst (hexToRgb "#gg0000")) = None.
Proof. by apply (hexToRgb_invalid "#" "g" "g" "0" "0" "0" "0"). Defined.
