(* ===== verification/Matcher.v ===== *)
(** * Matcher: inventory-constrained colour assignment (script.js, rgbDistance and mapToColours)

    [mapToColours] visits the pixel indices in the order it is given; for
    each one it scans the palette in declaration order for the in-stock colour
    at the smallest Euclidean distance (strict [<], so the first of several
    equidistant colours wins), writes that colour and its name into the
    result arrays, and takes one piece from the stock.  A pixel visited after
    the stock ran out keeps the initial black and the name "Out of Stock".

    State: [matchState] holds the three mutable locals of the function
    ([remainingCounts], [coreImage], [coreColorNameMap]); [assignPixel] is one
    iteration of the outer loop, [findClosest] the inner loop, [assignAll] the
    outer loop.  Reading [pixels[idx]] outside the array gives [undefined], and
    [rgbDistance] then throws a [TypeError] as soon as one colour is in stock:
    the functions return an [outcome]. *)

From Stdlib Require Import ZArith Lia SpecFloat.
From stdpp Require Import base tactics option list strings gmap.
From S2P Require Import Prelude Binary64 Palette.

#[local] Open Scope Z_scope.

(** function rgbDistance(rgb1, rgb2) *)
Definition rgbDistance (rgb1 rgb2 : rgb) : spec_float :=
  let '(r1, g1, b1) := rgb1 in
  let '(r2, g2, b2) := rgb2 in
  b64_sqrt
    (b64_pow2 (b64_of_Z r1 - b64_of_Z r2) +
     b64_pow2 (b64_of_Z g1 - b64_of_Z g2) +
     b64_pow2 (b64_of_Z b1 - b64_of_Z b2))%b64.

(** The mutable locals of [mapToColours]. *)
Record matchState : Type := MatchState {
  st_counts : gmap string Z;        (* remainingCounts *)
  coreImage : list rgb;
  coreColorNameMap : list string
}.

(** What [mapToColours] returns. *)
Record mosaic : Type := Mosaic {
  coreImageArray : list Z;
  remainingCounts : gmap string Z;
  coreColorNameMap2D : list (list string)
}.

Definition OUT_OF_STOCK : string := "Out of Stock".

(** [remainingCounts[name] > 0]: false for a missing key ([undefined > 0]). *)
Definition inStock (counts : gmap string Z) (name : string) : bool :=
  match counts !! name with
  | Some n => bool_decide (0 < n)
  | None => false
  end.

(** The inner loop over [Object.entries(RGB_VALUES)], from the entry it has
    reached, with the current [bestName] and [minDistance]. *)
Fixpoint findClosest (counts : gmap string Z) (originalColor : option rgb)
    (entries : list (string * rgb)) (bestName : option string)
    (minDistance : spec_float) : outcome (option string) :=
  match entries with
  | [] => Returns bestName
  | (name, c) :: rest =>
      if inStock counts name then
        match originalColor with
        | None => Throws TypeError
        | Some p =>
            let dist := rgbDistance p c in
            if (dist < minDistance)%b64
            then findClosest counts originalColor rest (Some name) dist
            else findClosest counts originalColor rest bestName minDistance
        end
      else findClosest counts originalColor rest bestName minDistance
  end.

(** [if (bestName)]: [null] and the empty string are falsy. *)
Definition truthy (bestName : option string) : option string :=
  match bestName with
  | Some name => if decide (name = "") then None else Some name
  | None => None
  end.

(** One iteration of [for (const idx of pixelIndices)]. *)
Definition assignPixel (data : palette) (pixels : list rgb)
    (st : matchState) (idx : nat) : outcome matchState :=
  bestName ← findClosest (st_counts st) (pixels !! idx) (RGB_VALUES data) None b64_infinity;
  match truthy bestName with
  | Some name =>
      Returns {|
        st_counts := alter Z.pred name (st_counts st);
        coreImage := <[idx := default (0, 0, 0) (table_get (RGB_VALUES data) name)]> (coreImage st);
        coreColorNameMap := <[idx := name]> (coreColorNameMap st) |}
  | None => Returns st
  end.

Fixpoint assignAll (data : palette) (pixels : list rgb)
    (st : matchState) (pixelIndices : list nat) : outcome matchState :=
  match pixelIndices with
  | [] => Returns st
  | idx :: rest => st' ← assignPixel data pixels st idx; assignAll data pixels st' rest
  end.

(** Storing a number into a [Uint8ClampedArray]. *)
Definition clamp8 (z : Z) : Z := Z.max 0 (Z.min 255 z).

(** [coreImage.flat()] *)
Definition flat (img : list rgb) : list Z :=
  img ≫= (fun '(r, g, b) => [r; g; b]).

(** [for (let i = 0; i < l.length; i += size) out.push(l.slice(i, i + size))]:
    one row per iteration; the fuel is the number of iterations left, which
    [length l] bounds when [size] is positive. *)
Fixpoint chunks {A} (fuel size : nat) (l : list A) : list (list A) :=
  match fuel with
  | O => []
  | S fuel' =>
      match l with
      | [] => []
      | _ => take size l :: chunks fuel' size (drop size l)
      end
  end.

Definition initialState (data : palette) (numPixels : nat) : matchState :=
  {| st_counts := list_to_map (ORIGINAL_COUNTS data);
     coreImage := replicate numPixels (0, 0, 0);
     coreColorNameMap := replicate numPixels OUT_OF_STOCK |}.

(** The end of [mapToColours]: the flat clamped image, the stock and the
    name map cut into rows of [TARGET_SIZE] names. *)
Definition mosaic_of (st : matchState) : mosaic :=
  {| coreImageArray := clamp8 <$> flat (coreImage st);
     remainingCounts := st_counts st;
     coreColorNameMap2D :=
       chunks (length (coreColorNameMap st)) TARGET_SIZE (coreColorNameMap st) |}.

(** function mapToColours(pixels, pixelIndices) *)
Definition mapToColours (data : palette) (pixels : list rgb)
    (pixelIndices : list nat) : outcome mosaic :=
  st ← assignAll data pixels (initialState data (length pixels)) pixelIndices;
  Returns (mosaic_of st).

(** ** Reference: the same scan on exact integers

    [sqDistance] is the squared Euclidean distance, [nearest] the scan of
    [findClosest] with squared distances compared on [Z]. *)

(** The sum under the square root of [rgbDistance], on integers. *)
Definition sqDistance (rgb1 rgb2 : rgb) : Z :=
  let '(r1, g1, b1) := rgb1 in
  let '(r2, g2, b2) := rgb2 in
  (r1 - r2) * (r1 - r2) + (g1 - g2) * (g1 - g2) + (b1 - b2) * (b1 - b2).

(** The inner loop with [minDistance] kept as an exact squared distance
    ([None] for [Infinity]). *)
Fixpoint nearest (counts : gmap string Z) (p : rgb) (entries : list (string * rgb))
    (best : option (string * Z)) : option (string * Z) :=
  match entries with
  | [] => best
  | (name, c) :: rest =>
      if inStock counts name then
        let d := sqDistance p c in
        match best with
        | Some (_, dmin) =>
            if d <? dmin then nearest counts p rest (Some (name, d))
            else nearest counts p rest best
        | None => nearest counts p rest (Some (name, d))
        end
      else nearest counts p rest best
  end.

(** The float state of the scan and the integer state of the reference agree. *)
Definition best_rel (bestName : option string) (minDistance : spec_float)
    (best : option (string * Z)) : Prop :=
  match best with
  | None => bestName = None /\ minDistance = b64_infinity
  | Some (name, d) =>
      bestName = Some name /\ minDistance = b64_sqrt (b64_of_Z d) /\ 0 <= d <= 195075
  end.

(** [name] is the choice among [entries] for pixel [p]: an in-stock entry
    that is strictly nearer than every in-stock entry before it and at most
    as far as every in-stock entry after it. *)
Definition first_nearest (counts : gmap string Z) (p : rgb)
    (entries : list (string * rgb)) (name : string) (c : rgb) : Prop :=
  exists pre post,
    entries = pre ++ (name, c) :: post /\ inStock counts name = true /\
    Forall (fun e => inStock counts (fst e) = true -> sqDistance p c < sqDistance p (snd e)) pre /\
    Forall (fun e => inStock counts (fst e) = true -> sqDistance p c <= sqDistance p (snd e)) post.

(** ** The stock during a run *)

(** [remainingCounts[name]] as a number ([0] for a missing key). *)
Definition stock_of (counts : gmap string Z) (name : string) : Z :=
  default 0 (counts !! name).

(** The pieces left over all the colours of the palette. *)
Definition stock_sum (data : palette) (counts : gmap string Z) : Z :=
  Zsum (stock_of counts <$> palette_names data).

(** Every colour of the palette has a stock between zero and its original
    count, and nothing else has one. *)
Definition counts_ok (data : palette) (counts : gmap string Z) : Prop :=
  dom counts = list_to_set (palette_names data) /\
  forall name orig, table_get (ORIGINAL_COUNTS data) name = Some orig ->
    0 <= stock_of counts name <= orig.

(** The cells that received a colour. *)
Definition assigned (names : list string) : nat :=
  length (filter (fun name => name <> OUT_OF_STOCK) names).

(** The cells that carry [name]. *)
Definition used (names : list string) (name : string) : nat :=
  length (filter (fun n => n = name) names).

(** What a cell holds: the colour of its name, black when it has none. *)
Definition cell_ok (data : palette) (name : string) (c : rgb) : Prop :=
  (name = OUT_OF_STOCK /\ c = (0, 0, 0)) \/ (name, c) ∈ RGB_VALUES data.

(** [coreImageArray[3 * i .. 3 * i + 2]]: the three channels of cell [i]. *)
Definition pixelAt (arr : list Z) (i : nat) : option rgb :=
  r ← arr !! (3 * i)%nat; g ← arr !! (3 * i + 1)%nat; b ← arr !! (3 * i + 2)%nat;
  Some (r, g, b).

Definition state_ok (data : palette) (numPixels : nat) (st : matchState) : Prop :=
  length (coreImage st) = numPixels /\ length (coreColorNameMap st) = numPixels /\
  counts_ok data (st_counts st).

(** ** The loop as a step relation *)

(** One iteration of the outer loop, as a relation: a visit when nothing is
    in stock leaves the state alone; otherwise the first nearest colour [name]
    of the pixel is written at [idx] and one piece of it is taken. *)
Inductive step (data : palette) (pixels : list rgb) (st : matchState) (idx : nat) :
    matchState -> Prop :=
| step_out_of_stock :
    Forall (fun e => inStock (st_counts st) (fst e) = false) (RGB_VALUES data) ->
    step data pixels st idx st
| step_assign p name c :
    pixels !! idx = Some p ->
    first_nearest (st_counts st) p (RGB_VALUES data) name c ->
    step data pixels st idx {|
      st_counts := alter Z.pred name (st_counts st);
      coreImage := <[idx := c]> (coreImage st);
      coreColorNameMap := <[idx := name]> (coreColorNameMap st) |}.

(** The outer loop over a list of indices. *)
Inductive run (data : palette) (pixels : list rgb) :
    matchState -> list nat -> matchState -> Prop :=
| run_nil st : run data pixels st [] st
| run_cons st idx st1 rest st' :
    step data pixels st idx st1 -> run data pixels st1 rest st' ->
    run data pixels st (idx :: rest) st'.

(** The indices of [idxs] are distinct and none has been assigned yet. *)
Definition fresh (st : matchState) (idxs : list nat) : Prop :=
  NoDup idxs /\ Forall (fun idx => (coreColorNameMap st !! idx) = Some OUT_OF_STOCK) idxs.

(** The names of the cells, row after row. *)
Definition names_of (m : mosaic) : list string := concat (coreColorNameMap2D m).

(** ** What the matcher promises

    The contract of [mapToColours] towards the code that consumes its
    result, for pixels [pixels] visited in the order [pixelIndices]. *)
Record mosaic_spec (data : palette) (pixels : list rgb) (pixelIndices : list nat)
    (m : mosaic) : Prop := MosaicSpec {
  spec_counts : counts_ok data (remainingCounts m);
  spec_stock :
    stock_sum data (remainingCounts m)
    = Z.max 0 (total_stock data - Z.of_nat (length pixelIndices));
  spec_rows :
    coreColorNameMap2D m = chunks (length (names_of m)) TARGET_SIZE (names_of m);
  spec_cells : length (names_of m) = length pixels;
  spec_image : forall i name, names_of m !! i = Some name ->
    exists c, pixelAt (coreImageArray m) i = Some c /\ cell_ok data name c;
  spec_conservation :
    Z.of_nat (assigned (names_of m)) + stock_sum data (remainingCounts m) = total_stock data;
  spec_exhaustion : forall k idx, pixelIndices !! k = Some idx ->
    names_of m !! idx = Some OUT_OF_STOCK <-> total_stock data <= Z.of_nat k;
  spec_usage : forall name orig, table_get (ORIGINAL_COUNTS data) name = Some orig ->
    Z.of_nat (used (names_of m) name) = orig - stock_of (remainingCounts m) name
}.

(** ** The distance is exact, and the scan computes the reference *)
Lemma sq_diff_range (x y : Z) :
  is_u8 x -> is_u8 y -> 0 <= (x - y) * (x - y) <= 65025.
Proof.
  unfold is_u8. intros Hx Hy. set (d := x - y).
  assert (0 <= (255 - d) * (255 + d)) by (apply Z.mul_nonneg_nonneg; lia).
  pose proof (Z.square_nonneg d). lia.
Qed.

Lemma sqDistance_range p c : rgb_ok p -> rgb_ok c -> 0 <= sqDistance p c <= 195075.
Proof.
  destruct p as [[r1 g1] b1], c as [[r2 g2] b2]. unfold rgb_ok, sqDistance.
  intros (Hr1 & Hg1 & Hb1) (Hr2 & Hg2 & Hb2).
  pose proof (sq_diff_range r1 r2 Hr1 Hr2). pose proof (sq_diff_range g1 g2 Hg1 Hg2).
  pose proof (sq_diff_range b1 b2 Hb1 Hb2). lia.
Qed.

Lemma u8_sq_diff (x y : Z) :
  is_u8 x -> is_u8 y ->
  b64_pow2 (b64_sub (b64_of_Z x) (b64_of_Z y)) = b64_of_Z ((x - y) * (x - y)).
Proof.
  intros Hx Hy. pose proof (sq_diff_range x y Hx Hy). unfold is_u8 in *.
  rewrite b64_sub_int by lia. apply b64_pow2_int. lia.
Qed.

Lemma rgbDistance_exact p c :
  rgb_ok p -> rgb_ok c -> rgbDistance p c = b64_sqrt (b64_of_Z (sqDistance p c)).
Proof.
  destruct p as [[r1 g1] b1], c as [[r2 g2] b2]. unfold rgb_ok, sqDistance, rgbDistance.
  intros (Hr1 & Hg1 & Hb1) (Hr2 & Hg2 & Hb2).
  rewrite !u8_sq_diff by assumption.
  pose proof (sq_diff_range r1 r2 Hr1 Hr2). pose proof (sq_diff_range g1 g2 Hg1 Hg2).
  pose proof (sq_diff_range b1 b2 Hb1 Hb2).
  rewrite !b64_add_int by lia. reflexivity.
Qed.

(** C7: [rgbDistance] orders colours as the exact distance does.  For 8-bit
    colours, comparing two results of [rgbDistance] with [<] in double
    precision gives the comparison of the exact squared distances: no two
    different distances are merged by rounding and none are reordered. *)
Theorem rgbDistance_lt p c1 c2 :
  rgb_ok p -> rgb_ok c1 -> rgb_ok c2 ->
  b64_lt (rgbDistance p c1) (rgbDistance p c2) = (sqDistance p c1 <? sqDistance p c2).
Proof.
  intros Hp H1 H2. rewrite !rgbDistance_exact by done.
  pose proof (sqDistance_range p c1 Hp H1). pose proof (sqDistance_range p c2 Hp H2).
  apply b64_sqrt_lt_int; lia.
Qed.

Lemma findClosest_nearest counts p entries bestName minDistance best :
  rgb_ok p -> Forall (fun e => rgb_ok (snd e)) entries ->
  best_rel bestName minDistance best ->
  findClosest counts (Some p) entries bestName minDistance
  = Returns (fst <$> nearest counts p entries best).
Proof.
  intros Hp Hentries. revert bestName minDistance best.
  induction Hentries as [|[name c] rest Hc _ IH]; intros bestName minDistance best Hrel; simpl.
  - destruct best as [[nm d]|]; simpl in *; destruct_and?; by subst.
  - destruct (inStock counts name); [|by apply IH].
    pose proof (sqDistance_range p c Hp Hc) as Hd.
    rewrite (rgbDistance_exact p c Hp Hc).
    destruct best as [[nm d]|]; simpl in Hrel; destruct_and?; subst.
    + rewrite b64_sqrt_lt_int by lia.
      destruct (sqDistance p c <? d); apply IH; simpl; auto.
    + rewrite b64_sqrt_lt_infinity by lia. apply IH; simpl; auto.
Qed.

(** ** The reference scan picks the first nearest in-stock colour *)

Lemma first_nearest_skip counts p entries name c name' c' :
  (inStock counts name' = true -> sqDistance p c < sqDistance p c') ->
  first_nearest counts p entries name c ->
  first_nearest counts p ((name', c') :: entries) name c.
Proof.
  intros Hlt (pre & post & -> & Hin & Hpre & Hpost).
  exists ((name', c') :: pre), post. repeat split; auto.
Qed.

Lemma nearest_Some_spec counts p entries nm dmin :
  (nearest counts p entries (Some (nm, dmin)) = Some (nm, dmin) /\
   Forall (fun e => inStock counts (fst e) = true -> dmin <= sqDistance p (snd e)) entries) \/
  (exists name c, nearest counts p entries (Some (nm, dmin)) = Some (name, sqDistance p c) /\
                  sqDistance p c < dmin /\ first_nearest counts p entries name c).
Proof.
  revert nm dmin. induction entries as [|[name c] rest IH]; intros nm dmin; simpl.
  - left. split; [reflexivity | constructor].
  - destruct (inStock counts name) eqn:Hin.
    + destruct (Z.ltb_spec (sqDistance p c) dmin) as [Hlt|Hge].
      * right. destruct (IH name (sqDistance p c)) as [[-> Hall]|(name' & c' & -> & Hlt' & Hfn)].
        -- exists name, c. repeat split; auto. exists [], rest. repeat split; auto.
        -- exists name', c'. repeat split; [lia|]. apply first_nearest_skip; auto.
      * destruct (IH nm dmin) as [[-> Hall]|(name' & c' & -> & Hlt' & Hfn)].
        -- left. split; [reflexivity|]. constructor; auto.
        -- right. exists name', c'. repeat split; auto. apply first_nearest_skip; auto.
           simpl. lia.
    + destruct (IH nm dmin) as [[-> Hall]|(name' & c' & -> & Hlt' & Hfn)].
      * left. split; [reflexivity|]. constructor; [simpl; congruence | auto].
      * right. exists name', c'. repeat split; auto. apply first_nearest_skip; auto.
        simpl. congruence.
Qed.

Lemma nearest_None_spec counts p entries :
  (nearest counts p entries None = None /\
   Forall (fun e => inStock counts (fst e) = false) entries) \/
  (exists name c, nearest counts p entries None = Some (name, sqDistance p c) /\
                  first_nearest counts p entries name c).
Proof.
  induction entries as [|[name c] rest IH]; simpl.
  - left. split; [reflexivity | constructor].
  - destruct (inStock counts name) eqn:Hin.
    + right. destruct (nearest_Some_spec counts p rest name (sqDistance p c))
        as [[-> Hall]|(name' & c' & -> & Hlt' & Hfn)].
      * exists name, c. split; [reflexivity|]. exists [], rest. repeat split; auto.
      * exists name', c'. split; [reflexivity|]. apply first_nearest_skip; auto.
    + destruct IH as [[-> Hall]|(name' & c' & -> & Hfn)].
      * left. split; [reflexivity|]. constructor; auto.
      * right. exists name', c'. split; [reflexivity|]. apply first_nearest_skip; auto.
        simpl. congruence.
Qed.

(** The scan returns the first nearest in-stock entry, or nothing when no
    entry is in stock. *)
Lemma findClosest_cases counts p entries :
  rgb_ok p -> Forall (fun e => rgb_ok (snd e)) entries ->
  (findClosest counts (Some p) entries None b64_infinity = Returns None /\
   Forall (fun e => inStock counts (fst e) = false) entries) \/
  (exists name c, findClosest counts (Some p) entries None b64_infinity = Returns (Some name) /\
                  first_nearest counts p entries name c).
Proof.
  intros Hp Hentries.
  rewrite (findClosest_nearest counts p entries None b64_infinity None Hp Hentries)
    by (split; reflexivity).
  destruct (nearest_None_spec counts p entries) as [[-> Hall]|(name & c & -> & Hfn)].
  - left. split; [reflexivity | exact Hall].
  - right. exists name, c. split; [reflexivity | exact Hfn].
Qed.

Lemma first_nearest_lookup counts p entries name c :
  first_nearest counts p entries name c <->
  exists i, entries !! i = Some (name, c) /\ inStock counts name = true /\
    (forall j e, entries !! j = Some e -> inStock counts (fst e) = true ->
       ((j < i)%nat -> sqDistance p c < sqDistance p (snd e)) /\
       ((i < j)%nat -> sqDistance p c <= sqDistance p (snd e))).
Proof.
  split.
  - intros (pre & post & -> & Hin & Hpre & Hpost). exists (length pre).
    split; [by rewrite list_lookup_middle|]. split; [done|]. intros j e Hj He. split; intros Hlt.
    + rewrite lookup_app_l in Hj by done. by eapply (Forall_lookup_1 _ _ _ _ Hpre).
    + rewrite lookup_app_r, lookup_cons_ne_0 in Hj by lia.
      by eapply (Forall_lookup_1 _ _ _ _ Hpost).
  - intros (i & Hi & Hin & Hall). exists (take i entries), (drop (S i) entries).
    split; [symmetry; by apply take_drop_middle|]. split; [done|].
    split; apply Forall_lookup_2; intros j e Hj He.
    + apply lookup_take_Some in Hj as [Hj Hlt]. by apply (Hall j e).
    + rewrite lookup_drop in Hj. apply (Hall _ e Hj He). lia.
Qed.

Lemma first_nearest_unique counts p entries name c name' c' :
  first_nearest counts p entries name c -> first_nearest counts p entries name' c' ->
  name = name' /\ c = c'.
Proof.
  intros (i & Hi & Hin & Hall)%first_nearest_lookup (j & Hj & Hin' & Hall')%first_nearest_lookup.
  destruct (Nat.lt_trichotomy i j) as [Hlt|[->|Hlt]].
  - pose proof (proj2 (Hall j _ Hj Hin') Hlt). pose proof (proj1 (Hall' i _ Hi Hin) Hlt).
    simpl in *. lia.
  - by simplify_eq.
  - pose proof (proj1 (Hall j _ Hj Hin') Hlt). pose proof (proj2 (Hall' i _ Hi Hin) Hlt).
    simpl in *. lia.
Qed.

(** C2: the inner loop picks the nearest colour in stock, the first one on
    ties.  For an 8-bit pixel and 8-bit palette colours, the scan of
    [findClosest] from [bestName = null] and [minDistance = Infinity] returns
    [Some name] exactly when [name] is the in-stock entry that is strictly
    nearer to the pixel (in exact squared Euclidean distance) than every
    in-stock entry declared before it and at least as near as every in-stock
    entry declared after it; it returns [None] exactly when no entry is in
    stock.  Double-precision rounding of the distances changes nothing. *)
Theorem findClosest_correct counts p entries r :
  rgb_ok p -> Forall (fun e => rgb_ok (snd e)) entries ->
  findClosest counts (Some p) entries None b64_infinity = Returns r <->
  match r with
  | Some name => exists c, first_nearest counts p entries name c
  | None => Forall (fun e => inStock counts (fst e) = false) entries
  end.
Proof.
  intros Hp Hentries.
  destruct (findClosest_cases counts p entries Hp Hentries) as [[-> Hall]|(name & c & -> & Hfn)].
  - split.
    + by intros [= <-].
    + destruct r as [name|]; [|done]. intros (c & pre & post & -> & Hin & _).
      apply Forall_app in Hall as [_ [Hout _]%Forall_cons_1]. simpl in Hout. congruence.
  - split.
    + intros [= <-]. by exists c.
    + destruct r as [name'|].
      * intros [c' Hfn']. by destruct (first_nearest_unique _ _ _ _ _ _ _ Hfn Hfn') as [-> _].
      * intros Hall. destruct Hfn as (pre & post & -> & Hin & _).
        apply Forall_app in Hall as [_ [Hout _]%Forall_cons_1]. simpl in Hout. congruence.
Qed.

(** ** The outer loop *)

(** *** Reading outside the pixel array *)

Lemma findClosest_undefined_throws counts entries bestName minDistance :
  Exists (fun e => inStock counts (fst e) = true) entries ->
  findClosest counts None entries bestName minDistance = Throws TypeError.
Proof.
  induction 1 as [[name c] rest Hin|[name c] rest _ IH]; simpl in *.
  - by rewrite Hin.
  - by destruct (inStock counts name).
Qed.

Lemma findClosest_undefined_returns counts entries bestName minDistance :
  Forall (fun e => inStock counts (fst e) = false) entries ->
  findClosest counts None entries bestName minDistance = Returns bestName.
Proof.
  induction 1 as [|[name c] rest Hin _ IH]; simpl in *; [done|]. by rewrite Hin.
Qed.

Lemma inStock_spec counts name : inStock counts name = true <-> 0 < stock_of counts name.
Proof.
  unfold inStock, stock_of. destruct (counts !! name) as [n|]; simpl.
  - by rewrite bool_decide_eq_true.
  - split; [discriminate | lia].
Qed.

Lemma inStock_false counts name : inStock counts name = false <-> stock_of counts name <= 0.
Proof.
  rewrite <- not_true_iff_false, inStock_spec. lia.
Qed.

Section palette.
Context (data : palette) (Hok : palette_ok data).

Lemma RGB_VALUES_ok : Forall (fun e => rgb_ok (snd e)) (RGB_VALUES data).
Proof.
  destruct Hok as [_ Hall]. unfold RGB_VALUES. rewrite Forall_fmap.
  eapply Forall_impl; [exact Hall|]. intros [name d] (_ & Hc & _). exact Hc.
Qed.

Lemma RGB_VALUES_entry name c :
  (name, c) ∈ RGB_VALUES data ->
  name <> "" /\ name ∈ palette_names data /\ table_get (RGB_VALUES data) name = Some c.
Proof.
  intros Hin. destruct Hok as [Hnd Hall]. split; [|split].
  - unfold RGB_VALUES in Hin. apply list_elem_of_fmap in Hin as ([n d] & [= -> ->] & Hin).
    rewrite Forall_forall in Hall. by destruct (Hall _ Hin).
  - rewrite <- RGB_VALUES_names. apply list_elem_of_fmap. by exists (name, c).
  - apply table_get_NoDup; [by rewrite RGB_VALUES_names | done].
Qed.

(** One iteration on a pixel of the array: nothing changes when the stock
    is empty, otherwise the first nearest colour is written at [idx] and one
    piece of it is taken. *)
Lemma assignPixel_cases pixels st idx p :
  pixels !! idx = Some p -> rgb_ok p ->
  (assignPixel data pixels st idx = Returns st /\
   Forall (fun e => inStock (st_counts st) (fst e) = false) (RGB_VALUES data)) \/
  (exists name c, first_nearest (st_counts st) p (RGB_VALUES data) name c /\
     assignPixel data pixels st idx = Returns {|
       st_counts := alter Z.pred name (st_counts st);
       coreImage := <[idx := c]> (coreImage st);
       coreColorNameMap := <[idx := name]> (coreColorNameMap st) |}).
Proof.
  intros Hidx Hp. unfold assignPixel. rewrite Hidx.
  destruct (findClosest_cases (st_counts st) p (RGB_VALUES data) Hp RGB_VALUES_ok)
    as [[-> Hall]|(name & c & -> & Hfn)]; unfold mbind, outcome_bind, truthy.
  - left. split; [reflexivity | exact Hall].
  - right. exists name, c. split; [exact Hfn|].
    destruct Hfn as (pre & post & Heq & _).
    destruct (RGB_VALUES_entry name c) as (Hne & _ & Hget).
    { rewrite Heq. apply elem_of_app. right. left. }
    rewrite decide_False by exact Hne. cbv beta iota. rewrite Hget. reflexivity.
Qed.

Lemma assignPixel_step pixels st idx :
  Forall rgb_ok pixels -> (idx < length pixels)%nat ->
  exists st', assignPixel data pixels st idx = Returns st' /\ step data pixels st idx st'.
Proof.
  intros Hpx Hidx. destruct (lookup_lt_is_Some_2 pixels idx Hidx) as [p Hp].
  assert (rgb_ok p) as Hpok by (eapply Forall_lookup_1; eauto).
  destruct (assignPixel_cases pixels st idx p Hp Hpok) as [[-> Hall]|(name & c & Hfn & ->)].
  - exists st. split; [reflexivity | by constructor].
  - eexists. split; [reflexivity | by econstructor].
Qed.

(** The loop returns when every index is inside the
    pixel array, and its result is a run of the step relation. *)
Lemma assignAll_run pixels st pixelIndices :
  Forall rgb_ok pixels -> Forall (fun idx => (idx < length pixels)%nat) pixelIndices ->
  exists st', assignAll data pixels st pixelIndices = Returns st' /\
              run data pixels st pixelIndices st'.
Proof.
  intros Hpx Hidx. revert st.
  induction Hidx as [|idx rest Hlt _ IH]; intros st; simpl.
  - exists st. split; [reflexivity | constructor].
  - destruct (assignPixel_step pixels st idx Hpx Hlt) as (st1 & -> & Hstep).
    destruct (IH st1) as (st' & Hrun & Hrel).
    exists st'. split; [exact Hrun | by econstructor].
Qed.

(** The step relation is a function of the state and the index. *)
Lemma step_det pixels st idx st1 st2 :
  step data pixels st idx st1 -> step data pixels st idx st2 -> st1 = st2.
Proof.
  intros [Hall|p name c Hp Hfn] [Hall'|p' name' c' Hp' Hfn']; [done| | |].
  - destruct Hfn' as (pre & post & Heq & Hin & _). rewrite Heq in Hall.
    apply Forall_app in Hall as [_ [Hout _]%Forall_cons_1]. simpl in Hout. congruence.
  - destruct Hfn as (pre & post & Heq & Hin & _). rewrite Heq in Hall'.
    apply Forall_app in Hall' as [_ [Hout _]%Forall_cons_1]. simpl in Hout. congruence.
  - simplify_eq. by destruct (first_nearest_unique _ _ _ _ _ _ _ Hfn Hfn') as [-> ->].
Qed.

(** C6: the loop implements the step relation, and the relation determines the
    result.  Whenever the step relation [run] (each visit either finds nothing
    in stock and changes nothing, or writes the first nearest in-stock colour
    and takes one piece of it) leads from a state to a final state over
    indices inside the image, [assignAll] returns exactly that final state. *)
Theorem assignAll_complete pixels st pixelIndices st' :
  Forall rgb_ok pixels -> Forall (fun idx => (idx < length pixels)%nat) pixelIndices ->
  run data pixels st pixelIndices st' ->
  assignAll data pixels st pixelIndices = Returns st'.
Proof.
  intros Hpx Hidx Hrun. induction Hrun as [st|st idx st1 rest st' Hstep Hrun IH]; [done|].
  apply Forall_cons_1 in Hidx as [Hlt Hidx]. simpl.
  destruct (assignPixel_step pixels st idx Hpx Hlt) as (st2 & -> & Hstep2).
  rewrite (step_det _ _ _ _ _ Hstep2 Hstep). by apply IH.
Qed.

End palette.

(** *** The stock *)

Lemma stock_of_alter counts name name' :
  stock_of (alter Z.pred name counts) name' =
  if decide (name = name' /\ is_Some (counts !! name))
  then stock_of counts name' - 1 else stock_of counts name'.
Proof.
  unfold stock_of. destruct (decide (name = name')) as [->|Hne].
  - rewrite lookup_alter_eq. destruct (counts !! name') as [n|]; simpl.
    + rewrite decide_True; [lia | eauto].
    + rewrite decide_False; [done | intros [_ [? ?]]; done].
  - rewrite lookup_alter_ne by done. rewrite decide_False; [done | tauto].
Qed.

Lemma inStock_is_Some counts name : inStock counts name = true -> is_Some (counts !! name).
Proof. unfold inStock. destruct (counts !! name); [eauto | discriminate]. Qed.

Lemma Zsum_stock_alter counts name (names : list string) :
  NoDup names -> name ∈ names -> inStock counts name = true ->
  Zsum (stock_of (alter Z.pred name counts) <$> names) = Zsum (stock_of counts <$> names) - 1.
Proof.
  intros Hnd Hin Hstock. pose proof (inStock_is_Some _ _ Hstock) as Hsome.
  induction Hnd as [|x names Hx Hnd IH]; [by apply elem_of_nil in Hin|].
  rewrite !fmap_cons. unfold Zsum in *. simpl. rewrite stock_of_alter.
  apply elem_of_cons in Hin as [<-|Hin].
  - rewrite decide_True by done.
    assert (stock_of (alter Z.pred name counts) <$> names = stock_of counts <$> names) as ->; [|lia].
    apply list_fmap_ext. intros i y Hy. rewrite stock_of_alter, decide_False; [done|].
    intros [-> _]. apply Hx. eapply list_elem_of_lookup_2, Hy.
  - rewrite decide_False, IH by (done || intros [-> _]; done). lia.
Qed.

Section stock.
Context (data : palette) (Hok : palette_ok data).

Lemma ORIGINAL_COUNTS_get name :
  name ∈ palette_names data <-> is_Some (table_get (ORIGINAL_COUNTS data) name).
Proof.
  rewrite <- not_eq_None_Some, table_get_None, ORIGINAL_COUNTS_names.
  destruct (decide (name ∈ palette_names data)); tauto.
Qed.

Lemma initial_counts_lookup name :
  (list_to_map (ORIGINAL_COUNTS data) : gmap string Z) !! name
  = table_get (ORIGINAL_COUNTS data) name.
Proof.
  destruct Hok as [Hnd _]. rewrite <- ORIGINAL_COUNTS_names in Hnd.
  destruct (table_get (ORIGINAL_COUNTS data) name) as [n|] eqn:Hget.
  - apply elem_of_list_to_map_1; [exact Hnd | by apply table_get_Some].
  - apply not_elem_of_list_to_map_1. by apply table_get_None.
Qed.

Lemma counts_ok_initial : counts_ok data (list_to_map (ORIGINAL_COUNTS data)).
Proof.
  split.
  - rewrite dom_list_to_map_L, ORIGINAL_COUNTS_names. reflexivity.
  - intros name orig Hget. unfold stock_of. rewrite initial_counts_lookup, Hget. simpl.
    apply table_get_Some in Hget. unfold ORIGINAL_COUNTS in Hget.
    apply list_elem_of_fmap in Hget as ([n d] & [= -> ->] & Hin).
    destruct Hok as [_ Hall]. rewrite Forall_forall in Hall.
    destruct (Hall _ Hin) as (_ & _ & Hc). simpl in Hc. lia.
Qed.

Lemma stock_sum_initial :
  stock_sum data (list_to_map (ORIGINAL_COUNTS data)) = total_stock data.
Proof.
  unfold stock_sum, total_stock, palette_names. rewrite <- list_fmap_compose.
  fold (Zsum (colour_count ∘ snd <$> data)). f_equal.
  apply Forall_fmap_ext_1, Forall_forall. intros [name d] Hin. simpl.
  unfold stock_of. rewrite initial_counts_lookup.
  rewrite (table_get_NoDup _ name (colour_count d)); [done | |].
  - rewrite ORIGINAL_COUNTS_names. apply Hok.
  - apply list_elem_of_fmap. by exists (name, d).
Qed.

Lemma stock_of_nonneg counts name :
  counts_ok data counts -> name ∈ palette_names data -> 0 <= stock_of counts name.
Proof.
  intros [_ Hb] Hin. apply ORIGINAL_COUNTS_get in Hin as [orig Hget].
  by destruct (Hb name orig Hget).
Qed.

(** Nothing is in stock exactly when the pieces left sum to zero. *)
Lemma stock_sum_zero counts :
  counts_ok data counts ->
  Forall (fun e => inStock counts (fst e) = false) (RGB_VALUES data) <-> stock_sum data counts = 0.
Proof.
  intros Hc. unfold stock_sum.
  rewrite Zsum_zero by (apply Forall_fmap, Forall_forall; intros; by apply stock_of_nonneg).
  rewrite <- RGB_VALUES_names, !Forall_fmap, !Forall_forall.
  apply forall_proper. intros [name c]. simpl. rewrite inStock_false.
  split; intros H Hin; specialize (H Hin); [|lia].
  enough (0 <= stock_of counts name) by lia. apply stock_of_nonneg; [done|].
  rewrite <- RGB_VALUES_names. apply list_elem_of_fmap. by exists (name, c).
Qed.

Lemma stock_sum_nonneg counts : counts_ok data counts -> 0 <= stock_sum data counts.
Proof.
  intros Hc. apply Zsum_nonneg, Forall_fmap, Forall_forall. intros; by apply stock_of_nonneg.
Qed.

Lemma counts_ok_alter counts name :
  counts_ok data counts -> inStock counts name = true ->
  counts_ok data (alter Z.pred name counts).
Proof.
  intros [Hdom Hb] Hin. split.
  - by rewrite dom_alter_L.
  - intros name' orig Hget. specialize (Hb name' orig Hget). rewrite stock_of_alter.
    case_decide as Hd; [|done]. destruct Hd as [-> _].
    apply inStock_spec in Hin. lia.
Qed.

(** *** What one step does *)

Lemma first_nearest_entry counts p name c :
  first_nearest counts p (RGB_VALUES data) name c ->
  (name, c) ∈ RGB_VALUES data /\ inStock counts name = true /\
  name ∈ palette_names data /\ name <> "".
Proof.
  intros (pre & post & Heq & Hin & _).
  assert ((name, c) ∈ RGB_VALUES data) as Hmem
    by (rewrite Heq; apply elem_of_app; right; left).
  destruct (RGB_VALUES_entry data Hok name c Hmem) as (? & ? & _). auto.
Qed.

Lemma step_cases pixels st idx st' :
  counts_ok data (st_counts st) -> step data pixels st idx st' ->
  (st' = st /\ stock_sum data (st_counts st) = 0) \/
  (exists name c, (name, c) ∈ RGB_VALUES data /\ name <> "" /\
     is_Some (pixels !! idx) /\ 0 < stock_sum data (st_counts st) /\
     stock_sum data (st_counts st') = stock_sum data (st_counts st) - 1 /\
     (forall name', stock_of (st_counts st') name' <= stock_of (st_counts st) name') /\
     counts_ok data (st_counts st') /\
     coreImage st' = <[idx := c]> (coreImage st) /\
     coreColorNameMap st' = <[idx := name]> (coreColorNameMap st)).
Proof.
  intros Hc [Hall|p name c Hp Hfn].
  - left. split; [reflexivity | by apply stock_sum_zero].
  - right. exists name, c. destruct (first_nearest_entry _ _ _ _ Hfn) as (Hmem & Hin & Hname & Hne).
    assert (stock_sum data (alter Z.pred name (st_counts st)) = stock_sum data (st_counts st) - 1)
      as Hsum by (apply Zsum_stock_alter; [apply Hok | done..]).
    pose proof (counts_ok_alter _ _ Hc Hin) as Hc'. pose proof (stock_sum_nonneg _ Hc').
    simpl. split_and!; eauto; try lia.
    intros name'. rewrite stock_of_alter. case_decide; lia.
Qed.

Lemma step_state_ok pixels N st idx st' :
  state_ok data N st -> step data pixels st idx st' -> state_ok data N st'.
Proof.
  intros (Hl1 & Hl2 & Hc) Hstep.
  destruct (step_cases _ _ _ _ Hc Hstep)
    as [[-> _]|(name & c & _ & _ & _ & _ & _ & _ & Hc' & Hi & Hn)]; [done|].
  unfold state_ok. rewrite Hi, Hn. by autorewrite with recopix.
Qed.

(** *** Invariants of a run *)

(** The state stays well formed, no stock increases, and a run over [n]
    indices takes [n] pieces, or all of them when fewer are left. *)
Lemma run_stock pixels N st idxs st' :
  state_ok data N st -> run data pixels st idxs st' ->
  state_ok data N st' /\
  stock_sum data (st_counts st') = Z.max 0 (stock_sum data (st_counts st) - Z.of_nat (length idxs)) /\
  forall name, stock_of (st_counts st') name <= stock_of (st_counts st) name.
Proof.
  intros Hst Hrun. induction Hrun as [st|st idx st1 rest st' Hstep Hrun IH].
  - pose proof (stock_sum_nonneg _ (proj2 (proj2 Hst))). simpl. split_and!; [done|lia|done].
  - destruct (IH (step_state_ok _ _ _ _ _ Hst Hstep)) as (Hst' & Hsum & Hmono).
    split; [exact Hst'|]. rewrite Hsum. simpl length.
    destruct (step_cases _ _ _ _ (proj2 (proj2 Hst)) Hstep)
      as [[-> Hz]|(name & c & _ & _ & _ & Hpos & Hs1 & Hm1 & _)].
    + split; [lia | exact Hmono].
    + split; [lia|]. intros name'. etransitivity; [apply Hmono | apply Hm1].
Qed.

(** A run only writes at the indices it visits. *)
Lemma run_frame pixels st idxs st' j :
  counts_ok data (st_counts st) -> run data pixels st idxs st' -> j ∉ idxs ->
  coreColorNameMap st' !! j = coreColorNameMap st !! j /\
  coreImage st' !! j = coreImage st !! j.
Proof.
  intros Hc Hrun. induction Hrun as [st|st idx st1 rest st' Hstep Hrun IH]; [done|].
  intros [Hne Hj]%not_elem_of_cons.
  destruct (step_cases _ _ _ _ Hc Hstep)
    as [[-> _]|(name & c & _ & _ & _ & _ & _ & _ & Hc' & Hi & Hn)]; [by apply IH|].
  destruct (IH Hc' Hj) as [-> ->]. rewrite Hi, Hn, !list_lookup_insert_ne; done.
Qed.

Lemma fresh_step pixels st idx rest st1 :
  counts_ok data (st_counts st) -> fresh st (idx :: rest) -> step data pixels st idx st1 ->
  (idx ∉ rest) /\ fresh st1 rest.
Proof.
  intros Hc [Hnd Hall] Hstep. apply NoDup_cons in Hnd as [Hni Hnd].
  apply Forall_cons in Hall as [_ Hall]. split; [exact Hni|]. split; [exact Hnd|].
  destruct (step_cases _ _ _ _ Hc Hstep)
    as [[-> _]|(name & c & _ & _ & _ & _ & _ & _ & _ & _ & Hn)]; [done|].
  rewrite Hn. rewrite Forall_forall in Hall |- *. intros j Hj.
  rewrite list_lookup_insert_ne; [by apply Hall | by intros ->].
Qed.

(** The cells hold the colours of their names. *)
Lemma step_cell pixels st idx st' :
  Forall2 (cell_ok data) (coreColorNameMap st) (coreImage st) ->
  step data pixels st idx st' ->
  Forall2 (cell_ok data) (coreColorNameMap st') (coreImage st').
Proof.
  intros Hcells [Hall|p name c Hp Hfn]; [done|]. simpl.
  apply Forall2_insert; [done|]. right.
  by destruct (first_nearest_entry _ _ _ _ Hfn).
Qed.

Lemma run_cells pixels st idxs st' :
  Forall2 (cell_ok data) (coreColorNameMap st) (coreImage st) ->
  run data pixels st idxs st' ->
  Forall2 (cell_ok data) (coreColorNameMap st') (coreImage st').
Proof.
  intros Hcells Hrun. induction Hrun as [st|st idx st1 rest st' Hstep Hrun IH]; [done|].
  eapply IH, step_cell; eauto.
Qed.

Lemma initialState_cells n :
  Forall2 (cell_ok data) (coreColorNameMap (initialState data n)) (coreImage (initialState data n)).
Proof.
  simpl. induction n as [|n IH]; simpl; constructor; [by left | exact IH].
Qed.

Context (Hsentinel : OUT_OF_STOCK ∉ palette_names data).

(** Exhaustion: in a run over fresh indices, the [k]-th visited pixel stays
    "Out of Stock" exactly when at most [k] pieces were left at the start. *)
Lemma run_exhaustion pixels st idxs st' :
  state_ok data (length pixels) st -> fresh st idxs -> run data pixels st idxs st' ->
  forall k idx, idxs !! k = Some idx ->
    coreColorNameMap st' !! idx = Some OUT_OF_STOCK <-> stock_sum data (st_counts st) <= Z.of_nat k.
Proof.
  intros Hst Hfresh Hrun. induction Hrun as [st|st idx st1 rest st' Hstep Hrun IH]; [done|].
  pose proof (proj2 (proj2 Hst)) as Hc.
  destruct (fresh_step _ _ _ _ _ Hc Hfresh Hstep) as [Hni Hfresh1].
  pose proof (step_state_ok _ _ _ _ _ Hst Hstep) as Hst1.
  destruct (run_frame _ _ _ _ idx (proj2 (proj2 Hst1)) Hrun Hni) as [Hframe _].
  specialize (IH Hst1 Hfresh1).
  destruct Hfresh as [_ Hhd]. apply Forall_cons in Hhd as [Hhd _].
  destruct (step_cases _ _ _ _ Hc Hstep)
    as [[-> Hz]|(name & c & Hmem & _ & Hpx & Hpos & Hs1 & _ & _ & _ & Hn)];
    intros [|k] idx' Hk; simplify_eq/=.
  - rewrite Hframe, Hhd. split; [lia | done].
  - rewrite (IH k idx' Hk). lia.
  - rewrite Hframe, Hn, list_lookup_insert_eq.
    + split; [intros [= ->] | lia]. exfalso. apply Hsentinel.
      rewrite <- RGB_VALUES_names. apply list_elem_of_fmap. by exists (OUT_OF_STOCK, c).
    + destruct Hst as (_ & Hlen & _). rewrite Hlen. by apply lookup_lt_is_Some.
  - rewrite (IH k idx' Hk), Hs1. lia.
Qed.

Lemma fresh_head st idx rest :
  fresh st (idx :: rest) -> coreColorNameMap st !! idx = Some OUT_OF_STOCK.
Proof. intros [_ Hall]. by apply Forall_cons in Hall as [? _]. Qed.

(** Conservation: every piece taken from the stock labels one more cell. *)
Lemma run_conservation pixels st idxs st' :
  state_ok data (length pixels) st -> fresh st idxs -> run data pixels st idxs st' ->
  Z.of_nat (assigned (coreColorNameMap st')) + stock_sum data (st_counts st')
  = Z.of_nat (assigned (coreColorNameMap st)) + stock_sum data (st_counts st).
Proof.
  intros Hst Hfresh Hrun. induction Hrun as [st|st idx st1 rest st' Hstep Hrun IH]; [done|].
  pose proof (proj2 (proj2 Hst)) as Hc.
  destruct (fresh_step _ _ _ _ _ Hc Hfresh Hstep) as [_ Hfresh1].
  rewrite (IH (step_state_ok _ _ _ _ _ Hst Hstep) Hfresh1).
  destruct (step_cases _ _ _ _ Hc Hstep)
    as [[-> Hz]|(name & c & Hmem & _ & Hpx & _ & -> & _ & _ & _ & ->)]; [done|].
  unfold assigned. rewrite (filter_insert_length _ _ _ _ OUT_OF_STOCK).
  - lia.
  - eapply fresh_head, Hfresh.
  - by intros ?.
  - intros ->. apply Hsentinel. rewrite <- RGB_VALUES_names.
    apply list_elem_of_fmap. by exists (OUT_OF_STOCK, c).
Qed.

(** Per colour: every piece taken labels one more cell with that colour. *)
Lemma step_usage pixels st idx st' name :
  name ∈ palette_names data ->
  coreColorNameMap st !! idx = Some OUT_OF_STOCK ->
  step data pixels st idx st' ->
  Z.of_nat (used (coreColorNameMap st') name) + stock_of (st_counts st') name
  = Z.of_nat (used (coreColorNameMap st) name) + stock_of (st_counts st) name.
Proof.
  intros Hname Hidx [Hall|p name' c Hp Hfn]; [done|]. simpl.
  destruct (first_nearest_entry _ _ _ _ Hfn) as (_ & Hin & Hname' & _).
  assert (OUT_OF_STOCK <> name) as Hne by (intros <-; done).
  rewrite stock_of_alter. unfold used. destruct (decide (name' = name)) as [->|Hne'].
  - rewrite (filter_insert_length _ _ _ _ OUT_OF_STOCK) by done.
    rewrite decide_True by (split; [done | by apply inStock_is_Some]). lia.
  - rewrite (filter_insert_length_same _ _ _ _ OUT_OF_STOCK) by done.
    rewrite decide_False by tauto. done.
Qed.

Lemma run_usage pixels st idxs st' name :
  name ∈ palette_names data ->
  counts_ok data (st_counts st) -> fresh st idxs -> run data pixels st idxs st' ->
  Z.of_nat (used (coreColorNameMap st') name) + stock_of (st_counts st') name
  = Z.of_nat (used (coreColorNameMap st) name) + stock_of (st_counts st) name.
Proof.
  intros Hname Hc Hfresh Hrun.
  induction Hrun as [st|st idx st1 rest st' Hstep Hrun IH]; [done|].
  destruct (fresh_step _ _ _ _ _ Hc Hfresh Hstep) as [_ Hfresh1].
  rewrite IH; [| |done].
  - eapply step_usage; [done | by eapply fresh_head | done].
  - destruct (step_cases _ _ _ _ Hc Hstep) as [[-> _]|(?&?&?&?&?&?&?&?&?&?)]; done.
Qed.

End stock.

(** *** Rows of the name map *)

Lemma chunks_concat {A} (fuel size : nat) (l : list A) :
  (0 < size)%nat -> (length l <= fuel)%nat -> concat (chunks fuel size l) = l.
Proof.
  intros Hsize. revert l. induction fuel as [|fuel IH]; intros l Hlen.
  - destruct l; [done | simpl in Hlen; lia].
  - destruct l as [|x l]; [done|]. cbn [chunks concat].
    rewrite IH, take_drop; [done|]. rewrite length_drop. simpl in *. lia.
Qed.

Lemma chunks_lookup {A} (fuel size : nat) (l : list A) (x y : nat) :
  (length l <= fuel)%nat -> (x < size)%nat ->
  chunks fuel size l !! y ≫= (.!! x) = l !! (y * size + x)%nat.
Proof.
  intros Hlen Hx. revert l y Hlen. induction fuel as [|fuel IH]; intros l y Hlen.
  - destruct l; [|simpl in Hlen; lia]. by rewrite lookup_nil.
  - destruct l as [|z l]; [by rewrite lookup_nil|]. cbn [chunks].
    destruct y as [|y].
    + simpl. by rewrite lookup_take_lt.
    + cbn [lookup list_lookup]. rewrite IH, lookup_drop.
      * f_equal. lia.
      * rewrite length_drop. simpl in *. lia.
Qed.

(** More fuel than the loop needs changes nothing. *)
Lemma chunks_fuel {A} (fuel fuel' size : nat) (l : list A) :
  (length l <= size * fuel)%nat -> (fuel <= fuel')%nat ->
  chunks fuel' size l = chunks fuel size l.
Proof.
  revert fuel' l. induction fuel as [|fuel IH]; intros fuel' l Hlen Hle.
  - destruct l; [by destruct fuel' | simpl in Hlen; lia].
  - destruct fuel' as [|fuel']; [lia|]. destruct l as [|x l]; [done|].
    cbn [chunks]. f_equal. apply IH; [|lia]. rewrite length_drop. lia.
Qed.

Lemma chunks_length {A} (fuel size : nat) (l : list A) :
  (0 < size)%nat -> (length l <= size * fuel)%nat ->
  length (chunks fuel size l) = ((length l + size - 1) / size)%nat.
Proof.
  intros Hsize. revert l. induction fuel as [|fuel IH]; intros l Hlen.
  - destruct l; [|simpl in Hlen; lia]. simpl. symmetry. apply Nat.div_small. lia.
  - destruct l as [|x l]; [simpl; symmetry; apply Nat.div_small; lia|].
    cbn [chunks length]. rewrite IH by (rewrite length_drop; lia). rewrite length_drop.
    cbn [length] in *. set (n := S (length l)) in *. assert (0 < n)%nat by (subst n; lia).
    destruct (decide (size <= n)%nat) as [Hge|Hlt].
    + replace (n + size - 1)%nat with ((n - size + size - 1) + 1 * size)%nat by lia.
      rewrite Nat.div_add by lia. lia.
    + replace (n - size + size - 1)%nat with (size - 1)%nat by lia.
      rewrite (Nat.div_small (size - 1)) by lia.
      apply (Nat.div_unique _ _ 1%nat (n - 1)%nat); lia.
Qed.

Lemma chunks_rows {A} (fuel size : nat) (l : list A) :
  (0 < size)%nat -> Forall (fun row => (0 < length row <= size)%nat) (chunks fuel size l).
Proof.
  intros Hsize. revert l. induction fuel as [|fuel IH]; intros l; [constructor|].
  destruct l as [|x l]; [constructor|]. cbn [chunks]. constructor; [|apply IH].
  rewrite length_take. simpl. lia.
Qed.

(** C33: the loop that cuts the name map into rows ends.  For a positive row
    size, any fuel of at least the length of the list divided by the row size
    gives the result of the fuel [mapToColours] uses: the loop runs once per
    row, [ceil(length / size)] times, every row has between 1 and [size]
    names, and the rows together are the list. *)
Theorem chunks_terminates {A} (fuel size : nat) (l : list A) :
  (0 < size)%nat -> (length l <= size * fuel)%nat ->
  chunks fuel size l = chunks (length l) size l /\
  length (chunks fuel size l) = ((length l + size - 1) / size)%nat /\
  Forall (fun row => (0 < length row <= size)%nat) (chunks fuel size l) /\
  concat (chunks fuel size l) = l.
Proof.
  intros Hsize Hlen.
  assert (length l <= size * length l)%nat as Hself by nia.
  assert (chunks fuel size l = chunks (length l) size l) as Heq.
  { destruct (Nat.le_ge_cases fuel (length l)).
    - by rewrite (chunks_fuel fuel (length l)).
    - by rewrite (chunks_fuel (length l) fuel). }
  split_and!; [done | by apply chunks_length | by apply chunks_rows|].
  rewrite Heq. by apply chunks_concat.
Qed.

Lemma mosaic_of_names st : names_of (mosaic_of st) = coreColorNameMap st.
Proof. apply chunks_concat; [unfold TARGET_SIZE; lia | done]. Qed.

(** *** The flat image *)

Lemma flat_length img : length (flat img) = (3 * length img)%nat.
Proof.
  induction img as [|[[r g] b] img IH]; [done|].
  unfold flat in *. cbn [mbind list_bind]. rewrite length_app, IH. simpl. lia.
Qed.

#[export] Hint Rewrite flat_length : recopix.

Lemma pixelAt_flat img i c : img !! i = Some c -> pixelAt (flat img) i = Some c.
Proof.
  revert i. induction img as [|[[r g] b] img IH]; intros [|i] Hi; simplify_eq/=; [done|].
  rewrite <- (IH i Hi). unfold pixelAt.
  replace (3 * S i)%nat with (S (S (S (3 * i)))) by lia. reflexivity.
Qed.

Lemma clamp8_u8 z : is_u8 z -> clamp8 z = z.
Proof. unfold is_u8, clamp8. lia. Qed.

Lemma flat_clamp8 img : Forall rgb_ok img -> clamp8 <$> flat img = flat img.
Proof.
  induction 1 as [|[[r g] b] img (Hr & Hg & Hb) _ IH]; [done|].
  unfold flat in *. cbn [mbind list_bind]. rewrite fmap_app, IH. simpl.
  by rewrite !clamp8_u8.
Qed.

Lemma cell_ok_rgb data name c : palette_ok data -> cell_ok data name c -> rgb_ok c.
Proof.
  intros Hok [[_ ->]|Hin]; [by vm_compute; intuition discriminate|].
  pose proof (RGB_VALUES_ok data Hok) as Hall. rewrite Forall_forall in Hall.
  apply (Hall _ Hin).
Qed.

(** *** The function returns, whatever the palette

    Only a pixel outside the image makes the scan throw: for indices inside
    the image the matcher returns on every inventory, well formed or not, and
    the name map keeps its size. *)

Lemma findClosest_returns counts p entries bestName minDistance :
  exists r, findClosest counts (Some p) entries bestName minDistance = Returns r.
Proof.
  revert bestName minDistance.
  induction entries as [|[name c] rest IH]; intros bestName minDistance; simpl; [by eexists|].
  repeat case_match; apply IH.
Qed.

Lemma assignPixel_returns data pixels st idx :
  (idx < length pixels)%nat ->
  exists st', assignPixel data pixels st idx = Returns st' /\
    length (coreColorNameMap st') = length (coreColorNameMap st).
Proof.
  intros [p Hp]%lookup_lt_is_Some_2. unfold assignPixel. rewrite Hp.
  destruct (findClosest_returns (st_counts st) p (RGB_VALUES data) None b64_infinity)
    as [r ->].
  cbn [mbind outcome_bind]. destruct (truthy r); (eexists; split; [reflexivity|]); [|done].
  cbn [coreColorNameMap]. lengths.
Qed.

Lemma assignAll_returns data pixels pixelIndices : forall st,
  Forall (fun idx => (idx < length pixels)%nat) pixelIndices ->
  exists st', assignAll data pixels st pixelIndices = Returns st' /\
    length (coreColorNameMap st') = length (coreColorNameMap st).
Proof.
  induction pixelIndices as [|idx rest IH]; intros st Hidx; [by exists st|].
  apply Forall_cons in Hidx as [Hidx Hrest].
  destruct (assignPixel_returns data pixels st idx Hidx) as (st1 & Hstep & Hlen1).
  destruct (IH st1 Hrest) as (st2 & Hrun & Hlen2).
  exists st2. cbn [assignAll]. rewrite Hstep. cbn [mbind outcome_bind].
  split; [done | congruence].
Qed.

Lemma mapToColours_returns data pixels pixelIndices :
  Forall (fun idx => (idx < length pixels)%nat) pixelIndices ->
  exists m, mapToColours data pixels pixelIndices = Returns m /\
    length (names_of m) = length pixels /\
    coreColorNameMap2D m = chunks (length (names_of m)) TARGET_SIZE (names_of m).
Proof.
  intros Hidx.
  destruct (assignAll_returns data pixels pixelIndices (initialState data (length pixels)) Hidx)
    as (st & Hrun & Hlen).
  exists (mosaic_of st). unfold mapToColours. rewrite Hrun. cbn [mbind outcome_bind].
  rewrite mosaic_of_names. split_and!; [done | |done].
  rewrite Hlen. cbn [initialState coreColorNameMap]. apply length_replicate.
Qed.

(** *** The whole function *)

Section mapToColours.
Context (data : palette) (Hok : palette_ok data).
Context (pixels : list rgb) (Hpx : Forall rgb_ok pixels).

Lemma initialState_ok : state_ok data (length pixels) (initialState data (length pixels)).
Proof.
  unfold state_ok, initialState. simpl. rewrite !length_replicate.
  split_and!; [done..|]. by apply counts_ok_initial.
Qed.

Lemma initialState_fresh pixelIndices :
  NoDup pixelIndices -> Forall (fun idx => (idx < length pixels)%nat) pixelIndices ->
  fresh (initialState data (length pixels)) pixelIndices.
Proof.
  intros Hnd Hall. split; [exact Hnd|]. eapply Forall_impl; [exact Hall|].
  intros idx Hlt. simpl. by apply lookup_replicate_2.
Qed.

Lemma assigned_replicate n : assigned (replicate n OUT_OF_STOCK) = 0%nat.
Proof.
  unfold assigned. induction n as [|n IH]; [done|]. simpl.
  by rewrite filter_cons_False by (intros H; by apply H).
Qed.

Lemma used_replicate n name : OUT_OF_STOCK <> name -> used (replicate n OUT_OF_STOCK) name = 0%nat.
Proof.
  intros Hne. unfold used. induction n as [|n IH]; [done|]. simpl.
  by rewrite filter_cons_False.
Qed.

(** [mapToColours] on indices inside the array returns the mosaic of a
    run of the step relation from the initial state. *)
(** [mapToColours] on indices inside the array returns the mosaic of a
    run of the step relation from the initial state. *)
Lemma mapToColours_run pixelIndices :
  Forall (fun idx => (idx < length pixels)%nat) pixelIndices ->
  exists st, run data pixels (initialState data (length pixels)) pixelIndices st /\
    state_ok data (length pixels) st /\
    mapToColours data pixels pixelIndices = Returns (mosaic_of st).
Proof.
  intros Hidx. unfold mapToColours.
  destruct (assignAll_run data Hok pixels (initialState data (length pixels)) pixelIndices Hpx Hidx)
    as (st & -> & Hrun).
  exists st. split; [exact Hrun|]. split; [|reflexivity].
  eapply run_stock; [exact Hok | apply initialState_ok | exact Hrun].
Qed.

(** The image of a reachable state: three channels per cell, holding the
    colour of the cell's name. *)
Lemma run_image pixelIndices st i name :
  run data pixels (initialState data (length pixels)) pixelIndices st ->
  coreColorNameMap st !! i = Some name ->
  exists c, pixelAt (coreImageArray (mosaic_of st)) i = Some c /\ cell_ok data name c.
Proof.
  intros Hrun Hi.
  pose proof (run_cells data Hok _ _ _ _ (initialState_cells data _) Hrun) as Hcells.
  destruct (Forall2_lookup_l _ _ _ _ _ Hcells Hi) as (c & Hc & Hcell).
  exists c. split; [|done]. simpl. rewrite flat_clamp8; [by apply pixelAt_flat|].
  apply Forall_forall. intros c' Hc'. apply list_elem_of_lookup in Hc' as [j Hj].
  destruct (Forall2_lookup_r _ _ _ _ _ Hcells Hj) as (name' & _ & Hcell').
  by eapply cell_ok_rgb.
Qed.

Lemma assignAll_app st l1 l2 :
  assignAll data pixels st (l1 ++ l2)
  = assignAll data pixels st l1 ≫= fun st1 => assignAll data pixels st1 l2.
Proof.
  revert st. induction l1 as [|idx l1 IH]; intros st; simpl; [done|].
  destruct (assignPixel data pixels st idx) as [st1|e]; simpl; [apply IH | done].
Qed.

Lemma assignPixel_undefined st idx :
  counts_ok data (st_counts st) -> pixels !! idx = None ->
  0 < stock_sum data (st_counts st) ->
  assignPixel data pixels st idx = Throws TypeError.
Proof.
  intros Hc Hnone Hpos. unfold assignPixel. rewrite Hnone.
  rewrite findClosest_undefined_throws; [done|].
  destruct (decide (Exists (fun e => inStock (st_counts st) (fst e) = true) (RGB_VALUES data)))
    as [Hex|Hnex]; [exact Hex | exfalso].
  apply not_Exists_Forall in Hnex; [|intros e; apply _].
  apply (Forall_impl _ (fun e => inStock (st_counts st) (fst e) = false)) in Hnex.
  - apply (stock_sum_zero data) in Hnex; [lia | done].
  - intros e He. by apply not_true_iff_false.
Qed.

(** C8: an index outside the image raises a [TypeError] while stock remains.
    If the indices before it are inside the image and fewer than the pieces of
    the palette, an index at or beyond the number of pixels makes
    [mapToColours] throw: [pixels[idx]] is [undefined] and [rgbDistance] reads
    its element 0. *)
Theorem mapToColours_throws pre idx post :
  Forall (fun i => (i < length pixels)%nat) pre ->
  Z.of_nat (length pre) < total_stock data -> (length pixels <= idx)%nat ->
  mapToColours data pixels (pre ++ idx :: post) = Throws TypeError.
Proof.
  intros Hpre Hstock Hidx. unfold mapToColours. rewrite assignAll_app.
  destruct (assignAll_run data Hok pixels (initialState data (length pixels)) pre Hpx Hpre)
    as (st & -> & Hrun).
  destruct (run_stock data Hok _ _ _ _ _ initialState_ok Hrun) as ((_ & _ & Hc) & Hsum & _).
  simpl in Hsum. rewrite (stock_sum_initial data Hok) in Hsum.
  simpl. rewrite assignPixel_undefined; [done | done | by apply lookup_ge_None | lia].
Qed.

(** The stock after a prefix of the processing order, and after all of it. *)
Lemma mapToColours_prefix pre post :
  Forall (fun idx => (idx < length pixels)%nat) pre ->
  Forall (fun idx => (idx < length pixels)%nat) post ->
  exists st1 st2,
    mapToColours data pixels pre = Returns (mosaic_of st1) /\
    mapToColours data pixels (pre ++ post) = Returns (mosaic_of st2) /\
    forall name, stock_of (st_counts st2) name <= stock_of (st_counts st1) name.
Proof.
  intros Hpre Hpost.
  destruct (assignAll_run data Hok pixels (initialState data (length pixels)) pre Hpx Hpre)
    as (st1 & Hst1 & Hrun1).
  destruct (assignAll_run data Hok pixels st1 post Hpx Hpost) as (st2 & Hst2 & Hrun2).
  exists st1, st2. unfold mapToColours. rewrite assignAll_app, Hst1. simpl. rewrite Hst2.
  split_and!; [done..|].
  destruct (run_stock data Hok _ _ _ _ _ initialState_ok Hrun1) as (Hok1 & _).
  by destruct (run_stock data Hok _ _ _ _ _ Hok1 Hrun2) as (_ & _ & Hle).
Qed.

Context (pixelIndices : list nat).
Context (Hidx : Forall (fun idx => (idx < length pixels)%nat) pixelIndices).

(** C5: the stock stays within its bounds.  For a well-formed palette, 8-bit
    pixels and indices inside the image (repeated or not), [mapToColours]
    returns; the final stock of every colour lies between zero and its
    original count, the pieces left are the original total minus the number of
    visits, or zero when there were more visits than pieces, and the stock
    never grows: after any prefix of the processing order every colour has at
    least as many pieces as at the end. *)
Theorem mapToColours_stock :
  exists m, mapToColours data pixels pixelIndices = Returns m /\
    stock_sum data (remainingCounts m)
    = Z.max 0 (total_stock data - Z.of_nat (length pixelIndices)) /\
    (forall name orig, table_get (ORIGINAL_COUNTS data) name = Some orig ->
       0 <= stock_of (remainingCounts m) name <= orig) /\
    forall pre post, pixelIndices = pre ++ post ->
      exists m', mapToColours data pixels pre = Returns m' /\
        forall name, stock_of (remainingCounts m) name <= stock_of (remainingCounts m') name.
Proof.
  destruct (mapToColours_run pixelIndices Hidx) as (st & Hrun & Hst & Hm).
  exists (mosaic_of st). split; [exact Hm|]. simpl.
  destruct (run_stock data Hok _ _ _ _ _ initialState_ok Hrun) as (_ & Hsum & _).
  simpl in Hsum. rewrite (stock_sum_initial data Hok) in Hsum.
  split; [exact Hsum|]. split; [apply Hst|].
  intros pre post Heq. pose proof Hidx as Hall. rewrite Heq in Hall, Hm.
  apply Forall_app in Hall as [Hpre Hpost].
  destruct (mapToColours_prefix pre post Hpre Hpost) as (st1 & st2 & Hm1 & Hm2 & Hle).
  exists (mosaic_of st1). split; [exact Hm1|]. intros name.
  rewrite Hm2 in Hm.
  assert (remainingCounts (mosaic_of st) = remainingCounts (mosaic_of st2)) as Hcounts
    by congruence.
  simpl in Hcounts. rewrite Hcounts. apply Hle.
Qed.

(** C22: the image agrees with the name map.  The name map has one name per
    pixel and the flat image three channels per pixel; the three channels of
    cell [i] are the colour that the palette gives to the name of cell [i],
    and black for a cell that is "Out of Stock". *)
Theorem mapToColours_image :
  exists m, mapToColours data pixels pixelIndices = Returns m /\
    length (names_of m) = length pixels /\
    length (coreImageArray m) = (3 * length pixels)%nat /\
    forall i name, names_of m !! i = Some name ->
      exists c, pixelAt (coreImageArray m) i = Some c /\ cell_ok data name c.
Proof.
  destruct (mapToColours_run pixelIndices Hidx) as (st & Hrun & (Hl1 & Hl2 & _) & ->).
  eexists. split; [reflexivity|]. rewrite mosaic_of_names. simpl.
  rewrite length_fmap, flat_length, Hl1. split_and!; [done..|].
  intros i name. by apply (run_image pixelIndices).
Qed.

Context (Hnd : NoDup pixelIndices) (Hsentinel : OUT_OF_STOCK ∉ palette_names data).

(** [mapToColours] returns, and its result meets the contract. *)
Lemma mapToColours_meets_spec :
  exists m, mapToColours data pixels pixelIndices = Returns m /\
            mosaic_spec data pixels pixelIndices m.
Proof.
  destruct (mapToColours_run pixelIndices Hidx) as (st & Hrun & Hst & ->).
  eexists. split; [reflexivity|].
  pose proof (initialState_fresh _ Hnd Hidx) as Hfresh.
  destruct (run_stock data Hok _ _ _ _ _ initialState_ok Hrun) as (_ & Hsum & _).
  simpl in Hsum. rewrite (stock_sum_initial data Hok) in Hsum.
  split; rewrite ?mosaic_of_names; simpl.
  - apply Hst.
  - exact Hsum.
  - reflexivity.
  - apply Hst.
  - intros i name. by apply (run_image pixelIndices).
  - rewrite (run_conservation data Hok Hsentinel _ _ _ _ initialState_ok Hfresh Hrun).
    simpl. by rewrite assigned_replicate, (stock_sum_initial data Hok).
  - intros k idx Hk.
    rewrite (run_exhaustion data Hok Hsentinel _ _ _ _ initialState_ok Hfresh Hrun k idx Hk).
    simpl. by rewrite (stock_sum_initial data Hok).
  - intros name orig Hget.
    assert (name ∈ palette_names data) as Hname by (apply (ORIGINAL_COUNTS_get data); eauto).
    pose proof (run_usage data Hok Hsentinel _ _ _ _ name Hname
                  (proj2 (proj2 initialState_ok)) Hfresh Hrun) as Hu.
    simpl in Hu. unfold stock_of at 2 in Hu.
    rewrite (initial_counts_lookup data Hok), Hget, used_replicate in Hu by (by intros <-).
    simpl in Hu. lia.
Qed.

(** C1: conservation of pieces.  For a well-formed palette that has no colour
    called "Out of Stock", 8-bit pixels and a processing order of distinct
    indices inside the image, [mapToColours] returns, and the number of cells
    that received a colour plus the number of pieces left in the final stock
    is the number of pieces of the original inventory: every piece taken from
    the stock labels exactly one cell. *)
Theorem mapToColours_conservation :
  exists m, mapToColours data pixels pixelIndices = Returns m /\
    Z.of_nat (assigned (names_of m)) + stock_sum data (remainingCounts m) = total_stock data.
Proof.
  destruct mapToColours_meets_spec as (m & Hm & Hspec).
  exists m. split; [exact Hm | apply Hspec].
Qed.

(** C3: exhaustion.  Under the hypotheses of conservation, the pixel visited
    at position [k] of the processing order ends as "Out of Stock" exactly
    when the palette holds at most [k] pieces in total: the first
    [total_stock] pixels of the order are served and all later ones are not.
    *)
Theorem mapToColours_exhaustion :
  exists m, mapToColours data pixels pixelIndices = Returns m /\
    forall k idx, pixelIndices !! k = Some idx ->
      names_of m !! idx = Some OUT_OF_STOCK <-> total_stock data <= Z.of_nat k.
Proof.
  destruct mapToColours_meets_spec as (m & Hm & Hspec).
  exists m. split; [exact Hm | apply Hspec].
Qed.

(** C4: per-colour accounting.  Under the hypotheses of conservation, for
    every colour of the palette the number of cells that carry its name is its
    original count minus its final stock. *)
Theorem mapToColours_usage :
  exists m, mapToColours data pixels pixelIndices = Returns m /\
    forall name orig, table_get (ORIGINAL_COUNTS data) name = Some orig ->
      Z.of_nat (used (names_of m) name) = orig - stock_of (remainingCounts m) name.
Proof.
  destruct mapToColours_meets_spec as (m & Hm & Hspec).
  exists m. split; [exact Hm | apply Hspec].
Qed.

(** Enough stock serves every visit.  Under the hypotheses of conservation,
    when the processing order is not longer than the number of pieces of the
    palette, no visited cell is left "Out of Stock". *)
Theorem mapToColours_sufficient :
  Z.of_nat (length pixelIndices) <= total_stock data ->
  exists m, mapToColours data pixels pixelIndices = Returns m /\
    Forall (fun idx => names_of m !! idx <> Some OUT_OF_STOCK) pixelIndices.
Proof.
  intros Hstock. destruct mapToColours_meets_spec as (m & Hm & Hspec).
  exists m. split; [exact Hm|]. apply Forall_forall. intros idx Hin.
  apply list_elem_of_lookup in Hin as [k Hk]. rewrite (spec_exhaustion _ _ _ _ Hspec k idx Hk).
  apply lookup_lt_Some in Hk. lia.
Qed.

End mapToColours.

(** ** The theorems on the worked example

    The palette holds one red and one blue piece; the pixels are visited in
    the order [2; 0; 1; 3]. *)

Lemma rgbDistance_lt_witness :
  b64_lt (rgbDistance (250, 5, 5) (255, 0, 0)) (rgbDistance (250, 5, 5) (0, 0, 255))
  = (sqDistance (250, 5, 5) (255, 0, 0) <? sqDistance (250, 5, 5) (0, 0, 255)).
Proof. apply rgbDistance_lt; by_compute. Defined.

Lemma findClosest_correct_witness :
  findClosest (st_counts (initialState scenario_palette 4)) (Some (250, 5, 5))
    (RGB_VALUES scenario_palette) None b64_infinity = Returns (Some "Red") <->
  exists c, first_nearest (st_counts (initialState scenario_palette 4)) (250, 5, 5)
              (RGB_VALUES scenario_palette) "Red" c.
Proof. apply (findClosest_correct _ _ _ (Some "Red")); by_compute. Defined.

Lemma assignAll_complete_witness :
  exists st', run scenario_palette scenario_pixels (initialState scenario_palette 4)
                scenario_order st' /\
    assignAll scenario_palette scenario_pixels (initialState scenario_palette 4) scenario_order
    = Returns st'.
Proof.
  assert (Forall rgb_ok scenario_pixels) as Hpx by by_compute.
  assert (Forall (fun idx => (idx < length scenario_pixels)%nat) scenario_order) as Hidx
    by by_compute.
  destruct (assignAll_run scenario_palette scenario_palette_ok scenario_pixels
              (initialState scenario_palette 4) scenario_order Hpx Hidx) as (st' & _ & Hrun).
  exists st'. split; [exact Hrun|].
  exact (assignAll_complete scenario_palette scenario_palette_ok _ _ _ _ Hpx Hidx Hrun).
Defined.

Lemma mapToColours_throws_witness :
  mapToColours scenario_palette scenario_pixels ([2%nat] ++ 7%nat :: [0%nat]) = Throws TypeError.
Proof. apply mapToColours_throws; by_compute. Defined.

Lemma mapToColours_stock_witness :
  exists m, mapToColours scenario_palette scenario_pixels scenario_order = Returns m /\
    stock_sum scenario_palette (remainingCounts m)
    = Z.max 0 (total_stock scenario_palette - Z.of_nat (length scenario_order)) /\
    (forall name orig, table_get (ORIGINAL_COUNTS scenario_palette) name = Some orig ->
       0 <= stock_of (remainingCounts m) name <= orig) /\
    forall pre post, scenario_order = pre ++ post ->
      exists m', mapToColours scenario_palette scenario_pixels pre = Returns m' /\
        forall name, stock_of (remainingCounts m) name <= stock_of (remainingCounts m') name.
Proof. apply mapToColours_stock; by_compute. Defined.

Lemma mapToColours_image_witness :
  exists m, mapToColours scenario_palette scenario_pixels scenario_order = Returns m /\
    length (names_of m) = length scenario_pixels /\
    length (coreImageArray m) = (3 * length scenario_pixels)%nat /\
    forall i name, names_of m !! i = Some name ->
      exists c, pixelAt (coreImageArray m) i = Some c /\ cell_ok scenario_palette name c.
Proof. apply mapToColours_image; by_compute. Defined.

Lemma mapToColours_conservation_witness :
  exists m, mapToColours scenario_palette scenario_pixels scenario_order = Returns m /\
    Z.of_nat (assigned (names_of m)) + stock_sum scenario_palette (remainingCounts m)
    = total_stock scenario_palette.
Proof. apply mapToColours_conservation; by_compute. Defined.

Lemma mapToColours_exhaustion_witness :
  exists m, mapToColours scenario_palette scenario_pixels scenario_order = Returns m /\
    forall k idx, scenario_order !! k = Some idx ->
      names_of m !! idx = Some OUT_OF_STOCK <-> total_stock scenario_palette <= Z.of_nat k.
Proof. apply mapToColours_exhaustion; by_compute. Defined.

Lemma mapToColours_usage_witness :
  exists m, mapToColours scenario_palette scenario_pixels scenario_order = Returns m /\
    forall name orig, table_get (ORIGINAL_COUNTS scenario_palette) name = Some orig ->
      Z.of_nat (used (names_of m) name) = orig - stock_of (remainingCounts m) name.
Proof. apply mapToColours_usage; by_compute. Defined.

Lemma mapToColours_sufficient_witness :
  exists m, mapToColours scenario_palette scenario_pixels [2; 0]%nat = Returns m /\
    Forall (fun idx => names_of m !! idx <> Some OUT_OF_STOCK) [2; 0]%nat.
Proof. apply mapToColours_sufficient; by_compute. Defined.

Lemma chunks_terminates_witness :
  chunks 2 3 [1; 2; 3; 4; 5] = chunks (length [1; 2; 3; 4; 5]) 3 [1; 2; 3; 4; 5] /\
  length (chunks 2 3 [1; 2; 3; 4; 5]) = ((length [1; 2; 3; 4; 5]%Z + 3 - 1) / 3)%nat /\
  Forall (fun row => (0 < length row <= 3)%nat) (chunks 2 3 [1; 2; 3; 4; 5]) /\
  concat (chunks 2 3 [1; 2; 3; 4; 5]) = [1; 2; 3; 4; 5].
Proof. apply chunks_terminates; simpl; lia. Defined.
