(* ===== verification/Ranker.v ===== *)
(** * Ranker: pixels, importance scores and processing order (script.js, getPixelData)

    [getPixelData] reads the RGBA bytes of the editor canvas, keeps the three
    colour channels of every pixel, scores each pixel with
    [0.299 * r + 0.587 * g + 0.114 * b] in double precision, and sorts the
    indices [0 .. n-1] with the comparator
    [(a, b) => importanceScores[b] - importanceScores[a]].

    [Array.prototype.sort] is stable, and for a consistent comparator its
    result is determined by the comparator alone.  The model is the stable
    insertion sort [sortWith]; [sortWith_unique] shows that every stable
    sorted permutation equals it, so the choice of algorithm is not
    observable.  The comparator's sign is read the way the sort reads it: a
    positive result puts [b] first.

    The scores of 8-bit pixels are non-negative doubles, and on those the
    sign of the rounded difference is the sign of the exact one
    ([Binary64.b64_sub_sign]): the comparator is consistent for every canvas
    ([compareFn_consistent]), and the result meets the contract [order_spec]:
    descending scores, ties in index order.  The score of a pixel is within
    half a thousandth of its exact luma ([importance_luma], from the error
    bounds of [Rounding]), so the order is also descending in exact luma. *)

From Stdlib Require Import ZArith Lia SpecFloat.
From stdpp Require Import base tactics option list strings sorting.
From S2P Require Import Prelude Binary64 Rounding Palette.

#[local] Open Scope Z_scope.

(** [0.299 * r + 0.587 * g + 0.114 * b] *)
Definition importance (r g b : Z) : spec_float :=
  (b64_of_decimal 299 1000 * b64_of_Z r +
   b64_of_decimal 587 1000 * b64_of_Z g +
   b64_of_decimal 114 1000 * b64_of_Z b)%b64.

(** The loop [for (let i = 0; i < data.length; i += 4)]: one pixel and one
    score per group of four bytes (the fourth, alpha, is not read).  The
    buffer that [getImageData] returns holds exactly four bytes per pixel, so
    the loop never starts a group it cannot finish; on a list whose length is
    not a multiple of four the model stops at the last whole group. *)
Fixpoint readPixels (data : list Z) : list (rgb * spec_float) :=
  match data with
  | r :: g :: b :: _ :: rest => ((r, g, b), importance r g b) :: readPixels rest
  | _ => []
  end.

(** [importanceScores[i]]; reading outside the array gives [undefined],
    which arithmetic turns into [NaN]. *)
Definition scoreAt (importanceScores : list spec_float) (i : nat) : spec_float :=
  default S754_nan (importanceScores !! i).

(** The comparator [(a, b) => importanceScores[b] - importanceScores[a]]. *)
Definition compareFn (importanceScores : list spec_float) (a b : nat) : spec_float :=
  (scoreAt importanceScores b - scoreAt importanceScores a)%b64.

(** The comparator says that [y] goes before [x]: its result on [(x, y)] is
    positive ([NaN] counts as zero). *)
Definition after {A} (cmp : A -> A -> spec_float) (x y : A) : bool :=
  (b64_of_Z 0 < cmp x y)%b64.

(** Stable insertion of [x], which stood before every element of the sorted
    list [l]: it passes the elements that the comparator puts first. *)
Fixpoint insertWith {A} (cmp : A -> A -> spec_float) (x : A) (l : list A) : list A :=
  match l with
  | [] => [x]
  | y :: l' => if after cmp x y then y :: insertWith cmp x l' else x :: l
  end.

(** [l.sort(cmp)] *)
Definition sortWith {A} (cmp : A -> A -> spec_float) (l : list A) : list A :=
  foldr (insertWith cmp) [] l.

(** What [getPixelData] returns. *)
Record pixelData : Type := PixelData {
  pixels : list rgb;
  pixelIndices : list nat
}.

(** function getPixelData(), on the bytes [editorCtx.getImageData] returned *)
Definition getPixelData (data : list Z) : pixelData :=
  let px := readPixels data in
  let importanceScores := snd <$> px in
  {| pixels := fst <$> px;
     pixelIndices := sortWith (compareFn importanceScores) (seq 0 (length px)) |}.

(** The importance scores that [getPixelData] computes on the way. *)
Definition scoresOf (data : list Z) : list spec_float := snd <$> readPixels data.

(** A comparator is consistent on the elements of [l] when "goes after" is
    asymmetric and its complement is transitive: the condition under which
    the language fixes the result of a sort. *)
Definition consistentOn {A} (cmp : A -> A -> spec_float) (l : list A) : Prop :=
  Forall (fun x => Forall (fun y =>
    (after cmp x y = true -> after cmp y x = false) /\
    Forall (fun z => after cmp x y = false -> after cmp y z = false ->
                     after cmp x z = false) l) l) l.

(** [x] may stand before [y] in the result: the comparator does not put [y]
    first, and on a tie the smaller index stays first. *)
Definition mayPrecede (cmp : nat -> nat -> spec_float) (x y : nat) : Prop :=
  after cmp x y = false /\ (after cmp y x = false -> (x < y)%nat).

(** The exact luma of a pixel, times 1000. *)
Definition luma1000 (p : rgb) : Z :=
  let '(r, g, b) := p in 299 * r + 587 * g + 114 * b.

(** The exact luma of pixel [i], times 1000. *)
Definition lumaAt (pixels : list rgb) (i : nat) : Z :=
  default 0 (luma1000 <$> pixels !! i).

(** [i] may stand before [j] in an array sorted by descending score: the
    score of [i] is not below the score of [j], and when the scores are
    equal [i] is the smaller index. *)
Definition orderedBefore (scores : list spec_float) (i j : nat) : Prop :=
  below (scoreAt scores i) (scoreAt scores j) = false /\
  (below (scoreAt scores j) (scoreAt scores i) = false -> (i < j)%nat).

(** What the ranker promises of its result on the bytes [data]: 8-bit pixels,
    every index once, in descending order of score with ties in index
    order, which is a descending order of exact luma. *)
Record order_spec (data : list Z) (pd : pixelData) : Prop := OrderSpec {
  spec_pixels : Forall rgb_ok (pixels pd);
  spec_perm : pixelIndices pd ≡ₚ seq 0 (length (pixels pd));
  spec_sorted : StronglySorted (orderedBefore (scoresOf data)) (pixelIndices pd);
  spec_luma :
    StronglySorted (fun i j => lumaAt (pixels pd) j <= lumaAt (pixels pd) i) (pixelIndices pd)
}.

#[export] Instance consistentOn_dec {A} (cmp : A -> A -> spec_float) l :
  Decision (consistentOn cmp l).
Proof. unfold consistentOn. apply _. Defined.

#[export] Instance orderedBefore_dec scores i j : Decision (orderedBefore scores i j).
Proof. unfold orderedBefore. apply _. Defined.

(** ** Reading the buffer *)

Lemma readPixels_length (data : list Z) (n : nat) :
  length data = (4 * n)%nat -> length (readPixels data) = n.
Proof.
  revert data. induction n as [|n IH]; intros data Hlen.
  - by destruct data.
  - destruct data as [|r [|g [|b [|a rest]]]]; simpl in Hlen; try lia.
    simpl. rewrite IH; [done | lia].
Qed.

Lemma readPixels_lookup (data : list Z) (i : nat) r g b a :
  data !! (4 * i)%nat = Some r -> data !! (4 * i + 1)%nat = Some g ->
  data !! (4 * i + 2)%nat = Some b -> data !! (4 * i + 3)%nat = Some a ->
  readPixels data !! i = Some ((r, g, b), importance r g b).
Proof.
  revert data. induction i as [|i IH]; intros data Hr Hg Hb Ha;
    pose proof (lookup_lt_Some _ _ _ Ha) as Hlen;
    destruct data as [|r' [|g' [|b' [|a' rest]]]]; simpl in Hlen; try lia.
  - by simplify_eq/=.
  - replace (4 * S i)%nat with (S (S (S (S (4 * i))))) in * by lia.
    cbn [readPixels lookup list_lookup]. apply IH; [exact Hr | ..].
    + by rewrite Nat.add_comm in Hg |- *.
    + by rewrite Nat.add_comm in Hb |- *.
    + by rewrite Nat.add_comm in Ha |- *.
Qed.

(** What holds of every pixel and score that the loop produces. *)
Lemma readPixels_Forall (P : rgb * spec_float -> Prop) (data : list Z) :
  (forall r g b, is_u8 r -> is_u8 g -> is_u8 b -> P ((r, g, b), importance r g b)) ->
  Forall is_u8 data -> Forall P (readPixels data).
Proof.
  intros HP.
  assert (forall n data, (length data <= n)%nat -> Forall is_u8 data ->
            Forall P (readPixels data)) as Hind; [|by eauto].
  clear data. induction n as [|n IH]; intros data Hlen Hall;
    destruct data as [|r [|g [|b [|a rest]]]]; simpl in *; try constructor; try lia.
  - apply Forall_cons_1 in Hall as [Hr Hall]. apply Forall_cons_1 in Hall as [Hg Hall].
    apply Forall_cons_1 in Hall as [Hb _]. by apply HP.
  - apply IH; [lia|]. by do 4 apply Forall_cons_1 in Hall as [_ Hall].
Qed.

Lemma readPixels_ok (data : list Z) :
  Forall is_u8 data -> Forall (fun e => rgb_ok (fst e)) (readPixels data).
Proof. apply readPixels_Forall. by intros r g b Hr Hg Hb. Qed.

(** ** The sort

    The result is a permutation of the input whatever the comparator does;
    for a consistent comparator it is sorted and stable. *)

Lemma insertWith_Permutation {A} (cmp : A -> A -> spec_float) x l :
  insertWith cmp x l ≡ₚ x :: l.
Proof.
  induction l as [|y l IH]; simpl; [done|].
  destruct (after cmp x y); [|done]. by rewrite IH, Permutation_swap.
Qed.

Lemma sortWith_Permutation {A} (cmp : A -> A -> spec_float) l : sortWith cmp l ≡ₚ l.
Proof.
  induction l as [|x l IH]; simpl; [done|]. by rewrite insertWith_Permutation, IH.
Qed.

Lemma consistentOn_spec {A} (cmp : A -> A -> spec_float) l :
  consistentOn cmp l <->
  (forall x y, x ∈ l -> y ∈ l -> after cmp x y = true -> after cmp y x = false) /\
  (forall x y z, x ∈ l -> y ∈ l -> z ∈ l ->
     after cmp x y = false -> after cmp y z = false -> after cmp x z = false).
Proof.
  unfold consistentOn. setoid_rewrite Forall_forall. setoid_rewrite Forall_forall.
  setoid_rewrite Forall_forall. split.
  - intros H. split; [intros x y Hx Hy; by apply (H x Hx y Hy)|].
    intros x y z Hx Hy Hz. by apply (H x Hx y Hy).
  - intros [H1 H2] x Hx y Hy. split; [by apply H1 | intros z Hz; by apply H2].
Qed.

Section sorting.
Context (cmp : nat -> nat -> spec_float) (dom : list nat).
Context (Hcons : consistentOn cmp dom).

Lemma insertWith_sorted x l :
  x ∈ dom -> l ⊆ dom -> Forall (fun y => (x < y)%nat) l ->
  StronglySorted (mayPrecede cmp) l ->
  StronglySorted (mayPrecede cmp) (insertWith cmp x l).
Proof.
  apply consistentOn_spec in Hcons as [Hasym Htrans].
  intros Hx Hsub Hlt Hsorted. induction Hsorted as [|y l Hsorted IH Hy]; simpl.
  - repeat constructor.
  - apply Forall_cons in Hlt as [Hxy Hlt].
    assert (y ∈ dom) as Hyd by (apply Hsub; left).
    assert (l ⊆ dom) as Hsub' by (intros z Hz; apply Hsub; by right).
    destruct (after cmp x y) eqn:Hafter.
    + constructor; [by apply IH|]. rewrite insertWith_Permutation.
      constructor; [|exact Hy]. split; [by apply Hasym | congruence].
    + constructor; [by constructor|]. constructor; [by split|].
      rewrite Forall_forall in Hy, Hlt |- *. intros z Hz. split; [|by auto].
      apply (Htrans x y z); auto. by apply Hy.
Qed.

Lemma sortWith_sorted l :
  l ⊆ dom -> StronglySorted lt l -> StronglySorted (mayPrecede cmp) (sortWith cmp l).
Proof.
  intros Hsub Hsorted. induction Hsorted as [|x l Hsorted IH Hx]; simpl; [constructor|].
  apply insertWith_sorted.
  - apply Hsub. left.
  - intros z Hz. apply Hsub. right. by rewrite <- (sortWith_Permutation cmp l).
  - by rewrite sortWith_Permutation.
  - apply IH. intros z Hz. apply Hsub. by right.
Qed.

End sorting.

#[export] Instance mayPrecede_antisymm cmp : AntiSymm (=) (mayPrecede cmp).
Proof. intros x y [Hxy Hlt] [Hyx Hlt']. specialize (Hlt Hyx). specialize (Hlt' Hxy). lia. Qed.

Lemma seq_sorted (s n : nat) : StronglySorted lt (seq s n).
Proof.
  revert s. induction n as [|n IH]; intros s; simpl; constructor; [apply IH|].
  apply Forall_forall. intros y Hy%elem_of_seq. lia.
Qed.

(** ** The scores are non-negative doubles, and the comparator orders them *)

Lemma importance_nonneg (r g b : Z) :
  0 <= r < 2 ^ 53 -> 0 <= g < 2 ^ 53 -> 0 <= b < 2 ^ 53 -> nonneg (importance r g b).
Proof.
  intros Hr Hg Hb. unfold importance.
  change (b64_of_decimal 299 1000) with (S754_finite false 5386305154335113 (-54)).
  change (b64_of_decimal 587 1000) with (S754_finite false 5287225962532962 (-53)).
  change (b64_of_decimal 114 1000) with (S754_finite false 8214565720323785 (-56)).
  repeat apply b64_add_nonneg; apply b64_mul_nonneg; lia.
Qed.

(** The score is within half a thousandth of the exact luma: five
    roundings of values below 256, each by at most one part in [2^52], and
    three literals that are the doubles nearest to the decimals. *)
Lemma importance_luma (r g b : Z) :
  is_u8 r -> is_u8 g -> is_u8 b ->
  finite_nonneg (importance r g b) /\
  (2 * luma1000 (r, g, b) - 1) * (2 ^ 55 * unit56) < 1000 * b64_units (importance r g b)
    < (2 * luma1000 (r, g, b) + 1) * (2 ^ 55 * unit56).
Proof.
  unfold is_u8. intros Hr Hg Hb. unfold importance, luma1000.
  change (b64_of_decimal 299 1000) with (S754_finite false 5386305154335113 (-54)).
  change (b64_of_decimal 587 1000) with (S754_finite false 5287225962532962 (-53)).
  change (b64_of_decimal 114 1000) with (S754_finite false 8214565720323785 (-56)).
  pose proof unit56_pos as HK.
  destruct (b64_mul_channel 5386305154335113 (-54) (5386305154335113 * 4) r)
    as (F1 & U1 & L1); [lia | reflexivity | lia | lia |].
  destruct (b64_mul_channel 5287225962532962 (-53) (5287225962532962 * 8) g)
    as (F2 & U2 & L2); [lia | reflexivity | lia | lia |].
  destruct (b64_mul_channel 8214565720323785 (-56) 8214565720323785 b)
    as (F3 & U3 & L3); [lia | reflexivity | lia | lia |].
  set (P1 := b64_mul _ (b64_of_Z r)) in *. set (P2 := b64_mul _ (b64_of_Z g)) in *.
  set (P3 := b64_mul _ (b64_of_Z b)) in *. set (K := unit56) in *.
  assert (0 <= r * K <= 255 * K /\ 0 <= g * K <= 255 * K /\ 0 <= b * K <= 255 * K)
    as (HKr & HKg & HKb) by nia.
  rewrite <- !Z.mul_assoc in U1, L1, U2, L2, U3, L3.
  destruct (b64_add_small P1 P2 F1 F2) as (F12 & U12 & L12); [fold K; lia|].
  destruct (b64_add_small _ P3 F12 F3) as (FS & US & LS); [fold K; lia|].
  fold K in U12, L12, US, LS. split; [exact FS|]. lia.
Qed.

(** Every pixel that the loop reads, with its score. *)
Lemma readPixels_scored (data : list Z) :
  Forall is_u8 data ->
  Forall (fun e => finite_nonneg (snd e) /\
            (2 * luma1000 (fst e) - 1) * (2 ^ 55 * unit56) < 1000 * b64_units (snd e)
              < (2 * luma1000 (fst e) + 1) * (2 ^ 55 * unit56)) (readPixels data).
Proof. apply readPixels_Forall. intros r g b Hr Hg Hb. by apply importance_luma. Qed.

(** A pixel of smaller exact luma never has the higher score. *)
Lemma below_luma (data : list Z) (i j : nat) :
  Forall is_u8 data ->
  (i < length (pixels (getPixelData data)))%nat ->
  (j < length (pixels (getPixelData data)))%nat ->
  below (scoreAt (scoresOf data) i) (scoreAt (scoresOf data) j) = false ->
  lumaAt (pixels (getPixelData data)) j <= lumaAt (pixels (getPixelData data)) i.
Proof.
  intros Hdata Hi Hj. pose proof (readPixels_scored data Hdata) as Hall.
  unfold getPixelData in Hi, Hj. cbn [pixels] in Hi, Hj. rewrite length_fmap in Hi, Hj.
  destruct (lookup_lt_is_Some_2 _ i Hi) as [[p s] Hp].
  destruct (lookup_lt_is_Some_2 _ j Hj) as [[q t] Hq].
  destruct (Forall_lookup_1 _ _ _ _ Hall Hp) as (Fs & Hs).
  destruct (Forall_lookup_1 _ _ _ _ Hall Hq) as (Ft & Ht).
  unfold lumaAt, scoreAt, scoresOf, getPixelData. cbn [pixels fst snd] in *.
  rewrite !list_lookup_fmap, Hp, Hq. cbn [fmap option_fmap option_map default from_option id fst snd].
  rewrite (below_units s t Fs Ft). intros Hge%Z.ltb_ge.
  pose proof unit56_pos. nia.
Qed.

Lemma scoresOf_nonneg (data : list Z) : Forall is_u8 data -> Forall nonneg (scoresOf data).
Proof.
  intros Hdata. unfold scoresOf. apply Forall_fmap.
  apply readPixels_Forall; [|done]. intros r g b Hr Hg Hb. unfold is_u8 in *.
  apply importance_nonneg; lia.
Qed.

Lemma after_compareFn (scores : list spec_float) (a b : nat) :
  Forall nonneg scores -> (a < length scores)%nat -> (b < length scores)%nat ->
  after (compareFn scores) a b = below (scoreAt scores a) (scoreAt scores b).
Proof.
  intros Hall Ha Hb. unfold after, compareFn, scoreAt.
  destruct (lookup_lt_is_Some_2 scores a Ha) as [x Hx].
  destruct (lookup_lt_is_Some_2 scores b Hb) as [y Hy]. rewrite Hx, Hy. simpl.
  apply (b64_sub_sign x y); eapply Forall_lookup_1; eauto.
Qed.

Lemma compareFn_consistent (scores : list spec_float) :
  Forall nonneg scores -> consistentOn (compareFn scores) (seq 0 (length scores)).
Proof.
  intros Hall. apply consistentOn_spec. setoid_rewrite elem_of_seq.
  split; [intros x y Hx Hy | intros x y z Hx Hy Hz]; rewrite !after_compareFn by (done || lia).
  - apply below_asym.
  - apply below_negtrans.
Qed.

Lemma mayPrecede_orderedBefore (scores : list spec_float) (i j : nat) :
  Forall nonneg scores -> (i < length scores)%nat -> (j < length scores)%nat ->
  mayPrecede (compareFn scores) i j <-> orderedBefore scores i j.
Proof.
  intros Hall Hi Hj. unfold mayPrecede, orderedBefore. by rewrite !after_compareFn.
Qed.

#[export] Instance orderedBefore_antisymm scores : AntiSymm (=) (orderedBefore scores).
Proof. intros x y [Hxy Hlt] [Hyx Hlt']. specialize (Hlt Hyx). specialize (Hlt' Hxy). lia. Qed.

Lemma sortWith_descending (scores : list spec_float) :
  Forall nonneg scores ->
  StronglySorted (orderedBefore scores) (sortWith (compareFn scores) (seq 0 (length scores))).
Proof.
  intros Hall.
  apply (StronglySorted_impl_elem (mayPrecede (compareFn scores))).
  - intros i j Hi Hj. rewrite sortWith_Permutation, elem_of_seq in Hi, Hj.
    apply mayPrecede_orderedBefore; (done || lia).
  - apply (sortWith_sorted _ (seq 0 (length scores))); [by apply compareFn_consistent | done |].
    apply seq_sorted.
Qed.

(** ** getPixelData *)

(** [getPixelData] reads one pixel per group of four bytes.  For a buffer of
    [4 * n] bytes the pixel array has [n] entries, and pixel [i] holds the
    bytes at [4 * i], [4 * i + 1] and [4 * i + 2]; the alpha byte is ignored.
    *)
Theorem getPixelData_pixels (data : list Z) (n i : nat) r g b a :
  length data = (4 * n)%nat ->
  data !! (4 * i)%nat = Some r -> data !! (4 * i + 1)%nat = Some g ->
  data !! (4 * i + 2)%nat = Some b -> data !! (4 * i + 3)%nat = Some a ->
  length (pixels (getPixelData data)) = n /\
  pixels (getPixelData data) !! i = Some (r, g, b).
Proof.
  intros Hlen Hr Hg Hb Ha. unfold getPixelData. simpl. split.
  - by rewrite length_fmap, (readPixels_length data n).
  - rewrite list_lookup_fmap. apply fmap_Some. eexists. split; [by eapply readPixels_lookup | done].
Qed.

(** The pixels of a canvas of bytes are 8-bit colours. *)
Lemma getPixelData_ok (data : list Z) :
  Forall is_u8 data -> Forall rgb_ok (pixels (getPixelData data)).
Proof.
  intros Hall. unfold getPixelData. simpl. apply Forall_fmap.
  exact (readPixels_ok data Hall).
Qed.

Lemma getPixelData_pixels_witness :
  length (pixels (getPixelData scenario_canvas)) = 4%nat /\
  pixels (getPixelData scenario_canvas) !! 2%nat = Some (250, 5, 5).
Proof. by apply (getPixelData_pixels scenario_canvas 4 2 250 5 5 255). Defined.

Lemma getPixelData_permutation (data : list Z) :
  pixelIndices (getPixelData data) ≡ₚ seq 0 (length (pixels (getPixelData data))).
Proof.
  unfold getPixelData. simpl. rewrite sortWith_Permutation. by rewrite length_fmap.
Qed.

(** C13: whatever the bytes of the canvas are, the processing order that
    [getPixelData] returns holds every pixel index exactly once and nothing
    else: it has no duplicates, each of its entries is smaller than the number
    of pixels, and it is as long as the pixel array.  This is what
    [mapToColours] needs of its second argument. *)
Theorem getPixelData_indices (data : list Z) :
  NoDup (pixelIndices (getPixelData data)) /\
  Forall (fun idx => (idx < length (pixels (getPixelData data)))%nat)
         (pixelIndices (getPixelData data)) /\
  length (pixelIndices (getPixelData data)) = length (pixels (getPixelData data)).
Proof. apply Permutation_seq_wf, getPixelData_permutation. Qed.

(** When the comparator of [getPixelData] is consistent on the indices of the
    image, the processing order is sorted by descending importance score and
    stable: an index never stands before one that the comparator puts first,
    and of two indices that the comparator does not separate the smaller
    stands first. *)
Theorem getPixelData_sorted (data : list Z) :
  consistentOn (compareFn (scoresOf data)) (seq 0 (length (scoresOf data))) ->
  StronglySorted (mayPrecede (compareFn (scoresOf data))) (pixelIndices (getPixelData data)).
Proof.
  intros Hcons. unfold getPixelData, scoresOf in *. simpl. rewrite length_fmap in Hcons.
  by apply (sortWith_sorted _ (seq 0 (length (readPixels data)))), seq_sorted.
Qed.

Lemma getPixelData_sorted_witness :
  StronglySorted
    (mayPrecede (compareFn (scoresOf scenario_canvas)))
    (pixelIndices (getPixelData scenario_canvas)).
Proof. apply getPixelData_sorted. apply (bool_decide_unpack _). by vm_compute. Defined.

(** The insertion sort that models [Array.prototype.sort] is not a choice: for
    a consistent comparator, every arrangement of the indices [0 .. n-1] that
    is sorted and stable is the list [sortWith] computes, so any stable
    sorting algorithm returns the same processing order. *)
Theorem sortWith_unique cmp (n : nat) (l : list nat) :
  consistentOn cmp (seq 0 n) -> l ≡ₚ seq 0 n -> StronglySorted (mayPrecede cmp) l ->
  l = sortWith cmp (seq 0 n).
Proof.
  intros Hcons Hperm Hsorted. apply (StronglySorted_unique (mayPrecede cmp)); [done| |].
  - by apply (sortWith_sorted cmp (seq 0 n)), seq_sorted.
  - by rewrite sortWith_Permutation.
Qed.

Lemma sortWith_unique_witness :
  scenario_order = sortWith (compareFn (scoresOf scenario_canvas)) (seq 0 4).
Proof.
  apply sortWith_unique.
  - apply (bool_decide_unpack _). by vm_compute.
  - etransitivity; [apply (Permutation_swap 0%nat 2%nat) | apply perm_skip, Permutation_swap].
  - apply (bool_decide_unpack _). by vm_compute.
Defined.

(** [getPixelData] meets the contract of the ranker on every canvas of
    bytes. *)
Lemma getPixelData_meets_spec (data : list Z) :
  Forall is_u8 data -> order_spec data (getPixelData data).
Proof.
  intros Hdata.
  pose proof (sortWith_descending _ (scoresOf_nonneg data Hdata)) as Hs.
  unfold scoresOf in Hs. rewrite length_fmap in Hs.
  split; [by apply getPixelData_ok | apply getPixelData_permutation | exact Hs |].
  apply (StronglySorted_impl_elem (orderedBefore (scoresOf data))); [|exact Hs].
  intros i j Hi Hj [Hbelow _]. rewrite getPixelData_permutation, elem_of_seq in Hi, Hj.
  apply below_luma; (done || lia).
Qed.

(** C11: the double-precision scores order the pixels as the exact luma does.
    For 8-bit bytes, of two entries of the processing order the earlier one is
    the index of a pixel whose exact luma [299 r + 587 g + 114 b] is at least
    that of the later one: the five roundings of the score formula and the
    three rounded literals move a score by less than half a thousandth, so a
    pixel of smaller luma never gets the higher score.  Only pixels of equal
    luma can be ordered by rounding. *)
Theorem getPixelData_by_luma (data : list Z) (k1 k2 i j : nat) :
  Forall is_u8 data -> (k1 < k2)%nat ->
  pixelIndices (getPixelData data) !! k1 = Some i ->
  pixelIndices (getPixelData data) !! k2 = Some j ->
  lumaAt (pixels (getPixelData data)) j <= lumaAt (pixels (getPixelData data)) i.
Proof.
  intros Hdata Hk Hi Hj. destruct (getPixelData_meets_spec data Hdata) as [_ _ _ Hluma].
  exact (StronglySorted_lookup _ _ k1 k2 i j Hluma Hi Hj Hk).
Qed.

Lemma getPixelData_by_luma_witness :
  lumaAt (pixels (getPixelData scenario_canvas)) 0
  <= lumaAt (pixels (getPixelData scenario_canvas)) 2.
Proof. apply (getPixelData_by_luma scenario_canvas 0 1 2 0); by_compute. Defined.

(** C10: the processing order is descending and stable, for every canvas.
    Whatever the 8-bit bytes of the canvas are, in the order that
    [getPixelData] returns an index stands before another only if its
    double-precision score is not below the other's, and of two indices with
    the same score the smaller stands first.  The comparator
    [importanceScores[b] - importanceScores[a]] is consistent on such scores:
    no difference of two scores rounds to a wrong sign. *)
Theorem getPixelData_descending (data : list Z) :
  Forall is_u8 data ->
  StronglySorted (orderedBefore (scoresOf data)) (pixelIndices (getPixelData data)).
Proof. intros Hdata. apply getPixelData_meets_spec, Hdata. Qed.

Lemma getPixelData_descending_witness :
  StronglySorted (orderedBefore (scoresOf scenario_canvas))
    (pixelIndices (getPixelData scenario_canvas)).
Proof. apply getPixelData_descending. by_compute. Defined.

(** The processing order is determined by the scores.  For 8-bit bytes, every
    arrangement of the pixel indices that is descending in score with ties in
    index order is the list [getPixelData] returns: the insertion sort that
    stands for [Array.prototype.sort] computes what any stable sort computes.
    *)
Theorem getPixelData_unique (data : list Z) (order : list nat) :
  Forall is_u8 data ->
  order ≡ₚ seq 0 (length (pixels (getPixelData data))) ->
  StronglySorted (orderedBefore (scoresOf data)) order ->
  order = pixelIndices (getPixelData data).
Proof.
  intros Hdata Hperm Hsorted.
  apply (StronglySorted_unique (orderedBefore (scoresOf data))); [done | |].
  - apply getPixelData_meets_spec, Hdata.
  - by rewrite Hperm, getPixelData_permutation.
Qed.

Lemma getPixelData_unique_witness :
  scenario_order = pixelIndices (getPixelData scenario_canvas).
Proof.
  apply getPixelData_unique; [by_compute | | by_compute].
  etransitivity; [apply (Permutation_swap 0%nat 2%nat) | apply perm_skip, Permutation_swap].
Defined.

(** Two pixels whose exact luma is the same are not always a tie for the sort:
    [(0, 10, 0)] and [(4, 0, 41)] both have luma 5.87, but their
    double-precision scores differ in the last place, and the pixel with the
    larger index is processed first. *)
Example luma_tie_broken_by_rounding :
  let data := [0; 10; 0; 255;  4; 0; 41; 255] in
  luma1000 <$> pixels (getPixelData data) = [5870; 5870] /\
  pixelIndices (getPixelData data) = [1; 0]%nat.
Proof. split; vm_compute; reflexivity. Qed.
