(* ===== verification/Sorting.v ===== *)
(** * Sorting: what [getPixelData] relies on of [Array.prototype.sort]
      (script.js, the call of [sort] in getPixelData)

    The language leaves the algorithm of [sort] to the engine and promises
    two things: the result holds the elements of the array, and for a
    consistent comparator it is sorted, elements that the comparator does not
    separate keeping their order.  [ArraySort] states this for arrays of
    indices in ascending order, which is what [getPixelData] sorts.

    [Ranker] models the call by an insertion sort, [sortWith].  Here a merge
    sort, [mergeSort], is shown to meet the same contract, and [getPixelData]
    with any sort that meets it ([getPixelDataWith]) to return what
    [getPixelData] returns: the processing order does not depend on the
    engine. *)

From Stdlib Require Import ZArith Lia SpecFloat.
From stdpp Require Import base tactics option list sorting.
From S2P Require Import Prelude Binary64 Palette Ranker.

(** The contract of [Array.prototype.sort]. *)
Class ArraySort (sort : (nat -> nat -> spec_float) -> list nat -> list nat) : Prop := {
  sort_permutation cmp l : sort cmp l ≡ₚ l;
  sort_stable cmp dom l :
    consistentOn cmp dom -> l ⊆ dom -> StronglySorted lt l ->
    StronglySorted (mayPrecede cmp) (sort cmp l)
}.

(** Merging two sorted runs, the left one first on a tie. *)
Fixpoint mergeWith (cmp : nat -> nat -> spec_float) (l1 : list nat) : list nat -> list nat :=
  fix inner (l2 : list nat) : list nat :=
    match l1, l2 with
    | [], _ => l2
    | _, [] => l1
    | x :: l1', y :: l2' =>
        if after cmp x y then y :: inner l2' else x :: mergeWith cmp l1' l2
    end.

(** Merge sort: the two halves are sorted and merged.  [fuel] bounds the
    depth of the recursion. *)
Fixpoint mergeSortFuel (fuel : nat) (cmp : nat -> nat -> spec_float) (l : list nat) : list nat :=
  match fuel, l with
  | S fuel, _ :: _ :: _ =>
      let half := (length l / 2)%nat in
      mergeWith cmp (mergeSortFuel fuel cmp (take half l)) (mergeSortFuel fuel cmp (drop half l))
  | _, _ => l
  end.

Definition mergeSort (cmp : nat -> nat -> spec_float) (l : list nat) : list nat :=
  mergeSortFuel (length l) cmp l.

(** function getPixelData(), on an engine whose sort is [sort] *)
Definition getPixelDataWith (sort : (nat -> nat -> spec_float) -> list nat -> list nat)
    (data : list Z) : pixelData :=
  let px := readPixels data in
  let importanceScores := snd <$> px in
  {| pixels := fst <$> px;
     pixelIndices := sort (compareFn importanceScores) (seq 0 (length px)) |}.

(** ** Merging *)

Lemma mergeWith_cons cmp x l1 y l2 :
  mergeWith cmp (x :: l1) (y :: l2)
  = if after cmp x y then y :: mergeWith cmp (x :: l1) l2 else x :: mergeWith cmp l1 (y :: l2).
Proof. reflexivity. Qed.

Lemma mergeWith_Permutation cmp l1 l2 : mergeWith cmp l1 l2 ≡ₚ l1 ++ l2.
Proof.
  revert l2. induction l1 as [|x l1 IH1]; intros l2; [by destruct l2|].
  induction l2 as [|y l2 IH2]; [by rewrite app_nil_r|].
  rewrite mergeWith_cons. destruct (after cmp x y).
  - by rewrite IH2, <- Permutation_middle.
  - by rewrite IH1.
Qed.

Section merging.
Context (cmp : nat -> nat -> spec_float) (dom : list nat).
Context (Hcons : consistentOn cmp dom).

(** The head of a sorted run may stand before what the comparator does not
    put before an element of the run. *)
Lemma mayPrecede_after x y z :
  x ∈ dom -> y ∈ dom -> z ∈ dom ->
  after cmp x y = true -> mayPrecede cmp x z -> mayPrecede cmp y z.
Proof.
  apply consistentOn_spec in Hcons as [Hasym Htrans]. intros Hx Hy Hz Hxy [Hxz _].
  split; [by apply (Htrans y x z); auto|].
  intros Hzy. by rewrite (Htrans x z y) in Hxy.
Qed.

Lemma mayPrecede_before x y z :
  x ∈ dom -> y ∈ dom -> z ∈ dom -> (x < z)%nat ->
  after cmp x y = false -> mayPrecede cmp y z -> mayPrecede cmp x z.
Proof.
  apply consistentOn_spec in Hcons as [Hasym Htrans]. intros Hx Hy Hz Hlt Hxy [Hyz _].
  split; [by apply (Htrans x y z)|done].
Qed.

Lemma mergeWith_sorted l1 l2 :
  l1 ⊆ dom -> l2 ⊆ dom ->
  Forall (fun x => Forall (fun y => (x < y)%nat) l2) l1 ->
  StronglySorted (mayPrecede cmp) l1 -> StronglySorted (mayPrecede cmp) l2 ->
  StronglySorted (mayPrecede cmp) (mergeWith cmp l1 l2).
Proof.
  pose proof Hcons as [Hasym Htrans]%consistentOn_spec.
  intros Hd1 Hd2 Hlt H1. revert l2 Hd2 Hlt.
  induction H1 as [|x l1 H1 IH1 Hx]; intros l2 Hd2 Hlt H2; [by destruct l2|].
  apply Forall_cons in Hlt as [Hxlt Hlt].
  assert (x ∈ dom) as Hxd by (apply Hd1; left).
  assert (l1 ⊆ dom) as Hd1' by (intros z Hz; apply Hd1; by right).
  induction H2 as [|y l2 H2 IH2 Hy]; [by constructor|].
  assert (y ∈ dom) as Hyd by (apply Hd2; left).
  assert (l2 ⊆ dom) as Hd2' by (intros z Hz; apply Hd2; by right).
  apply Forall_cons in Hxlt as [Hxy Hxlt].
  rewrite mergeWith_cons. destruct (after cmp x y) eqn:Hafter; constructor.
  - apply IH2; [done | done |]. eapply Forall_impl; [exact Hlt|].
    by intros z [_ Hz]%Forall_cons.
  - rewrite mergeWith_Permutation. rewrite Forall_forall in Hx, Hy |- *.
    intros z [->|[Hz|Hz]%elem_of_app]%elem_of_cons; [| |by auto].
    + split; [by apply Hasym | congruence].
    + apply (mayPrecede_after x); auto.
  - apply IH1; [done | done | done | by constructor].
  - rewrite mergeWith_Permutation. rewrite Forall_forall in Hx, Hy, Hxlt |- *.
    intros z [Hz|[->|Hz]%elem_of_cons]%elem_of_app; [by auto | by split |].
    apply (mayPrecede_before x y); auto.
Qed.

End merging.

(** ** Merge sort *)

Lemma elem_of_half (z : nat) (n : nat) (l : list nat) : z ∈ take n l \/ z ∈ drop n l -> z ∈ l.
Proof. intros Hz. rewrite <- (take_drop n l). by apply elem_of_app. Qed.

Lemma mergeSortFuel_Permutation fuel cmp l : mergeSortFuel fuel cmp l ≡ₚ l.
Proof.
  revert l. induction fuel as [|fuel IH]; intros l; [by destruct l|].
  destruct l as [|x [|y l]]; [done..|]. cbn [mergeSortFuel].
  by rewrite mergeWith_Permutation, !IH, take_drop.
Qed.

Lemma mergeSortFuel_sorted cmp dom fuel : forall l,
  consistentOn cmp dom -> l ⊆ dom -> (length l <= S fuel)%nat -> StronglySorted lt l ->
  StronglySorted (mayPrecede cmp) (mergeSortFuel fuel cmp l).
Proof.
  induction fuel as [|fuel IH]; intros l Hcons Hdom Hlen Hsorted.
  - destruct l as [|x [|y l]]; simpl in Hlen; [constructor | repeat constructor | lia].
  - destruct l as [|x [|y l]]; [constructor | repeat constructor |].
    cbn [mergeSortFuel]. set (whole := x :: y :: l) in *. set (half := (length whole / 2)%nat).
    assert (0 < half < length whole)%nat as Hhalf.
    { subst half whole. cbn [length] in *. split; [apply Nat.div_str_pos|apply Nat.div_lt]; lia. }
    assert (half <= S fuel)%nat
      by (pose proof (Nat.Div0.mul_div_le (length whole) 2); lia).
    rewrite <- (take_drop half whole) in Hsorted.
    apply (mergeWith_sorted cmp dom Hcons).
    + intros z Hz. rewrite mergeSortFuel_Permutation in Hz. apply Hdom, (elem_of_half _ half). by left.
    + intros z Hz. rewrite mergeSortFuel_Permutation in Hz. apply Hdom, (elem_of_half _ half). by right.
    + apply Forall_forall. intros a Ha. apply Forall_forall. intros b Hb.
      rewrite mergeSortFuel_Permutation in Ha, Hb. by eapply StronglySorted_app_1_elem_of.
    + apply IH; [done | intros z Hz; apply Hdom, (elem_of_half _ half); by left
                | rewrite length_take; lia | by eapply StronglySorted_app_1_l].
    + apply IH; [done | intros z Hz; apply Hdom, (elem_of_half _ half); by right
                | rewrite length_drop; lia | by eapply StronglySorted_app_1_r].
Qed.

(** ** The two sorts meet the contract *)

#[export] Instance sortWith_ArraySort : ArraySort sortWith.
Proof.
  split; [apply sortWith_Permutation | intros cmp dom l Hcons; by apply sortWith_sorted].
Qed.

#[export] Instance mergeSort_ArraySort : ArraySort mergeSort.
Proof.
  split; [intros cmp l; apply mergeSortFuel_Permutation|].
  intros cmp dom l Hcons Hdom Hsorted. apply (mergeSortFuel_sorted cmp dom); auto.
Qed.

(** ** What the contract determines *)

Section engine.
Context (sort : (nat -> nat -> spec_float) -> list nat -> list nat) `{!ArraySort sort}.

(** Two sorts that meet the contract agree on the indices [0 .. n-1]. *)
Lemma sort_determined cmp (n : nat) :
  consistentOn cmp (seq 0 n) -> sort cmp (seq 0 n) = sortWith cmp (seq 0 n).
Proof.
  intros Hcons. apply (StronglySorted_unique (mayPrecede cmp)).
  - by apply (sort_stable cmp (seq 0 n)), seq_sorted.
  - by apply (sortWith_sorted cmp (seq 0 n)), seq_sorted.
  - by rewrite sort_permutation, sortWith_Permutation.
Qed.

(** C29: the processing order does not depend on the engine.  For 8-bit bytes,
    [getPixelData] with any sort that meets the contract of
    [Array.prototype.sort] ([ArraySort]: the result is a permutation of the
    array, and for a consistent comparator it is sorted with ties in their
    original order) returns the pixels and the processing order that
    [getPixelData] returns with the insertion sort of the model; the merge
    sort [mergeSort] is one such sort. *)
Theorem getPixelData_engine (data : list Z) :
  Forall is_u8 data -> getPixelDataWith sort data = getPixelData data.
Proof.
  intros Hdata. unfold getPixelDataWith, getPixelData. f_equal.
  rewrite <- (length_fmap snd (readPixels data)). apply sort_determined.
  apply compareFn_consistent, (scoresOf_nonneg data Hdata).
Qed.

End engine.

(** Merge sort and insertion sort agree.  For a comparator that is consistent
    on the indices [0 .. n-1], the merge sort of these indices is the list
    that the insertion sort [sortWith] computes; it is a permutation of the
    indices, sorted, with ties in index order. *)
Theorem mergeSort_sortWith (cmp : nat -> nat -> spec_float) (n : nat) :
  consistentOn cmp (seq 0 n) ->
  mergeSort cmp (seq 0 n) = sortWith cmp (seq 0 n) /\
  mergeSort cmp (seq 0 n) ≡ₚ seq 0 n /\
  StronglySorted (mayPrecede cmp) (mergeSort cmp (seq 0 n)).
Proof.
  intros Hcons. split_and!; [by apply (sort_determined mergeSort) | apply sort_permutation |].
  by apply (sort_stable cmp (seq 0 n)), seq_sorted.
Qed.

(** ** The theorems at concrete inputs *)

Lemma getPixelData_engine_witness :
  getPixelDataWith mergeSort scenario_canvas = getPixelData scenario_canvas.
Proof. apply (getPixelData_engine mergeSort). by_compute. Defined.

Lemma mergeSort_sortWith_witness :
  let cmp := compareFn (scoresOf scenario_canvas) in
  mergeSort cmp (seq 0 4) = sortWith cmp (seq 0 4) /\
  mergeSort cmp (seq 0 4) ≡ₚ seq 0 4 /\
  StronglySorted (mayPrecede cmp) (mergeSort cmp (seq 0 4)).
Proof. apply mergeSort_sortWith. by_compute. Defined.
