(* ===== verification/Generation.v ===== *)
(** * Generation: the mosaic image, the usage summary and the hover lookup
      (script.js, runGeneration, generateSummary and the mosaic canvas's
      mousemove handler)

    [runGeneration] reads the edited canvas ([Ranker.getPixelData]), assigns
    the colours ([Matcher.mapToColours]), expands the three-channel result
    into the four-channel buffer of the mosaic canvas, keeps the name map for
    the hover handler and computes the usage summary.  The state it leaves
    behind is the record [generation]; the handler of the mosaic canvas reads
    its name map. *)

From Stdlib Require Import ZArith Lia SpecFloat.
From stdpp Require Import base tactics option list strings gmap sorting.
From S2P Require Import Prelude Binary64 Pointer Palette Matcher Ranker.

#[local] Open Scope Z_scope.

(** Reading [arr[i]] of a typed array to store it into another one: reading
    outside the array gives [undefined], which a [Uint8ClampedArray] stores
    as [0]. *)
Definition byteAt (arr : list Z) (i : nat) : Z := default 0 (arr !! i).

(** One iteration of the loop that fills the RGBA buffer: the four stores
    of pixel [i] (a store outside a typed array does nothing). *)
Definition writeRGBA (coreImageArray : list Z) (data : list Z) (i : nat) : list Z :=
  let srcIdx := (i * 3)%nat in
  let destIdx := (i * 4)%nat in
  let data := <[destIdx := byteAt coreImageArray srcIdx]> data in
  let data := <[(destIdx + 1)%nat := byteAt coreImageArray (srcIdx + 1)]> data in
  let data := <[(destIdx + 2)%nat := byteAt coreImageArray (srcIdx + 2)]> data in
  <[(destIdx + 3)%nat := 255]> data.

(** [createImageData(TARGET_SIZE, TARGET_SIZE)] (transparent black) after
    [for (let i = 0; i < TARGET_SIZE * TARGET_SIZE; i++)]. *)
Definition toRGBA (coreImageArray : list Z) : list Z :=
  foldl (writeRGBA coreImageArray)
        (replicate (4 * (TARGET_SIZE * TARGET_SIZE)) 0)
        (seq 0 (TARGET_SIZE * TARGET_SIZE)).

(** An element of [summaryData]. *)
Record summaryRow : Type := SummaryRow {
  row_name : string;
  row_used : Z;
  row_remaining : Z;
  row_original : Z
}.

(** The two accumulators of [generateSummary]; [totalUsed] is [None] once it
    is [NaN]. *)
Record summary : Type := Summary {
  totalUsed : option Z;
  summaryData : list summaryRow
}.

(** One iteration of [for (const name in ORIGINAL_COUNTS)].  A name that
    [finalRemaining] does not have reads as [undefined]: [used] is then [NaN],
    which poisons [totalUsed] and fails both comparisons. *)
Definition summaryStep (finalRemaining : gmap string Z) (acc : summary)
    (entry : string * Z) : summary :=
  let '(name, original) := entry in
  match finalRemaining !! name with
  | Some remaining =>
      let used := original - remaining in
      {| totalUsed := (fun t => t + used) <$> totalUsed acc;
         summaryData :=
           if ((0 <? used) || (remaining <? original))%bool
           then summaryData acc ++ [SummaryRow name used remaining original]
           else summaryData acc |}
  | None => {| totalUsed := None; summaryData := summaryData acc |}
  end.

(** function generateSummary(finalRemaining), up to the rendering of the
    rows as HTML *)
Definition generateSummary (data : palette) (finalRemaining : gmap string Z) : summary :=
  foldl (summaryStep finalRemaining) {| totalUsed := Some 0; summaryData := [] |}
        (ORIGINAL_COUNTS data).

(** What [runGeneration] leaves behind: the buffer put on the mosaic canvas,
    the variable [finalColorNameMap] and the summary shown. *)
Record generation : Type := Generation {
  finalImageData : list Z;
  finalColorNameMap : list (list string);
  shownSummary : summary
}.

(** function runGeneration(), on the bytes of the editor canvas *)
Definition runGeneration (data : palette) (canvas : list Z) : outcome generation :=
  let pd := getPixelData canvas in
  m ← mapToColours data (pixels pd) (pixelIndices pd);
  Returns {|
    finalImageData := toRGBA (coreImageArray m);
    finalColorNameMap := coreColorNameMap2D m;
    shownSummary := generateSummary data (remainingCounts m) |}.

(** The [mousemove] handler of the mosaic canvas: the new text of
    [hoverInfo].  Before the first generation the map is [null] and the text
    stays; outside the mosaic, and for a coordinate that is not a finite
    number, the text is cleared; a row that does not exist makes the read
    [map[y][x]] throw, a cell that does not exist reads as [undefined]. *)
Definition hover (finalColorNameMap : option (list (list string))) (e : mouseEvent)
    (hoverInfo : string) : outcome string :=
  match finalColorNameMap with
  | None => Returns hoverInfo
  | Some map =>
      let mapSize := TARGET_SIZE in
      let '(x, y) := cell mapSize e in
      if inside x mapSize && inside y mapSize then
        match map !! Z.to_nat (default 0 y) with
        | Some row =>
            Returns (" Colour: " +:+ default "undefined" (row !! Z.to_nat (default 0 x)))
        | None => Throws TypeError
        end
      else Returns EmptyString
  end.

(** The value stored at channel [c] of pixel [i] of the RGBA buffer. *)
Definition rgbaByte (coreImageArray : list Z) (i c : nat) : Z :=
  if decide (c = 3%nat) then 255 else byteAt coreImageArray (i * 3 + c).

(** The row of a palette entry, from the final stock. *)
Definition rowOf (finalRemaining : gmap string Z) (entry : string * Z) : summaryRow :=
  SummaryRow (fst entry) (snd entry - stock_of finalRemaining (fst entry))
             (stock_of finalRemaining (fst entry)) (snd entry).


(** ** The RGBA buffer *)

Lemma writeRGBA_length img d i : length (writeRGBA img d i) = length d.
Proof. unfold writeRGBA. lengths. Qed.

#[export] Hint Rewrite writeRGBA_length : recopix.

Lemma writeRGBA_lookup_same img d i c :
  (c < 4)%nat -> (i * 4 + c < length d)%nat ->
  writeRGBA img d i !! (i * 4 + c)%nat = Some (rgbaByte img i c).
Proof.
  intros Hc Hlen. unfold writeRGBA, rgbaByte.
  destruct c as [|[|[|[|c]]]]; [..|lia]; simpl;
    rewrite ?Nat.add_0_r, ?list_lookup_insert_ne by lia;
    rewrite list_lookup_insert_eq by lengths; done.
Qed.

Lemma writeRGBA_lookup_other img d i j :
  (j < i * 4 \/ i * 4 + 4 <= j)%nat -> writeRGBA img d i !! j = d !! j.
Proof. intros Hj. unfold writeRGBA. by rewrite !list_lookup_insert_ne by lia. Qed.

Lemma foldl_writeRGBA_length img d l : length (foldl (writeRGBA img) d l) = length d.
Proof.
  revert d. induction l as [|i l IH]; intros d; simpl; [done|].
  rewrite IH. lengths.
Qed.

#[export] Hint Rewrite foldl_writeRGBA_length : recopix.

Lemma foldl_writeRGBA_lookup img d n i c :
  (i < n)%nat -> (c < 4)%nat -> (4 * n <= length d)%nat ->
  foldl (writeRGBA img) d (seq 0 n) !! (i * 4 + c)%nat = Some (rgbaByte img i c).
Proof.
  induction n as [|n IH]; intros Hi Hc Hlen; [lia|].
  rewrite seq_S, foldl_app. simpl. destruct (decide (i = n)) as [->|Hne].
  - apply writeRGBA_lookup_same; [done|]. rewrite foldl_writeRGBA_length. lia.
  - rewrite writeRGBA_lookup_other by lia. apply IH; lia.
Qed.

Lemma toRGBA_length img : length (toRGBA img) = (4 * (TARGET_SIZE * TARGET_SIZE))%nat.
Proof. unfold toRGBA. lengths. Qed.

#[export] Hint Rewrite toRGBA_length : recopix.

Lemma toRGBA_lookup img i c :
  (i < TARGET_SIZE * TARGET_SIZE)%nat -> (c < 4)%nat ->
  toRGBA img !! (i * 4 + c)%nat = Some (rgbaByte img i c).
Proof.
  intros Hi Hc. unfold toRGBA. apply foldl_writeRGBA_lookup; [done..|].
  by rewrite length_replicate.
Qed.

(** ** The summary *)

Lemma summaryStep_known finalRemaining acc name original :
  is_Some (finalRemaining !! name) ->
  summaryStep finalRemaining acc (name, original) =
  {| totalUsed := (fun t => t + (original - stock_of finalRemaining name)) <$> totalUsed acc;
     summaryData := summaryData acc ++
       (if decide (stock_of finalRemaining name < original)
        then [rowOf finalRemaining (name, original)] else []) |}.
Proof.
  intros [remaining Hr]. unfold summaryStep, rowOf, stock_of. rewrite Hr. simpl. f_equal.
  destruct (Z.ltb_spec 0 (original - remaining)), (Z.ltb_spec remaining original);
    simpl; try lia; case_decide; try lia; by rewrite ?Hr, ?app_nil_r.
Qed.

Lemma foldl_summaryStep finalRemaining entries acc :
  Forall (fun e => is_Some (finalRemaining !! fst e)) entries ->
  foldl (summaryStep finalRemaining) acc entries =
  {| totalUsed := (fun t => t + (Zsum (snd <$> entries)
                                 - Zsum (stock_of finalRemaining ∘ fst <$> entries)))
                  <$> totalUsed acc;
     summaryData := summaryData acc ++
       (rowOf finalRemaining <$>
          filter (fun e => stock_of finalRemaining (fst e) < snd e) entries) |}.
Proof.
  intros Hall. revert acc. induction Hall as [|[name original] entries Hn _ IH]; intros acc.
  - destruct acc as [[t|] rows]; simpl; rewrite app_nil_r; [do 2 f_equal; lia | done].
  - cbn [foldl]. rewrite IH, summaryStep_known by exact Hn.
    rewrite !fmap_cons. change (Zsum (?x :: ?l)) with (x + Zsum l). simpl. f_equal.
    + destruct (totalUsed acc); simpl; [f_equal; lia | done].
    + rewrite <- app_assoc. f_equal. rewrite filter_cons. simpl. by case_decide.
Qed.

Lemma Zsum_ORIGINAL_COUNTS data : Zsum (snd <$> ORIGINAL_COUNTS data) = total_stock data.
Proof.
  unfold ORIGINAL_COUNTS, total_stock, Zsum. rewrite <- list_fmap_compose. f_equal.
  apply list_fmap_ext. by intros _ [name d] _.
Qed.

Lemma Zsum_stock_ORIGINAL_COUNTS data counts :
  Zsum (stock_of counts ∘ fst <$> ORIGINAL_COUNTS data) = stock_sum data counts.
Proof.
  unfold stock_sum. by rewrite list_fmap_compose, ORIGINAL_COUNTS_names.
Qed.

Lemma counts_ok_is_Some data counts :
  counts_ok data counts ->
  Forall (fun e => is_Some (counts !! fst e)) (ORIGINAL_COUNTS data).
Proof.
  intros [Hdom _]. apply Forall_forall. intros e He.
  apply elem_of_dom. rewrite Hdom, elem_of_list_to_set, <- ORIGINAL_COUNTS_names.
  apply list_elem_of_fmap. by exists e.
Qed.

(** A name that the final stock does not have turns the total into [NaN]. *)
Lemma summaryStep_missing finalRemaining acc name original :
  finalRemaining !! name = None ->
  totalUsed (summaryStep finalRemaining acc (name, original)) = None.
Proof. intros Hn. unfold summaryStep. by rewrite Hn. Qed.

Lemma foldl_summaryStep_NaN finalRemaining entries acc :
  totalUsed acc = None -> totalUsed (foldl (summaryStep finalRemaining) acc entries) = None.
Proof.
  revert acc. induction entries as [|[name original] entries IH]; intros acc Hacc; [done|].
  apply IH. unfold summaryStep. destruct (finalRemaining !! name); simpl; by rewrite ?Hacc.
Qed.

(** The used column adds up to the pieces taken from the stock. *)
Lemma Zsum_used (finalRemaining : gmap string Z) (entries : list (string * Z)) :
  Forall (fun e => stock_of finalRemaining (fst e) <= snd e) entries ->
  Zsum (row_used <$> (rowOf finalRemaining <$>
          filter (fun e => stock_of finalRemaining (fst e) < snd e) entries))
  = Zsum (snd <$> entries) - Zsum (stock_of finalRemaining ∘ fst <$> entries).
Proof.
  induction 1 as [|e l He _ IH]; [done|]. rewrite filter_cons, !fmap_cons.
  change (Zsum (?x :: ?l)) with (x + Zsum l). case_decide; rewrite ?fmap_cons;
    change (Zsum (?x :: ?l)) with (x + Zsum l); cbn [row_used rowOf compose]; lia.
Qed.

Lemma generateSummary_eq data finalRemaining :
  Forall (fun e => is_Some (finalRemaining !! fst e)) (ORIGINAL_COUNTS data) ->
  generateSummary data finalRemaining =
  {| totalUsed := Some (total_stock data - stock_sum data finalRemaining);
     summaryData := rowOf finalRemaining <$>
       filter (fun e => stock_of finalRemaining (fst e) < snd e) (ORIGINAL_COUNTS data) |}.
Proof.
  intros Hall. unfold generateSummary. rewrite foldl_summaryStep by done. simpl.
  by rewrite Zsum_ORIGINAL_COUNTS, Zsum_stock_ORIGINAL_COUNTS.
Qed.

(** [generateSummary] on a stock of the palette.  When the final stock has a
    count between zero and the original for every colour, [totalUsed] is the
    original total minus the pieces left, and the rows are, in palette order,
    those of the colours whose stock is below the original, each with used =
    original - remaining. *)
Theorem generateSummary_spec data finalRemaining :
  counts_ok data finalRemaining ->
  totalUsed (generateSummary data finalRemaining)
  = Some (total_stock data - stock_sum data finalRemaining) /\
  summaryData (generateSummary data finalRemaining)
  = rowOf finalRemaining <$>
      filter (fun e => stock_of finalRemaining (fst e) < snd e) (ORIGINAL_COUNTS data).
Proof.
  intros Hc. by rewrite generateSummary_eq by (by apply counts_ok_is_Some).
Qed.

(** A missing count poisons the total.  If the final stock has no entry for
    some colour of the palette, [totalUsed] is [NaN] (no number), whatever the
    other counts are. *)
Theorem generateSummary_missing data finalRemaining name :
  name ∈ palette_names data -> finalRemaining !! name = None ->
  totalUsed (generateSummary data finalRemaining) = None.
Proof.
  intros Hname Hnone. unfold generateSummary. rewrite <- ORIGINAL_COUNTS_names in Hname.
  apply list_elem_of_fmap in Hname as ([n orig] & -> & Hin).
  apply list_elem_of_split in Hin as (pre & post & ->).
  rewrite foldl_app. cbn [foldl]. apply foldl_summaryStep_NaN, summaryStep_missing, Hnone.
Qed.

(** ** The hover lookup *)

Lemma hover_cell (names : list string) (e : mouseEvent) (x y : Z) (name hoverInfo : string) :
  cell TARGET_SIZE e = (Some x, Some y) ->
  0 <= x < Z.of_nat TARGET_SIZE -> 0 <= y < Z.of_nat TARGET_SIZE ->
  names !! Z.to_nat (y * Z.of_nat TARGET_SIZE + x) = Some name ->
  hover (Some (chunks (length names) TARGET_SIZE names)) e hoverInfo
  = Returns (" Colour: " +:+ name).
Proof.
  intros Hcell Hx Hy Hname. unfold hover. rewrite Hcell, !inside_Some by done. cbn [andb].
  change (default 0 (Some y)) with y. change (default 0 (Some x)) with x.
  pose proof (chunks_lookup (length names) TARGET_SIZE names (Z.to_nat x) (Z.to_nat y)) as Hl.
  replace (Z.to_nat y * TARGET_SIZE + Z.to_nat x)%nat
    with (Z.to_nat (y * Z.of_nat TARGET_SIZE + x)) in Hl by lia.
  rewrite Hname in Hl.
  destruct (chunks (length names) TARGET_SIZE names !! Z.to_nat y) as [row|]; simpl in Hl.
  - rewrite Hl by lia. reflexivity.
  - discriminate Hl; lia.
Qed.

(** Outside the mosaic the text is cleared. *)
Lemma hover_outside map (e : mouseEvent) (hoverInfo : string) :
  inside (cell TARGET_SIZE e).1 TARGET_SIZE && inside (cell TARGET_SIZE e).2 TARGET_SIZE = false ->
  hover (Some map) e hoverInfo = Returns EmptyString.
Proof.
  intros Hout. unfold hover. destruct (cell TARGET_SIZE e) as [x y]. cbn [fst snd] in Hout.
  by rewrite Hout.
Qed.

(** ** The whole generation *)

Lemma assigned_used names :
  (assigned names + used names OUT_OF_STOCK)%nat = length names.
Proof.
  unfold assigned, used. induction names as [|n names IH]; [done|].
  rewrite !filter_cons. destruct (decide (n = OUT_OF_STOCK)); simpl.
  - rewrite decide_False by tauto. simpl. lia.
  - rewrite decide_True by done. simpl. lia.
Qed.

Lemma used_absent names name : name ∉ names -> used names name = 0%nat.
Proof.
  unfold used. induction names as [|n names IH]; [done|].
  intros [Hne Hnames]%not_elem_of_cons. by rewrite filter_cons_False, IH.
Qed.

Lemma rows_by_usage (finalRemaining : gmap string Z) (u : string -> nat) entries :
  Forall (fun e => Z.of_nat (u (fst e)) = snd e - stock_of finalRemaining (fst e)) entries ->
  rowOf finalRemaining <$> filter (fun e => stock_of finalRemaining (fst e) < snd e) entries
  = (fun e => SummaryRow (fst e) (Z.of_nat (u (fst e))) (snd e - Z.of_nat (u (fst e))) (snd e))
    <$> filter (fun e => (0 < u (fst e))%nat) entries.
Proof.
  induction 1 as [|e l He _ IH]; [done|]. rewrite !filter_cons.
  destruct (decide (stock_of finalRemaining (fst e) < snd e)).
  - rewrite decide_True, !fmap_cons, IH by lia. unfold rowOf. do 2 f_equal; lia.
  - by rewrite decide_False, IH by lia.
Qed.

Lemma rgbaByte_pixelAt arr i r g b :
  pixelAt arr i = Some (r, g, b) ->
  rgbaByte arr i 0 = r /\ rgbaByte arr i 1 = g /\ rgbaByte arr i 2 = b /\ rgbaByte arr i 3 = 255.
Proof.
  unfold pixelAt, rgbaByte, byteAt. rewrite Nat.add_0_r, (Nat.mul_comm i 3).
  destruct (arr !! (3 * i)%nat), (arr !! (3 * i + 1)%nat), (arr !! (3 * i + 2)%nat);
    intros; by simplify_eq/=.
Qed.

(** [runGeneration] returns on every palette and every canvas: the indices
    that [getPixelData] gives to the matcher are inside the image.  The name
    map has one name per pixel, in rows of [TARGET_SIZE]. *)
Lemma runGeneration_returns (data : palette) (canvas : list Z) :
  exists g, runGeneration data canvas = Returns g /\
    length (finalImageData g) = (4 * (TARGET_SIZE * TARGET_SIZE))%nat /\
    length (concat (finalColorNameMap g)) = length (pixels (getPixelData canvas)) /\
    finalColorNameMap g
    = chunks (length (concat (finalColorNameMap g))) TARGET_SIZE (concat (finalColorNameMap g)).
Proof.
  destruct (Permutation_seq_wf _ _ (getPixelData_permutation canvas)) as (_ & Hidx & _).
  destruct (mapToColours_returns data _ _ Hidx) as (m & Hm & Hlen & Hrows).
  eexists. unfold runGeneration. rewrite Hm. split; [reflexivity|].
  split; [apply toRGBA_length | by split].
Qed.

Section runGeneration.
Context (data : palette) (Hok : palette_ok data).
Context (Hsentinel : OUT_OF_STOCK ∉ palette_names data).
Context (canvas : list Z) (Hcanvas : Forall is_u8 canvas).

(** The generation returns: the matcher's result meets its contract on the
    pixels and the order of [getPixelData], and the generation is built from
    it. *)
Lemma runGeneration_meets_spec :
  exists m,
    mosaic_spec data (pixels (getPixelData canvas)) (pixelIndices (getPixelData canvas)) m /\
    runGeneration data canvas = Returns {|
      finalImageData := toRGBA (coreImageArray m);
      finalColorNameMap := coreColorNameMap2D m;
      shownSummary := generateSummary data (remainingCounts m) |}.
Proof.
  destruct (getPixelData_meets_spec canvas Hcanvas) as [Hpx Hperm _].
  destruct (Permutation_seq_wf _ _ Hperm) as (Hnd & Hidx & _).
  destruct (mapToColours_meets_spec data Hok _ Hpx _ Hidx Hnd Hsentinel) as (m & Hm & Hspec).
  exists m. split; [exact Hspec|]. unfold runGeneration. by rewrite Hm.
Qed.

(** C14: the total shown is the number of coloured cells.  For a well-formed
    palette without a colour called "Out of Stock" and a canvas of bytes,
    [runGeneration] returns; [totalUsed] of the summary is the number of cells
    of the name map that carry a colour, and these cells together with the
    "Out of Stock" cells are all the pixels of the canvas. *)
Theorem runGeneration_conservation :
  exists g, runGeneration data canvas = Returns g /\
    totalUsed (shownSummary g) = Some (Z.of_nat (assigned (concat (finalColorNameMap g)))) /\
    (assigned (concat (finalColorNameMap g)) + used (concat (finalColorNameMap g)) OUT_OF_STOCK)%nat
    = length (pixels (getPixelData canvas)).
Proof.
  destruct runGeneration_meets_spec as (m & Hspec & ->). eexists. split; [reflexivity|].
  cbn [shownSummary finalColorNameMap finalImageData].
  rewrite generateSummary_eq by apply counts_ok_is_Some, Hspec.
  cbn [totalUsed summaryData]. fold (names_of m).
  pose proof (spec_conservation _ _ _ _ Hspec). rewrite assigned_used.
  split; [f_equal; lia | apply Hspec].
Qed.

(** The rows of the summary.  Under the same hypotheses the summary lists, in
    palette order, exactly the colours that label at least one cell; the row
    of a colour shows the number of cells that carry its name as used, the
    original count, and their difference as remaining.  The two disjuncts of
    the test of [summaryStep] are equivalent, so a colour that was not used
    has no row, whatever its stock is. *)
Theorem runGeneration_rows :
  exists g, runGeneration data canvas = Returns g /\
    summaryData (shownSummary g) =
    (fun e => SummaryRow (fst e) (Z.of_nat (used (concat (finalColorNameMap g)) (fst e)))
                (snd e - Z.of_nat (used (concat (finalColorNameMap g)) (fst e))) (snd e))
    <$> filter (fun e => (0 < used (concat (finalColorNameMap g)) (fst e))%nat)
               (ORIGINAL_COUNTS data).
Proof.
  destruct runGeneration_meets_spec as (m & Hspec & ->). eexists. split; [reflexivity|].
  cbn [shownSummary finalColorNameMap finalImageData].
  rewrite generateSummary_eq by apply counts_ok_is_Some, Hspec.
  cbn [totalUsed summaryData]. fold (names_of m).
  apply rows_by_usage, Forall_forall. intros [name orig] He.
  apply (spec_usage _ _ _ _ Hspec), table_get_NoDup; [|done].
  rewrite ORIGINAL_COUNTS_names. apply Hok.
Qed.

(** C21: the rows of the summary.  For a well-formed palette without a colour
    called "Out of Stock" and 8-bit bytes, [runGeneration] returns; the rows
    of the summary name colours of the palette, each at most once and in
    palette order; every colour that labels at least one cell has a row; a row
    shows the original count of its colour, the number of cells that carry its
    name as used and their difference as remaining; and the total shown is the
    sum of the used column. *)
Theorem runGeneration_rows_used :
  exists g, runGeneration data canvas = Returns g /\
    let names := concat (finalColorNameMap g) in
    let rows := summaryData (shownSummary g) in
    row_name <$> rows `sublist_of` palette_names data /\
    (forall name, name ∈ palette_names data -> (0 < used names name)%nat ->
       name ∈ row_name <$> rows) /\
    Forall (fun row =>
      table_get (ORIGINAL_COUNTS data) (row_name row) = Some (row_original row) /\
      row_used row = Z.of_nat (used names (row_name row)) /\
      row_remaining row = row_original row - row_used row) rows /\
    totalUsed (shownSummary g) = Some (Zsum (row_used <$> rows)).
Proof.
  destruct runGeneration_meets_spec as (m & Hspec & ->). eexists. split; [reflexivity|].
  cbn [shownSummary finalColorNameMap finalImageData]. fold (names_of m).
  assert (forall e, e ∈ ORIGINAL_COUNTS data ->
            table_get (ORIGINAL_COUNTS data) (fst e) = Some (snd e)) as Hget.
  { intros [name orig] He. apply table_get_NoDup; [|done].
    rewrite ORIGINAL_COUNTS_names. apply Hok. }
  pose proof (fun e He => spec_usage _ _ _ _ Hspec _ _ (Hget e He)) as Husage.
  rewrite generateSummary_eq by apply counts_ok_is_Some, Hspec.
  cbn [totalUsed summaryData]. cbn zeta. split_and!.
  - rewrite <- list_fmap_compose, <- ORIGINAL_COUNTS_names.
    change (row_name ∘ rowOf (remainingCounts m)) with (@fst string Z).
    apply fmap_sublist, sublist_filter.
  - rewrite <- list_fmap_compose, <- ORIGINAL_COUNTS_names.
    intros name [e [-> He]]%list_elem_of_fmap Hused. apply list_elem_of_fmap.
    exists e. split; [done|]. apply list_elem_of_filter. split; [|done].
    specialize (Husage e He). lia.
  - apply Forall_fmap, Forall_forall. intros e [_ He]%list_elem_of_filter.
    specialize (Husage e He). cbn. split_and!; [by apply Hget | lia..].
  - rewrite Zsum_used, Zsum_ORIGINAL_COUNTS, Zsum_stock_ORIGINAL_COUNTS; [done|].
    apply Forall_forall. intros e He. apply (spec_counts _ _ _ _ Hspec), Hget, He.
Qed.

(** When the stock covers the image, every cell gets a colour. *)
Lemma runGeneration_sufficient :
  Z.of_nat (length (pixels (getPixelData canvas))) <= total_stock data ->
  exists g, runGeneration data canvas = Returns g /\
    totalUsed (shownSummary g) = Some (Z.of_nat (length (pixels (getPixelData canvas)))) /\
    OUT_OF_STOCK ∉ concat (finalColorNameMap g).
Proof.
  intros Hstock. destruct runGeneration_meets_spec as (m & Hspec & ->).
  destruct (Permutation_seq_wf _ _ (getPixelData_permutation canvas)) as (_ & _ & Hlen).
  eexists. split; [reflexivity|].
  cbn [shownSummary finalColorNameMap finalImageData]. fold (names_of m).
  assert (OUT_OF_STOCK ∉ names_of m) as Hfull.
  { intros [i Hi]%list_elem_of_lookup. pose proof (lookup_lt_Some _ _ _ Hi) as Hlt.
    rewrite (spec_cells _ _ _ _ Hspec) in Hlt.
    assert (i ∈ pixelIndices (getPixelData canvas)) as [k Hk]%list_elem_of_lookup
      by (rewrite getPixelData_permutation, elem_of_seq; lia).
    apply (spec_exhaustion _ _ _ _ Hspec k i Hk) in Hi. apply lookup_lt_Some in Hk. lia. }
  split; [|done]. rewrite generateSummary_eq by apply counts_ok_is_Some, Hspec.
  cbn [totalUsed].
  pose proof (spec_conservation _ _ _ _ Hspec). pose proof (assigned_used (names_of m)) as Hau.
  rewrite (used_absent _ _ Hfull), (spec_cells _ _ _ _ Hspec) in Hau. f_equal. lia.
Qed.

(** C12: exhaustion, from the canvas to the name map.  For a well-formed
    palette without a colour called "Out of Stock" and 8-bit bytes,
    [runGeneration] returns; the number of "Out of Stock" cells is the number
    of pixels minus the pieces of the palette (zero when there are enough),
    and no cell that was left "Out of Stock" has a higher exact luma or a
    higher score than a cell that received a colour. *)
Theorem runGeneration_exhaustion :
  exists g, runGeneration data canvas = Returns g /\
    Z.of_nat (used (concat (finalColorNameMap g)) OUT_OF_STOCK)
    = Z.max 0 (Z.of_nat (length (pixels (getPixelData canvas))) - total_stock data) /\
    forall i j name, concat (finalColorNameMap g) !! i = Some name -> name <> OUT_OF_STOCK ->
      concat (finalColorNameMap g) !! j = Some OUT_OF_STOCK ->
      lumaAt (pixels (getPixelData canvas)) j <= lumaAt (pixels (getPixelData canvas)) i /\
      below (scoreAt (scoresOf canvas) i) (scoreAt (scoresOf canvas) j) = false.
Proof.
  destruct runGeneration_meets_spec as (m & Hspec & ->).
  destruct (getPixelData_meets_spec canvas Hcanvas) as [_ Hperm Hsorted Hluma].
  eexists. split; [reflexivity|]. cbn [finalColorNameMap]. fold (names_of m). split.
  - pose proof (spec_conservation _ _ _ _ Hspec). pose proof (spec_stock _ _ _ _ Hspec) as Hs.
    pose proof (assigned_used (names_of m)) as Hau.
    rewrite (spec_cells _ _ _ _ Hspec) in Hau. rewrite Hperm, length_seq in Hs. lia.
  - intros i j name Hi Hname Hj.
    assert (forall c n, names_of m !! c = Some n -> c ∈ pixelIndices (getPixelData canvas)) as Hin.
    { intros c n Hc%lookup_lt_Some. rewrite (spec_cells _ _ _ _ Hspec) in Hc.
      rewrite Hperm, elem_of_seq. lia. }
    destruct (proj1 (list_elem_of_lookup _ _) (Hin i name Hi)) as [ki Hki].
    destruct (proj1 (list_elem_of_lookup _ _) (Hin j _ Hj)) as [kj Hkj].
    pose proof (spec_exhaustion _ _ _ _ Hspec ki i Hki) as Ei.
    pose proof (proj1 (spec_exhaustion _ _ _ _ Hspec kj j Hkj) Hj) as Ej.
    assert (~ total_stock data <= Z.of_nat ki) as Hlt by (rewrite <- Ei, Hi; congruence).
    assert (ki < kj)%nat as Hlt' by lia.
    split; [exact (StronglySorted_lookup _ _ ki kj i j Hluma Hki Hkj Hlt')|].
    exact (proj1 (StronglySorted_lookup _ _ ki kj i j Hsorted Hki Hkj Hlt')).
Qed.
(** C9: [runGeneration] implements the algorithm of the specification.  For a
    well-formed palette and 8-bit bytes, there is an arrangement of the pixel
    indices, descending in exact luma, and a run of the step relation along it
    from the full inventory and the blank image (each step gives the visited
    pixel the first nearest colour in stock, by exact distance, and takes one
    piece) such that [runGeneration] returns the image, the name map and the
    summary of the state that the run ends in.  The step relation is
    deterministic, so the arrangement fixes the result. *)
Theorem runGeneration_refines :
  exists order st,
    order ≡ₚ seq 0 (length (pixels (getPixelData canvas))) /\
    StronglySorted (fun i j => lumaAt (pixels (getPixelData canvas)) j
                               <= lumaAt (pixels (getPixelData canvas)) i) order /\
    run data (pixels (getPixelData canvas))
        (initialState data (length (pixels (getPixelData canvas)))) order st /\
    runGeneration data canvas = Returns {|
      finalImageData := toRGBA (coreImageArray (mosaic_of st));
      finalColorNameMap := coreColorNameMap2D (mosaic_of st);
      shownSummary := generateSummary data (remainingCounts (mosaic_of st)) |}.
Proof.
  destruct (getPixelData_meets_spec canvas Hcanvas) as [Hpx Hperm _ Hluma].
  destruct (Permutation_seq_wf _ _ Hperm) as (_ & Hidx & _).
  destruct (mapToColours_run data Hok _ Hpx _ Hidx) as (st & Hrun & _ & Hm).
  exists (pixelIndices (getPixelData canvas)), st. split_and!; [done..|].
  unfold runGeneration. by rewrite Hm.
Qed.

Context (Hsize : length canvas = (4 * (TARGET_SIZE * TARGET_SIZE))%nat).

Lemma canvas_pixels : length (pixels (getPixelData canvas)) = (TARGET_SIZE * TARGET_SIZE)%nat.
Proof. unfold getPixelData. simpl. by rewrite length_fmap, (readPixels_length canvas _ Hsize). Qed.

(** C23: the buffer put on the mosaic canvas.  For a canvas of [TARGET_SIZE] x
    [TARGET_SIZE] pixels the buffer has four bytes per pixel; the bytes of
    pixel [i] are the three channels of the colour of the name of cell [i]
    (black for "Out of Stock") followed by the alpha value 255. *)
Theorem runGeneration_image :
  exists g, runGeneration data canvas = Returns g /\
    length (finalImageData g) = (4 * (TARGET_SIZE * TARGET_SIZE))%nat /\
    forall i name, concat (finalColorNameMap g) !! i = Some name ->
      exists r gr b, cell_ok data name (r, gr, b) /\
        finalImageData g !! (i * 4)%nat = Some r /\
        finalImageData g !! (i * 4 + 1)%nat = Some gr /\
        finalImageData g !! (i * 4 + 2)%nat = Some b /\
        finalImageData g !! (i * 4 + 3)%nat = Some 255.
Proof.
  destruct runGeneration_meets_spec as (m & Hspec & ->). eexists. split; [reflexivity|].
  cbn [shownSummary finalColorNameMap finalImageData].
  split; [apply toRGBA_length|]. intros i name Hi.
  pose proof (lookup_lt_Some _ _ _ Hi) as Hlt. fold (names_of m) in Hlt.
  rewrite (spec_cells _ _ _ _ Hspec), canvas_pixels in Hlt.
  destruct (spec_image _ _ _ _ Hspec i name Hi) as ([[r gr] b] & Hpx & Hcell).
  destruct (rgbaByte_pixelAt _ _ _ _ _ Hpx) as (H0 & H1 & H2 & H3).
  exists r, gr, b. rewrite <- (Nat.add_0_r (i * 4)) at 1.
  rewrite !toRGBA_lookup, H0, H1, H2, H3 by lia. done.
Qed.

(** The hover lookup after a generation.  For a canvas of [TARGET_SIZE] x
    [TARGET_SIZE] pixels and every event over a cell [(x, y)] of the mosaic,
    the handler does not throw and shows the name of cell [y * TARGET_SIZE +
    x] of the name map. *)
Theorem runGeneration_hover :
  exists g, runGeneration data canvas = Returns g /\
    forall e x y hoverInfo, cell TARGET_SIZE e = (Some x, Some y) ->
      0 <= x < Z.of_nat TARGET_SIZE -> 0 <= y < Z.of_nat TARGET_SIZE ->
      exists name,
        concat (finalColorNameMap g) !! Z.to_nat (y * Z.of_nat TARGET_SIZE + x) = Some name /\
        hover (Some (finalColorNameMap g)) e hoverInfo = Returns (" Colour: " +:+ name).
Proof.
  destruct runGeneration_meets_spec as (m & Hspec & ->). eexists. split; [reflexivity|].
  cbn [shownSummary finalColorNameMap finalImageData].
  intros e x y hoverInfo Hcell Hx Hy. fold (names_of m).
  destruct (lookup_lt_is_Some_2 (names_of m) (Z.to_nat (y * Z.of_nat TARGET_SIZE + x)))
    as [name Hname].
  { rewrite (spec_cells _ _ _ _ Hspec), canvas_pixels. unfold TARGET_SIZE in *. lia. }
  exists name. split; [done|]. rewrite (spec_rows _ _ _ _ Hspec). by apply (hover_cell _ e x y).
Qed.

End runGeneration.

(** With the shipped palette nothing runs out.  For every canvas of
    [TARGET_SIZE] x [TARGET_SIZE] pixels, [runGeneration] with [COLOURS_DATA]
    returns, the summary shows 2304 pieces used, and no cell is "Out of
    Stock". *)
Theorem runGeneration_shipped (canvas : list Z) :
  Forall is_u8 canvas -> length canvas = (4 * (TARGET_SIZE * TARGET_SIZE))%nat ->
  exists g, runGeneration COLOURS_DATA canvas = Returns g /\
    totalUsed (shownSummary g) = Some 2304 /\
    OUT_OF_STOCK ∉ concat (finalColorNameMap g).
Proof.
  intros Hcanvas Hsize.
  assert (OUT_OF_STOCK ∉ palette_names COLOURS_DATA) as Hsentinel
    by (apply (bool_decide_unpack _); by vm_compute).
  pose proof (canvas_pixels canvas Hsize) as Hlen.
  destruct (runGeneration_sufficient COLOURS_DATA COLOURS_DATA_ok Hsentinel canvas Hcanvas)
    as (g & Hg & Htotal & Hfull).
  - rewrite Hlen. by vm_compute.
  - exists g. rewrite Hlen in Htotal. done.
Qed.

(** ** The theorems on the worked example and on a blank canvas *)

Lemma generateSummary_spec_witness :
  totalUsed (generateSummary scenario_palette (list_to_map (ORIGINAL_COUNTS scenario_palette)))
  = Some (total_stock scenario_palette
          - stock_sum scenario_palette (list_to_map (ORIGINAL_COUNTS scenario_palette))) /\
  summaryData (generateSummary scenario_palette (list_to_map (ORIGINAL_COUNTS scenario_palette)))
  = rowOf (list_to_map (ORIGINAL_COUNTS scenario_palette)) <$>
      filter (fun e => stock_of (list_to_map (ORIGINAL_COUNTS scenario_palette)) (fst e) < snd e)
             (ORIGINAL_COUNTS scenario_palette).
Proof. apply generateSummary_spec, counts_ok_initial, scenario_palette_ok. Defined.

Lemma generateSummary_missing_witness :
  totalUsed (generateSummary scenario_palette {["Red" := 0]}) = None.
Proof. apply (generateSummary_missing _ _ "Blue"); [by_compute | reflexivity]. Defined.

Lemma runGeneration_conservation_witness :
  exists g, runGeneration scenario_palette scenario_canvas = Returns g /\
    totalUsed (shownSummary g) = Some (Z.of_nat (assigned (concat (finalColorNameMap g)))) /\
    (assigned (concat (finalColorNameMap g)) + used (concat (finalColorNameMap g)) OUT_OF_STOCK)%nat
    = length (pixels (getPixelData scenario_canvas)).
Proof. apply runGeneration_conservation; by_compute. Defined.

Lemma runGeneration_rows_witness :
  exists g, runGeneration scenario_palette scenario_canvas = Returns g /\
    summaryData (shownSummary g) =
    (fun e => SummaryRow (fst e) (Z.of_nat (used (concat (finalColorNameMap g)) (fst e)))
                (snd e - Z.of_nat (used (concat (finalColorNameMap g)) (fst e))) (snd e))
    <$> filter (fun e => (0 < used (concat (finalColorNameMap g)) (fst e))%nat)
               (ORIGINAL_COUNTS scenario_palette).
Proof. apply runGeneration_rows; by_compute. Defined.

Lemma runGeneration_rows_used_witness :
  exists g, runGeneration scenario_palette scenario_canvas = Returns g /\
    let names := concat (finalColorNameMap g) in
    let rows := summaryData (shownSummary g) in
    row_name <$> rows `sublist_of` palette_names scenario_palette /\
    (forall name, name ∈ palette_names scenario_palette -> (0 < used names name)%nat ->
       name ∈ row_name <$> rows) /\
    Forall (fun row =>
      table_get (ORIGINAL_COUNTS scenario_palette) (row_name row) = Some (row_original row) /\
      row_used row = Z.of_nat (used names (row_name row)) /\
      row_remaining row = row_original row - row_used row) rows /\
    totalUsed (shownSummary g) = Some (Zsum (row_used <$> rows)).
Proof. apply runGeneration_rows_used; by_compute. Defined.

Lemma runGeneration_exhaustion_witness :
  exists g, runGeneration scenario_palette scenario_canvas = Returns g /\
    Z.of_nat (used (concat (finalColorNameMap g)) OUT_OF_STOCK)
    = Z.max 0 (Z.of_nat (length (pixels (getPixelData scenario_canvas)))
               - total_stock scenario_palette) /\
    forall i j name, concat (finalColorNameMap g) !! i = Some name -> name <> OUT_OF_STOCK ->
      concat (finalColorNameMap g) !! j = Some OUT_OF_STOCK ->
      lumaAt (pixels (getPixelData scenario_canvas)) j
      <= lumaAt (pixels (getPixelData scenario_canvas)) i /\
      below (scoreAt (scoresOf scenario_canvas) i) (scoreAt (scoresOf scenario_canvas) j) = false.
Proof. apply runGeneration_exhaustion; by_compute. Defined.

Lemma runGeneration_refines_witness :
  exists order st,
    order ≡ₚ seq 0 (length (pixels (getPixelData scenario_canvas))) /\
    StronglySorted (fun i j => lumaAt (pixels (getPixelData scenario_canvas)) j
                               <= lumaAt (pixels (getPixelData scenario_canvas)) i) order /\
    run scenario_palette (pixels (getPixelData scenario_canvas))
        (initialState scenario_palette (length (pixels (getPixelData scenario_canvas))))
        order st /\
    runGeneration scenario_palette scenario_canvas = Returns {|
      finalImageData := toRGBA (coreImageArray (mosaic_of st));
      finalColorNameMap := coreColorNameMap2D (mosaic_of st);
      shownSummary := generateSummary scenario_palette (remainingCounts (mosaic_of st)) |}.
Proof. apply runGeneration_refines; by_compute. Defined.

(** A canvas of [TARGET_SIZE * TARGET_SIZE] transparent black pixels. *)
Lemma blank_canvas :
  Forall is_u8 (replicate (4 * (TARGET_SIZE * TARGET_SIZE)) 0) /\
  length (replicate (4 * (TARGET_SIZE * TARGET_SIZE)) 0) = (4 * (TARGET_SIZE * TARGET_SIZE))%nat.
Proof. split; [by apply Forall_replicate | apply length_replicate]. Qed.

Lemma runGeneration_image_witness :
  exists g, runGeneration COLOURS_DATA (replicate (4 * (TARGET_SIZE * TARGET_SIZE)) 0) = Returns g /\
    length (finalImageData g) = (4 * (TARGET_SIZE * TARGET_SIZE))%nat /\
    forall i name, concat (finalColorNameMap g) !! i = Some name ->
      exists r gr b, cell_ok COLOURS_DATA name (r, gr, b) /\
        finalImageData g !! (i * 4)%nat = Some r /\
        finalImageData g !! (i * 4 + 1)%nat = Some gr /\
        finalImageData g !! (i * 4 + 2)%nat = Some b /\
        finalImageData g !! (i * 4 + 3)%nat = Some 255.
Proof.
  apply runGeneration_image; [apply COLOURS_DATA_ok | by_compute | apply blank_canvas..].
Defined.

Lemma runGeneration_hover_witness :
  exists g, runGeneration COLOURS_DATA (replicate (4 * (TARGET_SIZE * TARGET_SIZE)) 0) = Returns g /\
    forall e x y hoverInfo, cell TARGET_SIZE e = (Some x, Some y) ->
      0 <= x < Z.of_nat TARGET_SIZE -> 0 <= y < Z.of_nat TARGET_SIZE ->
      exists name,
        concat (finalColorNameMap g) !! Z.to_nat (y * Z.of_nat TARGET_SIZE + x) = Some name /\
        hover (Some (finalColorNameMap g)) e hoverInfo = Returns (" Colour: " +:+ name).
Proof.
  apply runGeneration_hover; [apply COLOURS_DATA_ok | by_compute | apply blank_canvas..].
Defined.

Lemma runGeneration_shipped_witness :
  exists g, runGeneration COLOURS_DATA (replicate (4 * (TARGET_SIZE * TARGET_SIZE)) 0) = Returns g /\
    totalUsed (shownSummary g) = Some 2304 /\
    OUT_OF_STOCK ∉ concat (finalColorNameMap g).
Proof. apply runGeneration_shipped; apply blank_canvas. Defined.

(** The worked example of the specification.  On the 2 x 2 canvas [(255,0,0);
    (0,0,255); (250,5,5); (0,0,0)] with one red and one blue piece, the
    processing order is [2; 0; 1; 3]; pixel 2 gets Red, pixel 0 gets Blue,
    pixels 1 and 3 are "Out of Stock" and black; both stocks end at 0 and the
    summary shows 2 pieces used, one row per colour. *)
Example scenario_two_by_two :
  let pd := getPixelData scenario_canvas in
  pixels pd = scenario_pixels /\ pixelIndices pd = scenario_order /\
  (m ← mapToColours scenario_palette (pixels pd) (pixelIndices pd);
   Returns (coreColorNameMap2D m, coreImageArray m,
            stock_of (remainingCounts m) "Red", stock_of (remainingCounts m) "Blue",
            generateSummary scenario_palette (remainingCounts m)))
  = Returns ([["Blue"; "Out of Stock"; "Red"; "Out of Stock"]],
             [0; 0; 255;  0; 0; 0;  255; 0; 0;  0; 0; 0], 0, 0,
             {| totalUsed := Some 2;
                summaryData := [SummaryRow "Red" 1 0 1; SummaryRow "Blue" 1 0 1] |}).
Proof. split_and!; by vm_compute. Qed.
