(* ===== verification/Html.v ===== *)
(** * Html: the summary as HTML (script.js, the second half of function
      generateSummary)

    [generateSummary] renders its two accumulators as one string: a header
    with the total, and one block per row, appended in the order of the
    rows.  [summaryHtml] is that string, character by character; numbers are
    written the way template literals write them, in decimal, [NaN] as
    [NaN].

    The theorems: the loop that appends the blocks is the concatenation of
    the blocks ([summaryHtml_blocks]); and the string determines the
    accumulators, for names that contain no [<] ([summaryHtml_inj]): two
    different summaries are never shown as the same text. *)

From Stdlib Require Import ZArith Lia String Ascii.
From stdpp Require Import base tactics option list strings pretty.
From S2P Require Import Prelude Palette Generation.

#[local] Open Scope Z_scope.

(** The characters that a string literal cannot hold as they are. *)
Definition nl : string := String "010" EmptyString.
Definition quote : string := String "034" EmptyString.

(** A line of a template literal: the line break and the indentation before
    its text. *)
Definition line (indent : nat) (text : string) : string :=
  nl +:+ String.concat EmptyString (replicate indent " ") +:+ text.

(** An opening tag with a [class] attribute. *)
Definition tag (name class : string) : string :=
  "<" +:+ name +:+ " class=" +:+ quote +:+ class +:+ quote +:+ ">".

(** [${v}] for a number. *)
Definition numberText (v : option Z) : string := from_option pretty "NaN" v.

(** The first template literal: the total and the titles of the columns. *)
Definition headerHtml (totalUsed : option Z) : string :=
  line 12 (tag "div" "py-2 border-b border-gray-200") +:+
  line 16 (tag "span" "font-bold text-gray-800") +:+ "Total PIXELS used: " +:+
    numberText totalUsed +:+ "</span>" +:+
  line 16 (tag "span" "text-xs text-gray-500 block") +:+ "(" +:+
    pretty (TARGET_SIZE * TARGET_SIZE)%nat +:+ " pixels needed for core image)</span>" +:+
  line 12 "</div>" +:+
  line 12 (tag "div" "grid grid-cols-4 font-bold text-gray-700 mt-2") +:+
  line 16 "<div>COLOR</div>" +:+
  line 16 (tag "div" "text-right") +:+ "USED| </div>" +:+
  line 16 (tag "div" "text-right") +:+ "REMAINING| </div>" +:+
  line 16 (tag "div" "text-right") +:+ "ORIGINAL </div>" +:+
  line 12 "</div>" +:+
  line 8 "".

(** The template literal of [summaryData.forEach]: one row. *)
Definition itemHtml (item : summaryRow) : string :=
  line 16 (tag "div" "grid grid-cols-4 mt-1 border-b border-dashed border-gray-100") +:+
  line 20 (tag "div" "truncate") +:+ row_name item +:+ "</div>" +:+
  line 20 (tag "div" "text-right text-red-600") +:+ pretty (row_used item) +:+ "</div>" +:+
  line 20 (tag "div" "text-right text-green-600") +:+ pretty (row_remaining item) +:+ "</div>" +:+
  line 20 (tag "div" "text-right") +:+ pretty (row_original item) +:+ "</div>" +:+
  line 16 "</div>" +:+
  line 12 "".

(** The string assigned to [summaryOutput.innerHTML]. *)
Definition summaryHtml (s : summary) : string :=
  let html := EmptyString in
  let html := html +:+ headerHtml (totalUsed s) in
  foldl (fun html item => html +:+ itemHtml item) html (summaryData s).

(** ** Reference definitions *)

(** The blocks of the rows, one after the other. *)
Definition itemsHtml (items : list summaryRow) : string :=
  foldr (fun item rest => itemHtml item +:+ rest) EmptyString items.

(** Every character of a text passes a test. *)
Fixpoint all (P : ascii -> bool) (s : string) : bool :=
  match s with
  | EmptyString => true
  | String c rest => P c && all P rest
  end.

(** A text without the character that opens a tag. *)
Definition plain (s : string) : bool := all (fun c => negb (Ascii.eqb c "<")) s.

(** The characters of a number that is an integer. *)
Definition numeric (c : ascii) : bool :=
  bool_decide (c ∈ ["0"; "1"; "2"; "3"; "4"; "5"; "6"; "7"; "8"; "9"; "-"]%char).

(** ** Strings *)

Lemma append_cons (x : ascii) (a b : string) : String x a +:+ b = String x (a +:+ b).
Proof. reflexivity. Qed.

Lemma append_assoc (a b c : string) : (a +:+ b) +:+ c = a +:+ (b +:+ c).
Proof. induction a as [|x a IH]; [done|]. by rewrite !append_cons, IH. Qed.

Lemma append_empty_r (a : string) : a +:+ EmptyString = a.
Proof. induction a as [|x a IH]; [done|]. by rewrite append_cons, IH. Qed.

Lemma append_inj_l (p a b : string) : p +:+ a = p +:+ b -> a = b.
Proof. apply String.app_inj. Qed.

(** A plain text ends at the first [<]. *)
Lemma plain_delimited (a b m r1 r2 : string) :
  plain a = true -> plain b = true ->
  a +:+ (String "<" m +:+ r1) = b +:+ (String "<" m +:+ r2) -> a = b /\ r1 = r2.
Proof.
  revert b. induction a as [|x a IH]; intros [|y b]; rewrite ?append_cons; unfold plain; cbn [all];
    intros Ha Hb Heq.
  - injection Heq as Heq. by apply append_inj_l in Heq.
  - injection Heq as <- _. done.
  - injection Heq as -> _. done.
  - apply andb_prop in Ha as [_ Ha]. apply andb_prop in Hb as [_ Hb].
    injection Heq as -> Heq. destruct (IH b Ha Hb Heq) as [-> ->]. done.
Qed.

Lemma all_impl (P Q : ascii -> bool) (s : string) :
  (forall c, P c = true -> Q c = true) -> all P s = true -> all Q s = true.
Proof.
  intros HPQ. induction s as [|c s IH]; [done|]. cbn [all].
  intros [Hc Hs]%andb_prop. by rewrite (HPQ c Hc), IH.
Qed.

(** ** Numbers as text *)

Lemma numeric_plain (s : string) : all numeric s = true -> plain s = true.
Proof.
  apply all_impl. unfold numeric. intros c Hc%bool_decide_eq_true_1.
  rewrite !elem_of_cons, elem_of_nil in Hc. by destruct_or!; subst.
Qed.

Lemma numeric_pretty_N_go (x : N) (s : string) :
  all numeric s = true -> all numeric (pretty_N_go x s) = true.
Proof.
  revert s. induction (N.lt_wf_0 x) as [x _ IH]. intros s Hs.
  destruct (decide (x = 0)%N) as [->|Hx]; [by rewrite pretty_N_go_0|].
  rewrite pretty_N_go_step by lia. apply IH; [apply N.div_lt; lia|].
  cbn [all]. rewrite Hs, andb_true_r. unfold pretty_N_char. by repeat case_match.
Qed.

Lemma numeric_pretty (z : Z) : all numeric (pretty z) = true.
Proof.
  assert (forall p : positive, all numeric (pretty p) = true) as Hpos.
  { intros p. unfold pretty, pretty_positive, pretty, pretty_N.
    destruct (decide (N.pos p = 0%N)); [done|]. by apply numeric_pretty_N_go. }
  destruct z as [|p|p]; [done | apply Hpos |].
  unfold pretty, pretty_Z. rewrite append_cons. cbn [all]. apply Hpos.
Qed.

Lemma numberText_plain (v : option Z) : plain (numberText v) = true.
Proof. destruct v as [z|]; [apply numeric_plain, numeric_pretty | done]. Qed.

Lemma numberText_inj (v w : option Z) : numberText v = numberText w -> v = w.
Proof.
  pose proof numeric_pretty as Hnum.
  destruct v as [x|], w as [y|]; cbn [numberText from_option]; intros Heq.
  - f_equal. by apply (inj pretty).
  - specialize (Hnum x). by rewrite Heq in Hnum.
  - specialize (Hnum y). by rewrite <- Heq in Hnum.
  - done.
Qed.

(** ** The blocks *)

#[local] Hint Resolve numberText_plain numeric_plain numeric_pretty : core.

#[local] Ltac peel H := apply append_inj_l in H.
#[local] Ltac cut_at H Heq := apply plain_delimited in H as [Heq H]; [|by auto..].

(** The header shows the total. *)
Lemma headerHtml_inj (t1 t2 : option Z) (rest1 rest2 : string) :
  headerHtml t1 +:+ rest1 = headerHtml t2 +:+ rest2 -> t1 = t2 /\ rest1 = rest2.
Proof.
  intros H. assert (t1 = t2) as <-.
  { unfold headerHtml in H. rewrite !append_assoc in H. do 3 peel H. cut_at H Ht.
    by apply numberText_inj. }
  split; [done|]. by peel H.
Qed.

(** A row shows its name and its three numbers. *)
Lemma itemHtml_inj (r1 r2 : summaryRow) (rest1 rest2 : string) :
  plain (row_name r1) = true -> plain (row_name r2) = true ->
  itemHtml r1 +:+ rest1 = itemHtml r2 +:+ rest2 -> r1 = r2 /\ rest1 = rest2.
Proof.
  intros H1 H2 H. unfold itemHtml in H. rewrite !append_assoc in H.
  do 2 peel H. cut_at H Hname. peel H. cut_at H Hused. peel H. cut_at H Hrem.
  peel H. cut_at H Horig. do 2 peel H.
  apply (inj pretty) in Hused, Hrem, Horig. destruct r1, r2; simplify_eq/=. done.
Qed.

Lemma itemHtml_nonempty (r : summaryRow) (rest : string) : itemHtml r +:+ rest <> EmptyString.
Proof. unfold itemHtml, line, nl. by rewrite !append_assoc, append_cons. Qed.

Lemma itemsHtml_inj (rows1 rows2 : list summaryRow) :
  Forall (fun r => plain (row_name r) = true) rows1 ->
  Forall (fun r => plain (row_name r) = true) rows2 ->
  itemsHtml rows1 = itemsHtml rows2 -> rows1 = rows2.
Proof.
  intros Hrows1. revert rows2.
  induction Hrows1 as [|r1 rows1 Hr1 _ IH]; intros ? [|r2 rows2 Hr2 Hrows2];
    cbn [itemsHtml foldr]; intros H.
  - done.
  - symmetry in H. by apply itemHtml_nonempty in H.
  - by apply itemHtml_nonempty in H.
  - apply itemHtml_inj in H as [-> H]; [|done..]. f_equal. by apply IH.
Qed.

(** The loop that appends the rows. *)
Lemma foldl_itemHtml (html : string) (items : list summaryRow) :
  foldl (fun html item => html +:+ itemHtml item) html items = html +:+ itemsHtml items.
Proof.
  revert html. induction items as [|item items IH]; intros html; cbn [foldl itemsHtml foldr].
  - by rewrite append_empty_r.
  - by rewrite IH, append_assoc.
Qed.

(** ** The summary *)

(** The string is the header followed by the blocks of the rows. *)
Lemma summaryHtml_blocks (s : summary) :
  summaryHtml s = headerHtml (totalUsed s) +:+ itemsHtml (summaryData s).
Proof. unfold summaryHtml. by rewrite foldl_itemHtml. Qed.

(** C30: the summary shown determines the summary computed.  For rows whose
    names contain no [<], two summaries are rendered as the same HTML string
    exactly when they have the same total and the same rows in the same order:
    the text of a number ends at the tag that follows it, and no total or
    count is lost or merged in the rendering. *)
Theorem summaryHtml_inj (s1 s2 : summary) :
  Forall (fun r => plain (row_name r) = true) (summaryData s1) ->
  Forall (fun r => plain (row_name r) = true) (summaryData s2) ->
  summaryHtml s1 = summaryHtml s2 <-> s1 = s2.
Proof.
  intros Hrows1 Hrows2. split; [|by intros ->]. rewrite !summaryHtml_blocks.
  intros [Ht Hrows%itemsHtml_inj]%headerHtml_inj; [|done..].
  destruct s1, s2; simplify_eq/=. done.
Qed.

(** ** The theorem at a concrete input *)

Lemma summaryHtml_inj_witness :
  summaryHtml (Summary (Some 2) [SummaryRow "Red" 1 0 1; SummaryRow "Blue" 1 0 1])
  = summaryHtml (Summary (Some 2) [SummaryRow "Red" 1 0 1; SummaryRow "Blue" 0 1 1])
  <-> Summary (Some 2) [SummaryRow "Red" 1 0 1; SummaryRow "Blue" 1 0 1]
      = Summary (Some 2) [SummaryRow "Red" 1 0 1; SummaryRow "Blue" 0 1 1].
Proof. apply summaryHtml_inj; by repeat constructor. Defined.

(** The names of the shipped palette are plain. *)
Example COLOURS_DATA_plain : Forall (fun name => plain name = true) (palette_names COLOURS_DATA).
Proof. by repeat constructor. Qed.
