(* ===== verification/Editor.v ===== *)
(** * Editor: the state of the page and the pixel editor (script.js, the
      variables and elements of the script and function drawPixel)

    The script keeps three variables ([currentEditorColor], [isDrawing],
    [finalColorNameMap]), draws on two canvases and writes to the elements it
    found in the document.  [page] is that state: the variables (the name
    map as part of the last [generation]), the bytes of the editor canvas
    and the fill style of its context, and for each element what the script
    reads or writes of it.  An element that [getElementById] did not find is
    [None] (or [false], where the script only registers a listener on it).
    The file name display is a [label]: a text and an ordered set of style
    classes.  [pending] holds the loads under way, the readers and images
    that [loadImage] created and whose handlers have not run yet.  A
    listener leaves a [reaction]: a page, and the exception it threw.

    [drawPixel] is the listener body shared by [mousedown] and [mousemove] on
    the editor canvas.  It scales the pointer position to a cell
    ([Pointer.cell]) and fills that cell when it is inside the canvas. *)

From Stdlib Require Import ZArith Lia String.
From stdpp Require Import base tactics option list strings.
From S2P Require Import Prelude Pointer Palette Picker Matcher Ranker Generation.

#[local] Open Scope Z_scope.

(** An element with a text and style classes.  [classList] is an ordered
    set: [add] appends a class that is not there, [remove] takes it out. *)
Record label : Type := Label {
  textContent : string;
  classList : list string
}.

Definition setText (el : label) (text : string) : label :=
  {| textContent := text; classList := classList el |}.

Definition classList_add (el : label) (c : string) : label :=
  {| textContent := textContent el;
     classList := if bool_decide (c ∈ classList el) then classList el else classList el ++ [c] |}.

Definition classList_remove (el : label) (c : string) : label :=
  {| textContent := textContent el; classList := filter (fun x => x <> c) (classList el) |}.

(** The three statements that show the name of the chosen file, and those
    that show that there is none. *)
Definition showFile (name : string) (el : label) : label :=
  classList_add (classList_remove (setText el name) "text-gray-500") "text-indigo-600".

Definition showNoFile (el : label) : label :=
  classList_remove (classList_add (setText el "No file chosen") "text-gray-500")
    "text-indigo-600".

(** What the [change] listener does to the display, by the files chosen. *)
Definition fileUpdate (files : list string) : label -> label :=
  match files with
  | file :: _ => showFile file
  | [] => showNoFile
  end.

(** Two labels look the same: the same text and the same classes, in any
    order. *)
Definition same_label (a b : label) : Prop :=
  textContent a = textContent b /\ forall c, c ∈ classList a <-> c ∈ classList b.

(** A file on its way to the canvas: [loadImage] starts a [FileReader] on
    it, whose [onload] creates an [Image] that decodes what was read.  Each
    object lives until its [onload] ran or the browser gave it up. *)
Inductive load : Type :=
| Reading (file : string)       (* reader.readAsDataURL(file) under way *)
| Decoding (file : string).     (* img.src set, the picture not yet decoded *)

Record page : Type := Page {
  currentEditorColor : colourNumbers;
  isDrawing : bool;
  generated : option generation;        (* None: finalColorNameMap = null *)
  editorData : list Z;                  (* editorCtx.getImageData(..).data *)
  fillStyle : rgb;                      (* editorCtx.fillStyle *)
  fileInput : bool;
  generateButton : option bool;         (* generateButton.disabled *)
  summaryOutput : option string;        (* summaryOutput.innerHTML *)
  editorColourPicker : bool;
  currentColourDisplay : option string; (* currentColourDisplay.textContent *)
  hoverInfo : option string;            (* hoverInfo.textContent *)
  resDisplay : string;                  (* resDisplay.textContent *)
  fileNameDisplay : option label;
  pending : list load                   (* the reads and pictures under way *)
}.

(** ** Assignments *)

(** [currentEditorColor = c], and the text of the display where it exists *)
Definition setColour (st : page) (c : colourNumbers) (text : string) : page :=
  {| currentEditorColor := c; isDrawing := isDrawing st; generated := generated st;
     editorData := editorData st; fillStyle := fillStyle st; fileInput := fileInput st;
     generateButton := generateButton st; summaryOutput := summaryOutput st;
     editorColourPicker := editorColourPicker st;
     currentColourDisplay := (fun _ => text) <$> currentColourDisplay st;
     hoverInfo := hoverInfo st; resDisplay := resDisplay st;
     fileNameDisplay := fileNameDisplay st; pending := pending st |}.

(** [isDrawing = b] *)
Definition setDrawing (st : page) (b : bool) : page :=
  {| currentEditorColor := currentEditorColor st; isDrawing := b; generated := generated st;
     editorData := editorData st; fillStyle := fillStyle st; fileInput := fileInput st;
     generateButton := generateButton st; summaryOutput := summaryOutput st;
     editorColourPicker := editorColourPicker st;
     currentColourDisplay := currentColourDisplay st;
     hoverInfo := hoverInfo st; resDisplay := resDisplay st;
     fileNameDisplay := fileNameDisplay st; pending := pending st |}.

(** The editor canvas after a drawing call, and the fill style it used. *)
Definition setEditor (st : page) (data : list Z) (style : rgb) : page :=
  {| currentEditorColor := currentEditorColor st; isDrawing := isDrawing st;
     generated := generated st;
     editorData := data; fillStyle := style; fileInput := fileInput st;
     generateButton := generateButton st; summaryOutput := summaryOutput st;
     editorColourPicker := editorColourPicker st;
     currentColourDisplay := currentColourDisplay st;
     hoverInfo := hoverInfo st; resDisplay := resDisplay st;
     fileNameDisplay := fileNameDisplay st; pending := pending st |}.

(** [generateButton.disabled = b], on a button that exists *)
Definition setDisabled (st : page) (b : bool) : page :=
  {| currentEditorColor := currentEditorColor st; isDrawing := isDrawing st;
     generated := generated st;
     editorData := editorData st; fillStyle := fillStyle st; fileInput := fileInput st;
     generateButton := Some b; summaryOutput := summaryOutput st;
     editorColourPicker := editorColourPicker st;
     currentColourDisplay := currentColourDisplay st;
     hoverInfo := hoverInfo st; resDisplay := resDisplay st;
     fileNameDisplay := fileNameDisplay st; pending := pending st |}.

(** [summaryOutput.innerHTML = ...], on an element that exists *)
Definition setSummary (st : page) (html : string) : page :=
  {| currentEditorColor := currentEditorColor st; isDrawing := isDrawing st;
     generated := generated st;
     editorData := editorData st; fillStyle := fillStyle st; fileInput := fileInput st;
     generateButton := generateButton st; summaryOutput := Some html;
     editorColourPicker := editorColourPicker st;
     currentColourDisplay := currentColourDisplay st;
     hoverInfo := hoverInfo st; resDisplay := resDisplay st;
     fileNameDisplay := fileNameDisplay st; pending := pending st |}.

(** [mosaicCtx.putImageData(..)] and [finalColorNameMap = ..] *)
Definition setGenerated (st : page) (g : generation) : page :=
  {| currentEditorColor := currentEditorColor st; isDrawing := isDrawing st;
     generated := Some g;
     editorData := editorData st; fillStyle := fillStyle st; fileInput := fileInput st;
     generateButton := generateButton st; summaryOutput := summaryOutput st;
     editorColourPicker := editorColourPicker st;
     currentColourDisplay := currentColourDisplay st;
     hoverInfo := hoverInfo st; resDisplay := resDisplay st;
     fileNameDisplay := fileNameDisplay st; pending := pending st |}.

(** [hoverInfo.textContent = text], on an element that exists *)
Definition setHover (st : page) (text : string) : page :=
  {| currentEditorColor := currentEditorColor st; isDrawing := isDrawing st;
     generated := generated st;
     editorData := editorData st; fillStyle := fillStyle st; fileInput := fileInput st;
     generateButton := generateButton st; summaryOutput := summaryOutput st;
     editorColourPicker := editorColourPicker st;
     currentColourDisplay := currentColourDisplay st;
     hoverInfo := Some text; resDisplay := resDisplay st;
     fileNameDisplay := fileNameDisplay st; pending := pending st |}.

(** [if (fileNameDisplay) { .. }]: an update of the element, where it
    exists *)
Definition setFileName (st : page) (update : label -> label) : page :=
  {| currentEditorColor := currentEditorColor st; isDrawing := isDrawing st;
     generated := generated st;
     editorData := editorData st; fillStyle := fillStyle st; fileInput := fileInput st;
     generateButton := generateButton st; summaryOutput := summaryOutput st;
     editorColourPicker := editorColourPicker st;
     currentColourDisplay := currentColourDisplay st;
     hoverInfo := hoverInfo st; resDisplay := resDisplay st;
     fileNameDisplay := update <$> fileNameDisplay st; pending := pending st |}.

(** The readers and images that exist after one was created, went on to
    its next stage or was given up. *)
Definition setPending (st : page) (loads : list load) : page :=
  {| currentEditorColor := currentEditorColor st; isDrawing := isDrawing st;
     generated := generated st;
     editorData := editorData st; fillStyle := fillStyle st; fileInput := fileInput st;
     generateButton := generateButton st; summaryOutput := summaryOutput st;
     editorColourPicker := editorColourPicker st;
     currentColourDisplay := currentColourDisplay st;
     hoverInfo := hoverInfo st; resDisplay := resDisplay st;
     fileNameDisplay := fileNameDisplay st; pending := loads |}.

(** What a listener leaves: the page, and the exception it threw. *)
Definition reaction : Type := page * option jsError.

Definition finished (st : page) : reaction := (st, None).
Definition threw (st : page) (e : jsError) : reaction := (st, Some e).

(** ** Drawing *)

(** The colour that the text [rgb(r, g, b)] denotes: none when a component
    is [NaN]; components outside [0, 255] are clamped. *)
Definition cssColour (c : colourNumbers) : option rgb :=
  match c with
  | (Some r, Some g, Some b) => Some (clamp8 r, clamp8 g, clamp8 b)
  | _ => None
  end.

(** The four bytes of pixel [i] set to the opaque colour [c]. *)
Definition writePixel (data : list Z) (i : nat) (c : rgb) : list Z :=
  let '(r, g, b) := c in
  <[(4 * i + 3)%nat := 255]>
    (<[(4 * i + 2)%nat := b]> (<[(4 * i + 1)%nat := g]> (<[(4 * i)%nat := r]> data))).

(** editorCtx.fillRect(x, y, 1, 1) with an opaque fill style *)
Definition fillPixel (data : list Z) (x y : nat) (c : rgb) : list Z :=
  writePixel data (y * TARGET_SIZE + x) c.

(** function drawPixel(e), from the cell the pointer is in.  An assignment
    of a text that is not a colour leaves [fillStyle] as it was. *)
Definition drawPixel (st : page) (e : mouseEvent) : page :=
  if isDrawing st then
    let '(x, y) := cell TARGET_SIZE e in
    if inside x TARGET_SIZE && inside y TARGET_SIZE then
      let style := default (fillStyle st) (cssColour (currentEditorColor st)) in
      setEditor st (fillPixel (editorData st) (Z.to_nat (default 0 x))
                      (Z.to_nat (default 0 y)) style) style
    else st
  else st.

(** ** Well-formed pages *)

(** The bytes of a canvas of [TARGET_SIZE] x [TARGET_SIZE] pixels. *)
Definition canvas_ok (bytes : list Z) : Prop :=
  length bytes = (4 * (TARGET_SIZE * TARGET_SIZE))%nat /\ Forall is_u8 bytes.

(** What a generation leaves: a full image and [TARGET_SIZE] rows of names. *)
Definition generation_ok (g : generation) : Prop :=
  length (finalImageData g) = (4 * (TARGET_SIZE * TARGET_SIZE))%nat /\
  length (concat (finalColorNameMap g)) = (TARGET_SIZE * TARGET_SIZE)%nat /\
  finalColorNameMap g
  = chunks (TARGET_SIZE * TARGET_SIZE) TARGET_SIZE (concat (finalColorNameMap g)).

Definition page_ok (st : page) : Prop :=
  canvas_ok (editorData st) /\ rgb_ok (fillStyle st) /\
  from_option generation_ok True (generated st).

(** The pixels of the editor canvas, as [getPixelData] reads them. *)
Definition editorPixels (st : page) : list rgb := pixels (getPixelData (editorData st)).

(** Reading a field of a page that was assigned to. *)
Ltac page_simpl :=
  cbn [setColour setDrawing setEditor setDisabled setSummary setGenerated setHover setFileName
       setPending currentEditorColor isDrawing generated editorData fillStyle fileInput
       generateButton summaryOutput editorColourPicker currentColourDisplay hoverInfo
       resDisplay fileNameDisplay pending finished threw fst snd].

(** ** Drawing one pixel *)

Lemma writePixel_length data i c : length (writePixel data i c) = length data.
Proof. destruct c as [[r g] b]. unfold writePixel. lengths. Qed.

#[export] Hint Rewrite writePixel_length : recopix.

Lemma writePixel_u8 data i c : rgb_ok c -> Forall is_u8 data -> Forall is_u8 (writePixel data i c).
Proof.
  destruct c as [[r g] b]. intros (Hr & Hg & Hb) Hdata. unfold writePixel.
  repeat apply Forall_insert; done.
Qed.

Lemma writePixel_alpha data i c :
  (4 * i + 3 < length data)%nat -> writePixel data i c !! (4 * i + 3)%nat = Some 255.
Proof.
  destruct c as [[r g] b]. intros Hlen. unfold writePixel.
  by rewrite list_lookup_insert_eq by lengths.
Qed.

(** The pixels that [getPixelData] reads after a pixel was written. *)
Lemma writePixel_pixels data i c :
  (4 * i + 3 < length data)%nat ->
  pixels (getPixelData (writePixel data i c)) = <[i := c]> (pixels (getPixelData data)).
Proof.
  destruct c as [[r g] b]. unfold getPixelData. cbn [pixels].
  revert data. induction i as [|i IH]; intros data Hlen;
    destruct data as [|r0 [|g0 [|b0 [|a0 rest]]]]; simpl in Hlen; try lia.
  - reflexivity.
  - specialize (IH rest ltac:(lia)). unfold writePixel in *.
    replace (4 * S i)%nat with (S (S (S (S (4 * i))))) by lia.
    cbn [Nat.add insert list_insert readPixels fmap list_fmap fst]. f_equal. exact IH.
Qed.

Lemma canvas_ok_writePixel data i c :
  rgb_ok c -> canvas_ok data -> canvas_ok (writePixel data i c).
Proof.
  intros Hc [Hlen Hu8]. split; [lengths | by apply writePixel_u8].
Qed.

#[export] Hint Resolve canvas_ok_writePixel : recopix.

Lemma cssColour_ok (c : colourNumbers) (old : rgb) :
  rgb_ok old -> rgb_ok (default old (cssColour c)).
Proof.
  intros Hold. destruct c as [[[r|] [g|]] [b|]]; try exact Hold.
  cbn [cssColour default from_option id]. unfold rgb_ok, is_u8, clamp8. lia.
Qed.

#[export] Hint Resolve cssColour_ok : recopix.

Lemma cssColour_hexOfRgb (c : rgb) : rgb_ok c -> cssColour (hexToRgb (hexOfRgb c)) = Some c.
Proof.
  destruct c as [[r g] b]. intros (Hr & Hg & Hb).
  rewrite hexOfRgb_chars, hexToRgb_7, !parseInt_hex2 by done.
  unfold cssColour. by rewrite !clamp8_u8.
Qed.

(** ** Style classes *)

Lemma classList_add_elem (el : label) (c x : string) :
  x ∈ classList (classList_add el c) <-> x = c \/ x ∈ classList el.
Proof.
  unfold classList_add. cbn [classList]. case_bool_decide as Hc.
  - split; [auto | by intros [->|?]].
  - rewrite elem_of_app, list_elem_of_singleton. tauto.
Qed.

Lemma classList_remove_elem (el : label) (c x : string) :
  x ∈ classList (classList_remove el c) <-> x <> c /\ x ∈ classList el.
Proof. unfold classList_remove. cbn [classList]. rewrite list_elem_of_filter. tauto. Qed.

Lemma classList_add_NoDup (el : label) (c : string) :
  NoDup (classList el) -> NoDup (classList (classList_add el c)).
Proof.
  intros Hnd. unfold classList_add. cbn [classList]. case_bool_decide; [done|].
  apply NoDup_app. split_and!; [done | | apply NoDup_singleton].
  intros x Hx ->%list_elem_of_singleton. done.
Qed.

Lemma classList_remove_NoDup (el : label) (c : string) :
  NoDup (classList el) -> NoDup (classList (classList_remove el c)).
Proof. apply NoDup_filter. Qed.

(** What the file name display shows of a chosen file: its name, in
    indigo and not in grey; the other classes stay. *)
Lemma showFile_spec (name : string) (el : label) :
  textContent (showFile name el) = name /\
  "text-indigo-600" ∈ classList (showFile name el) /\
  ("text-gray-500" ∉ classList (showFile name el)) /\
  (forall c, c <> "text-indigo-600" -> c <> "text-gray-500" ->
             c ∈ classList (showFile name el) <-> c ∈ classList el) /\
  (NoDup (classList el) -> NoDup (classList (showFile name el))).
Proof.
  unfold showFile. split_and!; [done | | | |].
  - apply classList_add_elem. by left.
  - rewrite classList_add_elem, classList_remove_elem. by intros [?|[? _]].
  - intros c Hc1 Hc2. rewrite classList_add_elem, classList_remove_elem. cbn [setText classList].
    tauto.
  - intros Hnd. by apply classList_add_NoDup, classList_remove_NoDup.
Qed.

Lemma showNoFile_spec (el : label) :
  textContent (showNoFile el) = "No file chosen" /\
  "text-gray-500" ∈ classList (showNoFile el) /\
  ("text-indigo-600" ∉ classList (showNoFile el)) /\
  (forall c, c <> "text-indigo-600" -> c <> "text-gray-500" ->
             c ∈ classList (showNoFile el) <-> c ∈ classList el) /\
  (NoDup (classList el) -> NoDup (classList (showNoFile el))).
Proof.
  unfold showNoFile. split_and!; [done | | | |].
  - rewrite classList_remove_elem, classList_add_elem. split; [done | by left].
  - rewrite classList_remove_elem. by intros [? _].
  - intros c Hc1 Hc2. rewrite classList_remove_elem, classList_add_elem. cbn [setText classList].
    tauto.
  - intros Hnd. by apply classList_remove_NoDup, classList_add_NoDup.
Qed.

(** ** Labels up to the order of their classes *)

#[export] Instance same_label_equiv : Equivalence same_label.
Proof.
  split.
  - by intros a.
  - intros a b [Ht Hc]. split; [done|]. intros c. by rewrite Hc.
  - intros a b c [Ht1 Hc1] [Ht2 Hc2]. split; [congruence|]. intros x. by rewrite Hc1.
Qed.

#[export] Instance setText_proper : Proper (same_label ==> eq ==> same_label) setText.
Proof. by intros a b [Ht Hc] text ? <-. Qed.

#[export] Instance classList_add_proper :
  Proper (same_label ==> eq ==> same_label) classList_add.
Proof.
  intros a b [Ht Hc] c ? <-. split; [done|]. intros x. by rewrite !classList_add_elem, Hc.
Qed.

#[export] Instance classList_remove_proper :
  Proper (same_label ==> eq ==> same_label) classList_remove.
Proof.
  intros a b [Ht Hc] c ? <-. split; [done|]. intros x. by rewrite !classList_remove_elem, Hc.
Qed.

#[export] Instance fileUpdate_proper files : Proper (same_label ==> same_label) (fileUpdate files).
Proof.
  intros a b Hab. destruct files as [|file files]; unfold fileUpdate, showFile, showNoFile;
    by rewrite Hab.
Qed.

(** The display forgets what it showed before: an update after another one
    looks like the update alone. *)
Lemma fileUpdate_absorbs (files files' : list string) (el : label) :
  same_label (fileUpdate files (fileUpdate files' el)) (fileUpdate files el).
Proof.
  assert ("text-indigo-600" <> "text-gray-500") as Hne by done.
  split.
  - by destruct files, files'.
  - intros c. destruct files, files'; unfold fileUpdate, showFile, showNoFile;
      repeat first [setoid_rewrite classList_add_elem | setoid_rewrite classList_remove_elem];
      cbn [setText classList];
      destruct (decide (c = "text-indigo-600")), (decide (c = "text-gray-500"));
      simplify_eq; tauto.
Qed.

Lemma drawPixel_ok st e : page_ok st -> page_ok (drawPixel st e).
Proof.
  intros (Hc & Hf & Hg). unfold drawPixel.
  destruct (isDrawing st); [|done]. destruct (cell TARGET_SIZE e) as [x y].
  destruct (inside x TARGET_SIZE && inside y TARGET_SIZE); [|done].
  unfold page_ok, fillPixel. cbn [setEditor editorData fillStyle generated].
  split_and!; auto with recopix.
Qed.

#[export] Hint Resolve drawPixel_ok : recopix.

Lemma drawPixel_idle st e : isDrawing st = false -> drawPixel st e = st.
Proof. intros Hidle. unfold drawPixel. by rewrite Hidle. Qed.

(** The state after a pixel inside the canvas was drawn. *)
Lemma drawPixel_inside st e (x y : Z) :
  isDrawing st = true -> cell TARGET_SIZE e = (Some x, Some y) ->
  0 <= x < Z.of_nat TARGET_SIZE -> 0 <= y < Z.of_nat TARGET_SIZE ->
  let style := default (fillStyle st) (cssColour (currentEditorColor st)) in
  drawPixel st e
  = setEditor st (writePixel (editorData st) (Z.to_nat (y * Z.of_nat TARGET_SIZE + x)) style)
              style.
Proof.
  intros Hdraw Hcell Hx Hy. unfold drawPixel, fillPixel.
  rewrite Hdraw, Hcell, !inside_Some by done.
  cbn [andb default from_option id]. do 2 f_equal. lia.
Qed.

(** A pointer that is over no cell draws nothing. *)
Lemma drawPixel_outside st e :
  inside (cell TARGET_SIZE e).1 TARGET_SIZE && inside (cell TARGET_SIZE e).2 TARGET_SIZE = false ->
  drawPixel st e = st.
Proof.
  intros Hout. unfold drawPixel. destruct (cell TARGET_SIZE e) as [x y]. cbn [fst snd] in Hout.
  rewrite Hout. by destruct (isDrawing st).
Qed.

(** What drawing leaves alone: everything but the editor canvas and the
    fill style. *)
Lemma drawPixel_frame st e :
  currentEditorColor (drawPixel st e) = currentEditorColor st /\
  isDrawing (drawPixel st e) = isDrawing st /\
  generated (drawPixel st e) = generated st /\
  generateButton (drawPixel st e) = generateButton st /\
  summaryOutput (drawPixel st e) = summaryOutput st /\
  hoverInfo (drawPixel st e) = hoverInfo st /\
  fileInput (drawPixel st e) = fileInput st /\
  fileNameDisplay (drawPixel st e) = fileNameDisplay st /\
  pending (drawPixel st e) = pending st.
Proof.
  unfold drawPixel. destruct (isDrawing st) eqn:Hdraw; [|done].
  destruct (cell TARGET_SIZE e) as [x y].
  destruct (inside x TARGET_SIZE && inside y TARGET_SIZE); [|done].
  cbn [setEditor isDrawing]. by rewrite Hdraw.
Qed.

(** C19: [drawPixel] paints one pixel.  While the pointer is down, for an
    event over a cell [(x, y)] inside the canvas, the pixels that
    [getPixelData] reads afterwards are those before with pixel [y *
    TARGET_SIZE + x] replaced by the fill style; its alpha byte is 255, the
    canvas keeps its size, and the fill style is the editor colour, or the
    previous style when the editor colour has a component that is [NaN]. *)
Theorem drawPixel_paints (st : page) (e : mouseEvent) (x y : Z) :
  page_ok st -> isDrawing st = true -> cell TARGET_SIZE e = (Some x, Some y) ->
  0 <= x < Z.of_nat TARGET_SIZE -> 0 <= y < Z.of_nat TARGET_SIZE ->
  let i := Z.to_nat (y * Z.of_nat TARGET_SIZE + x) in
  let style := default (fillStyle st) (cssColour (currentEditorColor st)) in
  let st' := drawPixel st e in
  editorPixels st' = <[i := style]> (editorPixels st) /\
  editorData st' !! (4 * i + 3)%nat = Some 255 /\
  length (editorData st') = length (editorData st) /\
  fillStyle st' = style.
Proof.
  intros ([Hlen _] & _) Hdraw Hcell Hx Hy i style st'. subst st'.
  rewrite (drawPixel_inside st e x y) by done. cbn [setEditor editorData fillStyle]. unfold editorPixels.
  cbn [editorData]. fold i style.
  assert (4 * i + 3 < length (editorData st))%nat
    by (rewrite Hlen; unfold i, TARGET_SIZE in *; lia).
  split_and!; [by apply writePixel_pixels | by apply writePixel_alpha | lengths | done].
Qed.

(** ** The theorem at a concrete input *)

Lemma drawPixel_paints_witness :
  let st := Page (Some 0, Some 0, Some 255) true None
              (replicate (4 * (TARGET_SIZE * TARGET_SIZE)) 0) (0, 0, 0)
              false None None false None None EmptyString None [] in
  let st' := drawPixel st (mouseAt 30 50 (rectAt 10 20 192 192)) in
  editorPixels st' = <[Z.to_nat (7 * Z.of_nat TARGET_SIZE + 5) := (0, 0, 255)]> (editorPixels st) /\
  editorData st' !! (4 * Z.to_nat (7 * Z.of_nat TARGET_SIZE + 5) + 3)%nat = Some 255 /\
  length (editorData st') = length (editorData st) /\
  fillStyle st' = (0, 0, 255).
Proof.
  apply (drawPixel_paints (Page (Some 0, Some 0, Some 255) true None
              (replicate (4 * (TARGET_SIZE * TARGET_SIZE)) 0) (0, 0, 0)
              false None None false None None EmptyString None [])
           (mouseAt 30 50 (rectAt 10 20 192 192)) 5 7);
    [split_and!; [split; apply blank_canvas | by_compute | exact I]
    | reflexivity | by vm_compute | by_compute..].
Defined.
