(* ===== verification/Loader.v ===== *)
(** * Loader: a chosen file on its way to the editor canvas (script.js,
      loadImage and the two [onload] handlers it installs)

    [loadImage] disables the button and starts a [FileReader]; the [onload]
    of the reader creates an [Image] and gives it what was read; the [onload]
    of the image resamples it on a temporary canvas of [TARGET_SIZE] x
    [TARGET_SIZE] pixels, draws that canvas on the editor canvas and enables
    the button.  The two [onload] handlers run later, as tasks of their own,
    in the order the browser finishes the reads and the decodings: the page
    keeps the loads under way in [pending], and each handler names the load
    it belongs to by its position there.

    A [picture] is what the temporary canvas holds: per pixel an opaque
    colour, or nothing where the picture is transparent.  [drawImage]
    composes it over the editor canvas.  Decoding and resampling are the
    browser's; pixels that are partly transparent are left out. *)

From Stdlib Require Import ZArith Lia String.
From stdpp Require Import base tactics option list strings.
From S2P Require Import Prelude Pointer Palette Matcher Ranker Generation Editor.

#[local] Open Scope Z_scope.

(** The temporary canvas after [tempCtx.drawImage(img, 0, 0, TARGET_SIZE,
    TARGET_SIZE)]. *)
Definition picture : Type := list (option rgb).

(** editorCtx.drawImage(tempCanvas, 0, 0): an opaque pixel replaces the
    pixel under it, a transparent one leaves it. *)
Fixpoint drawImage (data : list Z) (p : picture) : list Z :=
  match data, p with
  | r :: g :: b :: a :: rest, over :: p =>
      match over with
      | Some (r', g', b') => r' :: g' :: b' :: 255 :: drawImage rest p
      | None => r :: g :: b :: a :: drawImage rest p
      end
  | _, _ => data
  end.

(** function loadImage(file): the button is disabled and a read starts. *)
Definition loadImage (st : page) (file : string) : reaction :=
  match generateButton st with
  | Some _ => finished (setPending (setDisabled st true) (pending st ++ [Reading file]))
  | None => threw st TypeError
  end.

(** [reader.onload] of load [k]: an image is created and given the data. *)
Definition readerLoaded (st : page) (k : nat) : reaction :=
  match pending st !! k with
  | Some (Reading file) => finished (setPending st (<[k := Decoding file]> (pending st)))
  | _ => finished st
  end.

(** [img.onload] of load [k], with the picture on the temporary canvas. *)
Definition imageLoaded (st : page) (k : nat) (p : picture) : reaction :=
  match pending st !! k with
  | Some (Decoding _) =>
      let st := setPending st (delete k (pending st)) in
      let st := setEditor st (drawImage (editorData st) p) (fillStyle st) in
      match generateButton st with
      | Some _ => finished (setDisabled st false)
      | None => threw st TypeError
      end
  | _ => finished st
  end.

(** A read or a decoding that fails: the reader and the image have no
    [onerror], so the load ends and nothing else happens. *)
Definition loadFailed (st : page) (k : nat) : reaction :=
  finished (setPending st (delete k (pending st))).

(** ** Well-formed pictures and canvases *)

Definition picture_ok (p : picture) : Prop :=
  length p = (TARGET_SIZE * TARGET_SIZE)%nat /\ Forall (from_option rgb_ok True) p.

(** The alpha bytes of a canvas. *)
Fixpoint alphas (data : list Z) : list Z :=
  match data with
  | _ :: _ :: _ :: a :: rest => a :: alphas rest
  | _ => []
  end.

(** Every pixel of the canvas is opaque. *)
Definition opaque (data : list Z) : Prop := Forall (fun a => a = 255) (alphas data).

(** The picture that shows [c] everywhere, and the one that shows nothing. *)
Definition plainPicture (c : rgb) : picture := replicate (TARGET_SIZE * TARGET_SIZE) (Some c).

Definition clearPicture : picture := replicate (TARGET_SIZE * TARGET_SIZE) None.

(** ** Induction on a canvas, pixel by pixel *)

Lemma pixel_ind (P : list Z -> Prop) :
  (forall data, (length data < 4)%nat -> P data) ->
  (forall r g b a rest, P rest -> P (r :: g :: b :: a :: rest)) ->
  forall data, P data.
Proof.
  intros Hshort Hstep data. remember (length data) as n eqn:Hn.
  revert data Hn. induction (lt_wf n) as [n _ IH]. intros data ->.
  destruct data as [|r [|g [|b [|a rest]]]]; try (apply Hshort; simpl; lia).
  apply Hstep, (IH (length rest)); [simpl; lia | done].
Qed.

(** ** Drawing a picture *)

Lemma drawImage_length data p : length (drawImage data p) = length data.
Proof.
  revert p. induction data as [data Hlen|r g b a rest IH] using pixel_ind; intros p.
  - by destruct data as [|? [|? [|? [|? ?]]]]; simpl in Hlen; try lia.
  - destruct p as [|[[[r' g'] b']|] p]; simpl; by rewrite ?IH.
Qed.

#[export] Hint Rewrite drawImage_length : recopix.

Lemma drawImage_u8 data p :
  Forall is_u8 data -> Forall (from_option rgb_ok True) p -> Forall is_u8 (drawImage data p).
Proof.
  revert p. induction data as [data Hlen|r g b a rest IH] using pixel_ind; intros p Hdata Hp.
  - by destruct data as [|? [|? [|? [|? ?]]]]; simpl in Hlen; try lia.
  - destruct p as [|over p]; [done|].
    apply Forall_cons in Hp as [Hover Hp].
    do 4 apply Forall_cons in Hdata as [? Hdata].
    destruct over as [[[r' g'] b']|]; simpl.
    + destruct Hover as (? & ? & ?). repeat (constructor; [done|]). by apply IH.
    + repeat (constructor; [done|]). by apply IH.
Qed.

Lemma canvas_ok_drawImage data p :
  canvas_ok data -> picture_ok p -> canvas_ok (drawImage data p).
Proof. intros [Hlen Hu8] [_ Hp]. split; [lengths | by apply drawImage_u8]. Qed.

#[export] Hint Resolve canvas_ok_drawImage : recopix.

(** The pixels that [getPixelData] reads after a picture was drawn: those of
    the picture, and those of the canvas where the picture shows nothing. *)
Lemma drawImage_read data p :
  length data = (4 * length p)%nat ->
  fst <$> readPixels (drawImage data p)
  = zip_with (fun old over => default old over) (fst <$> readPixels data) p.
Proof.
  revert p. induction data as [data Hlen|r g b a rest IH] using pixel_ind; intros p Hp.
  - destruct data as [|? [|? [|? [|? ?]]]]; simpl in Hlen; try lia;
      by destruct p; simpl in Hp; try lia.
  - destruct p as [|over p]; simpl in Hp; [lia|]. specialize (IH p ltac:(lia)).
    destruct over as [[[r' g'] b']|];
      cbn [drawImage readPixels fmap list_fmap fst zip_with default from_option id];
      f_equal; exact IH.
Qed.

Lemma drawImage_alphas data p :
  length data = (4 * length p)%nat ->
  alphas (drawImage data p)
  = zip_with (fun old (over : option rgb) => from_option (fun _ => 255) old over)
      (alphas data) p.
Proof.
  revert p. induction data as [data Hlen|r g b a rest IH] using pixel_ind; intros p Hp.
  - destruct data as [|? [|? [|? [|? ?]]]]; simpl in Hlen; try lia;
      by destruct p; simpl in Hp; try lia.
  - destruct p as [|over p]; simpl in Hp; [lia|]. specialize (IH p ltac:(lia)).
    destruct over as [[[r' g'] b']|]; cbn [drawImage alphas zip_with from_option];
      f_equal; exact IH.
Qed.

(** ** Opaque canvases *)

Lemma alphas_length data n : length data = (4 * n)%nat -> length (alphas data) = n.
Proof.
  revert n. induction data as [data Hlen|r g b a rest IH] using pixel_ind; intros n Hn.
  - destruct data as [|? [|? [|? [|? ?]]]]; simpl in *; lia.
  - destruct n as [|n]; simpl in Hn; [lia|]. simpl. rewrite (IH n); lia.
Qed.

Lemma writePixel_alphas data i c :
  (4 * i + 3 < length data)%nat -> alphas (writePixel data i c) = <[i := 255]> (alphas data).
Proof.
  destruct c as [[r g] b].
  revert data. induction i as [|i IH]; intros data Hlen;
    destruct data as [|r0 [|g0 [|b0 [|a0 rest]]]]; simpl in Hlen; try lia.
  - reflexivity.
  - specialize (IH rest ltac:(lia)). unfold writePixel in *.
    replace (4 * S i)%nat with (S (S (S (S (4 * i))))) by lia.
    cbn [Nat.add insert list_insert alphas]. f_equal. exact IH.
Qed.

Lemma opaque_writePixel data i c :
  (4 * i + 3 < length data)%nat -> opaque data -> opaque (writePixel data i c).
Proof. intros Hlen Hdata. unfold opaque. rewrite writePixel_alphas by done. by apply Forall_insert. Qed.

Lemma opaque_drawImage data p :
  length data = (4 * length p)%nat -> opaque data -> opaque (drawImage data p).
Proof.
  intros Hlen Hdata. unfold opaque. rewrite drawImage_alphas by done.
  apply Forall_lookup. intros i x (old & over & -> & Hold & _)%lookup_zip_with_Some.
  destruct over; [done | exact (Forall_lookup_1 _ _ _ _ Hdata Hold)].
Qed.

#[export] Hint Resolve opaque_writePixel opaque_drawImage : recopix.

(** ** The handlers *)

Lemma loadImage_button st file b :
  generateButton st = Some b ->
  loadImage st file = finished (setPending (setDisabled st true) (pending st ++ [Reading file])).
Proof. intros Hb. unfold loadImage. by rewrite Hb. Qed.

Lemma imageLoaded_button st k p file b :
  pending st !! k = Some (Decoding file) -> generateButton st = Some b ->
  imageLoaded st k p
  = finished (setDisabled (setEditor (setPending st (delete k (pending st)))
                             (drawImage (editorData st) p) (fillStyle st)) false).
Proof.
  intros Hk Hb. unfold imageLoaded. rewrite Hk. cbn [setEditor setPending generateButton].
  by rewrite Hb.
Qed.

(** The page that [img.onload] leaves is well formed, and its pixels are the
    picture composed over the pixels before. *)
Lemma imageLoaded_page st k p :
  page_ok st -> picture_ok p ->
  let st' := setDisabled (setEditor (setPending st (delete k (pending st)))
                            (drawImage (editorData st) p) (fillStyle st)) false in
  page_ok st' /\
  editorPixels st' = zip_with (fun old over => default old over) (editorPixels st) p /\
  (opaque (editorData st) -> opaque (editorData st')).
Proof.
  intros (Hc & Hf & Hg) Hp. pose proof Hc as [Hlen _]. pose proof Hp as [Hsize _].
  assert (length (editorData st) = (4 * length p)%nat) as Hfit by (rewrite Hlen, Hsize; lia).
  split_and!; [by split_and!; [apply canvas_ok_drawImage|..] | |].
  - unfold editorPixels, getPixelData. cbn [setDisabled setEditor editorData pixels].
    by apply drawImage_read.
  - by apply opaque_drawImage.
Qed.

(** [img.onload] throws only where there is no button, and there nothing
    was ever loaded. *)
Lemma imageLoaded_throws st k p :
  (imageLoaded st k p).2 <> None -> generateButton st = None /\ pending st <> [].
Proof.
  unfold imageLoaded. destruct (pending st !! k) as [[file|file]|] eqn:Hk; try done.
  cbn [setEditor setPending generateButton]. destruct (generateButton st); [done|].
  intros _. split; [done|]. by intros Hnil; rewrite Hnil in Hk.
Qed.

(** A stroke keeps the canvas opaque. *)
Lemma drawPixel_opaque st e :
  page_ok st -> opaque (editorData st) -> opaque (editorData (drawPixel st e)).
Proof.
  intros ([Hlen _] & _) Hopaque. unfold drawPixel.
  destruct (isDrawing st); [|done]. destruct (cell TARGET_SIZE e) as [x y].
  destruct (inside x TARGET_SIZE && inside y TARGET_SIZE) eqn:Hin; [|done].
  apply andb_prop in Hin as [(zx & -> & Hx)%inside_true (zy & -> & Hy)%inside_true].
  cbn [setEditor editorData default from_option id]. unfold fillPixel.
  apply opaque_writePixel; [|done]. rewrite Hlen. unfold TARGET_SIZE in *. lia.
Qed.

#[export] Hint Resolve drawPixel_opaque : recopix.

(** A picture that shows nothing changes nothing. *)
Lemma drawImage_clear data n : drawImage data (replicate n None) = data.
Proof.
  revert n. induction data as [data Hlen|r g b a rest IH] using pixel_ind; intros n.
  - by destruct data as [|? [|? [|? [|? ?]]]]; simpl in Hlen; try lia.
  - destruct n as [|n]; [done|]. cbn [replicate drawImage]. by rewrite IH.
Qed.

(** C20: [img.onload] draws the picture and enables the button.  On a
    well-formed page with a button, for a load whose picture is being decoded
    and a picture of [TARGET_SIZE] x [TARGET_SIZE] pixels, the handler does
    not throw and leaves a well-formed page; each pixel that [getPixelData]
    reads afterwards is the pixel of the picture where it is opaque and the
    pixel of the canvas before where it is transparent, an opaque canvas stays
    opaque, the button is enabled, the load is no longer under way, and the
    name map and the file name display are untouched. *)
Theorem imageLoaded_draws (st : page) (k : nat) (p : picture) (file : string) :
  page_ok st -> is_Some (generateButton st) ->
  pending st !! k = Some (Decoding file) -> picture_ok p ->
  exists st', imageLoaded st k p = finished st' /\ page_ok st' /\
    editorPixels st' = zip_with (fun old over => default old over) (editorPixels st) p /\
    (opaque (editorData st) -> opaque (editorData st')) /\
    generateButton st' = Some false /\ pending st' = delete k (pending st) /\
    generated st' = generated st /\ fileNameDisplay st' = fileNameDisplay st.
Proof.
  intros Hst [b Hb] Hk Hp. destruct (imageLoaded_page st k p Hst Hp) as (Hst' & Hpx & Hop).
  eexists. split; [by eapply imageLoaded_button|]. by split_and!.
Qed.

(** ** The theorems at concrete inputs *)

Lemma plainPicture_ok c : rgb_ok c -> picture_ok (plainPicture c).
Proof. intros Hc. split; [apply length_replicate | by apply Forall_replicate]. Qed.

Lemma clearPicture_ok : picture_ok clearPicture.
Proof. split; [apply length_replicate | by apply Forall_replicate]. Qed.

#[export] Hint Resolve plainPicture_ok clearPicture_ok : recopix.

Lemma imageLoaded_draws_witness :
  let st := Page (Some 0, Some 0, Some 255) false None
              (replicate (4 * (TARGET_SIZE * TARGET_SIZE)) 0) (0, 0, 0)
              true (Some true) None false None None EmptyString None
              [Reading "b.png"; Decoding "a.png"] in
  let p := <[7%nat := None]> (plainPicture (10, 20, 30)) in
  exists st', imageLoaded st 1 p = finished st' /\ page_ok st' /\
    editorPixels st' = zip_with (fun old over => default old over) (editorPixels st) p /\
    (opaque (editorData st) -> opaque (editorData st')) /\
    generateButton st' = Some false /\ pending st' = delete 1%nat (pending st) /\
    generated st' = generated st /\ fileNameDisplay st' = fileNameDisplay st.
Proof.
  apply (imageLoaded_draws _ 1 _ "a.png");
    [split_and!; [split; apply blank_canvas | by_compute | exact I] | by eexists | reflexivity |].
  split; [by_compute | apply Forall_insert; [by apply Forall_replicate | exact I]].
Defined.
