(* ===== verification/Session.v ===== *)
(** * Session: the start of the script and its listeners (script.js, the
      element look-ups, runGeneration as a listener and the listeners
      registered at the end of the script)

    [setup] is the body of the [DOMContentLoaded] listener up to the
    registration of the listeners: it looks the elements up, sizes the two
    canvases and draws the placeholder.  [document] says which elements the
    page has.  Each listener is a function from the state of the page to the
    state it leaves and the exception it threw, if any: a listener that
    throws has changed what it changed before.  [handle] dispatches an
    [event] to its listener, [handleAll] runs a session.

    The events carry what the browser computed: the names of the chosen
    files, the load whose read or decoding ended and the picture it gave, the
    text of the colour picker, and for the pointer the mouse event with the
    rectangle of its canvas.  A listener that was not registered, the click
    on a disabled button and an event of a load that is not under way change
    nothing. *)

From Stdlib Require Import ZArith Lia String SpecFloat.
From stdpp Require Import base tactics option list strings.
From S2P Require Import Prelude Binary64 Pointer Palette Picker Matcher Ranker.
From S2P Require Import Generation Html Editor Loader.

#[local] Open Scope Z_scope.

(** The elements that [document.getElementById] finds, by id, with what
    the script reads of them before it writes it. *)
Record document : Type := Document {
  id_fileInput : bool;
  id_editorCanvas : bool;
  id_mosaicCanvas : bool;
  id_generateButton : option bool;          (* whether it is disabled *)
  id_summaryOutput : bool;
  id_editorColorPicker : bool;
  id_currentColorDisplay : option string;   (* its text *)
  id_hoverInfo : option string;             (* its text *)
  id_res_display : bool;
  id_fileNameDisplay : option label         (* its text and classes *)
}.

Inductive event : Type :=
| FileChange (files : list string)      (* change on the file input: e.target.files *)
| ReaderLoaded (k : nat)                (* reader.onload of load k *)
| ImageLoaded (k : nat) (p : picture)   (* img.onload of load k, with the resampled picture *)
| LoadFailed (k : nat)                  (* load k fails: no handler runs *)
| ColourInput (hex : string)            (* input on the colour picker *)
| MouseDown (e : mouseEvent)
| MouseMove (e : mouseEvent)
| MouseUp
| MouseLeave
| GenerateClick
| MosaicMouseMove (e : mouseEvent).

(** A document that has every element the script looks up. *)
Definition fullDocument : document :=
  {| id_fileInput := true; id_editorCanvas := true; id_mosaicCanvas := true;
     id_generateButton := Some false; id_summaryOutput := true;
     id_editorColorPicker := true; id_currentColorDisplay := Some "#0000ff";
     id_hoverInfo := Some EmptyString; id_res_display := true;
     id_fileNameDisplay := Some (Label "No file chosen" ["text-sm"; "text-gray-500"]) |}.

(** editorCtx.fillStyle = '#f3f4f6' *)
Definition placeholderColour : rgb := (243, 244, 246).

(** The page when the listeners are registered: the canvases sized, the
    resolution shown, the editor canvas filled with the placeholder colour,
    blue as the editor colour. *)
Definition initialPage (doc : document) : page :=
  {| currentEditorColor := (Some 0, Some 0, Some 255);
     isDrawing := false;
     generated := None;
     editorData := replicate (TARGET_SIZE * TARGET_SIZE) placeholderColour
                     ≫= (fun '(r, g, b) => [r; g; b; 255]);
     fillStyle := placeholderColour;
     fileInput := id_fileInput doc;
     generateButton := id_generateButton doc;
     summaryOutput :=
       if id_summaryOutput doc
       then Some "Please upload an image and click 'Run Generation'." else None;
     editorColourPicker := id_editorColorPicker doc;
     currentColourDisplay := id_currentColorDisplay doc;
     hoverInfo := id_hoverInfo doc;
     resDisplay := numberText (Some (Z.of_nat TARGET_SIZE)) +:+ "x" +:+
                   numberText (Some (Z.of_nat TARGET_SIZE));
     fileNameDisplay := id_fileNameDisplay doc;
     pending := [] |}.

(** A method call or an assignment on what [getElementById] returned: a
    [TypeError] when the element was not found. *)
Definition found (element : bool) : outcome unit :=
  if element then Returns () else Throws TypeError.

(** The script up to the registration of the listeners, statement by
    statement: the elements are looked up; [getContext] is called on the two
    canvases, their sizes are set, and [textContent] is set on the resolution
    display, whether they were found or not. *)
Definition setup (doc : document) : outcome page :=
  found (id_editorCanvas doc) ;;     (* editorCtx = editorCanvas.getContext('2d') *)
  found (id_mosaicCanvas doc) ;;     (* mosaicCtx = mosaicCanvas.getContext('2d') *)
  found (id_res_display doc) ;;      (* resDisplay.textContent = .. *)
  Returns (initialPage doc).

(** The [change] listener of the file input *)
Definition fileChanged (st : page) (files : list string) : reaction :=
  match files with
  | file :: _ =>
      match loadImage st file with
      | (st, None) => finished (setFileName st (showFile file))
      | thrown => thrown
      end
  | [] => finished (setFileName st showNoFile)
  end.

(** The [input] listener of the colour picker *)
Definition colourInput (st : page) (hex : string) : reaction :=
  finished (setColour st (hexToRgb hex) hex).

(** function runGeneration(), as the [click] listener of the button *)
Definition generateClicked (data : palette) (st : page) : reaction :=
  match summaryOutput st with
  | None => threw st TypeError
  | Some _ =>
      let st := setDisabled (setSummary st "Generating mosaic...") true in
      match runGeneration data (editorData st) with
      | Returns g =>
          finished (setDisabled (setSummary (setGenerated st g) (summaryHtml (shownSummary g)))
                            false)
      | Throws e => threw st e
      end
  end.

(** The [mousemove] listener of the mosaic canvas *)
Definition mosaicMouseMove (st : page) (e : mouseEvent) : reaction :=
  match hoverInfo st with
  | Some text =>
      match hover (finalColorNameMap <$> generated st) e text with
      | Returns text => finished (setHover st text)
      | Throws e => threw st e
      end
  | None => finished st
  end.

(** The listener of each event, where one was registered. *)
Definition handle (data : palette) (st : page) (ev : event) : reaction :=
  match ev with
  | FileChange files => if fileInput st then fileChanged st files else finished st
  | ReaderLoaded k => readerLoaded st k
  | ImageLoaded k p => imageLoaded st k p
  | LoadFailed k => loadFailed st k
  | ColourInput hex => if editorColourPicker st then colourInput st hex else finished st
  | MouseDown e => finished (drawPixel (setDrawing st true) e)
  | MouseMove e => finished (drawPixel st e)
  | MouseUp | MouseLeave => finished (setDrawing st false)
  | GenerateClick =>
      match generateButton st with
      | Some false => generateClicked data st
      | _ => finished st
      end
  | MosaicMouseMove e => mosaicMouseMove st e
  end.

(** A session: the listeners run one after the other; the exceptions are
    collected in the order they were thrown. *)
Fixpoint handleAll (data : palette) (st : page) (evs : list event) : page * list jsError :=
  match evs with
  | [] => (st, [])
  | ev :: rest =>
      let '(st, e) := handle data st ev in
      let '(st, es) := handleAll data st rest in
      (st, option_list e ++ es)
  end.

(** ** Well-formed sessions *)

(** The elements that the listeners use without a test. *)
Definition complete (st : page) : Prop :=
  is_Some (generateButton st) /\ is_Some (summaryOutput st).

(** The browser delivers pictures of the size of the temporary canvas. *)
Definition event_ok (ev : event) : Prop :=
  match ev with
  | ImageLoaded _ p => picture_ok p
  | _ => True
  end.

(** The events of the pointer on the editor canvas. *)
Definition isPointerMove (ev : event) : bool :=
  match ev with MouseMove _ => true | _ => false end.

Definition isGenerate (ev : event) : bool :=
  match ev with GenerateClick => true | _ => false end.

Definition isImageLoaded (ev : event) : bool :=
  match ev with ImageLoaded _ _ => true | _ => false end.

Definition isFileChange (ev : event) : bool :=
  match ev with FileChange _ => true | _ => false end.

(** The pointer at [(x, y)] on a canvas shown at its own size in the corner
    of the window, and the pointer on a canvas that is not shown. *)
Definition pointerAt (x y : Z) : mouseEvent :=
  mouseAt x y (rectAt 0 0 (Z.of_nat TARGET_SIZE) (Z.of_nat TARGET_SIZE)).

Definition pointerHidden : mouseEvent := mouseAt 5 5 (rectAt 0 0 0 0).

(** ** The start of the script *)

Lemma initialPage_ok doc : page_ok (initialPage doc).
Proof.
  split_and!; [split; by_compute| |done].
  unfold rgb_ok, is_u8, initialPage, placeholderColour; simpl; lia.
Qed.

#[export] Hint Resolve initialPage_ok : recopix.

(** The resolution display shows the size of the grid. *)
Lemma initialPage_resolution doc : resDisplay (initialPage doc) = "48x48".
Proof. reflexivity. Qed.

Lemma setup_returns doc :
  id_editorCanvas doc = true -> id_mosaicCanvas doc = true -> id_res_display doc = true ->
  setup doc = Returns (initialPage doc).
Proof. intros He Hm Hr. unfold setup. by rewrite He, Hm, Hr. Qed.

Lemma initialPage_complete doc :
  is_Some (id_generateButton doc) -> id_summaryOutput doc = true -> complete (initialPage doc).
Proof. intros Hb Hs. split; [done|]. cbn [initialPage summaryOutput]. by rewrite Hs. Qed.

(** ** What the listeners leave alone *)

Lemma handleAll_cons data st ev evs :
  handleAll data st (ev :: evs)
  = ((handleAll data (handle data st ev).1 evs).1,
     option_list (handle data st ev).2 ++ (handleAll data (handle data st ev).1 evs).2).
Proof.
  cbn [handleAll]. destruct (handle data st ev) as [st1 e]. cbn [fst snd].
  by destruct (handleAll data st1 evs).
Qed.

(** A listener that does not throw, followed by the rest of the session. *)
Lemma handleAll_step data st ev st' evs :
  handle data st ev = finished st' -> handleAll data st (ev :: evs) = handleAll data st' evs.
Proof.
  intros Hh. rewrite handleAll_cons, Hh. cbn [finished fst snd option_list app].
  by destruct (handleAll data st' evs).
Qed.

Lemma handle_fileChosen data st file files b :
  fileInput st = true -> generateButton st = Some b ->
  handle data st (FileChange (file :: files))
  = finished (setFileName (setPending (setDisabled st true) (pending st ++ [Reading file]))
                (showFile file)).
Proof.
  intros Hf Hb. cbn [handle]. rewrite Hf. unfold fileChanged. by rewrite (loadImage_button _ _ b).
Qed.

Lemma handle_readerLoaded data st k file :
  pending st !! k = Some (Reading file) ->
  handle data st (ReaderLoaded k) = finished (setPending st (<[k := Decoding file]> (pending st))).
Proof. intros Hk. cbn [handle]. unfold readerLoaded. by rewrite Hk. Qed.

(** Only a generation changes the name map. *)
Lemma handle_generated data st ev :
  isGenerate ev = false -> generated (handle data st ev).1 = generated st.
Proof.
  destruct ev as [files|k|k p|k|hex|e|e| | | |e]; try discriminate; intros _;
    cbn [handle]; unfold finished; cbn [fst].
  - destruct (fileInput st); [|done]. unfold fileChanged, loadImage.
    destruct files; [done|]. by destruct (generateButton st).
  - unfold readerLoaded. by destruct (pending st !! k) as [[file|file]|].
  - unfold imageLoaded. destruct (pending st !! k) as [[file|file]|]; try done.
    cbn [setEditor setPending generateButton]. by destruct (generateButton st).
  - done.
  - by destruct (editorColourPicker st).
  - by destruct (drawPixel_frame (setDrawing st true) e) as (_ & _ & -> & _).
  - by destruct (drawPixel_frame st e) as (_ & _ & -> & _).
  - done.
  - done.
  - unfold mosaicMouseMove. destruct (hoverInfo st) as [text|]; [|done].
    by destruct (hover (finalColorNameMap <$> generated st) e text).
Qed.

(** Which elements exist never changes, and only the [change] listener
    touches the file name display. *)
Lemma handle_elements data st ev :
  fileInput (handle data st ev).1 = fileInput st /\
  (is_Some (generateButton (handle data st ev).1) <-> is_Some (generateButton st)) /\
  (isFileChange ev = false -> fileNameDisplay (handle data st ev).1 = fileNameDisplay st) /\
  (is_Some (summaryOutput (handle data st ev).1) <-> is_Some (summaryOutput st)).
Proof.
  assert (forall b b' : bool, is_Some (Some b) <-> is_Some (Some b')) as Hsome
    by (split; eauto).
  assert (forall t t' : string, is_Some (Some t) <-> is_Some (Some t')) as Hsome'
    by (split; eauto).
  destruct ev as [files|k|k p|k|hex|e|e| | | |e]; cbn [handle isFileChange].
  - unfold fileChanged, loadImage, finished, threw.
    destruct (fileInput st) eqn:Hf, files, (generateButton st) eqn:Hb; cbn; by rewrite ?Hf, ?Hb.
  - unfold readerLoaded. by destruct (pending st !! k) as [[file|file]|].
  - unfold imageLoaded, finished, threw. destruct (pending st !! k) as [[file|file]|]; try done.
    cbn [setEditor setPending generateButton].
    destruct (generateButton st) eqn:Hb; cbn; by rewrite ?Hb.
  - done.
  - unfold colourInput, finished. by case_match.
  - destruct (drawPixel_frame (setDrawing st true) e) as (_ & _ & _ & Hb & Hs & _ & Hf & Hn & _).
    unfold finished. cbn [fst]. by rewrite Hb, Hs, Hf, Hn.
  - destruct (drawPixel_frame st e) as (_ & _ & _ & Hb & Hs & _ & Hf & Hn & _).
    unfold finished. cbn [fst]. by rewrite Hb, Hs, Hf, Hn.
  - done.
  - done.
  - unfold generateClicked, finished, threw.
    destruct (generateButton st) as [[]|] eqn:Hb; cbn [fst]; rewrite ?Hb; [done| |done].
    destruct (summaryOutput st) eqn:Hs; cbn [fst]; rewrite ?Hb, ?Hs; [|done].
    cbn [setDisabled setSummary editorData]. by destruct (runGeneration data (editorData st)).
  - unfold mosaicMouseMove, finished, threw. by repeat case_match.
Qed.

(** The [change] listener updates the display, where there is one. *)
Lemma handle_fileChange data st files :
  fileInput st = true -> is_Some (generateButton st) ->
  fileNameDisplay (handle data st (FileChange files)).1 = fileUpdate files <$> fileNameDisplay st.
Proof.
  intros Hf [b Hb]. cbn [handle]. rewrite Hf. unfold fileChanged, loadImage. rewrite Hb.
  by destruct files.
Qed.

(** While the button is disabled, only a loaded picture enables it, and
    nothing is generated. *)
Lemma handle_disabled data st ev :
  generateButton st = Some true -> isImageLoaded ev = false ->
  generateButton (handle data st ev).1 = Some true /\
  generated (handle data st ev).1 = generated st.
Proof.
  intros Hb Hev. destruct (decide (isGenerate ev = true)) as [Hgen|Hgen].
  - destruct ev; try discriminate. cbn [handle]. by rewrite Hb.
  - apply not_true_is_false in Hgen. split; [|by apply handle_generated].
    destruct ev as [files|k|k p|k|hex|e|e| | | |e]; try discriminate;
      cbn [handle]; unfold finished; cbn [fst].
    + destruct (fileInput st); [|done]. unfold fileChanged, loadImage. rewrite Hb.
      by destruct files.
    + unfold readerLoaded. by destruct (pending st !! k) as [[file|file]|].
    + done.
    + by destruct (editorColourPicker st).
    + by destruct (drawPixel_frame (setDrawing st true) e) as (_ & _ & _ & -> & _).
    + by destruct (drawPixel_frame st e) as (_ & _ & _ & -> & _).
    + done.
    + done.
    + unfold mosaicMouseMove. destruct (hoverInfo st) as [text|]; [|done].
      by destruct (hover (finalColorNameMap <$> generated st) e text).
Qed.

Lemma handleAll_disabled data st evs :
  generateButton st = Some true -> Forall (fun ev => isImageLoaded ev = false) evs ->
  generateButton (handleAll data st evs).1 = Some true /\
  generated (handleAll data st evs).1 = generated st.
Proof.
  intros Hb Hevs. revert st Hb. induction Hevs as [|ev evs Hev _ IH]; intros st Hb; [done|].
  destruct (handle_disabled data st ev Hb Hev) as [Hb1 Hg1].
  rewrite handleAll_cons. cbn [fst]. destruct (IH _ Hb1) as [-> ->]. done.
Qed.

(** ** The listeners keep the page well formed *)

Lemma drawPixel_complete st e : complete st -> complete (drawPixel st e).
Proof.
  destruct (drawPixel_frame st e) as (_ & _ & _ & Hbutton & Hsummary & _).
  unfold complete. by rewrite Hbutton, Hsummary.
Qed.

#[export] Hint Resolve drawPixel_complete : recopix.

Section listeners.
Context (data : palette).

Lemma runGeneration_ok canvas :
  canvas_ok canvas -> exists g, runGeneration data canvas = Returns g /\ generation_ok g.
Proof.
  intros [Hlen _].
  destruct (runGeneration_returns data canvas) as (g & Hg & Himage & Hcells & Hrows).
  rewrite (canvas_pixels canvas Hlen) in Hcells. exists g. split; [done|].
  split_and!; [done | done | by rewrite <- Hcells].
Qed.

(** The hover handler does not throw on the map of a generation. *)
Lemma hover_generation g e text :
  generation_ok g ->
  hover (Some (finalColorNameMap g)) e text
  = Returns (let '(x, y) := cell TARGET_SIZE e in
             if inside x TARGET_SIZE && inside y TARGET_SIZE
             then " Colour: " +:+
                  default "undefined" (concat (finalColorNameMap g)
                     !! Z.to_nat (default 0 y * Z.of_nat TARGET_SIZE + default 0 x))
             else EmptyString).
Proof.
  intros (_ & Hlen & Hrows). destruct (cell TARGET_SIZE e) as [x y] eqn:Hcell.
  destruct (inside x TARGET_SIZE && inside y TARGET_SIZE) eqn:Hin;
    [|by apply hover_outside; rewrite Hcell].
  apply andb_prop in Hin as [(zx & -> & Hx)%inside_true (zy & -> & Hy)%inside_true].
  set (names := concat (finalColorNameMap g)) in *.
  destruct (lookup_lt_is_Some_2 names (Z.to_nat (zy * Z.of_nat TARGET_SIZE + zx)))
    as [name Hname]; [rewrite Hlen; unfold TARGET_SIZE in *; lia|].
  cbn [default from_option id]. rewrite Hname, Hrows, <- Hlen. by apply (hover_cell _ e zx zy).
Qed.

Lemma generateClicked_ok st :
  page_ok st -> complete st ->
  exists g, runGeneration data (editorData st) = Returns g /\ generation_ok g /\
    generateClicked data st
    = finished (setDisabled (setSummary (setGenerated
              (setDisabled (setSummary st "Generating mosaic...") true) g)
              (summaryHtml (shownSummary g))) false).
Proof.
  intros (Hc & _) [_ [view Hview]].
  destruct (runGeneration_ok _ Hc) as (g & Hg & Hgen). exists g. split_and!; [done..|].
  unfold generateClicked. rewrite Hview. cbn [setDisabled setSummary editorData]. by rewrite Hg.
Qed.

Lemma mosaicMouseMove_ok st e :
  page_ok st -> exists st', mosaicMouseMove st e = finished st' /\
    page_ok st' /\ (complete st -> complete st') /\ generated st' = generated st.
Proof.
  intros (Hc & Hf & Hg). unfold mosaicMouseMove.
  destruct (hoverInfo st) as [text|]; [|by exists st].
  destruct (generated st) as [g|] eqn:Hgen; cbn [fmap option_fmap option_map].
  - rewrite hover_generation by done. eexists. split; [reflexivity|].
    unfold page_ok, complete. cbn [setHover editorData fillStyle generated generateButton
      summaryOutput]. by rewrite Hgen.
  - eexists. split; [reflexivity|]. unfold page_ok, complete.
    cbn [setHover editorData fillStyle generated generateButton summaryOutput]. by rewrite Hgen.
Qed.

Lemma generateClicked_page_ok st : page_ok st -> page_ok (generateClicked data st).1.
Proof.
  intros Hst. pose proof Hst as (Hc & _). unfold generateClicked.
  destruct (summaryOutput st); [|done]. cbn [setDisabled setSummary editorData].
  destruct (runGeneration_ok _ Hc) as (g & -> & Hgen). by destruct Hst as (? & ? & ?).
Qed.

(** Every listener leaves a well-formed page, whether it throws or not. *)
Lemma handle_page_ok st ev : page_ok st -> event_ok ev -> page_ok (handle data st ev).1.
Proof.
  intros Hst Hev. pose proof Hst as (Hc & Hf & Hg).
  destruct ev as [files|k|k p|k|hex|e|e| | | |e]; cbn [handle].
  - unfold fileChanged, loadImage, finished, threw.
    by destruct (fileInput st), files, (generateButton st).
  - unfold readerLoaded. by destruct (pending st !! k) as [[file|file]|].
  - unfold imageLoaded, finished, threw. cbn [setEditor setPending generateButton editorData].
    destruct (pending st !! k) as [[file|file]|], (generateButton st); try done;
      (split_and!; [by apply canvas_ok_drawImage | done..]).
  - done.
  - by destruct (editorColourPicker st).
  - by apply drawPixel_ok.
  - by apply drawPixel_ok.
  - done.
  - done.
  - destruct (generateButton st) as [[]|]; try done. by apply generateClicked_page_ok.
  - by destruct (mosaicMouseMove_ok st e Hst) as (st' & -> & Hst' & _).
Qed.

(** The listeners that can throw: the [change] listener and [img.onload]
    where there is no button, the click where there is no summary. *)
Lemma handle_throws st ev :
  page_ok st -> (handle data st ev).2 <> None ->
  (exists file files, ev = FileChange (file :: files) /\ fileInput st = true /\
     generateButton st = None) \/
  (ev = GenerateClick /\ generateButton st = Some false /\ summaryOutput st = None) \/
  (exists k p, ev = ImageLoaded k p /\ generateButton st = None /\ pending st <> []).
Proof.
  intros Hst. pose proof Hst as (Hc & _).
  destruct ev as [files|k|k p|k|hex|e|e| | | |e]; cbn [handle]; try done.
  - unfold fileChanged, loadImage.
    destruct (fileInput st), files as [|file files], (generateButton st); try done.
    intros _. left. by exists file, files.
  - unfold readerLoaded. by repeat case_match.
  - intros [Hb Hp]%imageLoaded_throws. right; right. by exists k, p.
  - by case_match.
  - destruct (generateButton st) as [[]|]; try done. unfold generateClicked.
    destruct (summaryOutput st); [|by intros _; right; left].
    cbn [setDisabled setSummary editorData]. by destruct (runGeneration_ok _ Hc) as (g & -> & _).
  - by destruct (mosaicMouseMove_ok st e Hst) as (st' & -> & _).
Qed.

Lemma handle_ok st ev :
  page_ok st -> complete st -> event_ok ev ->
  exists st', handle data st ev = finished st' /\ page_ok st' /\ complete st'.
Proof.
  intros Hst [Hb Hs] Hev. exists (handle data st ev).1.
  destruct (handle_elements data st ev) as (_ & Hb' & _ & Hs').
  split_and!; [|by apply handle_page_ok|split; tauto].
  destruct (handle data st ev) as [st' [e|]] eqn:Hh; [exfalso|done].
  destruct (handle_throws st ev Hst) as [(? & ? & _ & _ & Hnone)|[(_ & _ & Hnone)|(? & ? & _ & Hnone & _)]];
    [by rewrite Hh | rewrite Hnone in *; by destruct Hb..].
Qed.

Lemma handleAll_page_ok st evs :
  page_ok st -> complete st -> Forall event_ok evs ->
  exists st', handleAll data st evs = (st', []) /\ page_ok st' /\ complete st'.
Proof.
  intros Hst Hcomp Hevs. revert st Hst Hcomp.
  induction Hevs as [|ev evs Hev _ IH]; intros st Hst Hcomp; [by exists st|].
  destruct (handle_ok st ev Hst Hcomp Hev) as (st1 & Hh & Hst1 & Hcomp1).
  destruct (IH st1 Hst1 Hcomp1) as (st2 & Hrun & Hst2).
  exists st2. cbn [handleAll]. rewrite Hh. unfold finished. by rewrite Hrun.
Qed.

End listeners.

(** ** Sessions *)

(** C15: no listener throws, and the page stays well formed.  In a document
    that has the two canvases, the resolution display, the button and the
    summary, and for every palette, well formed or not, the script starts, and
    after every sequence of events (the pictures of the loads having
    [TARGET_SIZE] x [TARGET_SIZE] pixels) no exception was thrown, the editor
    canvas has [TARGET_SIZE] x [TARGET_SIZE] 8-bit pixels, and the name map,
    once generated, has [TARGET_SIZE] rows of [TARGET_SIZE] names.  The other
    elements may be missing. *)
Theorem session_safe (data : palette) (doc : document) (evs : list event) :
  id_editorCanvas doc = true -> id_mosaicCanvas doc = true -> id_res_display doc = true ->
  is_Some (id_generateButton doc) -> id_summaryOutput doc = true ->
  Forall event_ok evs ->
  exists st0 st, setup doc = Returns st0 /\
    handleAll data st0 evs = (st, []) /\ page_ok st /\ complete st.
Proof.
  intros He Hm Hr Hb Hs Hevs. exists (initialPage doc).
  destruct (handleAll_page_ok data (initialPage doc) evs) as (st & Hrun & Hst);
    [apply initialPage_ok | by apply initialPage_complete | done |].
  exists st. split; [by apply setup_returns | done].
Qed.

(** The script starts exactly when the document has both canvases and the
    resolution display.  [setup] throws a [TypeError] if and only if one of
    the three is missing ([getContext] and [textContent] are used on them
    without a test); otherwise it returns the initial page. *)
Theorem setup_throws (doc : document) :
  (setup doc = Throws TypeError <->
   id_editorCanvas doc = false \/ id_mosaicCanvas doc = false \/ id_res_display doc = false) /\
  (setup doc <> Throws TypeError -> setup doc = Returns (initialPage doc)).
Proof.
  unfold setup.
  destruct (id_editorCanvas doc), (id_mosaicCanvas doc), (id_res_display doc); cbn [andb];
    (split; [split; [try done; auto | intros [?|[?|?]]; done] | done]).
Qed.

(** Moving the pointer without pressing it draws nothing.  While [isDrawing]
    is false, any sequence of [mousemove] events on the editor canvas leaves
    the page as it is and throws nothing. *)
Theorem pointer_idle (data : palette) (st : page) (evs : list event) :
  isDrawing st = false -> Forall (fun ev => isPointerMove ev = true) evs ->
  handleAll data st evs = (st, []).
Proof.
  intros Hidle Hevs. induction Hevs as [|ev evs Hev _ IH]; [done|].
  destruct ev; try discriminate. cbn [handleAll handle].
  rewrite drawPixel_idle by done. unfold finished. by rewrite IH.
Qed.

(** C34: the colour picked is the colour painted.  On a page with a colour
    picker, choosing the colour [c] (the picker reports it as [#rrggbb]),
    pressing the pointer over a cell [(x, y)] inside the canvas and releasing
    it throws nothing and leaves the editor canvas with pixel [y * TARGET_SIZE
    + x] equal to [c] and every other pixel as before; the display shows the
    text of the picker, [isDrawing] is false again and the name map is
    untouched. *)
Theorem pick_and_draw (data : palette) (st : page) (c : rgb) (e : mouseEvent) (x y : Z) :
  page_ok st -> editorColourPicker st = true -> rgb_ok c ->
  cell TARGET_SIZE e = (Some x, Some y) ->
  0 <= x < Z.of_nat TARGET_SIZE -> 0 <= y < Z.of_nat TARGET_SIZE ->
  exists st',
    handleAll data st [ColourInput (hexOfRgb c); MouseDown e; MouseUp]
    = (st', []) /\
    editorPixels st' = <[Z.to_nat (y * Z.of_nat TARGET_SIZE + x) := c]> (editorPixels st) /\
    currentColourDisplay st' = (fun _ => hexOfRgb c) <$> currentColourDisplay st /\
    isDrawing st' = false /\ generated st' = generated st.
Proof.
  intros ([Hlen _] & _) Hpicker Hc Hcell Hx Hy. eexists. split.
  { cbn [handleAll handle]. rewrite Hpicker. unfold colourInput, finished.
    rewrite (drawPixel_inside _ e x y) by done. reflexivity. }
  cbn [setDrawing setEditor setColour editorData fillStyle currentEditorColor isDrawing
       generated currentColourDisplay].
  rewrite cssColour_hexOfRgb by done. unfold editorPixels.
  cbn [editorData default from_option id]. split; [|done].
  apply writePixel_pixels. rewrite Hlen. unfold TARGET_SIZE in *. lia.
Qed.

(** C36: only a generation changes the name map.  After any sequence of events
    without a click on the button, [finalColorNameMap] and the picture on the
    mosaic canvas are what they were, whatever was drawn or loaded in between:
    the hover text describes the last generation, not the edited canvas. *)
Theorem edits_keep_names (data : palette) (st : page) (evs : list event) :
  Forall (fun ev => isGenerate ev = false) evs ->
  generated (handleAll data st evs).1 = generated st.
Proof.
  intros Hevs. revert st. induction Hevs as [|ev evs Hev _ IH]; intros st; [done|].
  rewrite handleAll_cons. cbn [fst]. by rewrite IH, handle_generated.
Qed.

(** C27: generating and pointing.  On a well-formed page whose button is
    enabled and that has a hover line, a click on the button followed by a
    pointer move over cell [(x, y)] of the mosaic throws nothing; afterwards
    the page holds the generation of the editor canvas, the summary element
    holds its HTML, the button is enabled again, the editor canvas is
    unchanged, and the hover line shows the name of cell [y * TARGET_SIZE + x]
    of the new name map. *)
Theorem generate_then_hover (data : palette) (st : page) (text : string)
    (e : mouseEvent) (x y : Z) :
  page_ok st -> complete st -> generateButton st = Some false -> hoverInfo st = Some text ->
  cell TARGET_SIZE e = (Some x, Some y) ->
  0 <= x < Z.of_nat TARGET_SIZE -> 0 <= y < Z.of_nat TARGET_SIZE ->
  exists g name st',
    runGeneration data (editorData st) = Returns g /\
    concat (finalColorNameMap g) !! Z.to_nat (y * Z.of_nat TARGET_SIZE + x) = Some name /\
    handleAll data st [GenerateClick; MosaicMouseMove e] = (st', []) /\
    generated st' = Some g /\ hoverInfo st' = Some (" Colour: " +:+ name) /\
    summaryOutput st' = Some (summaryHtml (shownSummary g)) /\
    generateButton st' = Some false /\ editorData st' = editorData st.
Proof.
  intros Hst Hcomp Hen Hhover Hcell Hx Hy.
  destruct (generateClicked_ok data st Hst Hcomp) as (g & Hg & Hgen & Hclick).
  destruct (lookup_lt_is_Some_2 (concat (finalColorNameMap g))
              (Z.to_nat (y * Z.of_nat TARGET_SIZE + x))) as [name Hname].
  { destruct Hgen as (_ & -> & _). unfold TARGET_SIZE in *. lia. }
  exists g, name. eexists. do 2 (split; [done|]). split.
  - cbn [handleAll handle]. rewrite Hen, Hclick. unfold finished, mosaicMouseMove.
    cbn [setDisabled setSummary setGenerated hoverInfo generated fmap option_fmap option_map].
    rewrite Hhover, (hover_generation g _ _ Hgen), Hcell, !inside_Some by done.
    cbn [andb default from_option id]. rewrite Hname. reflexivity.
  - split_and!; reflexivity.
Qed.

(** A page without the summary element cannot generate.  If the button exists
    and is enabled but [summaryOutput] is missing, a click throws a
    [TypeError] at the first statement of [runGeneration] and changes nothing:
    the element is written without the test that guards it elsewhere. *)
Theorem generate_without_summary (data : palette) (st : page) :
  generateButton st = Some false -> summaryOutput st = None ->
  handleAll data st [GenerateClick] = (st, [TypeError]).
Proof.
  intros Hb Hs. cbn [handleAll handle]. rewrite Hb. unfold generateClicked. by rewrite Hs.
Qed.

(** A page without the button cannot load a picture.  If the file input exists
    but the button is missing, choosing a file throws a [TypeError] at the
    first statement of [loadImage] and changes nothing. *)
Theorem load_without_button (data : palette) (st : page) (file : string) (files : list string) :
  fileInput st = true -> generateButton st = None ->
  handleAll data st [FileChange (file :: files)] = (st, [TypeError]).
Proof.
  intros Hf Hb. cbn [handleAll handle]. rewrite Hf. unfold fileChanged, loadImage. by rewrite Hb.
Qed.

(** C37: after a file was chosen, nothing is generated until its picture has
    loaded.  Choosing a file disables the button; whatever events follow, as
    long as no picture finishes loading the button stays disabled and the name
    map stays what it was.  A file that never loads as a picture leaves the
    button disabled. *)
Theorem generate_waits_for_image (data : palette) (st : page) (file : string)
    (files : list string) (evs : list event) :
  fileInput st = true -> is_Some (generateButton st) ->
  Forall (fun ev => isImageLoaded ev = false) evs ->
  generateButton (handleAll data st (FileChange (file :: files) :: evs)).1 = Some true /\
  generated (handleAll data st (FileChange (file :: files) :: evs)).1 = generated st.
Proof.
  intros Hf [b Hb] Hevs. rewrite handleAll_cons. cbn [fst handle].
  rewrite Hf. unfold fileChanged, loadImage. rewrite Hb. unfold finished. cbn [fst].
  match goal with
  | |- context [handleAll data ?s evs] =>
      by destruct (handleAll_disabled data s evs) as [-> ->]
  end.
Qed.

(** What the file name display shows.  On a page with the file input, the
    button and the display, after a [change] event the display holds the name
    of the first chosen file, with the class [text-indigo-600] and without
    [text-gray-500], or the text [No file chosen] with [text-gray-500] and
    without [text-indigo-600] when no file is chosen; its other classes are
    untouched and no class is listed twice. *)
Theorem file_name_shown (data : palette) (st : page) (el : label) (files : list string) :
  fileInput st = true -> is_Some (generateButton st) -> fileNameDisplay st = Some el ->
  exists el', fileNameDisplay (handle data st (FileChange files)).1 = Some el' /\
    textContent el' = default "No file chosen" (head files) /\
    ("text-indigo-600" ∈ classList el' <-> files <> []) /\
    ("text-gray-500" ∈ classList el' <-> files = []) /\
    (forall c, c <> "text-indigo-600" -> c <> "text-gray-500" ->
               c ∈ classList el' <-> c ∈ classList el) /\
    (NoDup (classList el) -> NoDup (classList el')).
Proof.
  intros Hf [b Hb] Hel. cbn [handle]. rewrite Hf. unfold fileChanged, loadImage. rewrite Hb.
  destruct files as [|file files]; unfold finished;
    cbn [fst setFileName setDisabled setPending fileNameDisplay head default from_option id];
    rewrite Hel; (eexists; split; [reflexivity|]).
  - destruct (showNoFile_spec el) as (Ht & Hgray & Hindigo & Hrest & Hnd).
    split_and!; [done | intuition congruence.. | done | done].
  - destruct (showFile_spec file el) as (Ht & Hindigo & Hgray & Hrest & Hnd).
    split_and!; [done | intuition congruence.. | done | done].
Qed.

(** C35: the file name display shows the last choice.  On a page with the file
    input, the button and the display, after any sequence of events that ends
    with a [change] event the display looks as if that event had been the only
    one: it has the text and, up to their order, the classes that the listener
    gives to the display the page started with.  No other listener touches the
    display, and an update makes the display forget the update before it. *)
Theorem file_name_last (data : palette) (st : page) (el : label) (evs : list event)
    (files : list string) :
  fileInput st = true -> is_Some (generateButton st) -> fileNameDisplay st = Some el ->
  exists el',
    fileNameDisplay (handleAll data st (evs ++ [FileChange files])).1 = Some el' /\
    same_label el' (fileUpdate files el).
Proof.
  intros Hf Hb Hel.
  assert (exists el1, fileNameDisplay st = Some el1 /\
            same_label (fileUpdate files el1) (fileUpdate files el)) as Hinv
    by (exists el; split; [done | reflexivity]).
  clear Hel. revert st Hf Hb Hinv. induction evs as [|ev evs IH]; intros st Hf Hb Hinv.
  - destruct Hinv as (el1 & Hel1 & Hsame). rewrite app_nil_l, handleAll_cons. cbn [handleAll fst].
    rewrite handle_fileChange, Hel1 by done. by eexists.
  - rewrite <- app_comm_cons, handleAll_cons. cbn [fst].
    destruct (handle_elements data st ev) as (Hf' & Hb' & Hn' & _). apply IH; [congruence | tauto |].
    destruct Hinv as (el1 & Hel1 & Hsame). destruct (isFileChange ev) eqn:Hev.
    + destruct ev; try discriminate. rewrite handle_fileChange, Hel1 by done.
      eexists. split; [reflexivity|]. by rewrite fileUpdate_absorbs.
    + rewrite Hn' by done. eauto.
Qed.

(** A canvas shown with no width or height.  When the rectangle of the canvas
    has width or height zero, the scale is infinite and the coordinate is an
    infinity or [NaN], which fails the range test: pressing the pointer only
    sets [isDrawing], moving it draws nothing, and on the mosaic canvas the
    hover line is cleared; nothing throws. *)
Theorem pointer_on_hidden_canvas (data : palette) (st : page) (e : mouseEvent) (s : bool) :
  width (boundingClientRect e) = S754_zero s \/ height (boundingClientRect e) = S754_zero s ->
  handle data st (MouseDown e) = finished (setDrawing st true) /\
  handle data st (MouseMove e) = finished st /\
  (is_Some (generated st) -> is_Some (hoverInfo st) ->
   handle data st (MosaicMouseMove e) = finished (setHover st EmptyString)).
Proof.
  intros Hrect. pose proof (cell_hidden_outside TARGET_SIZE e s ltac:(by_compute) Hrect) as Hout.
  cbn [handle]. rewrite !drawPixel_outside by done. split_and!; [done..|].
  intros [g Hg] [text Hhover]. unfold mosaicMouseMove. rewrite Hhover, Hg.
  cbn [fmap option_fmap option_map]. by rewrite hover_outside.
Qed.

(** Drawing with a colour that is not one.  After red was picked and painted
    on pixel 0, the text [#gg0000] makes the editor colour [NaN, 0, 0]; the
    next stroke on pixel 1 paints red again, because the assignment of
    [rgb(NaN, 0, 0)] to [fillStyle] is ignored; pixel 2 still shows the
    placeholder. *)
Example invalid_colour_keeps_style :
  let st := (handleAll COLOURS_DATA (initialPage fullDocument)
               [ColourInput "#ff0000"; MouseDown (pointerAt 0 0); MouseUp;
                ColourInput "#gg0000"; MouseDown (pointerAt 1 0)]).1 in
  currentEditorColor st = (None, Some 0, Some 0) /\
  cssColour (currentEditorColor st) = None /\
  editorPixels st !! 1%nat = Some (255, 0, 0) /\
  editorPixels st !! 2%nat = Some placeholderColour.
Proof. intros st. split_and!; by vm_compute. Qed.

(** ** The theorems at concrete inputs *)

Lemma event_ok_plain k : event_ok (ImageLoaded k (plainPicture (0, 0, 0))).
Proof. by apply plainPicture_ok. Qed.

Lemma session_safe_witness :
  exists st0 st, setup fullDocument = Returns st0 /\
    handleAll scenario_palette st0
      [FileChange ["picture.png"]; GenerateClick; ReaderLoaded 0;
       ImageLoaded 0 (plainPicture (0, 0, 0));
       ColourInput "#ff0000"; MouseDown (pointerAt 1 2); MouseMove (pointerAt 2 2);
       MouseUp; GenerateClick; MosaicMouseMove (pointerAt 1 2); MosaicMouseMove pointerHidden]
    = (st, []) /\ page_ok st /\ complete st.
Proof.
  apply session_safe;
    [reflexivity | reflexivity | reflexivity | by eexists | reflexivity |].
  repeat (constructor; [first [exact I | exact (event_ok_plain 0)]|]). constructor.
Defined.

Lemma pointer_idle_witness :
  handleAll scenario_palette (initialPage fullDocument)
    [MouseMove (pointerAt 1 1); MouseMove (pointerAt 2 1); MouseMove (pointerAt (-3) 50)]
  = (initialPage fullDocument, []).
Proof. apply pointer_idle; [reflexivity | by repeat constructor]. Defined.

Lemma pick_and_draw_witness :
  exists st',
    handleAll scenario_palette (initialPage fullDocument)
      [ColourInput (hexOfRgb (18, 52, 86)); MouseDown (pointerAt 47 47); MouseUp]
    = (st', []) /\
    editorPixels st'
    = <[Z.to_nat (47 * Z.of_nat TARGET_SIZE + 47) := (18, 52, 86)]>
        (editorPixels (initialPage fullDocument)) /\
    currentColourDisplay st'
    = (fun _ => hexOfRgb (18, 52, 86)) <$> currentColourDisplay (initialPage fullDocument) /\
    isDrawing st' = false /\ generated st' = generated (initialPage fullDocument).
Proof.
  apply pick_and_draw;
    [exact (initialPage_ok fullDocument) | reflexivity | by_compute | by vm_compute | by_compute..].
Defined.

Lemma edits_keep_names_witness :
  generated (handleAll scenario_palette (initialPage fullDocument)
               [ColourInput "#00ff00"; MouseDown (pointerAt 3 4); MouseUp;
                MosaicMouseMove (pointerAt 0 0); FileChange []]).1
  = generated (initialPage fullDocument).
Proof. apply edits_keep_names. by repeat constructor. Defined.

Lemma generate_then_hover_witness :
  exists g name st',
    runGeneration COLOURS_DATA (editorData (initialPage fullDocument)) = Returns g /\
    concat (finalColorNameMap g) !! Z.to_nat (3 * Z.of_nat TARGET_SIZE + 4) = Some name /\
    handleAll COLOURS_DATA (initialPage fullDocument)
      [GenerateClick; MosaicMouseMove (pointerAt 4 3)] = (st', []) /\
    generated st' = Some g /\ hoverInfo st' = Some (" Colour: " +:+ name) /\
    summaryOutput st' = Some (summaryHtml (shownSummary g)) /\
    generateButton st' = Some false /\
    editorData st' = editorData (initialPage fullDocument).
Proof.
  apply (generate_then_hover COLOURS_DATA (initialPage fullDocument) EmptyString);
    [exact (initialPage_ok fullDocument)
    | by apply initialPage_complete | reflexivity | reflexivity | by vm_compute
    | by_compute..].
Defined.

Lemma pointer_on_hidden_canvas_witness :
  let st := (handleAll COLOURS_DATA (initialPage fullDocument) [GenerateClick]).1 in
  handle COLOURS_DATA st (MouseDown pointerHidden) = finished (setDrawing st true) /\
  handle COLOURS_DATA st (MouseMove pointerHidden) = finished st /\
  (is_Some (generated st) -> is_Some (hoverInfo st) ->
   handle COLOURS_DATA st (MosaicMouseMove pointerHidden) = finished (setHover st EmptyString)).
Proof. intros st. apply (pointer_on_hidden_canvas COLOURS_DATA st pointerHidden false). by left. Defined.

Lemma generate_without_summary_witness :
  handleAll scenario_palette (setDisabled (initialPage (Document true true true None false
                                             true None None true None)) false)
    [GenerateClick]
  = (setDisabled (initialPage (Document true true true None false true None None true None))
       false, [TypeError]).
Proof. apply generate_without_summary; reflexivity. Defined.

Lemma load_without_button_witness :
  handleAll scenario_palette
    (initialPage (Document true true true None true true None None true None))
    [FileChange ["picture.png"; "other.png"]]
  = (initialPage (Document true true true None true true None None true None), [TypeError]).
Proof. apply load_without_button; reflexivity. Defined.

Lemma file_name_last_witness :
  exists el',
    fileNameDisplay (handleAll COLOURS_DATA (initialPage fullDocument)
      ([FileChange ["a.png"]; MouseDown (pointerAt 1 1); FileChange []; GenerateClick]
       ++ [FileChange ["b.png"; "c.png"]])).1 = Some el' /\
    same_label el' (fileUpdate ["b.png"; "c.png"]
                      (Label "No file chosen" ["text-sm"; "text-gray-500"])).
Proof. apply file_name_last; [reflexivity | by eexists | reflexivity]. Defined.

Lemma file_name_shown_witness :
  exists el',
    fileNameDisplay (handle COLOURS_DATA (initialPage fullDocument)
                       (FileChange ["picture.png"])).1 = Some el' /\
    textContent el' = default "No file chosen" (head ["picture.png"]) /\
    ("text-indigo-600" ∈ classList el' <-> ["picture.png"] <> []) /\
    ("text-gray-500" ∈ classList el' <-> ["picture.png"] = []) /\
    (forall c, c <> "text-indigo-600" -> c <> "text-gray-500" ->
               c ∈ classList el' <-> c ∈ ["text-sm"; "text-gray-500"]) /\
    (NoDup ["text-sm"; "text-gray-500"] -> NoDup (classList el')).
Proof.
  apply (file_name_shown COLOURS_DATA (initialPage fullDocument)
           (Label "No file chosen" ["text-sm"; "text-gray-500"]) ["picture.png"]);
    [reflexivity | by eexists | reflexivity].
Defined.

Lemma generate_waits_for_image_witness :
  generateButton (handleAll scenario_palette (initialPage fullDocument)
                    (FileChange ["notes.txt"] :: [GenerateClick; MouseDown (pointerAt 0 0);
                                                  GenerateClick])).1 = Some true /\
  generated (handleAll scenario_palette (initialPage fullDocument)
               (FileChange ["notes.txt"] :: [GenerateClick; MouseDown (pointerAt 0 0);
                                             GenerateClick])).1
  = generated (initialPage fullDocument).
Proof.
  apply generate_waits_for_image; [reflexivity | by eexists | by repeat constructor].
Defined.
