(* ===== verification/Browser.v ===== *)
(** * Browser: the pages a session can reach (script.js as a whole: the
      start of the script followed by its listeners and the handlers of the
      loads, in any order the browser runs them)

    [reachable] is the set of pages: the page that [setup] leaves, and the
    page that a listener leaves on a reachable page, whether it threw or
    not.  [steady] is what all of them have in common, proved by induction
    on [reachable].  The theorems on reachable pages assume nothing of the
    palette nor of the elements that the document has. *)

From Stdlib Require Import ZArith Lia String.
From stdpp Require Import base tactics option list strings.
From S2P Require Import Prelude Pointer Palette Picker Matcher Ranker.
From S2P Require Import Generation Html Editor Loader Session.

#[local] Open Scope Z_scope.

(** A page that the script can be in when a task starts. *)
Inductive reachable (data : palette) : page -> Prop :=
| reachable_setup doc st : setup doc = Returns st -> reachable data st
| reachable_handle st ev :
    reachable data st -> event_ok ev -> reachable data (handle data st ev).1.

(** What every reachable page has: a well-formed canvas and name map, an
    opaque editor canvas, a button where a load is under way, and the button
    and the summary where something was generated. *)
Record steady (st : page) : Prop := Steady {
  steady_page : page_ok st;
  steady_opaque : opaque (editorData st);
  steady_loads : pending st <> [] -> is_Some (generateButton st);
  steady_generated : is_Some (generated st) -> complete st
}.

(** The listener of an event finds an element missing that it uses without
    a test. *)
Definition missing (st : page) (ev : event) : Prop :=
  (exists file files, ev = FileChange (file :: files) /\ fileInput st = true /\
     generateButton st = None) \/
  (ev = GenerateClick /\ generateButton st = Some false /\ summaryOutput st = None).

(** The events that bring the loads under way to their end, the first
    first, each giving the picture [p]. *)
Fixpoint finishLoads (loads : list load) (p : picture) : list event :=
  match loads with
  | [] => []
  | Reading _ :: rest => ReaderLoaded 0 :: ImageLoaded 0 p :: finishLoads rest p
  | Decoding _ :: rest => ImageLoaded 0 p :: finishLoads rest p
  end.

(** The loads that end without a picture. *)
Definition isLoadFailed (ev : event) : bool :=
  match ev with LoadFailed _ => true | _ => false end.

(** The button is disabled only while a load is under way. *)
Definition waiting (st : page) : Prop :=
  generateButton st = Some true -> pending st <> [].

(** ** Sessions and reachable pages *)

Lemma handleAll_app data st evs evs' :
  handleAll data st (evs ++ evs')
  = ((handleAll data (handleAll data st evs).1 evs').1,
     (handleAll data st evs).2 ++ (handleAll data (handleAll data st evs).1 evs').2).
Proof.
  revert st. induction evs as [|ev evs IH]; intros st.
  - cbn [app handleAll fst snd]. by destruct (handleAll data st evs').
  - rewrite <- app_comm_cons, !handleAll_cons, IH. cbn [fst snd]. by rewrite app_assoc.
Qed.

Lemma reachable_handleAll data st evs :
  reachable data st -> Forall event_ok evs -> reachable data (handleAll data st evs).1.
Proof.
  intros Hst Hevs. revert st Hst. induction Hevs as [|ev evs Hev _ IH]; intros st Hst; [done|].
  rewrite handleAll_cons. cbn [fst]. by apply IH, reachable_handle.
Qed.

(** The reachable pages are the pages at the end of a session. *)
Lemma reachable_session data st :
  reachable data st <->
  exists doc st0 evs, setup doc = Returns st0 /\ Forall event_ok evs /\
    (handleAll data st0 evs).1 = st.
Proof.
  split.
  - induction 1 as [doc st Hsetup|st ev _ (doc & st0 & evs & Hsetup & Hevs & <-) Hev].
    + by exists doc, st, [].
    + exists doc, st0, (evs ++ [ev]). split_and!; [done | by apply Forall_app; auto |].
      rewrite handleAll_app, handleAll_cons. reflexivity.
  - intros (doc & st0 & evs & Hsetup & Hevs & <-).
    by eapply reachable_handleAll; [eapply reachable_setup|].
Qed.

Lemma finishLoads_ok loads p : picture_ok p -> Forall event_ok (finishLoads loads p).
Proof.
  intros Hp. induction loads as [|[file|file] rest IH]; cbn [finishLoads];
    repeat (apply Forall_cons; split; [done|]); done.
Qed.

(** ** What the listeners keep *)

Lemma setup_initialPage doc st : setup doc = Returns st -> st = initialPage doc.
Proof.
  unfold setup.
  destruct (id_editorCanvas doc), (id_mosaicCanvas doc), (id_res_display doc); cbn; congruence.
Qed.

Lemma initialPage_steady doc : steady (initialPage doc).
Proof.
  split; [apply initialPage_ok | by_compute | done | by intros []].
Qed.

Lemma handle_opaque data st ev :
  page_ok st -> opaque (editorData st) -> event_ok ev ->
  opaque (editorData (handle data st ev).1).
Proof.
  intros Hst Hopaque Hev. pose proof Hst as ([Hlen _] & _).
  destruct ev as [files|k|k p|k|hex|e|e| | | |e]; cbn [handle]; unfold finished; cbn [fst];
    auto with recopix.
  - unfold fileChanged, loadImage. by destruct (fileInput st), files, (generateButton st).
  - unfold readerLoaded. by destruct (pending st !! k) as [[file|file]|].
  - unfold imageLoaded. cbn [setEditor setPending generateButton editorData].
    destruct (pending st !! k) as [[file|file]|], (generateButton st); try done;
      (apply opaque_drawImage; [destruct Hev as [-> _]; lia | done]).
  - by destruct (editorColourPicker st).
  - unfold generateClicked. cbn [setDisabled setSummary editorData].
    by destruct (generateButton st) as [[]|], (summaryOutput st),
      (runGeneration data (editorData st)).
  - unfold mosaicMouseMove. destruct (hoverInfo st) as [text|]; [|done].
    by destruct (hover (finalColorNameMap <$> generated st) e text).
Qed.

(** A load is under way only where one was, or where there is a button. *)
Lemma handle_pending data st ev :
  pending (handle data st ev).1 <> [] -> pending st <> [] \/ is_Some (generateButton st).
Proof.
  destruct (decide (pending st = [])) as [Hnone|]; [|by left].
  destruct ev as [files|k|k p|k|hex|e|e| | | |e]; cbn [handle]; unfold finished; cbn [fst].
  - unfold fileChanged, loadImage.
    destruct (fileInput st), files, (generateButton st); by eauto.
  - unfold readerLoaded. rewrite Hnone. by left.
  - unfold imageLoaded. rewrite Hnone. by left.
  - cbn [loadFailed setPending pending fst finished]. rewrite Hnone. by left.
  - by destruct (editorColourPicker st); left.
  - destruct (drawPixel_frame (setDrawing st true) e) as (_ & _ & _ & _ & _ & _ & _ & _ & ->).
    by left.
  - destruct (drawPixel_frame st e) as (_ & _ & _ & _ & _ & _ & _ & _ & ->). by left.
  - by left.
  - by left.
  - unfold generateClicked. cbn [setDisabled setSummary editorData].
    destruct (generateButton st) as [[]|], (summaryOutput st),
      (runGeneration data (editorData st)); by eauto.
  - unfold mosaicMouseMove. destruct (hoverInfo st) as [text|]; [|by left].
    by destruct (hover (finalColorNameMap <$> generated st) e text); left.
Qed.

(** Something is generated only where something was, or on a complete
    page. *)
Lemma handle_generates data st ev :
  is_Some (generated (handle data st ev).1) -> is_Some (generated st) \/ complete st.
Proof.
  destruct (decide (isGenerate ev = true)) as [Hgen|Hgen%not_true_is_false];
    [|by rewrite handle_generated; auto].
  destruct ev; try discriminate. cbn [handle]. unfold generateClicked.
  cbn [setDisabled setSummary editorData].
  destruct (generateButton st) as [[]|] eqn:Hb, (summaryOutput st) eqn:Hs,
    (runGeneration data (editorData st)); cbn; auto.
  intros _. right. split; by eexists.
Qed.

Section pages.
Context (data : palette).

Lemma handle_steady st ev : steady st -> event_ok ev -> steady (handle data st ev).1.
Proof.
  intros [Hst Hopaque Hloads Hgen] Hev.
  destruct (handle_elements data st ev) as (_ & Hb & _ & Hs).
  split; [by apply handle_page_ok | by apply handle_opaque | |].
  - intros [?|?]%handle_pending; tauto.
  - intros [?|[? ?]]%handle_generates; [destruct Hgen as [? ?]; [done|] |]; split; tauto.
Qed.

Lemma reachable_is_steady st : reachable data st -> steady st.
Proof.
  induction 1 as [doc st ->%setup_initialPage|st ev _ IH Hev];
    [apply initialPage_steady | by apply handle_steady].
Qed.

(** The handlers of a load do not throw. *)
Lemma load_quiet st ev :
  steady st -> isGenerate ev = false -> isFileChange ev = false ->
  (handle data st ev).2 = None.
Proof.
  intros [Hst _ Hloads _] Hgen Hfile.
  destruct (handle data st ev) as [st' [e|]] eqn:Hh; [exfalso|done].
  destruct (handle_throws data st ev Hst)
    as [(? & ? & -> & _)|[(-> & _)|(k & p & -> & Hnone & Hsome%Hloads)]];
    [by rewrite Hh | done.. |].
  rewrite Hnone in Hsome. by destruct Hsome.
Qed.

(** One load ends: its picture is on the canvas and the button is enabled. *)
Lemma finishLoad st l rest p :
  page_ok st -> is_Some (generateButton st) -> pending st = l :: rest -> picture_ok p ->
  exists st', handleAll data st (finishLoads [l] p) = (st', []) /\ page_ok st' /\
    generateButton st' = Some false /\ pending st' = rest.
Proof.
  intros Hst Hb Hp Hpic. destruct l as [file|file]; cbn [finishLoads handleAll handle].
  - unfold readerLoaded. rewrite Hp. cbn [lookup list_lookup insert list_insert finished].
    destruct Hb as [b Hb].
    erewrite (imageLoaded_button _ 0 p file) by (reflexivity || exact Hb).
    eexists. split; [reflexivity|].
    by split_and!; [apply (imageLoaded_page (setPending st _) 0 p) | ..].
  - destruct Hb as [b Hb].
    erewrite (imageLoaded_button _ 0 p file) by (by rewrite Hp || exact Hb).
    eexists. split; [reflexivity|].
    split_and!; [by apply (imageLoaded_page st 0 p) | done | by rewrite Hp].
Qed.

Lemma finishLoads_cons l rest p : finishLoads (l :: rest) p = finishLoads [l] p ++ finishLoads rest p.
Proof. by destruct l. Qed.

Lemma finishLoads_run loads p : forall st,
  page_ok st -> is_Some (generateButton st) -> pending st = loads -> loads <> [] ->
  picture_ok p ->
  exists st', handleAll data st (finishLoads loads p) = (st', []) /\ page_ok st' /\
    generateButton st' = Some false /\ pending st' = [].
Proof.
  induction loads as [|l rest IH]; intros st Hst Hb Hp Hsome Hpic; [done|].
  destruct (finishLoad st l rest p Hst Hb Hp Hpic) as (st1 & Hrun1 & Hst1 & Hb1 & Hp1).
  rewrite finishLoads_cons, handleAll_app, Hrun1. cbn [fst snd app].
  destruct rest as [|l' rest]; [by exists st1|].
  destruct (IH st1) as (st2 & -> & Hst2); [done | by rewrite Hb1 | done..|]. by exists st2.
Qed.

(** C16: what every reachable page has.  Whatever the palette is, every page
    that a session reaches, from any document on which the script starts and
    through any events, throwing listeners included, has an editor canvas of
    [TARGET_SIZE] x [TARGET_SIZE] 8-bit pixels that are all opaque, a
    well-formed name map once something was generated, a button wherever a
    load is under way, and the button and the summary element wherever
    something was generated.  On such a page neither [reader.onload] nor
    [img.onload] throws, although [img.onload] writes the button without a
    test. *)
Theorem reachable_steady (st : page) :
  reachable data st ->
  page_ok st /\ opaque (editorData st) /\
  (pending st <> [] -> is_Some (generateButton st)) /\
  (is_Some (generated st) -> complete st) /\
  forall k p, (imageLoaded st k p).2 = None /\ (readerLoaded st k).2 = None.
Proof.
  intros Hst%reachable_is_steady. pose proof Hst as [Hpage Hopaque Hloads Hgen].
  split_and!; try done. intros k p.
  split; [exact (load_quiet st (ImageLoaded k p) Hst eq_refl eq_refl)
         | exact (load_quiet st (ReaderLoaded k) Hst eq_refl eq_refl)].
Qed.

(** C17: the listeners that throw.  Whatever the palette is, on a reachable
    page a listener throws exactly when an element that it uses without a test
    is missing: the [change] listener for a chosen file where the file input
    exists and the button does not, and the click where the button is enabled
    and the summary element does not exist.  It then throws a [TypeError] and
    leaves the page as it was; in every other case no listener throws. *)
Theorem listener_throws (st : page) (ev : event) :
  reachable data st ->
  (missing st ev -> handle data st ev = threw st TypeError) /\
  (~ missing st ev -> (handle data st ev).2 = None).
Proof.
  intros Hst%reachable_is_steady. split.
  - intros [(file & files & -> & Hf & Hb)|(-> & Hb & Hs)]; cbn [handle].
    + rewrite Hf. unfold fileChanged, loadImage. by rewrite Hb.
    + rewrite Hb. unfold generateClicked. by rewrite Hs.
  - intros Hmissing. destruct (handle data st ev) as [st' [e|]] eqn:Hh; [exfalso|done].
    destruct (handle_throws data st ev (steady_page _ Hst))
      as [?|[?|(k & p & -> & Hnone & Hsome%(steady_loads _ Hst))]];
      [by rewrite Hh | by apply Hmissing; left | by apply Hmissing; right |].
    rewrite Hnone in Hsome. by destruct Hsome.
Qed.

(** C31: the loads under way can end, and then the button is enabled.  On a
    reachable page with loads under way, the handlers of the loads, run for
    the first load first (the end of its read, if it has not ended, then its
    picture), throw nothing and lead to a reachable page with no load under
    way and the button enabled. *)
Theorem loads_finish (st : page) (p : picture) :
  reachable data st -> pending st <> [] -> picture_ok p ->
  exists st', handleAll data st (finishLoads (pending st) p) = (st', []) /\
    reachable data st' /\ generateButton st' = Some false /\ pending st' = [].
Proof.
  intros Hreach Hsome Hpic. pose proof (reachable_is_steady st Hreach) as [Hst _ Hb _].
  destruct (finishLoads_run (pending st) p st) as (st' & Hrun & _ & Hb' & Hp'); auto.
  exists st'. split_and!; try done.
  replace st' with (handleAll data st (finishLoads (pending st) p)).1 by by rewrite Hrun.
  by apply reachable_handleAll, finishLoads_ok.
Qed.

(** ** Loads that overtake each other *)

(** C39: loads are not kept in order.  On a well-formed page with the file
    input and the button and no load under way, choosing the file [a], then
    the file [b], with both reads ended and the picture of [b] decoded before
    that of [a], throws nothing and ends with the picture of [a] drawn over
    that of [b] while the file name display shows [b]; the button is enabled
    and no load is under way. *)
Theorem load_race (st : page) (a b : string) (pa pb : picture) :
  page_ok st -> is_Some (generateButton st) -> fileInput st = true -> pending st = [] ->
  picture_ok pa -> picture_ok pb ->
  exists st',
    handleAll data st [FileChange [a]; FileChange [b]; ReaderLoaded 0; ReaderLoaded 1;
                       ImageLoaded 1 pb; ImageLoaded 0 pa] = (st', []) /\
    editorPixels st'
    = zip_with (fun old over => default old over)
        (zip_with (fun old over => default old over) (editorPixels st) pb) pa /\
    fileNameDisplay st' = showFile b <$> (showFile a <$> fileNameDisplay st) /\
    generateButton st' = Some false /\ pending st' = [].
Proof.
  intros Hst [d Hd] Hf Hp Ha Hb. pose proof Hst as ([Hlen _] & _).
  eexists. split.
  { erewrite handleAll_step by (by eapply handle_fileChosen).
    erewrite handleAll_step by (by eapply handle_fileChosen).
    erewrite handleAll_step by (eapply handle_readerLoaded; page_simpl; by rewrite Hp).
    erewrite handleAll_step by (eapply handle_readerLoaded; page_simpl; by rewrite Hp).
    erewrite handleAll_step by (eapply imageLoaded_button; page_simpl; [by rewrite Hp | done]).
    erewrite handleAll_step by (eapply imageLoaded_button; page_simpl; [by rewrite Hp | done]).
    reflexivity. }
  page_simpl. rewrite Hp. split_and!; [|done..].
  unfold editorPixels, getPixelData. page_simpl. cbn [pixels].
  destruct Ha as [Ha _], Hb as [Hb _].
  by rewrite !drawImage_read by (rewrite ?drawImage_length, Hlen, ?Ha, ?Hb; lia).
Qed.

(** C38: the first picture that arrives enables the button.  On a complete
    well-formed page with the file input and no load under way, choosing the
    file [a], then the file [b], and clicking the button when the picture of
    [a] has arrived throws nothing and generates the mosaic of the canvas with
    the picture of [a]; afterwards the button is enabled, the file name
    display shows [b], and the load of [b] is still under way. *)
Theorem generate_before_last_load (st : page) (a b : string) (p : picture) :
  page_ok st -> complete st -> fileInput st = true -> pending st = [] -> picture_ok p ->
  exists g st',
    handleAll data st [FileChange [a]; FileChange [b]; ReaderLoaded 0; ImageLoaded 0 p;
                       GenerateClick] = (st', []) /\
    runGeneration data (drawImage (editorData st) p) = Returns g /\
    generated st' = Some g /\ pending st' = [Reading b] /\
    fileNameDisplay st' = showFile b <$> (showFile a <$> fileNameDisplay st) /\
    generateButton st' = Some false.
Proof.
  intros Hst [[d Hd] [text Hs]] Hf Hp Hpic.
  destruct (runGeneration_ok data (drawImage (editorData st) p)) as (g & Hg & _);
    [apply canvas_ok_drawImage; [apply Hst | done]|].
  exists g. eexists. split.
  { erewrite handleAll_step by (by eapply handle_fileChosen).
    erewrite handleAll_step by (by eapply handle_fileChosen).
    erewrite handleAll_step by (eapply handle_readerLoaded; page_simpl; by rewrite Hp).
    erewrite handleAll_step by (eapply imageLoaded_button; page_simpl; [by rewrite Hp | done]).
    erewrite handleAll_step; [reflexivity|].
    cbn [handle]. page_simpl. unfold generateClicked. page_simpl. rewrite Hs. page_simpl.
    rewrite Hg. reflexivity. }
  page_simpl. by rewrite Hp.
Qed.

(** ** Generating again *)

(** C28: a generation leaves nothing behind for the next.  On a complete
    well-formed page with the button enabled, and for every palette, two
    clicks on the button leave the page that one click leaves and throw
    nothing: the second run starts from the full inventory, reads the same
    canvas and produces the same image, name map and summary, which is the
    generation of the editor canvas. *)
Theorem generate_twice (st : page) :
  page_ok st -> complete st -> generateButton st = Some false ->
  handleAll data st [GenerateClick; GenerateClick] = handleAll data st [GenerateClick] /\
  exists g, runGeneration data (editorData st) = Returns g /\
    generated (handleAll data st [GenerateClick]).1 = Some g.
Proof.
  intros Hst Hcomp Hb.
  destruct (generateClicked_ok data st Hst Hcomp) as (g & Hg & Hgen & Hclick).
  assert (handle data st GenerateClick = finished (setDisabled (setSummary (setGenerated
            (setDisabled (setSummary st "Generating mosaic...") true) g)
            (summaryHtml (shownSummary g))) false)) as Hfirst
    by (cbn [handle]; by rewrite Hb).
  split; [|exists g; split; [done|]; by rewrite (handleAll_step _ _ _ _ _ Hfirst)].
  rewrite !(handleAll_step _ _ _ _ _ Hfirst). cbn [handleAll handle]. page_simpl.
  unfold generateClicked. page_simpl. by rewrite Hg.
Qed.

(** ** The button and the loads *)

Lemma handle_waiting st ev :
  page_ok st -> complete st -> isLoadFailed ev = false -> waiting st ->
  waiting (handle data st ev).1.
Proof.
  intros Hst Hcomp Hev Hwait. pose proof Hcomp as [[b Hb] _]. unfold waiting in *.
  destruct ev as [files|k|k p|k|hex|e|e| | | |e]; try discriminate; cbn [handle].
  - destruct (fileInput st); [|done]. unfold fileChanged.
    destruct files as [|file files]; [done|]. rewrite (loadImage_button _ _ b) by done.
    unfold finished. page_simpl. intros _. by destruct (pending st).
  - unfold readerLoaded. destruct (pending st !! k) as [[file|file]|] eqn:Hk; try done.
    unfold finished. page_simpl. intros _ Hnone.
    apply (f_equal length) in Hnone. rewrite length_insert in Hnone.
    apply lookup_lt_Some in Hk. simpl in Hnone. lia.
  - destruct (pending st !! k) as [[file|file]|] eqn:Hk;
      [by unfold imageLoaded; rewrite Hk | | by unfold imageLoaded; rewrite Hk].
    by rewrite (imageLoaded_button _ _ _ file b).
  - by destruct (editorColourPicker st).
  - destruct (drawPixel_frame (setDrawing st true) e) as (_ & _ & _ & Hb' & _ & _ & _ & _ & Hp').
    unfold finished. cbn [fst]. by rewrite Hb', Hp'.
  - destruct (drawPixel_frame st e) as (_ & _ & _ & Hb' & _ & _ & _ & _ & Hp').
    unfold finished. cbn [fst]. by rewrite Hb', Hp'.
  - done.
  - done.
  - rewrite Hb. destruct b; [exact Hwait|].
    by destruct (generateClicked_ok data st Hst Hcomp) as (g & _ & _ & ->).
  - unfold mosaicMouseMove. destruct (hoverInfo st) as [text|]; [|done].
    by destruct (hover (finalColorNameMap <$> generated st) e text).
Qed.

(** C32: the button is disabled only while a load is under way.  On a complete
    well-formed page where this holds, after every sequence of events in which
    no load fails nothing was thrown and it holds again: whenever the button
    is disabled a load is under way.  So either the button is enabled, or the
    handlers of the loads under way can run, and when they have run the button
    is enabled and no load is left. *)
Theorem button_follows_loads (st : page) (evs : list event) :
  page_ok st -> complete st -> waiting st ->
  Forall event_ok evs -> Forall (fun ev => isLoadFailed ev = false) evs ->
  exists st', handleAll data st evs = (st', []) /\ waiting st' /\
    (generateButton st' = Some false \/
     exists p st'', picture_ok p /\
       handleAll data st' (finishLoads (pending st') p) = (st'', []) /\
       generateButton st'' = Some false /\ pending st'' = []).
Proof.
  intros Hst Hcomp Hwait Hevs Hfail. revert st Hst Hcomp Hwait.
  induction Hevs as [|ev evs Hev _ IH]; intros st Hst Hcomp Hwait.
  - exists st. split_and!; [done..|]. destruct Hcomp as [[[] Hb] _]; [right|by left].
    destruct (finishLoads_run (pending st) (plainPicture (0, 0, 0)) st)
      as (st' & Hrun & _ & Hb' & Hp');
      [done | by eexists | done | by apply Hwait | by apply plainPicture_ok|].
    exists (plainPicture (0, 0, 0)), st'. split_and!; [by apply plainPicture_ok | done..].
  - apply Forall_cons in Hfail as [Hev' Hfail].
    destruct (handle_ok data st ev Hst Hcomp Hev) as (st1 & Hh & Hst1 & Hcomp1).
    rewrite (handleAll_step _ _ _ _ _ Hh). apply IH; [done..|].
    replace st1 with (handle data st ev).1 by by rewrite Hh. by apply handle_waiting.
Qed.

End pages.

(** A picture that shows nothing leaves the canvas as it is.  On a page with a
    button, when the picture of a load is transparent everywhere, [img.onload]
    does not throw, ends the load and enables the button, and the bytes of the
    editor canvas are what they were: the canvas is not cleared before a
    picture is drawn. *)
Theorem transparent_picture_keeps_canvas (data : palette) (st : page) (k : nat) (file : string) :
  is_Some (generateButton st) -> pending st !! k = Some (Decoding file) ->
  exists st', handle data st (ImageLoaded k clearPicture) = finished st' /\
    editorData st' = editorData st /\ generateButton st' = Some false /\
    pending st' = delete k (pending st).
Proof.
  intros [b Hb] Hk. eexists. split; [by eapply imageLoaded_button|].
  page_simpl. unfold clearPicture. by rewrite drawImage_clear.
Qed.

(** ** Strokes *)

(** C26: a press inside the shown canvas paints a pixel.  On a well-formed
    page whose editor canvas is shown [w] pixels wide and [h] pixels high
    (below 2^20) at an integer position, pressing and releasing the pointer at
    an integer position inside the canvas throws nothing and paints exactly
    one pixel with the fill style: the pixel of the grid whose column and row
    are the integer parts of the exact quotients [TARGET_SIZE * offset / shown
    size], or one less; [isDrawing] is false afterwards. *)
Theorem stroke_paints (data : palette) (st : page) (cx cy l t w h : Z) :
  page_ok st -> 0 < w < 2 ^ 20 -> 0 < h < 2 ^ 20 ->
  - 2 ^ 52 < l < 2 ^ 52 -> - 2 ^ 52 < t < 2 ^ 52 ->
  l <= cx < l + w -> t <= cy < t + h ->
  exists x y st',
    handleAll data st [MouseDown (mouseAt cx cy (rectAt l t w h)); MouseUp] = (st', []) /\
    Z.of_nat TARGET_SIZE * (cx - l) / w - 1 <= x <= Z.of_nat TARGET_SIZE * (cx - l) / w /\
    Z.of_nat TARGET_SIZE * (cy - t) / h - 1 <= y <= Z.of_nat TARGET_SIZE * (cy - t) / h /\
    0 <= x < Z.of_nat TARGET_SIZE /\ 0 <= y < Z.of_nat TARGET_SIZE /\
    editorPixels st'
    = <[Z.to_nat (y * Z.of_nat TARGET_SIZE + x) :=
          default (fillStyle st) (cssColour (currentEditorColor st))]> (editorPixels st) /\
    isDrawing st' = false.
Proof.
  intros ([Hlen _] & _) Hw Hh Hl Ht Hcx Hcy.
  destruct (coordinate_integer (Z.of_nat TARGET_SIZE) cx l w) as (x & Hx & Hnear & Hin);
    [by_compute | done..|].
  destruct (coordinate_integer (Z.of_nat TARGET_SIZE) cy t h) as (y & Hy & Hnear' & Hin');
    [by_compute | done..|].
  exists x, y. eexists. split.
  { cbn [handleAll handle]. unfold finished.
    rewrite (drawPixel_inside _ _ x y); [reflexivity | done | | done..].
    unfold cell, mouseAt, rectAt.
    cbn [boundingClientRect clientX clientY left top width height]. by rewrite Hx, Hy. }
  do 4 (split; [done|]). split; [|reflexivity].
  unfold editorPixels. cbn [setDrawing setEditor editorData fillStyle currentEditorColor].
  apply writePixel_pixels. rewrite Hlen. unfold TARGET_SIZE in *. lia.
Qed.


(** The colours of a picture that is opaque everywhere replace the canvas. *)
Lemma zip_with_opaque (old : list rgb) (p : picture) :
  length old = length p -> Forall is_Some p ->
  Some <$> zip_with (fun old over => default old over) old p = p.
Proof.
  revert old. induction p as [|over p IH]; intros [|c old] Hlen Hp; try done.
  apply Forall_cons in Hp as [[c' ->] Hp]. cbn. f_equal. apply IH; [by simplify_eq/=|done].
Qed.

(** C40: a stroke made while a picture loads is lost.  On a well-formed page
    with a button and a load whose picture is being decoded, when the picture
    is opaque everywhere, pressing and releasing the pointer before the
    picture arrives throws nothing and makes no difference: afterwards the
    pixels of the canvas are those of the picture, as if nothing had been
    drawn. *)
Theorem strokes_lost_on_load (data : palette) (st : page) (e : mouseEvent) (k : nat)
    (file : string) (p : picture) :
  page_ok st -> is_Some (generateButton st) -> pending st !! k = Some (Decoding file) ->
  picture_ok p -> Forall is_Some p ->
  let st' := (handleAll data st [MouseDown e; MouseUp; ImageLoaded k p]).1 in
  (handleAll data st [MouseDown e; MouseUp; ImageLoaded k p]).2 = [] /\
  Some <$> editorPixels st' = p /\
  editorPixels st' = editorPixels (handleAll data st [ImageLoaded k p]).1.
Proof.
  intros Hst [b Hb] Hk Hp Hopaque.
  destruct (drawPixel_frame (setDrawing st true) e) as (_ & _ & _ & Hb' & _ & _ & _ & _ & Hk').
  set (st1 := setDrawing (drawPixel (setDrawing st true) e) false).
  assert (page_ok st1) as Hst1 by by apply (drawPixel_ok (setDrawing st true)).
  assert (generateButton st1 = Some b) as Hb1 by (by unfold st1; page_simpl; rewrite Hb').
  assert (pending st1 !! k = Some (Decoding file)) as Hk1
    by (by unfold st1; page_simpl; rewrite Hk').
  pose proof (imageLoaded_button st1 k p file b Hk1 Hb1) as Hload2.
  pose proof (imageLoaded_button st k p file b Hk Hb) as Hload3.
  destruct (imageLoaded_page st1 k p Hst1 Hp) as (_ & Hpx2 & _).
  destruct (imageLoaded_page st k p Hst Hp) as (_ & Hpx3 & _).
  revert Hload2 Hpx2 Hload3 Hpx3. cbv zeta.
  generalize (setDisabled (setEditor (setPending st1 (delete k (pending st1)))
                (drawImage (editorData st1) p) (fillStyle st1)) false),
             (setDisabled (setEditor (setPending st (delete k (pending st)))
                (drawImage (editorData st) p) (fillStyle st)) false).
  intros st2 st3 Hload2 Hpx2 Hload3 Hpx3.
  assert (forall s : page, page_ok s -> length (editorPixels s) = length p) as Hlen.
  { intros s ([Hs _] & _). unfold editorPixels. rewrite (canvas_pixels _ Hs). by destruct Hp. }
  assert (handleAll data st [MouseDown e; MouseUp; ImageLoaded k p] = (st2, [])) as ->.
  { do 2 (erewrite handleAll_step by reflexivity). by erewrite handleAll_step by exact Hload2. }
  assert (handleAll data st [ImageLoaded k p] = (st3, [])) as ->
    by by erewrite handleAll_step by exact Hload3.
  cbn [fst snd]. rewrite Hpx2, Hpx3. split_and!; [done | by apply zip_with_opaque; auto |].
  apply (inj (fmap Some)). by rewrite !zip_with_opaque by auto.
Qed.

(** ** The theorems at concrete inputs *)

Lemma reachable_loading :
  reachable COLOURS_DATA
    (handleAll COLOURS_DATA (initialPage fullDocument)
       [FileChange ["a.png"]; FileChange ["b.png"]; ReaderLoaded 1]).1.
Proof.
  apply reachable_handleAll; [by apply (reachable_setup _ fullDocument) | by repeat constructor].
Qed.

Lemma reachable_steady_witness :
  let st := (handleAll COLOURS_DATA (initialPage fullDocument)
               [FileChange ["a.png"]; FileChange ["b.png"]; ReaderLoaded 1]).1 in
  page_ok st /\ opaque (editorData st) /\
  (pending st <> [] -> is_Some (generateButton st)) /\
  (is_Some (generated st) -> complete st) /\
  forall k p, (imageLoaded st k p).2 = None /\ (readerLoaded st k).2 = None.
Proof.
  apply (reachable_steady COLOURS_DATA), reachable_loading.
Defined.

Lemma listener_throws_witness :
  let st := initialPage (Document true true true None true true None None true None) in
  (missing st (FileChange ["a.png"]) ->
   handle COLOURS_DATA st (FileChange ["a.png"]) = threw st TypeError) /\
  (~ missing st (FileChange ["a.png"]) ->
   (handle COLOURS_DATA st (FileChange ["a.png"])).2 = None).
Proof.
  apply (listener_throws COLOURS_DATA);
    by apply (reachable_setup _ (Document true true true None true true None None true None)).
Defined.

Lemma loads_finish_witness :
  let st := (handleAll COLOURS_DATA (initialPage fullDocument)
               [FileChange ["a.png"]; FileChange ["b.png"]; ReaderLoaded 1]).1 in
  exists st',
    handleAll COLOURS_DATA st (finishLoads (pending st) (plainPicture (1, 2, 3))) = (st', []) /\
    reachable COLOURS_DATA st' /\ generateButton st' = Some false /\ pending st' = [].
Proof.
  apply (loads_finish COLOURS_DATA);
    [exact reachable_loading | by vm_compute | apply plainPicture_ok; by_compute].
Defined.

Lemma stroke_paints_witness :
  exists x y st',
    handleAll COLOURS_DATA (initialPage fullDocument)
      [MouseDown (mouseAt 57 3 (rectAt 10 0 94 94)); MouseUp] = (st', []) /\
    Z.of_nat TARGET_SIZE * (57 - 10) / 94 - 1 <= x <= Z.of_nat TARGET_SIZE * (57 - 10) / 94 /\
    Z.of_nat TARGET_SIZE * (3 - 0) / 94 - 1 <= y <= Z.of_nat TARGET_SIZE * (3 - 0) / 94 /\
    0 <= x < Z.of_nat TARGET_SIZE /\ 0 <= y < Z.of_nat TARGET_SIZE /\
    editorPixels st'
    = <[Z.to_nat (y * Z.of_nat TARGET_SIZE + x) :=
          default (fillStyle (initialPage fullDocument))
            (cssColour (currentEditorColor (initialPage fullDocument)))]>
        (editorPixels (initialPage fullDocument)) /\
    isDrawing st' = false.
Proof. apply stroke_paints; [exact (initialPage_ok fullDocument) | by_compute..]. Defined.

Lemma load_race_witness :
  exists st',
    handleAll COLOURS_DATA (initialPage fullDocument)
      [FileChange ["a.png"]; FileChange ["b.png"]; ReaderLoaded 0; ReaderLoaded 1;
       ImageLoaded 1 (plainPicture (0, 0, 255)); ImageLoaded 0 (plainPicture (255, 0, 0))]
    = (st', []) /\
    editorPixels st'
    = zip_with (fun old over => default old over)
        (zip_with (fun old over => default old over) (editorPixels (initialPage fullDocument))
           (plainPicture (0, 0, 255))) (plainPicture (255, 0, 0)) /\
    fileNameDisplay st'
    = showFile "b.png" <$> (showFile "a.png" <$> fileNameDisplay (initialPage fullDocument)) /\
    generateButton st' = Some false /\ pending st' = [].
Proof.
  apply (load_race COLOURS_DATA);
    [exact (initialPage_ok fullDocument) | by eexists | reflexivity | reflexivity
    | apply plainPicture_ok; by_compute..].
Defined.

Lemma generate_before_last_load_witness :
  exists g st',
    handleAll COLOURS_DATA (initialPage fullDocument)
      [FileChange ["a.png"]; FileChange ["b.png"]; ReaderLoaded 0;
       ImageLoaded 0 (plainPicture (255, 0, 0)); GenerateClick] = (st', []) /\
    runGeneration COLOURS_DATA
      (drawImage (editorData (initialPage fullDocument)) (plainPicture (255, 0, 0)))
    = Returns g /\
    generated st' = Some g /\ pending st' = [Reading "b.png"] /\
    fileNameDisplay st'
    = showFile "b.png" <$> (showFile "a.png" <$> fileNameDisplay (initialPage fullDocument)) /\
    generateButton st' = Some false.
Proof.
  apply (generate_before_last_load COLOURS_DATA);
    [exact (initialPage_ok fullDocument) | by apply initialPage_complete
    | reflexivity | reflexivity | apply plainPicture_ok; by_compute].
Defined.

Lemma transparent_picture_keeps_canvas_witness :
  let st := setDisabled (setPending (initialPage fullDocument) [Decoding "clear.png"]) true in
  exists st', handle COLOURS_DATA st (ImageLoaded 0 clearPicture) = finished st' /\
    editorData st' = editorData st /\ generateButton st' = Some false /\
    pending st' = delete 0%nat (pending st).
Proof.
  apply (transparent_picture_keeps_canvas COLOURS_DATA _ 0 "clear.png");
    [by eexists | reflexivity].
Defined.

Lemma generate_twice_witness :
  handleAll COLOURS_DATA (initialPage fullDocument) [GenerateClick; GenerateClick]
  = handleAll COLOURS_DATA (initialPage fullDocument) [GenerateClick] /\
  exists g, runGeneration COLOURS_DATA (editorData (initialPage fullDocument)) = Returns g /\
    generated (handleAll COLOURS_DATA (initialPage fullDocument) [GenerateClick]).1 = Some g.
Proof.
  apply (generate_twice COLOURS_DATA);
    [exact (initialPage_ok fullDocument) | by apply initialPage_complete
    | reflexivity].
Defined.

Lemma button_follows_loads_witness :
  exists st',
    handleAll COLOURS_DATA (initialPage fullDocument)
      [FileChange ["a.png"]; ReaderLoaded 0; MouseDown (pointerAt 1 1); GenerateClick]
    = (st', []) /\ waiting st' /\
    (generateButton st' = Some false \/
     exists p st'', picture_ok p /\
       handleAll COLOURS_DATA st' (finishLoads (pending st') p) = (st'', []) /\
       generateButton st'' = Some false /\ pending st'' = []).
Proof.
  apply (button_follows_loads COLOURS_DATA);
    [exact (initialPage_ok fullDocument) | by apply initialPage_complete
    | by intros ? | by repeat constructor..].
Defined.

Lemma strokes_lost_on_load_witness :
  let st := setPending (setDisabled (initialPage fullDocument) true) [Decoding "a.png"] in
  let evs := [MouseDown (pointerAt 3 4); MouseUp; ImageLoaded 0 (plainPicture (9, 9, 9))] in
  let st' := (handleAll COLOURS_DATA st evs).1 in
  (handleAll COLOURS_DATA st evs).2 = [] /\
  Some <$> editorPixels st' = plainPicture (9, 9, 9) /\
  editorPixels st'
  = editorPixels (handleAll COLOURS_DATA st [ImageLoaded 0 (plainPicture (9, 9, 9))]).1.
Proof.
  apply (strokes_lost_on_load COLOURS_DATA _ _ 0 "a.png");
    [exact (initialPage_ok fullDocument) | by eexists | reflexivity
    | apply plainPicture_ok; by_compute | by apply Forall_replicate].
Defined.
